(* ===== verification/_CoqProject ===== *)
-Q . S2P
Prelude.v
GoStr.v
F64.v
Flags.v
Redis.v
Json.v
Room.v
Base64.v
Net.v
Pass.v
Store.v
Admitter.v
Hub.v
Httpx.v
Mux.v
Keys.v
QueueApi.v
QueueRoutes.v
Pg.v
Queueclient.v
Dataplane.v
Haproxy.v
Site.v
Compile.v
Inventory.v
Reconcile.v
Converge.v
Settle.v
Watch.v
Auto.v
Jobs.v
Access.v
Account.v
Tenant.v
Ownership.v
Switch.v
Reads.v
Bootstrap.v
Nodes.v
Enrol.v
JobsApi.v
Acme.v
Oidc.v
Migrate.v
Keeps.v
Routes.v
Views.v
Notice.v
Start.v
Load.v
