(* ===== verification/Prelude.v ===== *)
(** * Flyc: a verification library for the virtual waiting room

    Flyc puts a waiting room in front of web sites.  Two services carry its
    logic.  The _queue service_ ([src/queue]) gives tickets, ranks them, admits
    them at the rate of each queue and hands out signed passes; its state is in
    Redis and it tells browsers what happens over event streams.  The _control
    plane_ ([src/control]) keeps tenants, domains, backends and queues in
    PostgreSQL, compiles them into a desired state and brings the HAProxy load
    balancers and the queue service to that state; it also follows the
    infrastructure operations a separate runner executes.  This library models
    both, from their Go source, and proves what makes them correct.

    ** Files

    Shared:
    - [Prelude]: machine integers, Go's errors, the state and error monad [M],
      the tactic [M_inv], the hint databases, generic lemmas;
    - [GoStr], [F64], [Json], [Base64]: the parts of Go's standard library the
      source uses ([strings], [strconv], [float64], [encoding/json],
      [encoding/base64]), executable, with their round trips;
    - [Flags]: the flags of a command and the text of a duration ([flag],
      [time]);
    - [Httpx]: responses, the health check and the environment
      ([src/internal/httpx/httpx.go]);
    - [Mux]: the patterns of the routes ([net/http]'s [ServeMux]);
    - [Net]: IP addresses, as [net] and [net/netip] read them;
    - [Pass]: the signed passes ([src/internal/pass/pass.go]).

    Queue service:
    - [Redis]: the contract of the server ([RedisServer], [RedisLaws]) and
      [MemRedis], a server in memory that satisfies it;
    - [Room]: identifiers, configuration, waves, scores ([room/room.go]);
    - [Store]: every Redis operation ([store/store.go]);
    - [Admitter]: the tick that closes waves and admits, and the loop over
      leases ([admitter/admitter.go]);
    - [Hub]: the fan-out of events to streams, as steps ([hub/hub.go]);
    - [Keys]: the client of the signing key ([keys/keys.go]);
    - [QueueApi]: the HTTP handlers ([api/api.go]);
    - [QueueRoutes]: the table of its routes and the dispatch of a request
      ([api/api.go], [cmd/flyc-queue/main.go]).

    Control plane:
    - [Pg]: the database, one record per table, and [pgxpool]'s four calls over
      a schedule that interleaves other sessions and makes statements fail;
    - [Queueclient], [Dataplane]: the clients of the queue service and of the
      HAProxy Dataplane API ([queueclient/queueclient.go],
      [dataplane/client.go]);
    - [Haproxy]: what the Dataplane API is documented to do ([HaproxyLaws]) and
      the effect of each client call; [Site]: a server in memory that satisfies
      it;
    - [Compile]: the desired state ([compile/compile.go]);
    - [Inventory]: nodes, settings, registers, the YAML file, the seed
      ([inventory/inventory.go], [inventory/seed.go]);
    - [Reconcile]: the push to a load balancer, the passes, the automatic mode
      ([reconcile/reconcile.go]); [Converge] and [Auto]: its theorems;
    - [Settle], [Switch]: what a whole pass and a switch of a queue guarantee;
    - [Watch]: the loop that wakes the reconciler up, with its metrics
      ([reconcile/reconcile.go]);
    - [Jobs]: the operations of the runner ([jobs/jobs.go]);
    - [Access]: sessions, passwords, sealed secrets, API keys, roles and the
      guards of the routes ([auth/session.go], [auth/password.go],
      [crypt/crypt.go], [api/api.go]);
    - [Account]: the account routes that write ([api/session.go]);
    - [Tenant]: the tenant routes that write, the relayed calls and the
      verification of a pass ([api/tenant.go]), the removal of load balancers
      and queue hosts; [Ownership]: who may change what, as an abstract machine
      the routes refine;
    - [Reads]: the routes that only read ([api/tenant.go], [api/session.go],
      [api/api.go]);
    - [Bootstrap]: the first start, the signing key, its rotation and its routes
      ([bootstrap/bootstrap.go], [api/api.go]);
    - [Nodes]: the routes of the inventory ([api/inventory.go]);
    - [Enrol]: the enrolment of a machine ([api/enroll.go]);
    - [JobsApi]: the routes of the operations and the stream of a journal
      ([api/jobs.go], [jobs/jobs.go]);
    - [Acme]: the certificates of the domains ([acme/acme.go]);
    - [Oidc]: the login through an identity provider ([auth/oidc.go],
      [api/session.go]);
    - [Migrate]: the migrations of the schema ([db/migrate.go]);
    - [Keeps], [Routes]: the whole HTTP API, its table of routes with their
      guards, the session, the interface and the dispatch of a request
      ([api/api.go], [api/session.go], [ui/ui.go]); [Keeps] is the logic of what
      a handler leaves alone, [Routes] its use on every route;
    - [Views]: what a tenant can see, over the whole table of the routes;
    - [Notice]: that the loop of [Watch] is told of every change the API makes;
    - [Start]: the command, from its flags to the settings it gives the API, and
      [mint-pass] ([cmd/flyc-control/main.go]).

    Load generator:
    - [Load]: its visitors and its report ([loadtest/cmd/flyc-load/main.go]).

    ** How the code is modelled

    A Go function that acts on the world is a function of type [M W A]: it
    threads a world [W], and an error leaves it with the changes made so far,
    as [if err != nil { return err }] does.  Integers keep their width
    ([wrap64]), [float64] is the IEEE format of the standard library, strings
    are lists of bytes, a Go map is a [gmap] whose iteration order is the
    parameter [MapOrder].  Concurrency is interleaving: the schedules of [Pg]
    and of the runner's directory ([Jobs]) say what the others do before each
    call, the steps of [Hub] and the turns of [Admitter] and [Reconcile] are
    run in any order.

    Code outside the repository is a parameter with its documented laws: Redis
    ([RedisLaws]), the Dataplane API ([HaproxyLaws]), PostgreSQL (the statements
    of [Pg]), ECDSA, SHA-256, Argon2, AES-GCM, TOTP codes and the random source
    (class [Crypto]), the X.509 and JSON decoders, the ACME library ([Lego],
    [LegoLaws]), the two OIDC libraries, [url.Parse] and the execution of an SQL
    file; what the routes call outside the code is one class,
    [Routes.outside_code].  Each contract has an instance
    in memory, on which the witnesses run.  A transaction is run alone
    ([Tenant.in_tx]), the isolation of PostgreSQL being assumed, and is rolled
    back when a statement of it fails.  A column nothing reads is left out of
    the records of [Pg].  [Start] sees the database twice, as the migrations see
    it, a schema, and as the rest sees it, tables.

    Unbounded loops take fuel: [Loop] in [Admitter], the batches of
    [Store.CloseWave], the stream of [JobsApi.Tail].
    [Store.CloseWave_terminates] and [JobsApi.Tail_returns] say how much is
    enough; a batch loop that runs out gives [ErrLoop], which no other function
    gives.

    ** What the theorems show

    - Round trips: a queue's configuration through Redis
      ([Room.FromHash_ToHash], [Store.SetConfig_Config]), a ticket
      ([Store.CreateTicket_GetTicket]), a pass ([Pass.Mint_Verify]), a password
      ([Access.VerifyPassword_HashPassword]).
    - Fairness and order: a wave is closed once, ranked by a uniform shuffle
      ([Store.CloseWave_spec], [Store.Shuffle_uniform]), and leaves in order
      ([Store.PopPending_spec], [Room.WaveScore_order]).
    - Admission: whatever fails, the quota and the token bucket hold
      ([Admitter.tickOnce_bounded], [Admitter.tickOnce_tokens]); what is
      announced is what is admitted ([Admitter.tickOnce_announces]).
    - The queue API as a whole: without the internal token a request changes no
      configuration, takes nobody's place and is admitted by an open queue alone
      ([QueueRoutes.outsider_harmless]).
    - The control API as a whole: every route is reached
      ([Routes.routes_reachable]), a guarded one runs only for someone entitled
      to it ([Routes.api_guarded]), a page of another site can make a browser
      change nothing but on the routes named ([Routes.cross_site_harmless]), and
      the sites of a tenant change only by someone entitled to act for it
      ([Routes.api_isolation]).
    - Disclosure: a pass goes to an admitted ticket alone
      ([QueueApi.pass_disclosed]); cookies and tokens are not forged
      ([QueueApi.verifyTicket_exact], [Pass.Verify_sound]).
    - Streams: the invariant of the hub and what each message carries
      ([Hub.hub_reachable_inv], [Hub.relay_exact]).
    - Compilation: routes are those of the database ([Compile.Build_routes]),
      names do not collide for ordinary slugs
      ([Compile.BackendName_injective]).
    - Convergence: a successful push realises the desired state
      ([Converge.pushEdge_converges], [Site.SyncMap_converges]); the registers
      mirror the inventory ([Inventory.Sync_mirror]); the seed is applied once
      ([Inventory.Apply_once]); a queue's configuration reaches the first host
      that answers ([Queueclient.PutRoom_first]).
    - Operations: one at a time, no ghost, a life that only goes forward
      ([Jobs.Submit_outcome], [Jobs.jobs_exclusive], [Jobs.refresh_lives],
      [Jobs.refresh_finishes]).
    - The loop of the reconciler misses no change that increments the version,
      although passes, writes and failures are interleaved call by call, as long
      as no answer is cut off midway ([Watch.Run_misses_nothing]), and in
      particular none that is asked of the API ([Notice.requests_noticed]).
    - What a pass records of each load balancer is so ([Settle.Once_truthful]), a
      success meaning all that a push does: its maps, its lists of certificates,
      its keys, its backends and where their servers are; what a push never writes
      again is listed there.  The same of a switch ([Switch.roomState_switches]).
    - Accounts: sessions, logins, passwords, second factor
      ([Access.session_life], [Account.login_sound],
      [Account.changePassword_sound], [Account.totp_enrolment]).
    - Tenants: a writing route changes only the tables of a tenant its caller is
      entitled to ([Ownership.tenant_isolation]), as the abstract machine says
      ([Ownership.tenant_routes_refine], [Ownership.tenant_ownership]); what a
      reading route takes from the database is the tenant's own
      ([Views.tenant_reads_isolated]); a pass is declared valid to its tenant
      alone ([Tenant.verifyPass_sound]).
    - Start-up: it is idempotent ([Bootstrap.Run_idempotent]) and gives the
      platform to the reader of its two files ([Bootstrap.first_start]); a
      process that serves has gone through every step, the tables untouched
      before the last migration ([Start.start_ordered]), and a pass of
      [mint-pass] is accepted ([Start.mintPass_usable]); a rotation leaves one key
      and breaks no pass ([Bootstrap.rotation_state],
      [Bootstrap.rotation_keeps_passes]).
    - Inventory: the nodes the routes leave stay well formed, though a creation
      can take the role of the data host ([Nodes.inventory_kept]), an accepted node is one line of the generated
      file ([Nodes.accepted_line], [Nodes.inventory_generated]), settings not
      named are kept ([Nodes.putSettings_partial]).
    - Enrolment: a token serves for a quarter of an hour, until it is deleted or
      an announcement has been answered ([Enrol.token_life]).
    - Journals: what is streamed is what was written, whatever the reads and the
      connection, up to the last read ([JobsApi.writes_chunks],
      [JobsApi.Tail_sends]), and the stream ends ([JobsApi.Tail_returns]).
    - Certificates: what an issuance leaves ([Acme.Issue_outcome]), whom the
      authority is asked for and at which pace ([Acme.pass_paced]), the challenges and the account
      ([Acme.challenge_served], [Acme.account_kept]).
    - Identity provider: what a login requires ([Oidc.oidc_sound]), a state
      serves once ([Oidc.oidc_state_once]).
    - Migrations: a run resumes where another stopped ([Migrate.Migrate_resumes])
      and completes ([Migrate.Migrate_completes]).
    - Load generator: its report balances however its visitors are interleaved
      ([Load.report_balances]), a visitor ends ([Load.visitor_ends]) and hears
      the events of the queue service ([Load.admission_heard]).
    - Limits of the code, proved as such: [Hub.admission_lost],
      [Store.Acquire_not_exclusive], [Room.WaveScore_collision],
      [QueueApi.normalizeReturn_offsite], [Compile.BackendName_collision],
      [Compile.Build_truncated], [Auto.auto_settles],
      [Account.changePassword_blind], [Bootstrap.ensureAdmin_lost],
      [Nodes.createNode_blind], [Nodes.createNode_takes_data],
      [Enrol.enrollDone_twice], [Enrol.create_needs_roles],
      [JobsApi.Tail_misses], [Watch.exposed_truthful],
      [Watch.WatchDemo.rotation_missed], [Acme.renewal_withdraws],
      [Acme.AcmeDemo.attempt_lost], [Views.ViewsDemo.stats_of_another],
      [Oidc.oidc_takes_account].

    ** Not modelled

    Listeners and signals ([httpx.Serve]), logging, metrics but those of the
    reconciler, the version string, the start of the queue service's command and
    of the goroutines of both; the TOTP library, a parameter;
    the runner, the Ansible roles, the load balancers' configuration and the
    front end, which are not Go.  Of the control plane: the log line that
    compares the seed with the settings, and two processes that migrate the same
    schema at once.  Of the load generator: its flags, the arrivals, its dialer
    and the text of its report. *)
From stdpp Require Export base gmap sets list strings sorting.
From Stdlib Require Export ZArith Lia.

Declare Scope flyc_scope.
Delimit Scope flyc_scope with flyc.
Create HintDb flyc.
Create Rewrite HintDb flyc.
Create Rewrite HintDb flyc_str.

(** ** Machine integers *)

Definition min_int64 : Z := (- 2 ^ 63)%Z.
Definition max_int64 : Z := (2 ^ 63 - 1)%Z.
Definition in_int64 (z : Z) : bool := ((min_int64 <=? z) && (z <=? max_int64))%Z.

(** Two's complement wrap-around of a 64-bit signed result. *)
Definition wrap64 (z : Z) : Z := ((z + 2 ^ 63) mod 2 ^ 64 - 2 ^ 63)%Z.

(** ** Errors

    Go's [error] values: the sentinels and the error types the source tells
    apart ([redis.Nil], [pgx.ErrNoRows], [jobs.ErrBusy], [pgconn.PgError],
    [dataplane.APIError], [inventory.ErrIncomplete]), and every other error by
    its text.  [ErrLoop] is not a Go error: it marks that the bound given to an
    unbounded loop of the source has been used up, and the termination theorems
    exclude it. *)
Inductive goerr : Type :=
| ErrNil
| ErrNoRows
| ErrBusy
| ErrPg (code msg : string)
| ErrAPI (status : Z) (text : string)
| ErrIncomplete (raison : string)
| Err (msg : string)
| ErrLoop.

#[export] Instance goerr_eq_dec : EqDecision goerr.
Proof. solve_decision. Defined.

(** ** A state and error monad

    [M St A] is the type of a Go function that acts on a world of type [St]
    and returns [(A, error)]: the world is threaded, an error leaves the
    computation early (the source's [if err != nil { return err }]), and the
    changes made before the error stay. *)
Definition M (St A : Type) : Type := St -> (goerr + A) * St.

#[export] Instance M_ret {St} : MRet (M St) := fun A a s => (inr a, s).

#[export] Instance M_bind {St} : MBind (M St) := fun A B f m s =>
  match m s with
  | (inl e, s') => (inl e, s')
  | (inr a, s') => f a s'
  end.

Definition mfail {St A} (e : goerr) : M St A := fun s => (inl e, s).

(** The source's [_ = f()] and [if v, err := f(); err == nil]: the error is
    given back as a value instead of leaving the computation. *)
Definition mtry {St A} (m : M St A) : M St (goerr + A) := fun s =>
  let '(r, s') := m s in (inr r, s').

Definition lift_err {St A} (r : goerr + A) : M St A := fun s => (r, s).

(** The effects of a component inside a larger world that holds its own. *)
Definition zoom {S T A} (get : S -> T) (set : T -> S -> S) (m : M T A) : M S A := fun s =>
  let '(r, t) := m (get s) in (r, set t s).

(** ** Generic lemmas *)

Lemma wrap64_id z : in_int64 z = true -> wrap64 z = z.
Proof.
  unfold in_int64, wrap64, min_int64, max_int64. intros H.
  apply andb_true_iff in H as [H1%Z.leb_le H2%Z.leb_le].
  rewrite Z.mod_small; lia.
Qed.

Lemma in_int64_spec z : in_int64 z = true <-> (min_int64 <= z <= max_int64)%Z.
Proof. unfold in_int64. rewrite andb_true_iff, !Z.leb_le. tauto. Qed.

Lemma wrap64_range z : in_int64 (wrap64 z) = true.
Proof.
  apply in_int64_spec. unfold wrap64, min_int64, max_int64.
  pose proof (Z.mod_pos_bound (z + 2 ^ 63) (2 ^ 64) ltac:(lia)). lia.
Qed.

Lemma M_bind_inv {St A B} (m : M St A) (f : A -> M St B) s b s' :
  (m ≫= f) s = (inr b, s') ->
  exists a s1, m s = (inr a, s1) /\ f a s1 = (inr b, s').
Proof.
  unfold mbind, M_bind. destruct (m s) as [[e|a] s1]; intros H; [done|eauto].
Qed.

Lemma M_bind_ok {St A B} (m : M St A) (f : A -> M St B) s a s1 :
  m s = (inr a, s1) -> (m ≫= f) s = f a s1.
Proof. unfold mbind, M_bind. by intros ->. Qed.

Lemma M_bind_err {St A B} (m : M St A) (f : A -> M St B) s e s1 :
  m s = (inl e, s1) -> (m ≫= f) s = (inl e, s1).
Proof. unfold mbind, M_bind. by intros ->. Qed.

Lemma list_filter_all {A} (P : A -> Prop) `{forall x, Decision (P x)} (l : list A) :
  (forall x, x ∈ l -> P x) -> base.filter P l = l.
Proof.
  induction l as [|x l IH]; intros Hl; [done|]. rewrite filter_cons, decide_True by (apply Hl; set_solver).
  rewrite IH; [done|]. set_solver.
Qed.

Lemma list_filter_none {A} (P : A -> Prop) `{forall x, Decision (P x)} (l : list A) :
  (forall x, x ∈ l -> ~ P x) -> base.filter P l = [].
Proof.
  induction l as [|x l IH]; intros Hl; [done|]. rewrite filter_cons, decide_False by (apply Hl; set_solver).
  apply IH. set_solver.
Qed.

(** ** Keeping a predicate *)

Definition preserves {St A} (P : St -> Prop) (m : M St A) : Prop := forall w, P w -> P (m w).2.

Section Keeps.
Context {St : Type} (P : St -> Prop).

Lemma preserves_bind {A B} (m : M St A) (f : A -> M St B) :
  preserves P m -> (forall a, preserves P (f a)) -> preserves P (m ≫= f).
Proof.
  intros Hm Hf w Hw. unfold mbind, M_bind. specialize (Hm w Hw). destruct (m w) as [[e|a] w1]; [done|]. by apply Hf.
Qed.

Lemma preserves_ret {A} (a : A) : preserves P (mret a).
Proof. by intros w Hw. Qed.

Lemma preserves_lift {A} (r : goerr + A) : preserves P (lift_err r).
Proof. by intros w Hw. Qed.

End Keeps.

(** ** Automation *)

(** Inverts every successful bind and return of the context. *)
Ltac M_inv :=
  repeat match goal with
  | H : (_ ≫= _) _ = (inr _, _) |- _ =>
      let a := fresh "a" in let s := fresh "s" in let H1 := fresh "Hm" in
      apply M_bind_inv in H as (a & s & H1 & H)
  | H : mret _ _ = (_, _) |- _ => unfold mret, M_ret in H; simplify_eq
  | H : lift_err _ _ = (_, _) |- _ => unfold lift_err in H; simplify_eq
  | H : mfail _ _ = (_, _) |- _ => unfold mfail in H; simplify_eq
  end.

#[export] Hint Resolve wrap64_range : flyc.
#[export] Hint Rewrite wrap64_id using assumption : flyc.
