(* ===== verification/GoStr.v ===== *)
(** * The parts of Go's [strings] and [strconv] packages the program uses

    Go strings are byte strings: they are modelled by [String.string].  Case
    mapping and space trimming are those of the ASCII range, which is where
    slugs, host names and header values live. *)
From Stdlib Require Import DecimalString DecimalZ DecimalPos Ascii.
From S2P Require Import Prelude.

Local Open Scope string_scope.

Definition chr (n : nat) : ascii := ascii_of_nat n.
Definition str1 (a : ascii) : string := String a EmptyString.

(** The double quote, the line feed and the backslash as one-byte strings. *)
Definition dquote : string := str1 (chr 34).
Definition newline : string := str1 (chr 10).
Definition backslash : string := str1 (chr 92).

Fixpoint string_map (f : ascii -> ascii) (s : string) : string :=
  match s with
  | EmptyString => EmptyString
  | String a s' => String (f a) (string_map f s')
  end.

Fixpoint string_forall (p : ascii -> bool) (s : string) : bool :=
  match s with
  | EmptyString => true
  | String a s' => p a && string_forall p s'
  end.

Definition in_range (lo hi : nat) (a : ascii) : bool :=
  (lo <=? nat_of_ascii a)%nat && (nat_of_ascii a <=? hi)%nat.

Definition is_digit : ascii -> bool := in_range 48 57.
Definition is_lower : ascii -> bool := in_range 97 122.
Definition is_upper : ascii -> bool := in_range 65 90.
Definition is_ascii : ascii -> bool := in_range 0 127.

(** [strings.ToLower] on the ASCII range. *)
Definition lower1 (a : ascii) : ascii :=
  if is_upper a then chr (nat_of_ascii a + 32) else a.
Definition ToLower (s : string) : string := string_map lower1 s.
Definition EqualFold (a b : string) : bool := bool_decide (ToLower a = ToLower b).

(** [strings.TrimSpace] on the ASCII range: tab, LF, VT, FF, CR, space. *)
Definition is_space (a : ascii) : bool := in_range 9 13 a || Ascii.eqb a " "%char.

Fixpoint trim_left (p : ascii -> bool) (s : string) : string :=
  match s with
  | EmptyString => EmptyString
  | String a s' => if p a then trim_left p s' else s
  end.

(** Drops the longest suffix whose bytes all satisfy [p]. *)
Fixpoint trim_right (p : ascii -> bool) (s : string) : string :=
  match s with
  | EmptyString => EmptyString
  | String a s' =>
      match trim_right p s' with
      | EmptyString => if p a then EmptyString else str1 a
      | t => String a t
      end
  end.

Definition TrimSpace (s : string) : string := trim_right is_space (trim_left is_space s).
Definition TrimRight1 (c : ascii) (s : string) : string := trim_right (Ascii.eqb c) s.

Definition HasPrefix (s p : string) : bool := String.prefix p s.

(** The rest of [s] after the prefix [p], when [p] is one. *)
Fixpoint cut_prefix (p s : string) : option string :=
  match p, s with
  | EmptyString, _ => Some s
  | String a p', String b s' => if Ascii.eqb a b then cut_prefix p' s' else None
  | _, _ => None
  end.

Definition TrimPrefix (s p : string) : string := default s (cut_prefix p s).

Fixpoint Contains (s sub : string) : bool :=
  HasPrefix s sub ||
  match s with
  | EmptyString => false
  | String _ s' => Contains s' sub
  end.

(** [strings.Cut(s, sep)] for a one-byte separator. *)
Fixpoint Cut (sep : ascii) (s : string) : option (string * string) :=
  match s with
  | EmptyString => None
  | String a s' =>
      if Ascii.eqb a sep then Some (EmptyString, s')
      else match Cut sep s' with
           | Some (b, r) => Some (String a b, r)
           | None => None
           end
  end.

(** [strings.Split(s, sep)] for a one-byte separator: never empty. *)
Fixpoint Split (sep : ascii) (s : string) : list string :=
  match s with
  | EmptyString => [EmptyString]
  | String a s' =>
      if Ascii.eqb a sep then EmptyString :: Split sep s'
      else match Split sep s' with
           | p :: ps => String a p :: ps
           | [] => [str1 a]
           end
  end.

Fixpoint Join (l : list string) (sep : string) : string :=
  match l with
  | [] => EmptyString
  | [x] => x
  | x :: l' => x +:+ sep +:+ Join l' sep
  end.

(** [strings.ReplaceAll] of one byte by another. *)
Definition ReplaceAll1 (old new : ascii) (s : string) : string :=
  string_map (fun a => if Ascii.eqb a old then new else a) s.

(** [strconv.FormatInt(z, 10)] and [strconv.ParseInt(s, 10, 64)]. *)
Definition FormatInt (z : Z) : string := NilZero.string_of_int (Z.to_int z).

(** [err.Error()] of the errors told apart. *)
Definition error_text (e : goerr) : string :=
  match e with
  | ErrNil => "redis: nil"
  | ErrNoRows => "no rows in result set"
  | ErrBusy => "une tâche est déjà en cours"
  | ErrPg c m => "ERROR: " +:+ m +:+ " (SQLSTATE " +:+ c +:+ ")"
  | ErrAPI st b => "dataplane " +:+ FormatInt st +:+ ": " +:+ b
  | ErrIncomplete r => r
  | Err m => m
  | ErrLoop => EmptyString
  end.

(** [fmt.Errorf("p: %w", err)]. *)
Definition wrap (p : string) (e : goerr) : goerr := Err (p +:+ ": " +:+ error_text e).


Definition parse_dec (s : string) : option Z :=
  match s with
  | String "+"%char s' => Z.of_uint <$> NilZero.uint_of_string s'
  | _ => Z.of_int <$> NilZero.int_of_string s
  end.

Definition ParseInt (s : string) : option Z :=
  match parse_dec s with
  | Some z => if in_int64 z then Some z else None
  | None => None
  end.

(** The value [strconv.ParseInt] returns next to its error, which some callers
    drop: zero for a malformed numeral, the nearest bound for an overflow. *)
Definition ParseIntV (s : string) : Z :=
  match parse_dec s with
  | Some z => Z.max min_int64 (Z.min max_int64 z)
  | None => 0
  end.

(** [s[strings.LastIndex(s, sep)+1:]]. *)
Fixpoint after_last (sep : ascii) (s : string) : string :=
  match s with
  | EmptyString => EmptyString
  | String a s' =>
      if string_forall (fun b => negb (Ascii.eqb b sep)) s' && Ascii.eqb a sep then s'
      else if string_forall (fun b => negb (Ascii.eqb b sep)) s then s
      else after_last sep s'
  end.

(** [regexp.MatchString] of the slug expression: a lower-case letter or digit,
    then at most 62 lower-case letters, digits or hyphens. *)
Definition slug_head (a : ascii) : bool := is_lower a || is_digit a.
Definition slug_tail (a : ascii) : bool := slug_head a || Ascii.eqb a "-"%char.
Definition slug_match (s : string) : bool :=
  match s with
  | EmptyString => false
  | String a s' => slug_head a && string_forall slug_tail s' && (String.length s' <=? 62)%nat
  end.

(** ** Lemmas *)

Lemma parse_FormatInt z : parse_dec (FormatInt z) = Some z.
Proof.
  unfold parse_dec, FormatInt.
  assert (H : Z.of_int <$> NilZero.int_of_string (NilZero.string_of_int (Z.to_int z)) = Some z).
  { rewrite NilZero.isi.
    - simpl. by rewrite DecimalZ.of_to.
    - destruct z; simpl; try done. injection 1. apply DecimalPos.Unsigned.to_uint_nonnil.
    - destruct z; simpl; try done. injection 1. apply DecimalPos.Unsigned.to_uint_nonnil. }
  destruct (NilZero.string_of_int (Z.to_int z)) as [|a s] eqn:E; [done|].
  destruct (decide (a = "+"%char)) as [->|Hne].
  - exfalso. cbn in H. destruct (NilEmpty.uint_of_string s); done.
  - destruct a as [[] [] [] [] [] [] [] []]; try done; by contradiction Hne.
Qed.

Lemma ParseInt_FormatInt z : in_int64 z = true -> ParseInt (FormatInt z) = Some z.
Proof. intros H. unfold ParseInt. by rewrite parse_FormatInt, H. Qed.

Lemma ParseIntV_FormatInt z : in_int64 z = true -> ParseIntV (FormatInt z) = z.
Proof. intros H%in_int64_spec. unfold ParseIntV. rewrite parse_FormatInt. lia. Qed.

#[export] Instance FormatInt_inj : Inj (=) (=) FormatInt.
Proof.
  intros x y H. apply (f_equal parse_dec) in H. rewrite !parse_FormatInt in H. by simplify_eq.
Qed.

(** A decidable fact about every byte is checked on the 256 of them. *)
Lemma all_ascii (p : ascii -> bool) :
  forallb p (map chr (seq 0 256)) = true -> forall a, p a = true.
Proof.
  intros H a. rewrite forallb_forall in H. apply H.
  rewrite <- (ascii_nat_embedding a). apply in_map. apply in_seq.
  pose proof (nat_ascii_bounded a). lia.
Qed.

(** [+:+] is opaque to [simpl] in stdpp: its two equations. *)
Lemma append_nil (s : string) : EmptyString +:+ s = s.
Proof. reflexivity. Qed.

Lemma append_cons a (s t : string) : String a s +:+ t = String a (s +:+ t).
Proof. reflexivity. Qed.

#[export] Hint Rewrite append_nil append_cons : flyc_str.

Ltac str_simpl := simpl; autorewrite with flyc_str in *; simpl.

Lemma string_forall_app p s t :
  string_forall p (s +:+ t) = string_forall p s && string_forall p t.
Proof. induction s as [|a s IH]; str_simpl; [done|]. rewrite IH. apply andb_assoc. Qed.

Lemma string_forall_impl (p q : ascii -> bool) s :
  (forall a, p a = true -> q a = true) -> string_forall p s = true -> string_forall q s = true.
Proof.
  intros Hpq. induction s as [|a s IH]; simpl; [done|].
  rewrite !andb_true_iff. intros [??]. auto.
Qed.

Lemma Cut_app sep b r :
  string_forall (fun a => negb (Ascii.eqb a sep)) b = true ->
  Cut sep (b +:+ String sep r) = Some (b, r).
Proof.
  induction b as [|a b IH]; str_simpl.
  - intros _. by rewrite Ascii.eqb_refl.
  - rewrite andb_true_iff, negb_true_iff. intros [-> H]. by rewrite (IH H).
Qed.

Lemma Cut_inv sep s b r :
  Cut sep s = Some (b, r) ->
  s = b +:+ String sep r /\ string_forall (fun a => negb (Ascii.eqb a sep)) b = true.
Proof.
  revert b. induction s as [|a s IH]; intros b; simpl; [done|].
  destruct (Ascii.eqb a sep) eqn:E.
  - intros [= <- <-]. apply Ascii.eqb_eq in E as ->. done.
  - destruct (Cut sep s) as [[b' r']|]; [|done]. intros [= <- <-].
    destruct (IH b' eq_refl) as [-> Hb]. str_simpl. by rewrite E, Hb.
Qed.

Lemma string_app_inv_l (a b c : string) : a +:+ b = a +:+ c -> b = c.
Proof. induction a as [|x a IH]; str_simpl; [done|]. intros [= H]. auto. Qed.

Lemma string_app_assoc (a b c : string) : (a +:+ b) +:+ c = a +:+ b +:+ c.
Proof. induction a as [|x a IH]; str_simpl; [done|]. by rewrite IH. Qed.

Lemma length_sapp (s t : string) : String.length (s +:+ t) = (String.length s + String.length t)%nat.
Proof. induction s as [|a s IH]; [done|]. rewrite append_cons. simpl. by rewrite IH. Qed.

Lemma string_app_nil_r (a : string) : a +:+ EmptyString = a.
Proof. induction a as [|x a IH]; str_simpl; [done|]. by rewrite IH. Qed.

Lemma HasPrefix_app p s : HasPrefix (p +:+ s) p = true.
Proof.
  unfold HasPrefix. induction p as [|a p IH]; str_simpl.
  - by destruct s.
  - destruct (ascii_dec a a); [done|congruence].
Qed.

Lemma HasPrefix_inv s p : HasPrefix s p = true -> exists r, s = p +:+ r.
Proof.
  unfold HasPrefix. revert s. induction p as [|a p IH]; intros s Hs; [by exists s|].
  destruct s as [|b s]; [done|]. simpl in Hs. destruct (ascii_dec a b) as [->|]; [|done].
  apply IH in Hs as [r ->]. by exists r.
Qed.

Lemma HasPrefix_app_l s p t : HasPrefix s p = true -> HasPrefix (s +:+ t) p = true.
Proof. intros [r ->]%HasPrefix_inv. rewrite string_app_assoc. apply HasPrefix_app. Qed.

Lemma cut_prefix_app p s : cut_prefix p (p +:+ s) = Some s.
Proof. induction p as [|a p IH]; str_simpl; [done|]. by rewrite Ascii.eqb_refl. Qed.

(** Two strings that start with parts free of [sep], followed by [sep], agree
    part by part. *)
Lemma sep_app_inj sep a b c d :
  string_forall (fun x => negb (Ascii.eqb x sep)) a = true ->
  string_forall (fun x => negb (Ascii.eqb x sep)) b = true ->
  a +:+ String sep c = b +:+ String sep d -> a = b /\ c = d.
Proof.
  intros Ha Hb H. apply (f_equal (Cut sep)) in H.
  rewrite !Cut_app in H by done. by simplify_eq.
Qed.

Definition free_of (sep : ascii) (s : string) : bool := string_forall (fun a => negb (Ascii.eqb a sep)) s.

Lemma Split_free sep x : free_of sep x = true -> Split sep x = [x].
Proof.
  unfold free_of. induction x as [|a x IH]; simpl; [done|].
  rewrite andb_true_iff, negb_true_iff. intros [-> H]. by rewrite (IH H).
Qed.

Lemma Split_app sep x y : free_of sep x = true -> Split sep (x +:+ String sep y) = x :: Split sep y.
Proof.
  unfold free_of. induction x as [|a x IH]; str_simpl; [by rewrite Ascii.eqb_refl|].
  rewrite andb_true_iff, negb_true_iff. intros [-> H]. by rewrite (IH H).
Qed.

Lemma Split_Join sep l :
  l <> [] -> Forall (fun s => free_of sep s = true) l -> Split sep (Join l (str1 sep)) = l.
Proof.
  intros Hne Hl. induction Hl as [|x l Hx Hl IH]; [done|].
  destruct l as [|y l]; [by apply Split_free|].
  change (Split sep (x +:+ String sep (Join (y :: l) (str1 sep))) = x :: y :: l).
  rewrite Split_app by done. by rewrite IH.
Qed.

(** ** Normal forms of [ToLower] and [TrimSpace] *)

Lemma lower1_idem a : lower1 (lower1 a) = lower1 a.
Proof.
  apply Ascii.eqb_eq. revert a. apply (all_ascii (fun a => Ascii.eqb (lower1 (lower1 a)) (lower1 a))).
  vm_compute. reflexivity.
Qed.

Lemma is_space_lower1 a : is_space (lower1 a) = is_space a.
Proof.
  apply Bool.eqb_true_iff. revert a.
  apply (all_ascii (fun a => Bool.eqb (is_space (lower1 a)) (is_space a))). vm_compute. reflexivity.
Qed.

Lemma ToLower_idem s : ToLower (ToLower s) = ToLower s.
Proof. unfold ToLower. induction s as [|a s IH]; simpl; [done|]. by rewrite lower1_idem, IH. Qed.

Lemma trim_left_lower s : trim_left is_space (ToLower s) = ToLower (trim_left is_space s).
Proof.
  unfold ToLower. induction s as [|a s IH]; simpl; [done|].
  rewrite is_space_lower1. by destruct (is_space a).
Qed.

Lemma trim_right_lower s : trim_right is_space (ToLower s) = ToLower (trim_right is_space s).
Proof.
  unfold ToLower. induction s as [|a s IH]; simpl; [done|]. rewrite IH.
  destruct (trim_right is_space s); simpl; [|done].
  rewrite is_space_lower1. by destruct (is_space a).
Qed.

Lemma TrimSpace_ToLower s : TrimSpace (ToLower s) = ToLower (TrimSpace s).
Proof. unfold TrimSpace. by rewrite trim_left_lower, trim_right_lower. Qed.

Lemma trim_right_cons p a s :
  p a = false -> exists t, trim_right p (String a s) = String a t.
Proof. intros H. simpl. rewrite H. destruct (trim_right p s); eexists; reflexivity. Qed.

Lemma trim_right_idem p s : trim_right p (trim_right p s) = trim_right p s.
Proof.
  induction s as [|a s IH]; simpl; [done|].
  destruct (trim_right p s) as [|b t] eqn:E.
  - destruct (p a) eqn:Ea; simpl; [done|]. by rewrite Ea.
  - change (trim_right p (String a (String b t)) = String a (String b t)).
    cbn [trim_right]. cbn [trim_right] in IH. by rewrite IH.
Qed.

Lemma trim_left_head p s : trim_left p s = EmptyString \/ exists a t, trim_left p s = String a t /\ p a = false.
Proof.
  induction s as [|a s IH]; simpl; [by left|].
  destruct (p a) eqn:E; [done|]. right. eauto.
Qed.

Lemma TrimSpace_idem s : TrimSpace (TrimSpace s) = TrimSpace s.
Proof.
  unfold TrimSpace. destruct (trim_left_head is_space s) as [->|(a & t & -> & Ha)]; [done|].
  destruct (trim_right_cons is_space a t Ha) as [t' Ht].
  rewrite <- (trim_right_idem is_space (String a t)) at 2. rewrite Ht.
  simpl trim_left. by rewrite Ha.
Qed.

(** The normal form the source gives to a host name. *)
Lemma lower_trim_idem s : ToLower (TrimSpace (ToLower (TrimSpace s))) = ToLower (TrimSpace s).
Proof. by rewrite TrimSpace_ToLower, ToLower_idem, TrimSpace_idem. Qed.

Lemma slug_match_forall s : slug_match s = true -> string_forall slug_tail s = true.
Proof.
  destruct s as [|a s]; simpl; [done|]. rewrite !andb_true_iff. intros [[Ha ->] _].
  split; [|done]. unfold slug_tail. by rewrite Ha.
Qed.

(** A byte outside the slug alphabet does not occur in a slug. *)
Lemma slug_no_sep sep s :
  slug_tail sep = false -> slug_match s = true ->
  string_forall (fun a => negb (Ascii.eqb a sep)) s = true.
Proof.
  intros Hsep Hs%slug_match_forall. eapply string_forall_impl; [|exact Hs]. intros a Ha. simpl.
  destruct (Ascii.eqb_spec a sep) as [->|]; [congruence|done].
Qed.

#[export] Hint Rewrite parse_FormatInt : flyc.
#[export] Hint Resolve ParseInt_FormatInt HasPrefix_app : flyc.
