(* ===== verification/F64.v ===== *)
(** * IEEE 754 binary64, the [float64] of the source

    A [float64] is a [spec_float] and the arithmetic is that of the library
    [SpecFloat] at precision 53 and exponent range 1024, i.e. with rounding to
    nearest, ties to even.  Comparisons go through [fz], the exact value in
    units of 2^-1074: every finite [float64] is an integer multiple of it. *)
From Stdlib Require Import SpecFloat Ascii DecimalString DecimalZ DecimalPos.
From S2P Require Import Prelude GoStr.

Local Open Scope Z_scope.

Abbreviation f64 := spec_float.
Abbreviation f64_prec := 53.
Abbreviation f64_emax := 1024.

Definition fadd : f64 -> f64 -> f64 := SFadd f64_prec f64_emax.
Definition fmul : f64 -> f64 -> f64 := SFmul f64_prec f64_emax.
Definition fdiv : f64 -> f64 -> f64 := SFdiv f64_prec f64_emax.
Definition fsub (x y : f64) : f64 := fadd x (SFopp y).

(** The conversion [float64(z)] of an integer. *)
Definition of_int (z : Z) : f64 := binary_normalize f64_prec f64_emax z 0 false.

Definition fzero : f64 := S754_zero false.
Definition is_nan (x : f64) : bool := match x with S754_nan => true | _ => false end.
Definition is_inf (x : f64) : bool := match x with S754_infinity _ => true | _ => false end.

Definition unit_exp : Z := 1074.

(** The exact value, in units of 2^-1074; infinities lie beyond every finite
    value. *)
Definition fz (x : f64) : Z :=
  match x with
  | S754_finite s m e => (if s then -1 else 1) * (Zpos m * 2 ^ (e + unit_exp))
  | S754_infinity s => (if s then -1 else 1) * 2 ^ 2100
  | _ => 0
  end.

Definition feqb (x y : f64) : bool := negb (is_nan x || is_nan y) && (fz x =? fz y).
Definition fltb (x y : f64) : bool := negb (is_nan x || is_nan y) && (fz x <? fz y).
Definition fleb (x y : f64) : bool := negb (is_nan x || is_nan y) && (fz x <=? fz y).

(** [math.Min], with its special cases: an infinity of sign minus wins, then a
    NaN, and -0 is below +0. *)
Definition fmin (x y : f64) : f64 :=
  match x, y with
  | S754_infinity true, _ | _, S754_infinity true => S754_infinity true
  | S754_nan, _ | _, S754_nan => S754_nan
  | S754_zero sx, S754_zero sy => S754_zero (sx || sy)
  | _, _ => if fltb x y then x else y
  end.

(** [int64(x)] truncates; [int64(math.Floor(x))] takes the floor.  Out of
    range both give the integer indefinite value of the amd64 conversion. *)
Definition to_int64 (z : Z) (x : f64) : Z :=
  if is_nan x || is_inf x || negb (in_int64 z) then min_int64 else z.
Definition trunc (x : f64) : Z := to_int64 (Z.quot (fz x) (2 ^ unit_exp)) x.
Definition floor (x : f64) : Z := to_int64 (fz x / 2 ^ unit_exp) x.

(** Durations are int64 counts of nanoseconds. *)
Definition second : Z := 1000000000.
Definition minute : Z := 60 * second.
Definition hour : Z := 3600 * second.

(** [d.Seconds()]. *)
Definition duration_seconds (d : Z) : f64 :=
  fadd (of_int (Z.quot d second)) (fdiv (of_int (Z.rem d second)) (of_int 1000000000)).

(** ** Text *)

Fixpoint digits (s : string) (m n : Z) : Z * Z * string :=
  match s with
  | String a s' =>
      if is_digit a then digits s' (10 * m + (Z.of_nat (nat_of_ascii a) - 48)) (n + 1)
      else (m, n, s)
  | EmptyString => (m, n, EmptyString)
  end.

(** [m * 10^k], rounded once. *)
Definition dec_float (neg : bool) (m k : Z) : f64 :=
  match m with
  | Zpos p =>
      if 0 <=? k then binary_normalize f64_prec f64_emax ((if neg then -1 else 1) * (m * 10 ^ k)) 0 neg
      else match 10 ^ (- k) with
           | Zpos q => fdiv (S754_finite neg p 0) (S754_finite false q 0)
           | _ => S754_nan
           end
  | _ => S754_zero neg
  end.

(** [strconv.ParseFloat(s, 64)]: with [keep], the value returned next to the
    error of an overflow, an infinity; without, such a numeral is rejected. *)
Definition parse_unsigned (keep neg : bool) (s : string) : option f64 :=
  let '(m1, n1, r1) := digits s 0 0 in
  let '(m2, n2, r2) :=
    match r1 with
    | String "."%char r => digits r m1 0
    | _ => (m1, 0, r1)
    end in
  if n1 + n2 =? 0 then None
  else
    let exp :=
      match r2 with
      | EmptyString => Some 0
      | String a r =>
          if Ascii.eqb a "e"%char || Ascii.eqb a "E"%char then parse_dec r else None
      end in
    match exp with
    | None => None
    | Some k =>
        let x := dec_float neg m2 (k - n2) in
        if is_inf x && negb keep then None else Some x
    end.

Definition parse_inf (keep neg : bool) (s : string) : option f64 :=
  if EqualFold s "inf" || EqualFold s "infinity" then Some (S754_infinity neg)
  else parse_unsigned keep neg s.

(** The hexadecimal syntax of [ParseFloat] is left out: no numeral the program
    writes has it. *)
Definition parse_float (keep : bool) (s : string) : option f64 :=
  match s with
  | String "-"%char r => parse_inf keep true r
  | String "+"%char r => parse_inf keep false r
  | _ => if EqualFold s "nan" then Some S754_nan else parse_inf keep false s
  end.

Definition ParseFloat : string -> option f64 := parse_float false.

(** [v, _ := strconv.ParseFloat(s, 64)]: a malformed numeral gives zero. *)
Definition ParseFloatV (s : string) : f64 := default fzero (parse_float true s).

Fixpoint pad_left (n : nat) (s : string) : string :=
  match n with O => s | S n => String "0"%char (pad_left n s) end.

(** The decimal numeral of [d * 10^-s]. *)
Definition fixed (d s : Z) : string :=
  if s <=? 0 then FormatInt (d * 10 ^ (- s))
  else
    let frac := FormatInt (d mod 10 ^ s) in
    (FormatInt (d / 10 ^ s) +:+ "." +:+
      pad_left (Z.to_nat s - String.length frac) frac)%string.

(** Rounds the fraction [n / d] to the nearest integer, ties to even. *)
Definition round_half_even (n d : Z) : Z :=
  let q := n / d in
  let r := n mod d in
  if 2 * r <? d then q
  else if d <? 2 * r then q + 1
  else if Z.even q then q else q + 1.

(** The value [m * 2^e] rounded to [s] decimal places. *)
Definition round_dec (m e s : Z) : Z :=
  round_half_even (m * 2 ^ Z.max 0 e * 10 ^ Z.max 0 s) (2 ^ Z.max 0 (- e) * 10 ^ Z.max 0 (- s)).

(** The least [k] with [m * 2^e < 10^k], searched from [k] upwards. *)
Fixpoint magnitude (fuel : nat) (m e k : Z) : Z :=
  match fuel with
  | O => k
  | S fuel =>
      if m * 2 ^ Z.max 0 e * 10 ^ Z.max 0 (- k) <? 2 ^ Z.max 0 (- e) * 10 ^ Z.max 0 k
      then k else magnitude fuel m e (k + 1)
  end.

(** The shortest numeral, by number of significant digits, that reads back as
    the same value; seventeen digits always do. *)
Fixpoint shortest (n : nat) (p : Z) (m e k : Z) (x : f64) : string :=
  let d := round_dec m e (p - k) in
  let s := if (d =? 10 ^ p) && (0 <? p - k) then fixed (d / 10) (p - k - 1) else fixed d (p - k) in
  match n with
  | O => s
  | S n =>
      match ParseFloat s with
      | Some y => if feqb x y then s else shortest n (p + 1) m e k x
      | None => shortest n (p + 1) m e k x
      end
  end.

(** [strconv.FormatFloat(x, 'f', -1, 64)]. *)
Definition FormatFloat (x : f64) : string :=
  match x with
  | S754_zero s => if s then "-0" else "0"
  | S754_infinity s => if s then "-Inf" else "+Inf"
  | S754_nan => "NaN"
  | S754_finite s m e =>
      let lo := Z.log2 (Zpos m) + e in
      let k := magnitude 800 (Zpos m) e (Z.min (lo / 3) (lo / 4)) in
      let t := shortest 16 1 (Zpos m) e k (S754_finite false m e) in
      if s then String "-"%char t else t
  end%string.

(** [strconv.FormatFloat(x, 'f', 0, 64)]. *)
Definition FormatFloat0 (x : f64) : string :=
  match x with
  | S754_finite s m e =>
      let t := FormatInt (round_dec (Zpos m) e 0) in
      if s then String "-"%char t else t
  | _ => FormatFloat x
  end.

(** The number [encoding/json] prints: as [FormatFloat] between 10^-6 and
    10^21, with an exponent beyond. *)
Definition sci (digits : string) (exp : Z) : string :=
  match digits with
  | EmptyString => EmptyString
  | String a EmptyString => str1 a +:+ "e" +:+ (if (exp <? 0)%Z then EmptyString else "+") +:+ FormatInt exp
  | String a r => str1 a +:+ "." +:+ r +:+ "e" +:+ (if (exp <? 0)%Z then EmptyString else "+") +:+ FormatInt exp
  end%string.

Definition json_float_abs (x : f64) : string :=
  let t := FormatFloat x in
  if negb (fz x =? 0) && fltb x (dec_float false 1 (-6)) then
    let frac := trim_left (Ascii.eqb "0"%char) (default EmptyString (cut_prefix "0." t)) in
    sci frac (Z.of_nat (String.length frac) - Z.of_nat (String.length t) + 1)
  else if fleb (dec_float false 1 21) x then
    sci (TrimRight1 "0"%char t) (Z.of_nat (String.length t) - 1)
  else t.

Definition json_float (x : f64) : string :=
  match x with
  | S754_finite true m e => String "-"%char (json_float_abs (S754_finite false m e))
  | _ => json_float_abs x
  end.

(** ** Rounding of integers *)

Lemma Zdigits2_bound p : 2 ^ (Zdigits2 (Zpos p) - 1) <= Zpos p < 2 ^ Zdigits2 (Zpos p).
Proof.
  assert (Hd : 0 < Zdigits2 (Zpos p)) by (simpl; lia). revert Hd.
  induction p as [p IH|p IH|]; intros _; [| |simpl; lia];
    specialize (IH ltac:(simpl; lia));
    [change (Zdigits2 (Zpos p~1)) with (Zpos (Pos.succ (digits2_pos p)))
    |change (Zdigits2 (Zpos p~0)) with (Zpos (Pos.succ (digits2_pos p)))];
    change (Zdigits2 (Zpos p)) with (Zpos (digits2_pos p)) in IH; rewrite Pos2Z.inj_succ; set (d := Zpos (digits2_pos p)) in *;
    assert (0 < d) by (unfold d; lia);
    replace (Z.succ d - 1) with (Z.succ (d - 1)) by lia;
    rewrite !Z.pow_succ_r by lia; lia.
Qed.

Lemma Zdigits2_le p n : 0 <= n -> Zpos p < 2 ^ n -> Zdigits2 (Zpos p) <= n.
Proof.
  intros Hn Hp. pose proof (Zdigits2_bound p) as [H _].
  destruct (Z.le_gt_cases (Zdigits2 (Zpos p)) n) as [|Hgt]; [done|].
  assert (2 ^ n <= 2 ^ (Zdigits2 (Zpos p) - 1)) by (apply Z.pow_le_mono_r; lia). lia.
Qed.

Lemma iter_xO p q : Zpos (PosDef.Pos.iter xO q p) = Zpos q * 2 ^ Zpos p.
Proof.
  revert q. induction p as [|p IH] using Pos.peano_ind; intros q; [simpl; lia|].
  rewrite Pos.iter_succ.
  change (Zpos (PosDef.Pos.iter xO q p)~0) with (2 * Zpos (PosDef.Pos.iter xO q p)).
  rewrite IH, Pos2Z.inj_succ, Z.pow_succ_r by lia. lia.
Qed.

Lemma shl_align_val m e e' :
  let '(m', e'') := shl_align m e e' in
  e'' <= e /\ Zpos m' = Zpos m * 2 ^ (e - e'') /\ e'' = Z.min e e'.
Proof.
  unfold shl_align. destruct (e' - e) as [|d|d] eqn:E.
  - replace (e - e) with 0 by lia. simpl. repeat split; lia.
  - replace (e - e) with 0 by lia. simpl. repeat split; lia.
  - rewrite iter_xO. replace (e - e') with (Zpos d) by lia. repeat split; lia.
Qed.

Lemma binary_round_exact s m e :
  - unit_exp <= e <= 971 -> Zdigits2 (Zpos m) <= f64_prec ->
  exists m' e', binary_round f64_prec f64_emax s m e = S754_finite s m' e'
    /\ Zpos m' = Zpos m * 2 ^ (e - e') /\ e' <= e /\ - unit_exp <= e'.
Proof.
  unfold unit_exp. intros He Hm. unfold binary_round.
  change (Zpos (digits2_pos m)) with (Zdigits2 (Zpos m)).
  set (f := fexp f64_prec f64_emax (Zdigits2 (Zpos m) + e)).
  assert (Hf : f <= e) by (unfold f, fexp, emin; lia).
  assert (Hf2 : -1074 <= f) by (unfold f, fexp, emin; lia).
  pose proof (shl_align_val m e f) as Hal. unfold binary_round_aux.
  destruct (shl_align m e f) as [m' e'] eqn:E. destruct Hal as (Hle & Hv & Hmin).
  assert (e' = f) as -> by lia.
  assert (Hd : Zdigits2 (Zpos m') = Zdigits2 (Zpos m) + (e - f)).
  { pose proof (Zdigits2_bound m) as [B1 B2]. pose proof (Zdigits2_bound m') as [B3 B4].
    assert (P1 : 0 < Zdigits2 (Zpos m)) by (simpl; lia).
    assert (P2 : 0 < Zdigits2 (Zpos m')) by (simpl; lia).
    set (d := Zdigits2 (Zpos m)) in *. set (d' := Zdigits2 (Zpos m')) in *.
    rewrite Hv in B3, B4. set (k := e - f) in *. assert (0 <= k) by lia. assert (0 < 2 ^ k) by lia.
    assert (L1 : 2 ^ (d - 1 + k) <= Zpos m * 2 ^ k) by (rewrite Z.pow_add_r by lia; nia).
    assert (L2 : Zpos m * 2 ^ k < 2 ^ (d + k)) by (rewrite Z.pow_add_r by lia; nia).
    assert (d - 1 + k < d') by (apply (Z.pow_lt_mono_r_iff 2); lia).
    assert (d' - 1 < d + k) by (apply (Z.pow_lt_mono_r_iff 2); lia).
    lia. }
  assert (Hs : forall q x l, q - x <= 0 -> shr (shr_record_of_loc (Zpos m') l) x (q - x)
                 = (shr_record_of_loc (Zpos m') l, x)).
  { intros q x l Hq. unfold shr. destruct (q - x) eqn:Eq; [done|lia|done]. }
  assert (Hfe : fexp f64_prec f64_emax (Zdigits2 (Zpos m') + f) = f).
  { rewrite Hd. replace (Zdigits2 (Zpos m) + (e - f) + f) with (Zdigits2 (Zpos m) + e) by lia. done. }
  unfold shr_fexp. rewrite Hfe, Hs by lia. 
  change (round_nearest_even _ _) with (Zpos m').
  rewrite Hfe, Hs by lia. cbn [shr_m shr_record_of_loc].
  assert ((f <=? f64_emax - f64_prec) = true) as -> by (apply Z.leb_le; lia).
  exists m', f. repeat split; lia.
Qed.

Lemma fz_finite s m e : fz (S754_finite s m e) = (if s then -1 else 1) * (Zpos m * 2 ^ (e + unit_exp)).
Proof. done. Qed.

Lemma pow2_split a b : 0 <= a -> 0 <= b -> 2 ^ (a + b) = 2 ^ a * 2 ^ b.
Proof. apply Z.pow_add_r. Qed.

(** An integer of at most 53 bits converts without rounding. *)
Lemma fz_of_int z : Z.abs z <= 2 ^ 53 -> fz (of_int z) = z * 2 ^ unit_exp.
Proof.
  intros Hz. unfold of_int, binary_normalize.
  assert (Hpos : forall s p, Zpos p <= 2 ^ 53 ->
            fz (binary_round f64_prec f64_emax s p 0) = (if s then -1 else 1) * (Zpos p * 2 ^ unit_exp)).
  { intros s p Hp. destruct (Z.eq_dec (Zpos p) (2 ^ 53)) as [E|Hne].
    - assert (p = 9007199254740992%positive) as -> by lia. by destruct s.
    - destruct (binary_round_exact s p 0) as (m' & e' & -> & Hv & He1 & He2).
      + unfold unit_exp. lia.
      + apply Zdigits2_le; lia.
      + rewrite fz_finite, Hv. f_equal. rewrite <- Z.mul_assoc. f_equal.
        rewrite <- pow2_split by (unfold unit_exp in *; lia). f_equal. lia. }
  destruct z as [|p|p]; [done| |]; rewrite Hpos by lia; lia.
Qed.

Lemma of_int_not_nan z : Z.abs z <= 2 ^ 53 -> is_nan (of_int z) = false.
Proof.
  intros Hz. unfold of_int, binary_normalize.
  assert (Hpos : forall s p, Zpos p <= 2 ^ 53 ->
            is_nan (binary_round f64_prec f64_emax s p 0) = false).
  { intros s p Hp. destruct (Z.eq_dec (Zpos p) (2 ^ 53)) as [E|Hne].
    - assert (p = 9007199254740992%positive) as -> by lia. by destruct s.
    - destruct (binary_round_exact s p 0) as (m' & e' & -> & _); [unfold unit_exp; lia|apply Zdigits2_le; lia|done]. }
  destruct z as [|p|p]; [done| |]; apply Hpos; lia.
Qed.

(** ** Minimum and floor *)


(** ** Minimum, floor and subtraction *)

Lemma fmin_le_r x y :
  is_nan (fmin x y) = false -> is_inf (fmin x y) = false -> fz (fmin x y) <= fz y.
Proof.
  assert (Hif : fz (if fltb x y then x else y) <= fz y).
  { unfold fltb. destruct (Z.ltb_spec (fz x) (fz y)); destruct (negb _); simpl; lia. }
  unfold fmin. destruct x as [sx|[]| |sx mx ex], y as [sy|[]| |sy my ey]; intros Hn Hi;
    try discriminate Hn; try discriminate Hi; try exact Hif; try (simpl fz; lia).
Qed.

Lemma floor_le x n : 0 <= n -> fz x <= n * 2 ^ unit_exp -> floor x <= n.
Proof.
  intros Hn Hx. unfold floor, to_int64.
  destruct (is_nan x || is_inf x || negb (in_int64 (fz x / 2 ^ unit_exp))).
  - unfold min_int64. lia.
  - apply Z.div_le_upper_bound; [done|]. lia.
Qed.

Lemma floor_pos_le x n : 0 < n <= floor x -> n * 2 ^ unit_exp <= fz x.
Proof.
  intros [Hn Hx]. unfold floor, to_int64 in Hx.
  destruct (is_nan x || is_inf x || negb (in_int64 (fz x / 2 ^ unit_exp))).
  - unfold min_int64 in Hx. lia.
  - pose proof (Z.mul_div_le (fz x) (2 ^ unit_exp) ltac:(done)). nia.
Qed.

Lemma floor_pos_finite x : 0 < floor x -> is_nan x = false /\ is_inf x = false.
Proof.
  unfold floor, to_int64. destruct (is_nan x), (is_inf x); simpl; unfold min_int64; intros; try lia; auto.
Qed.

Lemma binary_round_aux_nonneg m e l : 0 <= fz (binary_round_aux f64_prec f64_emax false m e l).
Proof.
  unfold binary_round_aux. destruct (shr_fexp _ _ m e l) as [r e'].
  destruct (shr_fexp _ _ _ e' _) as [r' e''].
  destruct (shr_m r') as [|p|p]; [done| |done].
  destruct (e'' <=? _); simpl; [|lia].
  pose proof (Z.pow_nonneg 2 (e'' + unit_exp) ltac:(lia)). destruct (2 ^ (e'' + unit_exp)); lia.
Qed.

Lemma binary_normalize_nonneg m e : 0 <= m -> 0 <= fz (binary_normalize f64_prec f64_emax m e false).
Proof.
  intros Hm. destruct m as [|p|p]; [done| |lia]. unfold binary_normalize, binary_round.
  destruct (shl_align _ _ _). apply binary_round_aux_nonneg.
Qed.

Lemma cond_Zopp_mul s z : cond_Zopp s z = (if s then -1 else 1) * z.
Proof. destruct s; unfold cond_Zopp; lia. Qed.

(** Every [float64] of the model is a multiple of 2^-1074. *)
Definition f64_ok (x : f64) : Prop :=
  match x with S754_finite _ _ e => - unit_exp <= e | _ => True end.

Lemma fsub_nonneg x y :
  f64_ok x -> f64_ok y -> is_nan x = false -> is_inf x = false -> is_inf y = false ->
  fz y <= fz x -> 0 <= fz (fsub x y).
Proof.
  intros Hx Hy Hnx Hix Hiy Hle. unfold fsub, fadd, SFadd, SFopp.
  destruct x as [sx| | |sx mx ex], y as [sy| | |sy my ey]; try done;
    rewrite ?fz_finite in *; simpl fz in *; simpl f64_ok in *; unfold unit_exp in *.
  - destruct sx, sy; simpl; lia.
  - destruct sy; simpl negb; lia.
  - apply binary_normalize_nonneg.
    pose proof (shl_align_val mx ex (Z.min ex ey)) as H1.
    pose proof (shl_align_val my ey (Z.min ex ey)) as H2.
    destruct (shl_align mx ex _) as [m1 e1], (shl_align my ey _) as [m2 e2].
    cbn [fst]. destruct H1 as (L1 & -> & E1), H2 as (L2 & -> & E2).
    assert (e1 = Z.min ex ey) as -> by lia. assert (e2 = Z.min ex ey) as -> by lia.
    rewrite !cond_Zopp_mul. set (m := Z.min ex ey) in *.
    replace (ex + 1074) with ((ex - m) + (m + 1074)) in Hle by lia.
    replace (ey + 1074) with ((ey - m) + (m + 1074)) in Hle by lia.
    rewrite (pow2_split (ex - m)), (pow2_split (ey - m)) in Hle by lia.
    assert (HK : 0 < 2 ^ (m + 1074)) by lia. rewrite !Z.mul_assoc in Hle.
    apply Z.mul_le_mono_pos_r in Hle; [|done]. destruct sx, sy; simpl negb; lia.
Qed.

#[export] Hint Resolve binary_round_aux_nonneg binary_normalize_nonneg : flyc.

Example format_float_ex :
  (FormatFloat (of_int 10), FormatFloat (fdiv (of_int 5) (of_int 2)),
   FormatFloat (fdiv (of_int 1) (of_int 10)), FormatFloat (fdiv (of_int 1) (of_int 3)),
   FormatFloat0 (of_int 17000000000000001))
  = ("10", "2.5", "0.1", "0.3333333333333333", "17000000000000000")%string.
Proof. vm_compute. reflexivity. Qed.

Example parse_float_ex :
  (ParseFloat "2.5", ParseFloat "1e3", ParseFloat "-0.1", ParseFloat "x", ParseFloat "1e400")
  = (Some (fdiv (of_int 5) (of_int 2)), Some (of_int 1000),
     Some (SFopp (fdiv (of_int 1) (of_int 10))), None, None).
Proof. vm_compute. reflexivity. Qed.

Example duration_seconds_ex : trunc (duration_seconds (20 * minute)) = 1200.
Proof. vm_compute. reflexivity. Qed.

Example json_float_ex :
  map json_float [fdiv (of_int 1) (of_int 10000000); fdiv (of_int 5) (of_int 2);
    fdiv (of_int (-15)) (of_int 1000000000); fmul (of_int 12345) (of_int (10 ^ 18)); fzero]
  = ["1e-7"; "2.5"; "-1.5e-8"; "1.2345e+22"; "0"]%string.
Proof. vm_compute. reflexivity. Qed.

(** ** Integers as numerals *)

Fixpoint uint_val (u : Decimal.uint) (m : Z) : Z :=
  match u with
  | Decimal.Nil => m
  | Decimal.D0 u => uint_val u (10 * m) | Decimal.D1 u => uint_val u (10 * m + 1)
  | Decimal.D2 u => uint_val u (10 * m + 2) | Decimal.D3 u => uint_val u (10 * m + 3)
  | Decimal.D4 u => uint_val u (10 * m + 4) | Decimal.D5 u => uint_val u (10 * m + 5)
  | Decimal.D6 u => uint_val u (10 * m + 6) | Decimal.D7 u => uint_val u (10 * m + 7)
  | Decimal.D8 u => uint_val u (10 * m + 8) | Decimal.D9 u => uint_val u (10 * m + 9)
  end.

Lemma uint_val_acc u p : Zpos (Pos.of_uint_acc u p) = uint_val u (Zpos p).
Proof. revert p. induction u as [|u IH|u IH|u IH|u IH|u IH|u IH|u IH|u IH|u IH|u IH]; intros p; [done|..];
  cbn [uint_val Pos.of_uint_acc]; rewrite IH; f_equal; lia. Qed.

Lemma uint_val_of_uint u : Z.of_N (Pos.of_uint u) = uint_val u 0.
Proof.
  induction u as [|u IH|u IH|u IH|u IH|u IH|u IH|u IH|u IH|u IH|u IH]; [done|exact IH|..];
    cbn [Pos.of_uint uint_val Z.of_N]; by rewrite uint_val_acc.
Qed.

Lemma digits_uint u m n :
  exists k, 0 <= k /\ (u <> Decimal.Nil -> 0 < k) /\ digits (NilEmpty.string_of_uint u) m n = (uint_val u m, n + k, EmptyString).
Proof.
  revert m n. induction u as [|u IH|u IH|u IH|u IH|u IH|u IH|u IH|u IH|u IH|u IH]; intros m n;
    [exists 0; split; [done|]; split; [done|]; simpl; by rewrite Z.add_0_r|..];
    cbn [uint_val];
    match goal with |- context [uint_val u ?m'] => destruct (IH m' (n + 1)) as (k & Hk & _ & E) end;
    exists (1 + k); (split; [lia|]); (split; [lia|]); (etransitivity; [|rewrite Z.add_assoc; exact E]);
    cbn [NilEmpty.string_of_uint digits]; try reflexivity.
  change (digits (NilEmpty.string_of_uint u) (10 * m + 0) (n + 1) = digits (NilEmpty.string_of_uint u) (10 * m) (n + 1)).
  by rewrite Z.add_0_r.
Qed.

Lemma digits_FormatInt z : 0 <= z -> exists n, 0 < n /\ digits (FormatInt z) 0 0 = (z, n, EmptyString).
Proof.
  intros Hz. unfold FormatInt, NilZero.string_of_int, NilZero.string_of_uint.
  destruct z as [|p|p]; [by exists 1| |lia]. cbn [Z.to_int].
  pose proof (uint_val_of_uint (Pos.to_uint p)) as Hv. rewrite Unsigned.of_to in Hv.
  destruct (digits_uint (Pos.to_uint p) 0 0) as (k & _ & Hk & E).
  assert (Hnn : Pos.to_uint p <> Decimal.Nil) by apply Unsigned.to_uint_nonnil.
  exists k. rewrite <- Hv in E. split; [by apply Hk|].
  destruct (Pos.to_uint p); [done|..]; exact E.
Qed.

Lemma digit_head a :
  is_digit a = true ->
  a <> "-"%char /\ a <> "+"%char /\ lower1 a <> "n"%char /\ lower1 a <> "i"%char.
Proof.
  assert (H : forall a, negb (is_digit a) || negb (Ascii.eqb a "-" || Ascii.eqb a "+"
     || Ascii.eqb (lower1 a) "n" || Ascii.eqb (lower1 a) "i")%char = true)
    by (apply all_ascii; vm_compute; reflexivity).
  intros Ha. specialize (H a). rewrite Ha in H. cbn [negb orb] in H.
  rewrite !negb_orb, !andb_true_iff, !negb_true_iff, !Ascii.eqb_neq in H. destruct H as (((? & ?) & ?) & ?). auto.
Qed.

Lemma parse_float_digits keep s m n :
  digits s 0 0 = (m, n, EmptyString) -> 0 < n ->
  parse_float keep s = (let x := dec_float false m 0 in if is_inf x && negb keep then None else Some x).
Proof.
  intros E Hn. destruct s as [|a s]; [cbn in E; simplify_eq; lia|].
  assert (Ha : is_digit a = true).
  { cbn [digits] in E. destruct (is_digit a); [done|]. by simplify_eq. }
  destruct (digit_head a Ha) as (H1 & H2 & H3 & H4).
  assert (Hf : forall c t, lower1 a <> c -> lower1 c = c -> EqualFold (String a s) (String c t) = false).
  { intros c t Hc Hl. unfold EqualFold, ToLower. cbn [string_map]. apply bool_decide_eq_false.
    rewrite Hl. congruence. }
  assert (Hp : parse_float keep (String a s) =
    (if EqualFold (String a s) "nan" then Some S754_nan else parse_inf keep false (String a s))).
  { unfold parse_float. destruct a as [[] [] [] [] [] [] [] []]; try done; congruence. }
  rewrite Hp, Hf by done. unfold parse_inf. rewrite !Hf by done. cbn [orb].
  unfold parse_unsigned. rewrite E. cbv zeta beta iota.
  destruct (Z.eqb_spec (n + 0) 0); [lia|]. done.
Qed.

Lemma round_half_even_exact q d : 0 < d -> round_half_even (q * d) d = q.
Proof.
  intros Hd. unfold round_half_even. rewrite Z.div_mul, Z.mod_mul by lia.
  destruct (Z.ltb_spec (2 * 0) d); [done|lia].
Qed.

(** A small natural number is printed as an integer. *)
Lemma FormatFloat0_of_int z : 0 < z <= 2 ^ 53 -> FormatFloat0 (of_int z) = FormatInt z.
Proof.
  intros Hz. pose proof (fz_of_int z ltac:(lia)) as Hf.
  destruct (of_int z) as [s|s| |s m e] eqn:E; cbn [fz] in Hf; try (unfold unit_exp in Hf; lia).
  destruct s; [unfold unit_exp in *; lia|]. rewrite Z.mul_1_l in Hf.
  assert (He : - unit_exp <= e).
  { destruct (Z.le_gt_cases (- unit_exp) e) as [|Hlt]; [done|]. rewrite (Z.pow_neg_r 2 (e + unit_exp)) in Hf by lia.
    unfold unit_exp in Hf. lia. }
  unfold FormatFloat0. f_equal. unfold round_dec. rewrite !Z.max_id. change (2 ^ 0) with 1.
  change (10 ^ 0) with 1. rewrite !Z.mul_1_r. destruct (Z.le_gt_cases 0 e) as [Hp|Hn].
  - rewrite (Z.max_r 0 e), (Z.max_l 0 (- e)) by lia. rewrite Z.pow_add_r, Z.mul_assoc in Hf by (unfold unit_exp; lia).
    apply Z.mul_cancel_r in Hf; [|done]. rewrite Hf. rewrite <- (Z.mul_1_r z) at 1. by apply round_half_even_exact.
  - rewrite (Z.max_l 0 e), (Z.max_r 0 (- e)) by lia.
    assert (Hu : 2 ^ unit_exp = 2 ^ (e + unit_exp) * 2 ^ (- e)).
    { rewrite <- Z.pow_add_r by lia. f_equal. lia. }
    rewrite Hu in Hf.
    replace (Zpos m * 2 ^ 0) with (z * 2 ^ (- e)).
    + apply round_half_even_exact. lia.
    + rewrite Z.mul_1_r. apply (Z.mul_cancel_r _ _ (2 ^ (e + unit_exp))); [apply Z.pow_nonzero; lia|]. rewrite Hf. ring.
Qed.

Lemma ParseFloatV_FormatFloat0 z : 0 < z <= 2 ^ 53 -> ParseFloatV (FormatFloat0 (of_int z)) = of_int z.
Proof.
  intros Hz. rewrite FormatFloat0_of_int by done.
  destruct (digits_FormatInt z) as (n & Hn & E); [lia|].
  unfold ParseFloatV. rewrite (parse_float_digits _ _ _ _ E Hn). destruct z as [|p|p]; [lia| |lia].
  unfold dec_float. cbv zeta. rewrite andb_false_r. change (10 ^ 0) with 1.
  replace (1 * (Zpos p * 1)) with (Zpos p) by lia. done.
Qed.

(** ** The exponents of results *)

Lemma shr_snd mrs e n : (shr mrs e n).2 = e + Z.max 0 n.
Proof. destruct n; simpl; lia. Qed.

Lemma shr_fexp_emin m e l : - unit_exp <= (shr_fexp f64_prec f64_emax m e l).2.
Proof. unfold shr_fexp. rewrite shr_snd. unfold fexp, emin, unit_exp. lia. Qed.

Lemma binary_round_aux_ok s m e l : f64_ok (binary_round_aux f64_prec f64_emax s m e l).
Proof.
  unfold binary_round_aux. destruct (shr_fexp _ _ m e l) as [r e'].
  pose proof (shr_fexp_emin (round_nearest_even (shr_m r) (loc_of_shr_record r)) e' loc_Exact) as H.
  destruct (shr_fexp _ _ _ e' _) as [r' e'']. simpl in H.
  destruct (shr_m r'); try done. by destruct (e'' <=? _).
Qed.

Lemma binary_normalize_ok m e z : f64_ok (binary_normalize f64_prec f64_emax m e z).
Proof.
  destruct m; [done|..]; unfold binary_normalize, binary_round; destruct (shl_align _ _ _); apply binary_round_aux_ok.
Qed.

Lemma of_int_ok z : f64_ok (of_int z).
Proof. apply binary_normalize_ok. Qed.

Lemma fadd_ok x y : f64_ok x -> f64_ok y -> f64_ok (fadd x y).
Proof.
  intros Hx Hy. unfold fadd, SFadd. destruct x as [[]|[]| |], y as [[]|[]| |]; try done; apply binary_normalize_ok.
Qed.

Lemma fmul_ok x y : f64_ok (fmul x y).
Proof. unfold fmul, SFmul. destruct x as [[]|[]| |], y as [[]|[]| |]; try done; apply binary_round_aux_ok. Qed.

Lemma fmin_ok x y : f64_ok x -> f64_ok y -> f64_ok (fmin x y).
Proof.
  intros Hx Hy. destruct x as [[]|[]| |], y as [[]|[]| |]; simpl; try done; by destruct (fltb _ _).
Qed.

#[export] Hint Resolve of_int_ok fadd_ok fmul_ok fmin_ok : flyc.

(** ** Signs of results *)

Lemma fz_finite_nonneg s m e : - unit_exp <= e -> 0 <= fz (S754_finite s m e) -> s = false.
Proof.
  intros He. rewrite fz_finite. destruct s; [|done].
  assert (0 < 2 ^ (e + unit_exp)) by (apply Z.pow_pos_nonneg; lia). lia.
Qed.

Lemma fadd_nonneg x y : f64_ok x -> f64_ok y -> 0 <= fz x -> 0 <= fz y -> 0 <= fz (fadd x y).
Proof.
  intros Hx Hy Px Py. unfold fadd, SFadd.
  destruct x as [sx|sx| |sx mx ex], y as [sy|sy| |sy my ey]; try done;
    try exact Px; try exact Py; try (by destruct sx, sy).
  apply fz_finite_nonneg in Px as ->, Py as ->; [|done..]. apply binary_normalize_nonneg. simpl cond_Zopp. lia.
Qed.

Lemma fmul_nonneg x y : f64_ok x -> f64_ok y -> 0 <= fz x -> 0 <= fz y -> 0 <= fz (fmul x y).
Proof.
  intros Hx Hy Px Py. unfold fmul, SFmul.
  destruct x as [sx|sx| |sx mx ex], y as [sy|sy| |sy my ey]; try done;
    try (apply fz_finite_nonneg in Px as ->; [|done]); try (apply fz_finite_nonneg in Py as ->; [|done]);
    try (destruct sx; done); try (destruct sy; done); try (destruct sx, sy; done).
  apply binary_round_aux_nonneg.
Qed.

Lemma fmin_nonneg x y : 0 <= fz x -> 0 <= fz y -> 0 <= fz (fmin x y).
Proof.
  intros Px Py. destruct x as [[]|[]| |], y as [[]|[]| |]; simpl in *; try lia; destruct (fltb _ _); simpl; lia.
Qed.

Lemma fleb_zero_nonneg x : fleb x fzero = false -> 0 <= fz x.
Proof. unfold fleb. destruct (is_nan x) eqn:E; simpl; [by destruct x|]. intros H%Z.leb_gt. simpl in H. lia. Qed.

Lemma is_inf_of_int z : Z.abs z <= 2 ^ 53 -> is_inf (of_int z) = false.
Proof.
  intros Hz. pose proof (fz_of_int z Hz) as Hf. destruct (of_int z) as [|s| |]; try done.
  exfalso. cbn [fz] in Hf. change (2 ^ 2100) with (2 ^ 1026 * 2 ^ unit_exp) in Hf.
  rewrite Z.mul_assoc in Hf. apply Z.mul_cancel_r in Hf; [|done].
  assert (2 ^ 53 < 2 ^ 1026) by (apply Z.pow_lt_mono_r; lia). destruct s; lia.
Qed.
