(* ===== verification/Flags.v ===== *)
(** * The command line: packages [flag] and [time]

    What the commands use of the two: the flags of a command with their values,
    and the text of a duration.  What is proved: a flag is set by its two forms,
    and the text of a number of units is read as that duration. *)
From Stdlib Require Import Ascii.
From S2P Require Import Prelude GoStr F64.

Local Open Scope list_scope.
Local Open Scope Z_scope.

(** ** Durations *)

Definition two63 : Z := 2 ^ 63.

(** [leadingInt]: the digits at the head of a text; [None] above 2^63. *)
Fixpoint leadingInt (x : Z) (s : string) : option (Z * string) :=
  match s with
  | String a s' =>
      if is_digit a then
        if two63 / 10 <? x then None
        else let y := x * 10 + (Z.of_nat (nat_of_ascii a) - 48) in
             if two63 <? y then None else leadingInt y s'
      else Some (x, s)
  | EmptyString => Some (x, s)
  end.

(** [leadingFraction]: the digits after the point and the power of ten they are
    over; the digits that no longer fit are passed over. *)
Fixpoint leadingFraction (x : Z) (scale : f64) (full : bool) (s : string) : Z * f64 * string :=
  match s with
  | String a s' =>
      if is_digit a then
        let y := x * 10 + (Z.of_nat (nat_of_ascii a) - 48) in
        if full || ((two63 - 1) / 10 <? x) || (two63 <? y) then leadingFraction x scale true s'
        else leadingFraction y (fmul scale (of_int 10)) false s'
      else (x, scale, s)
  | EmptyString => (x, scale, s)
  end.

(** The letters up to the next digit or point. *)
Fixpoint unit_name (s : string) : string * string :=
  match s with
  | String a s' =>
      if is_digit a || Ascii.eqb a "."%char then (EmptyString, s)
      else let '(u, r) := unit_name s' in (String a u, r)
  | EmptyString => (EmptyString, s)
  end.

(** The two letters mu are written in UTF-8. *)
Definition unitMap : list (string * Z) :=
  [("ns", 1); ("us", 1000); (String (chr 194) (String (chr 181) "s"), 1000); (String (chr 206) (String (chr 188) "s"), 1000);
   ("ms", 1000000); ("s", second); ("m", minute); ("h", hour)]%string.
Definition unit_of (u : string) : option Z := snd <$> List.find (fun x => String.eqb x.1 u) unitMap.

(** One number and its unit, in nanoseconds. *)
Definition quantity (s : string) : option (Z * string) :=
  match s with
  | String a _ =>
      if negb (Ascii.eqb a "."%char || is_digit a) then None else
      '(v, s1) ← leadingInt 0 s;
      let pre := negb (String.length s1 =? String.length s)%nat in
      let '(f, scale, s2, post) :=
        match s1 with
        | String "."%char s1' =>
            let '(f, scale, r) := leadingFraction 0 (of_int 1) false s1' in
            (f, scale, r, negb (String.length r =? String.length s1')%nat)
        | _ => (0, of_int 1, s1, false)
        end in
      if negb pre && negb post then None else
      let '(u, s3) := unit_name s2 in
      if bool_decide (u = EmptyString) then None else
      n ← unit_of u;
      if two63 / n <? v then None else
      let v := v * n in
      let v := if 0 <? f then v + trunc (fmul (of_int f) (fdiv (of_int n) scale)) else v in
      if (0 <? f) && (two63 <? v) then None else Some (v, s3)
  | EmptyString => None
  end.

(** The sum of the quantities; there are no more of them than bytes. *)
Fixpoint quantities (n : nat) (d : Z) (s : string) : option Z :=
  if bool_decide (s = EmptyString) then Some d
  else match n with
       | O => None
       | S n => '(v, s') ← quantity s; if two63 <? d + v then None else quantities n (d + v) s'
       end.

Definition ParseDuration (s : string) : option Z :=
  let '(neg, s) := match s with
                   | String "-"%char s' => (true, s')
                   | String "+"%char s' => (false, s')
                   | _ => (false, s)
                   end in
  if String.eqb s "0" then Some 0
  else if bool_decide (s = EmptyString) then None
  else d ← quantities (String.length s) 0 s;
       if neg : bool then Some (- d) else if two63 - 1 <? d then None else Some d.

(** ** Flags *)

Inductive value : Type :=
| VBool (b : bool)
| VString (s : string)
| VDuration (d : Z).

(** [strconv.ParseBool]. *)
Definition ParseBool (s : string) : option bool :=
  if bool_decide (s ∈ ["1"; "t"; "T"; "TRUE"; "true"; "True"]%string) then Some true
  else if bool_decide (s ∈ ["0"; "f"; "F"; "FALSE"; "false"; "False"]%string) then Some false else None.

(** [Value.Set], by the type of the value. *)
Definition Set_ (v : value) (s : string) : option value :=
  match v with
  | VBool _ => VBool <$> ParseBool s
  | VString _ => Some (VString s)
  | VDuration _ => VDuration <$> ParseDuration s
  end.

Inductive outcome : Type :=
| Parsed (vs : gmap string value) (rest : list string)
| HelpWanted
| Failed (why : string).

(** The name of a flag and, after the first equals sign that is not its first
    character, its value. *)
Definition name_value (s : string) : string * option string :=
  match s with
  | EmptyString => (EmptyString, None)
  | String a s' => match Cut "="%char s' with Some (n, v) => (String a n, Some v) | None => (s, None) end
  end.

(** The argument without its one or two dashes; [None] for one that is no flag. *)
Definition undashed (s : string) : option string :=
  match s with
  | String "-"%char (String "-"%char s') => Some s'
  | String "-"%char (String a s') => Some (String a s')
  | _ => None
  end.

(** [FlagSet.Parse]: the flags of [fs] with their values so far. *)
Fixpoint Parse (fs : gmap string value) (args : list string) : outcome :=
  match args with
  | [] => Parsed fs []
  | s :: args1 =>
      if String.eqb s "--" then Parsed fs args1 else
      match undashed s with
      | None => Parsed fs (s :: args1)
      | Some nv =>
          if HasPrefix nv "-" || HasPrefix nv "=" then Failed ("bad flag syntax: " +:+ s) else
          let '(name, given) := name_value nv in
          match fs !! name with
          | None => if String.eqb name "help" || String.eqb name "h" then HelpWanted
                    else Failed ("flag provided but not defined: -" +:+ name)
          | Some v =>
              let bad := Failed ("invalid value for -" +:+ name) in
              match v, given with
              | VBool _, None => Parse (<[name := VBool true]> fs) args1
              | _, Some t => match Set_ v t with Some v' => Parse (<[name := v']> fs) args1 | None => bad end
              | _, None =>
                  match args1 with
                  | [] => Failed ("flag needs an argument: -" +:+ name)
                  | t :: args2 => match Set_ v t with Some v' => Parse (<[name := v']> fs) args2 | None => bad end
                  end
              end
          end
      end
  end.

(** The value of a flag, which has the type it was declared with. *)
Definition get_bool (vs : gmap string value) (k : string) : bool := match vs !! k with Some (VBool b) => b | _ => false end.
Definition get_string (vs : gmap string value) (k : string) : string := match vs !! k with Some (VString s) => s | _ => EmptyString end.
Definition get_duration (vs : gmap string value) (k : string) : Z := match vs !! k with Some (VDuration d) => d | _ => 0 end.

Example duration_1 : ParseDuration "1h15m30.918s" = Some (3600 * second + 15 * minute + 30918 * 1000000).
Proof. vm_compute. reflexivity. Qed.
Example duration_2 : ParseDuration "-.5m" = Some (- (30 * second)).
Proof. vm_compute. reflexivity. Qed.
Example duration_3 : ParseDuration "3" = None /\ ParseDuration "1e3s" = None /\ ParseDuration "9223372036854775808ns" = None.
Proof. vm_compute. repeat split. Qed.

(** ** Lemmas *)

Lemma is_digit_range a : is_digit a = true -> 48 <= Z.of_nat (nat_of_ascii a) <= 57.
Proof. unfold is_digit, in_range. rewrite andb_true_iff, !Nat.leb_le. lia. Qed.

Lemma digits_ge s x n m k r : digits s x n = (m, k, r) -> 0 <= x -> x <= m.
Proof.
  revert x n. induction s as [|a s IH]; intros x n; cbn [digits]; [intros [= <- _ _]; lia|].
  destruct (is_digit a) eqn:Ha; [|intros [= <- _ _]; lia]. apply is_digit_range in Ha. intros E Hx. apply IH in E; lia.
Qed.

Definition no_digit_first (t : string) : bool := match t with String a _ => negb (is_digit a) | EmptyString => true end.

(** The digits before a unit are read as the number they write. *)
Lemma leadingInt_digits s t x n m k : digits s x n = (m, k, EmptyString) -> 0 <= x -> m <= two63 -> no_digit_first t = true ->
  leadingInt x (s +:+ t) = Some (m, t).
Proof.
  intros E Hx Hm Ht. revert x n E Hx. induction s as [|a s IH]; intros x n E Hx; cbn [digits] in E.
  - injection E as <- _. rewrite append_nil. destruct t as [|b t]; [done|]. cbn [leadingInt]. by rewrite (proj1 (negb_true_iff _) Ht).
  - destruct (is_digit a) eqn:Ha; [|done]. change (String a s +:+ t)%string with (String a (s +:+ t)). cbn [leadingInt]. rewrite Ha.
    apply is_digit_range in Ha. pose proof (digits_ge _ _ _ _ _ _ E ltac:(lia)) as Hge. unfold two63 in *.
    rewrite (proj2 (Z.ltb_ge _ _)) by (apply Z.div_le_lower_bound; lia). cbv zeta. rewrite (proj2 (Z.ltb_ge _ _)) by lia.
    replace (x * 10 + (Z.of_nat (nat_of_ascii a) - 48)) with (10 * x + (Z.of_nat (nat_of_ascii a) - 48)) by lia.
    eapply IH; [exact E|lia].
Qed.

Lemma FormatInt_head n : 0 <= n -> exists a s, FormatInt n = String a s /\ is_digit a = true.
Proof.
  intros Hn. destruct (digits_FormatInt n Hn) as (k & Hk & E). destruct (FormatInt n) as [|a s]; cbn [digits] in E; [injection E; lia|].
  exists a, s. split; [done|]. by destruct (is_digit a).
Qed.

(** What the loop reads of a unit that stands alone. *)
Lemma unit_alone u size : (u, size) ∈ unitMap ->
  u <> EmptyString /\ no_digit_first u = true /\ (forall r, u <> String "."%char r) /\ unit_name u = (u, EmptyString) /\
  unit_of u = Some size /\ 0 < size.
Proof.
  unfold unitMap. rewrite !elem_of_cons, elem_of_nil.
  intros Hin. repeat destruct Hin as [Hin|Hin]; try done; injection Hin as -> ->; split_and!; try done; vm_compute; done.
Qed.

Lemma quantity_whole n u size : 0 <= n -> (u, size) ∈ unitMap -> n * size < two63 ->
  quantity (FormatInt n +:+ u) = Some (n * size, EmptyString).
Proof.
  intros Hn Hu Hs. apply unit_alone in Hu as (Hne & Hfirst & Hdot & Hname & Hunit & Hpos).
  destruct (FormatInt_head n Hn) as (a & s & Hf & Ha). destruct (digits_FormatInt n Hn) as (k & _ & E).
  assert (Hlead : leadingInt 0 (FormatInt n +:+ u) = Some (n, u)) by (eapply leadingInt_digits; [exact E|lia| |done]; nia).
  rewrite Hf in *. change (String a s +:+ u)%string with (String a (s +:+ u)) in *. unfold quantity. rewrite Ha, orb_true_r. cbn [negb].
  rewrite Hlead. cbn [mbind option_bind].
  assert (Hlen : (String.length u =? String.length (String a (s +:+ u)))%nat = false).
  { apply Nat.eqb_neq. cbn [String.length]. rewrite length_sapp. lia. }
  rewrite Hlen. cbn [negb].
  assert (Hm : forall (A : Type) (f : string -> A) (x : A), match u with String "."%char r => f r | _ => x end = x).
  { intros A f x. destruct u as [|b u']; [done|]. destruct (decide (b = "."%char)) as [->|Hb]; [by destruct (Hdot u')|].
    destruct b as [[] [] [] [] [] [] [] []]; done. }
  rewrite Hm. cbn [andb]. rewrite Hname, Hunit. rewrite bool_decide_false by done. cbn [mbind option_bind].
  by rewrite (proj2 (Z.ltb_ge _ _)) by (apply Z.div_le_lower_bound; lia).
Qed.

(** A whole number of units is read as that duration. *)
Lemma ParseDuration_units n u size : 0 <= n -> (u, size) ∈ unitMap -> n * size < two63 ->
  ParseDuration (FormatInt n +:+ u) = Some (n * size).
Proof.
  intros Hn Hu Hs. pose proof (quantity_whole n u size Hn Hu Hs) as Hq. apply unit_alone in Hu as (Hne & _ & _ & _ & _ & Hpos).
  destruct (FormatInt_head n Hn) as (a & s & Hf & Ha). rewrite Hf in *. change (String a s +:+ u)%string with (String a (s +:+ u)) in *.
  unfold ParseDuration.
  assert (Hm : match String a (s +:+ u) with String "-"%char s' => (true, s') | String "+"%char s' => (false, s') | _ => (false, String a (s +:+ u)) end
               = (false, String a (s +:+ u))).
  { destruct a as [[] [] [] [] [] [] [] []]; try discriminate Ha; reflexivity. }
  rewrite Hm. clear Hm.
  assert (H0 : String.eqb (String a (s +:+ u)) "0" = false).
  { apply String.eqb_neq. intros Heq. apply (f_equal String.length) in Heq. cbn [String.length] in Heq. rewrite length_sapp in Heq.
    destruct u; [done|]. cbn [String.length] in Heq. lia. }
  rewrite H0. rewrite bool_decide_false by done. cbn [String.length quantities]. rewrite bool_decide_false by done. rewrite Hq.
  cbn [mbind option_bind]. rewrite Z.add_0_l. unfold two63 in *. rewrite (proj2 (Z.ltb_ge _ _)) by lia.
  destruct (String.length (s +:+ u)); cbn [quantities]; rewrite bool_decide_true by done; cbn [mbind option_bind];
    by rewrite (proj2 (Z.ltb_ge _ _)) by lia.
Qed.

(** A flag with a value is set by the two arguments that give it. *)
Lemma Parse_setting fs name v t v' args :
  HasPrefix name "-" = false -> name_value name = (name, None) -> name <> EmptyString -> HasPrefix name "=" = false ->
  fs !! name = Some v -> (forall b, v <> VBool b) -> Set_ v t = Some v' ->
  Parse fs (("--" +:+ name)%string :: t :: args) = Parse (<[name := v']> fs) args.
Proof.
  intros Hd Hn Hne He Hv Hb Hs. change ("--" +:+ name)%string with (String "-" (String "-" name)). cbn [Parse].
  assert (Hdd : String.eqb (String "-" (String "-" name)) "--" = false) by (apply String.eqb_neq; by intros [= ->]).
  rewrite Hdd. cbn [undashed]. rewrite Hd, He. cbn [orb]. rewrite Hn, Hv, Hs. destruct v; [by destruct (Hb b)|done..].
Qed.
