(* ===== verification/Redis.v ===== *)
(** * The Redis server, as the program relies on it

    The server is not part of the source: the components that use it are
    written against the class [RedisServer], whose only operation sends a
    pipeline of commands, and the class [RedisLaws], which states the
    documented effect of the commands on the keyspace.  [MemRedis] is a
    server kept in memory that satisfies the laws; the witnesses run on it. *)
From S2P Require Import Prelude GoStr F64.

Local Open Scope Z_scope.

(** ** Keyspace *)

Inductive rval : Type :=
| VStr (s : string)
| VHash (h : gmap string string)
| VSet (m : gset string)
| VZSet (z : gmap string f64).

(** The keys with their values, the time to live (ns) last given to a key,
    and the messages published so far (channel, payload), oldest first. *)
Record db : Type := MkDb {
  kv : gmap string rval;
  ttls : gmap string Z;
  chan : list (string * string)
}.

Definition empty_db : db := MkDb ∅ ∅ [].

(** The commands the source issues. *)
Inductive cmd : Type :=
| HGetAll (k : string)
| HSet (k : string) (fs : list (string * string))
| HIncrBy (k f : string) (n : Z)
| Expire (k : string) (d : Z)
| SAdd (k m : string)
| SCard (k : string)
| SMembers (k : string)
| SPopN (k : string) (n : nat)
| StrGet (k : string)
| StrSet (k v : string)
| SetNX (k v : string) (d : Z)
| DelIfEq (k v : string)
| Del (k : string)
| ZAdd (k : string) (zs : list (f64 * string))
| ZCard (k : string)
| ZRank (k m : string)
| ZPopMin (k : string) (n : Z)
| ZHead (k : string)
| ZRemUpTo (k : string) (max : Z)
| ScanPrefix (p : string)
| Publish (ch msg : string).

#[export] Instance cmd_eq_nil_dec (cs : list cmd) : Decision (cs = []).
Proof. destruct cs; [by left|by right]. Defined.

Inductive reply : Type :=
| RNil
| ROk
| RErr (e : string)
| RInt (z : Z)
| RBulk (s : string)
| RStrs (l : list string)
| RHash (h : gmap string string)
| RZs (l : list (string * f64)).

Definition wrongtype : reply :=
  RErr "WRONGTYPE Operation against a key holding the wrong kind of value".

Definition get_hash (d : db) (k : string) : option (gmap string string) :=
  match kv d !! k with None => Some ∅ | Some (VHash h) => Some h | _ => None end.
Definition get_set (d : db) (k : string) : option (gset string) :=
  match kv d !! k with None => Some ∅ | Some (VSet m) => Some m | _ => None end.
Definition get_zset (d : db) (k : string) : option (gmap string f64) :=
  match kv d !! k with None => Some ∅ | Some (VZSet z) => Some z | _ => None end.

Definition put (k : string) (v : rval) (d : db) : db :=
  MkDb (<[k := v]> (kv d)) (ttls d) (chan d).
Definition drop_key (k : string) (d : db) : db :=
  MkDb (delete k (kv d)) (delete k (ttls d)) (chan d).
Definition set_ttl (k : string) (t : Z) (d : db) : db :=
  MkDb (kv d) (<[k := t]> (ttls d)) (chan d).

(** A collection that becomes empty is removed with its key. *)
Definition put_set (k : string) (m : gset string) (d : db) : db :=
  if decide (m = ∅) then drop_key k d else put k (VSet m) d.
Definition put_zset (k : string) (z : gmap string f64) (d : db) : db :=
  if decide (z = ∅) then drop_key k d else put k (VZSet z) d.

(** The order of a sorted set: score, then member. *)
Definition zle (p q : string * f64) : Prop :=
  fz p.2 < fz q.2 \/ (fz p.2 = fz q.2 /\ String.le p.1 q.1).
#[export] Instance zle_dec : RelDecision zle.
Proof. intros p q. unfold zle. apply _. Defined.

Definition zsorted (z : gmap string f64) : list (string * f64) := merge_sort zle (map_to_list z).

Definition zrank (m : string) (z : gmap string f64) : option nat :=
  fst <$> list_find (fun p => p.1 = m) (zsorted z).

Definition zadd (zs : list (f64 * string)) (z : gmap string f64) : gmap string f64 :=
  foldl (fun z p => <[p.2 := p.1]> z) z zs.

Definition zrem (l : list (string * f64)) (z : gmap string f64) : gmap string f64 :=
  foldl (fun z p => delete p.1 z) z l.

Definition hset (fs : list (string * string)) (h : gmap string string) : gmap string string :=
  foldl (fun h p => <[p.1 := p.2]> h) h fs.

(** Effect and reply of one command. *)
Definition run (c : cmd) (d : db) : reply * db :=
  match c with
  | HGetAll k => match get_hash d k with Some h => (RHash h, d) | None => (wrongtype, d) end
  | HSet k fs =>
      match get_hash d k with
      | Some h => (RInt (Z.of_nat (length fs)), put k (VHash (hset fs h)) d)
      | None => (wrongtype, d)
      end
  | HIncrBy k f n =>
      match get_hash d k with
      | Some h =>
          match ParseInt (default "0" (h !! f)) with
          | Some v =>
              if in_int64 (v + n)
              then (RInt (v + n), put k (VHash (<[f := FormatInt (v + n)]> h)) d)
              else (RErr "ERR increment or decrement would overflow", d)
          | None => (RErr "ERR hash value is not an integer", d)
          end
      | None => (wrongtype, d)
      end
  | Expire k t =>
      match kv d !! k with
      | Some _ => (RInt 1, set_ttl k t d)
      | None => (RInt 0, d)
      end
  | SAdd k m =>
      match get_set d k with
      | Some s => (RInt (if decide (m ∈ s) then 0 else 1), put k (VSet ({[m]} ∪ s)) d)
      | None => (wrongtype, d)
      end
  | SCard k =>
      match get_set d k with
      | Some s => (RInt (Z.of_nat (size s)), d)
      | None => (wrongtype, d)
      end
  | SMembers k =>
      match get_set d k with Some s => (RStrs (elements s), d) | None => (wrongtype, d) end
  | SPopN k n =>
      match get_set d k with
      | Some s => let l := take n (elements s) in (RStrs l, put_set k (s ∖ list_to_set l) d)
      | None => (wrongtype, d)
      end
  | StrGet k =>
      match kv d !! k with
      | None => (RNil, d)
      | Some (VStr v) => (RBulk v, d)
      | _ => (wrongtype, d)
      end
  | StrSet k v => (ROk, put k (VStr v) (drop_key k d))
  | SetNX k v t =>
      match kv d !! k with
      | None => (RInt 1, set_ttl k t (put k (VStr v) d))
      | Some _ => (RInt 0, d)
      end
  | DelIfEq k v =>
      match kv d !! k with
      | Some (VStr w) => if decide (w = v) then (RInt 1, drop_key k d) else (RInt 0, d)
      | None => (RInt 0, d)
      | _ => (wrongtype, d)
      end
  | Del k => (RInt (match kv d !! k with Some _ => 1 | None => 0 end), drop_key k d)
  | ZAdd k zs =>
      match get_zset d k with
      | Some z => (RInt (Z.of_nat (length zs)), put_zset k (zadd zs z) d)
      | None => (wrongtype, d)
      end
  | ZCard k =>
      match get_zset d k with
      | Some z => (RInt (Z.of_nat (size z)), d)
      | None => (wrongtype, d)
      end
  | ZRank k m =>
      match get_zset d k with
      | Some z => (match zrank m z with Some i => RInt (Z.of_nat i) | None => RNil end, d)
      | None => (wrongtype, d)
      end
  | ZPopMin k n =>
      match get_zset d k with
      | Some z =>
          let l := take (Z.to_nat n) (zsorted z) in
          (RZs l, put_zset k (zrem l z) d)
      | None => (wrongtype, d)
      end
  | ZHead k =>
      match get_zset d k with
      | Some z => (RZs (take 1 (zsorted z)), d)
      | None => (wrongtype, d)
      end
  | ZRemUpTo k max =>
      match get_zset d k with
      | Some z =>
          let z' := filter (fun p => fz (of_int max) < fz p.2) z in
          (RInt (Z.of_nat (size z) - Z.of_nat (size z')), put_zset k z' d)
      | None => (wrongtype, d)
      end
  | ScanPrefix p => (RStrs (filter (fun k => HasPrefix k p = true) (map_to_list (kv d)).*1), d)
  | Publish ch m => (RInt 0, MkDb (kv d) (ttls d) (chan d ++ [(ch, m)]))
  end.

(** The documented effect of a command.  SPOP pops distinct members of the
    server's choice, SMEMBERS and SCAN answer in any order and SCAN may repeat
    a key, and the counts of receivers and of added fields are not specified
    further; everything else is [run]. *)
Definition cmd_spec (c : cmd) (d : db) (r : reply) (d' : db) : Prop :=
  match c with
  | SPopN k n =>
      match get_set d k with
      | Some s => exists l, r = RStrs l /\ NoDup l /\ list_to_set l ⊆ s /\
                    length l = Nat.min n (size s) /\ d' = put_set k (s ∖ list_to_set l) d
      | None => r = wrongtype /\ d' = d
      end
  | SMembers k =>
      match get_set d k with
      | Some s => exists l, r = RStrs l /\ l ≡ₚ elements s /\ d' = d
      | None => r = wrongtype /\ d' = d
      end
  | ScanPrefix p =>
      exists l, r = RStrs l /\ d' = d /\
        forall k, k ∈ l <-> is_Some (kv d !! k) /\ HasPrefix k p = true
  | Publish _ _ => exists n, r = RInt n /\ d' = (run c d).2
  | HSet k _ =>
      match get_hash d k with
      | Some _ => exists n, r = RInt n /\ d' = (run c d).2
      | None => r = wrongtype /\ d' = d
      end
  | ZAdd k _ =>
      match get_zset d k with
      | Some _ => exists n, r = RInt n /\ d' = (run c d).2
      | None => r = wrongtype /\ d' = d
      end
  | _ => (r, d') = run c d
  end.

(** The commands of a pipeline take effect in order. *)
Inductive pipe_spec : list cmd -> db -> list reply -> db -> Prop :=
| pipe_nil d : pipe_spec [] d [] d
| pipe_cons c cs d r d1 rs d' :
    cmd_spec c d r d1 -> pipe_spec cs d1 rs d' -> pipe_spec (c :: cs) d (r :: rs) d'.

(** ** Interface *)

Class RedisServer (St : Type) : Type := {
  keyspace : St -> db;
  pipe : list cmd -> St -> (string + list reply) * St
}.

(** A pipeline that is answered took effect; after a network error any of its
    commands may have taken effect, in order. *)
Class RedisLaws (St : Type) `{RedisServer St} : Prop := {
  pipe_ok cs s rs s' :
    pipe cs s = (inr rs, s') -> pipe_spec cs (keyspace s) rs (keyspace s');
  pipe_err cs s e s' :
    pipe cs s = (inl e, s') ->
    exists cs' rs, sublist cs' cs /\ pipe_spec cs' (keyspace s) rs (keyspace s')
}.

(** ** The client: replies as Go values *)

Section Client.
Context {St : Type} `{RedisServer St}.

(** The error of one command of an answered pipeline. *)
Definition reply_err (r : reply) : option goerr :=
  match r with RNil => Some ErrNil | RErr e => Some (Err e) | _ => None end.

(** [pipe.Exec]: the error of the transport, else of the first failed command. *)
Definition first_err (rs : list reply) : option goerr := head (omap reply_err rs).

(** An empty pipeline is answered without a round trip. *)
Definition send (cs : list cmd) : M St (list reply) := fun s =>
  if bool_decide (cs = []) then (inr [], s) else
  match pipe cs s with
  | (inl e, s') => (inl (Err e), s')
  | (inr rs, s') => (inr rs, s')
  end.

Definition Exec (cs : list cmd) : M St (list reply) :=
  rs ← send cs;
  match first_err rs with Some e => mfail e | None => mret rs end.

(** One command: its reply or its error. *)
Definition Do1 (c : cmd) : M St reply :=
  rs ← Exec [c];
  match rs with r :: _ => mret r | [] => mfail (Err "redis: no reply") end.

End Client.

(** ** A server in memory

    The second field is a schedule of failures: each pipeline takes the next
    flag and is lost when it is set. *)
Record mem : Type := MkMem { mem_db : db; mem_faults : list bool }.

Fixpoint run_all (cs : list cmd) (d : db) : list reply * db :=
  match cs with
  | [] => ([], d)
  | c :: cs => let '(r, d1) := run c d in let '(rs, d2) := run_all cs d1 in (r :: rs, d2)
  end.

#[export] Instance MemRedis : RedisServer mem := {|
  keyspace := mem_db;
  pipe cs s :=
    match mem_faults s with
    | true :: fs => (inl "connection refused"%string, MkMem (mem_db s) fs)
    | fs => let '(rs, d) := run_all cs (mem_db s) in (inr rs, MkMem d (tail fs))
    end
|}.

(** A server shared with other clients: between two pipelines of the client
    under study the others act, and keys expire; [sh_env] lists these actions,
    the first of which takes place before the next pipeline.  It satisfies no
    law of [RedisLaws]: it serves to exhibit interleavings. *)
Record shared : Type := MkShared { sh_db : db; sh_env : list (db -> db) }.

#[export] Instance SharedRedis : RedisServer shared := {|
  keyspace := sh_db;
  pipe cs s :=
    let '(rs, d) := run_all cs (match sh_env s with f :: _ => f (sh_db s) | [] => sh_db s end) in
    (inr rs, MkShared d (tail (sh_env s)))
|}.

(** ** Lemmas *)

Lemma run_spec c d r d' : run c d = (r, d') -> cmd_spec c d r d'.
Proof.
  intros E. destruct c; simpl in *; try (by rewrite E);
    try (by destruct (get_hash d k); simplify_eq; eauto);
    try (by destruct (get_zset d k); simplify_eq; eauto).
  - destruct (get_set d k) as [s|]; simplify_eq; eauto.
  - destruct (get_set d k) as [s|]; simplify_eq; [|done]. eexists. split; [done|].
    assert (Hsub : take n (elements s) ⊆ elements s) by apply subseteq_take.
    split; [|split; [|split]].
    + eapply sublist_NoDup; [apply (NoDup_elements s)|apply sublist_take].
    + intros x. rewrite elem_of_list_to_set. intros Hx%Hsub. by apply elem_of_elements.
    + by rewrite length_take.
    + done.
  - simplify_eq. eexists. split; [done|split; [done|]]. intros k.
    rewrite list_elem_of_filter, list_elem_of_fmap. split.
    + intros (Hp & [k' v] & -> & Hin). apply elem_of_map_to_list in Hin. eauto.
    + intros [[v Hv] Hp]. split; [done|]. exists (k, v). by rewrite elem_of_map_to_list.
  - simplify_eq. eauto.
Qed.

Lemma run_all_spec cs d rs d' : run_all cs d = (rs, d') -> pipe_spec cs d rs d'.
Proof.
  revert d rs. induction cs as [|c cs IH]; simpl; intros d rs E; [simplify_eq; constructor|].
  destruct (run c d) as [r d1] eqn:E1, (run_all cs d1) as [rs1 d2] eqn:E2. simplify_eq.
  econstructor; [by apply run_spec|eauto].
Qed.

#[export] Instance MemRedis_laws : RedisLaws mem.
Proof.
  split; intros cs [d fs] r s'; simpl.
  - destruct fs as [|[] fs], (run_all cs d) as [rs d1] eqn:E; intros; simplify_eq; simpl;
      by apply run_all_spec.
  - destruct fs as [|[] fs], (run_all cs d); intros; simplify_eq; simpl.
    exists [], []. split; [apply sublist_nil_l|constructor].
Qed.

(** ** Reading a keyspace after a pipeline *)

Lemma kv_put k v d k' : kv (put k v d) !! k' = if decide (k = k') then Some v else kv d !! k'.
Proof. unfold put; simpl. apply lookup_insert. Qed.

Lemma kv_drop k d k' : kv (drop_key k d) !! k' = if decide (k = k') then None else kv d !! k'.
Proof. unfold drop_key; simpl. apply lookup_delete. Qed.

Lemma kv_set_ttl k t d k' : kv (set_ttl k t d) !! k' = kv d !! k'.
Proof. done. Qed.

Lemma kv_put_set k m d k' : k <> k' -> kv (put_set k m d) !! k' = kv d !! k'.
Proof.
  intros Hk. unfold put_set. destruct (decide (m = ∅)); [rewrite kv_drop|rewrite kv_put];
    by rewrite decide_False.
Qed.

Lemma kv_put_zset k z d k' : k <> k' -> kv (put_zset k z d) !! k' = kv d !! k'.
Proof.
  intros Hk. unfold put_zset. destruct (decide (z = ∅)); [rewrite kv_drop|rewrite kv_put];
    by rewrite decide_False.
Qed.

Lemma get_set_put_set k m d : get_set (put_set k m d) k = Some m.
Proof.
  unfold get_set, put_set. destruct (decide (m = ∅)) as [->|];
    [rewrite kv_drop|rewrite kv_put]; by rewrite decide_True.
Qed.

Lemma get_zset_put_zset k z d : get_zset (put_zset k z d) k = Some z.
Proof.
  unfold get_zset, put_zset. destruct (decide (z = ∅)) as [->|];
    [rewrite kv_drop|rewrite kv_put]; by rewrite decide_True.
Qed.

Lemma get_hash_put k h d : get_hash (put k (VHash h) d) k = Some h.
Proof. unfold get_hash. rewrite kv_put. by rewrite decide_True. Qed.

Lemma get_set_put k m d : get_set (put k (VSet m) d) k = Some m.
Proof. unfold get_set. rewrite kv_put. by rewrite decide_True. Qed.

Lemma get_hash_kv d d' k : kv d' !! k = kv d !! k -> get_hash d' k = get_hash d k.
Proof. unfold get_hash. by intros ->. Qed.
Lemma get_set_kv d d' k : kv d' !! k = kv d !! k -> get_set d' k = get_set d k.
Proof. unfold get_set. by intros ->. Qed.
Lemma get_zset_kv d d' k : kv d' !! k = kv d !! k -> get_zset d' k = get_zset d k.
Proof. unfold get_zset. by intros ->. Qed.

Lemma hset_union fs h : NoDup fs.*1 -> hset fs h = list_to_map fs ∪ h.
Proof.
  unfold hset. revert h. induction fs as [|[k v] fs IH]; simpl; intros h Hnd.
  - by rewrite (left_id_L ∅ (∪)).
  - apply NoDup_cons in Hnd as [Hk Hnd]. rewrite IH by done.
    rewrite <- insert_union_l, insert_union_r; [done|]. by apply not_elem_of_list_to_map_1.
Qed.

Lemma hset_lookup_ne fs h k : k ∉ fs.*1 -> hset fs h !! k = h !! k.
Proof.
  unfold hset. revert h. induction fs as [|[k' v] fs IH]; simpl; intros h Hk; [done|].
  apply not_elem_of_cons in Hk as [Hne Hk]. rewrite IH by done. by apply lookup_insert_ne.
Qed.

Lemma zadd_app l1 l2 z : zadd (l1 ++ l2) z = zadd l2 (zadd l1 z).
Proof. unfold zadd. apply foldl_app. Qed.

(** The commands whose effect on the keyspace is the function [run]. *)
Definition det (c : cmd) : bool :=
  match c with SPopN _ _ => false | _ => true end.

Lemma det_run c d r d' : det c = true -> cmd_spec c d r d' -> d' = (run c d).2.
Proof.
  destruct c; simpl; try done; intros _ Hs; try (by rewrite <- Hs); try (by destruct Hs as (? & _ & ->));
    repeat match goal with |- context [match ?o with Some _ => _ | None => _ end] => destruct o end;
    repeat match type of Hs with ex _ => destruct Hs as [? Hs] | _ /\ _ => destruct Hs as [? Hs] end;
    by simplify_eq.
Qed.

Lemma pipe_cons_inv c cs d rs d' :
  pipe_spec (c :: cs) d rs d' ->
  exists r d1 rs1, rs = r :: rs1 /\ cmd_spec c d r d1 /\ pipe_spec cs d1 rs1 d'.
Proof. intros Hp. inversion Hp; subst. eauto 6. Qed.

Lemma pipe_nil_inv d rs d' : pipe_spec [] d rs d' -> rs = [] /\ d' = d.
Proof. intros Hp. by inversion Hp. Qed.

Lemma det_run_all cs d rs d' :
  Forall (fun c => det c = true) cs -> pipe_spec cs d rs d' -> d' = (run_all cs d).2.
Proof.
  intros Hdet. revert d rs. induction Hdet as [|c cs Hc Hcs IH]; intros d rs Hp.
  { by apply pipe_nil_inv in Hp as [_ ->]. }
  apply pipe_cons_inv in Hp as (r & d1 & rs1 & -> & Hs & Hp).
  apply det_run in Hs as ->; [|done]. apply IH in Hp as ->. simpl.
  destruct (run c d) as [r1 d1]; simpl. by destruct (run_all cs d1).
Qed.

Section Inversion.
Context {St : Type} `{RedisServer St} {HL : RedisLaws St}.

Lemma send_inv cs s rs s' :
  send cs s = (inr rs, s') -> pipe_spec cs (keyspace s) rs (keyspace s').
Proof.
  unfold send. case_bool_decide as Hc; [intros [= <- <-]; subst; constructor|].
  destruct (pipe cs s) as [[e|rs1] s1] eqn:E; [done|]. intros [= <- <-]. by apply pipe_ok.
Qed.

Lemma Exec_inv cs s rs s' :
  Exec cs s = (inr rs, s') ->
  pipe_spec cs (keyspace s) rs (keyspace s') /\ Forall (fun r => reply_err r = None) rs.
Proof.
  unfold Exec. intros H1. apply M_bind_inv in H1 as (rs1 & s1 & H1 & H2). apply send_inv in H1.
  unfold first_err in H2. destruct (omap reply_err rs1) as [|e l] eqn:E; simpl in H2; [|done].
  unfold mret, M_ret in H2. simplify_eq. split; [done|]. clear H1.
  induction rs as [|r rs IH]; [constructor|]. simpl in E.
  destruct (reply_err r) eqn:Er; [done|]. constructor; auto.
Qed.

Lemma Do1_inv c s r s' :
  Do1 c s = (inr r, s') -> cmd_spec c (keyspace s) r (keyspace s') /\ reply_err r = None.
Proof.
  unfold Do1. intros H1. apply M_bind_inv in H1 as (rs & s1 & H1 & H2). apply Exec_inv in H1 as [H1 Hr].
  apply pipe_cons_inv in H1 as (r1 & d1 & rs1 & -> & H1 & H3). apply pipe_nil_inv in H3 as [-> <-].
  unfold mret, M_ret in H2. simplify_eq. apply Forall_cons in Hr as [Hr _]. done.
Qed.

(** A single command: answered, or lost with a transport error. *)
Lemma Do1_cases c s r s' :
  Do1 c s = (r, s') ->
  (exists rep, cmd_spec c (keyspace s) rep (keyspace s') /\
     r = match reply_err rep with Some e => inl e | None => inr rep end) \/
  (exists m, r = inl (Err m) /\
     (keyspace s' = keyspace s \/ exists rep, cmd_spec c (keyspace s) rep (keyspace s'))).
Proof.
  unfold Do1, Exec, send, mbind, M_bind. rewrite bool_decide_false by done.
  destruct (pipe [c] s) as [[m|rs] s1] eqn:E.
  - intros [= <- <-]. right. exists m. split; [done|].
    apply pipe_err in E as (cs' & rs & Hs & Hp).
    apply sublist_cons_r in Hs as [Hs|(l & -> & Hs)]; apply sublist_nil_r in Hs as ->.
    + apply pipe_nil_inv in Hp as [_ ->]. by left.
    + apply pipe_cons_inv in Hp as (r1 & d1 & rs1 & -> & Hp & Hp2). apply pipe_nil_inv in Hp2 as [_ ->]. eauto.
  - intros Heq. left. apply pipe_ok in E.
    apply pipe_cons_inv in E as (r1 & d1 & rs1 & -> & Hp & Hp2). apply pipe_nil_inv in Hp2 as [-> <-].
    exists r1. unfold first_err in Heq. cbn [omap list_omap] in Heq.
    destruct (reply_err r1) eqn:Er; simpl in Heq; unfold mfail, mret, M_ret in Heq; simplify_eq; auto.
Qed.

(** What a failed pipeline may have done. *)
Lemma send_err cs s e s' :
  send cs s = (inl e, s') ->
  (exists m, e = Err m) /\ exists cs' rs, sublist cs' cs /\ pipe_spec cs' (keyspace s) rs (keyspace s').
Proof.
  unfold send. case_bool_decide; [done|]. destruct (pipe cs s) as [[e'|rs] s1] eqn:E; [|done].
  intros [= <- <-]. split; [eauto|]. by eapply pipe_err.
Qed.

Lemma Exec_err cs s e s' :
  Exec cs s = (inl e, s') ->
  e <> ErrLoop /\ exists cs' rs, sublist cs' cs /\ pipe_spec cs' (keyspace s) rs (keyspace s').
Proof.
  unfold Exec, mbind, M_bind. destruct (send cs s) as [[e1|rs] s1] eqn:E.
  - intros [= <- <-]. apply send_err in E as [[m ->] Hx]. done.
  - apply send_inv in E. unfold first_err. destruct (omap reply_err rs) as [|e1 l] eqn:Eo; simpl.
    + done.
    + intros [= <- <-]. split; [|eauto].
      assert (Hin : e1 ∈ omap reply_err rs) by (rewrite Eo; left).
      apply list_elem_of_omap in Hin as (r & _ & Hr). destruct r; simpl in Hr; by simplify_eq.
Qed.

Lemma Exec_err_1 c s e s' :
  Exec [c] s = (inl e, s') -> e <> ErrLoop /\ (keyspace s' = keyspace s \/ exists r, cmd_spec c (keyspace s) r (keyspace s')).
Proof.
  intros H1. apply Exec_err in H1 as (He & cs' & rs & Hs & Hp). split; [done|].
  apply sublist_cons_r in Hs as [Hs|(l & -> & Hs)]; apply sublist_nil_r in Hs as ->.
  - apply pipe_nil_inv in Hp as [_ ->]. by left.
  - apply pipe_cons_inv in Hp as (r & d1 & rs1 & -> & Hp & Hp2). apply pipe_nil_inv in Hp2 as [_ ->]. eauto.
Qed.

End Inversion.

(** ** Sorted sets *)

#[export] Instance zle_trans : Transitive zle.
Proof.
  intros p q r. unfold zle. intros [H1|[H1 H1']] [H2|[H2 H2']]; [left; lia|left; lia|left; lia|right].
  split; [lia|]. by etransitivity.
Qed.

#[export] Instance zle_total : Total zle.
Proof.
  intros p q. unfold zle. destruct (Z.lt_trichotomy (fz p.2) (fz q.2)) as [|[E|]]; [by left; left| |by right; left].
  destruct (total String.le p.1 q.1) as [|]; [left; right|right; right]; done.
Qed.

Lemma zsorted_perm z : zsorted z ≡ₚ map_to_list z.
Proof. apply merge_sort_Permutation. Qed.

Lemma zsorted_NoDup z : NoDup (zsorted z).*1.
Proof. rewrite zsorted_perm. apply NoDup_fst_map_to_list. Qed.

Lemma zsorted_elem z x s : (x, s) ∈ zsorted z <-> z !! x = Some s.
Proof. rewrite zsorted_perm. apply elem_of_map_to_list. Qed.

Lemma zsorted_length z : length (zsorted z) = size z.
Proof. rewrite zsorted_perm. apply length_map_to_list. Qed.

Lemma zsorted_sorted z : StronglySorted zle (zsorted z).
Proof. apply (StronglySorted_merge_sort zle). Qed.

(** The first elements are below the others. *)
Lemma zsorted_take_le n z p q : p ∈ take n (zsorted z) -> q ∈ drop n (zsorted z) -> zle p q.
Proof.
  intros Hp Hq. pose proof (zsorted_sorted z) as Hs. rewrite <- (take_drop n) in Hs.
  apply StronglySorted_app in Hs as (Hs & _ & _). by apply Hs.
Qed.

Lemma zrem_lookup l z x : zrem l z !! x = if decide (x ∈ l.*1) then None else z !! x.
Proof.
  unfold zrem. revert z. induction l as [|[k s] l IH]; intros z; simpl; [done|].
  rewrite IH. destruct (decide (x ∈ l.*1)) as [Hin|Hin].
  - by rewrite decide_True by (by right).
  - destruct (decide (x = k)) as [->|Hne].
    + rewrite decide_True by left. apply lookup_delete_eq.
    + rewrite decide_False by (intros [?|?]%elem_of_cons; done). by apply lookup_delete_ne.
Qed.

(** ** Which keys a command writes *)

Definition cmd_key (c : cmd) : option string :=
  match c with
  | HSet k _ | HIncrBy k _ _ | SAdd k _ | SPopN k _ | StrSet k _ | SetNX k _ _ | DelIfEq k _
  | Del k | ZAdd k _ | ZPopMin k _ | ZRemUpTo k _ => Some k
  | _ => None
  end.

Lemma run_frame c d k : cmd_key c <> Some k -> kv (run c d).2 !! k = kv d !! k.
Proof.
  intros Hk. destruct c; simpl in *;
    repeat match goal with
    | |- context [match ?o with _ => _ end] => destruct o; simpl
    end; try done;
    rewrite ?kv_put_set, ?kv_put_zset, ?lookup_insert_ne, ?lookup_delete_ne by congruence; done.
Qed.

Lemma cmd_frame c d r d' k : cmd_spec c d r d' -> cmd_key c <> Some k -> kv d' !! k = kv d !! k.
Proof.
  intros Hs Hk. destruct (det c) eqn:Hd.
  - apply det_run in Hs as ->; [|done]. by apply run_frame.
  - destruct c; try done. simpl in Hs, Hk. destruct (get_set d k0) as [m|].
    + destruct Hs as (l & _ & _ & _ & _ & ->). apply kv_put_set. congruence.
    + by destruct Hs as [_ ->].
Qed.

Lemma pipe_frame cs d rs d' k :
  pipe_spec cs d rs d' -> Forall (fun c => cmd_key c <> Some k) cs -> kv d' !! k = kv d !! k.
Proof.
  induction 1 as [|c cs d r d1 rs d' Hc _ IH]; intros Hf; [done|].
  apply Forall_cons in Hf as [Hc' Hf]. rewrite IH by done. by eapply cmd_frame.
Qed.

(** The sorted set [k] gains at most [n] members. *)
Definition grows (k : string) (n : nat) (d d' : db) : Prop :=
  forall z, get_zset d k = Some z ->
    exists z', get_zset d' k = Some z' /\ (size z' <= size z + n)%nat.

Lemma grows_kv k d d' : kv d' !! k = kv d !! k -> grows k 0 d d'.
Proof. intros Hk z Hz. exists z. rewrite (get_zset_kv _ _ _ Hk). split; [done|lia]. Qed.

Lemma grows_trans k n m d1 d2 d3 : grows k n d1 d2 -> grows k m d2 d3 -> grows k (n + m) d1 d3.
Proof.
  intros H1 H2 z Hz. destruct (H1 z Hz) as (z1 & Hz1 & L1). destruct (H2 z1 Hz1) as (z2 & Hz2 & L2).
  exists z2. split; [done|lia].
Qed.

Lemma grows_mono k n m d d' : (n <= m)%nat -> grows k n d d' -> grows k m d d'.
Proof. intros Hn Hg z Hz. destruct (Hg z Hz) as (z' & ? & ?). exists z'. split; [done|lia]. Qed.

Lemma zadd_size zs z : (size (zadd zs z) <= size z + length zs)%nat.
Proof.
  unfold zadd. revert z. induction zs as [|[s x] zs IH]; intros z; simpl; [lia|].
  specialize (IH (<[x := s]> z)). pose proof (map_size_insert x s z) as Hi.
  destruct (z !! x); simpl in Hi; lia.
Qed.

(** How many members a command may add to the sorted set [k]; the commands
    that would replace it by a value of another type are excluded. *)
Definition adds (k : string) (c : cmd) : option nat :=
  match c with
  | ZAdd k' zs => Some (if decide (k' = k) then length zs else 0%nat)
  | ZPopMin _ _ | ZRemUpTo _ _ => Some 0%nat
  | _ => if decide (cmd_key c = Some k) then None else Some 0%nat
  end.

Lemma zrem_size l z : (size (zrem l z) <= size z)%nat.
Proof. apply map_subseteq_size. apply map_subseteq_spec. intros x v. rewrite zrem_lookup. by case_decide. Qed.

Lemma cmd_grows c d r d' k n : cmd_spec c d r d' -> adds k c = Some n -> grows k n d d'.
Proof.
  intros Hs Ha. destruct (decide (cmd_key c = Some k)) as [Hk|Hk].
  - intros z Hz. destruct c; simpl in Hk, Ha; simplify_eq;
      try (by rewrite decide_True in Ha by done); simpl in Hs; rewrite Hz in Hs.
    + destruct Hs as (m & _ & ->). rewrite decide_True by done. eexists.
      split; [apply get_zset_put_zset|]. apply zadd_size.
    + injection Hs as _ ->. eexists. split; [apply get_zset_put_zset|]. pose proof (zrem_size (take (Z.to_nat n0) (zsorted z)) z). lia.
    + injection Hs as _ ->. eexists. split; [apply get_zset_put_zset|]. rewrite Nat.add_0_r.
      apply map_subseteq_size, map_filter_subseteq.
  - eapply grows_mono; [|eapply grows_kv, cmd_frame; [exact Hs|done]]. lia.
Qed.

Fixpoint pipe_adds (k : string) (cs : list cmd) : option nat :=
  match cs with
  | [] => Some 0%nat
  | c :: cs => match adds k c, pipe_adds k cs with Some a, Some b => Some (a + b)%nat | _, _ => None end
  end.

Lemma pipe_grows cs d rs d' k n : pipe_spec cs d rs d' -> pipe_adds k cs = Some n -> grows k n d d'.
Proof.
  intros Hp. revert n. induction Hp as [|c cs d r d1 rs d' Hc _ IH]; intros n Hn; simpl in Hn.
  - injection Hn as <-. by apply grows_kv.
  - destruct (adds k c) as [a|] eqn:Ea, (pipe_adds k cs) as [b|] eqn:Eb; try done. injection Hn as <-.
    eapply grows_trans; [by eapply cmd_grows|by apply IH].
Qed.

Lemma sublist_adds k cs cs' n :
  sublist cs' cs -> pipe_adds k cs = Some n -> exists m, pipe_adds k cs' = Some m /\ (m <= n)%nat.
Proof.
  intros Hs. revert n. induction Hs as [|c l1 l2 _ IH|c l1 l2 _ IH]; intros n Hn; simpl in Hn |- *.
  - eauto.
  - destruct (adds k c) as [a|], (pipe_adds k l2) as [b|]; try done. injection Hn as <-.
    destruct (IH b eq_refl) as (m & -> & Hm). exists (a + m)%nat. split; [done|lia].
  - destruct (adds k c) as [a|], (pipe_adds k l2) as [b|]; try done. injection Hn as <-.
    destruct (IH b eq_refl) as (m & -> & Hm). exists m. split; [done|lia].
Qed.

(** The commands other than PUBLISH leave the messages alone. *)
Definition silent (c : cmd) : bool := match c with Publish _ _ => false | _ => true end.

Lemma cmd_silent c d r d' : silent c = true -> cmd_spec c d r d' -> chan d' = chan d.
Proof.
  intros Hc Hs. destruct (det c) eqn:Hd.
  - apply det_run in Hs as ->; [|done]. destruct c; simpl; try done;
      repeat match goal with
      | |- context [match ?o with _ => _ end] => destruct o; simpl
      end; try done; unfold put_zset, put_set; by case_decide.
  - destruct c; try done. simpl in Hs. destruct (get_set d k) as [m|].
    + destruct Hs as (l & _ & _ & _ & _ & ->). unfold put_set. by case_decide.
    + by destruct Hs as [_ ->].
Qed.

Lemma pipe_silent cs d rs d' :
  pipe_spec cs d rs d' -> Forall (fun c => silent c = true) cs -> chan d' = chan d.
Proof.
  induction 1 as [|c l d rr d1 rs d' Hc _ IH]; intros Hf; [done|].
  apply Forall_cons in Hf as [Hc' Hf]. rewrite IH by done. by eapply cmd_silent.
Qed.

Section Growth.
Context {St : Type} `{RedisServer St} {HL : RedisLaws St}.

(** Answered or not, a pipeline adds at most its members. *)
Lemma Exec_grows cs s r s' k n :
  Exec cs s = (r, s') -> pipe_adds k cs = Some n -> grows k n (keyspace s) (keyspace s').
Proof.
  intros He Hn. destruct r as [e|rs].
  - apply Exec_err in He as (_ & cs' & rs & Hs & Hp).
    destruct (sublist_adds _ _ _ _ Hs Hn) as (m & Hm & Hle).
    eapply grows_mono; [exact Hle|by eapply pipe_grows].
  - apply Exec_inv in He as [Hp _]. by eapply pipe_grows.
Qed.

Lemma Forall_sublist {A} (P : A -> Prop) (l l' : list A) : sublist l' l -> Forall P l -> Forall P l'.
Proof.
  induction 1 as [|x l1 l2 _ IH|x l1 l2 _ IH]; intros Hf; [done|..];
    apply Forall_cons in Hf as [Hx Hf]; [constructor|]; auto.
Qed.

(** Answered or not, a pipeline changes the keys it names only. *)
Lemma Exec_frame cs s r s' k :
  Exec cs s = (r, s') -> Forall (fun c => cmd_key c <> Some k) cs ->
  kv (keyspace s') !! k = kv (keyspace s) !! k.
Proof.
  intros He Hf. destruct r as [e|rs].
  - apply Exec_err in He as (_ & cs' & rs & Hs & Hp). eapply pipe_frame; [exact Hp|].
    by eapply Forall_sublist.
  - apply Exec_inv in He as [Hp _]. by eapply pipe_frame.
Qed.

End Growth.
