(* ===== verification/Json.v ===== *)
(** * Go's [encoding/json], printing side

    [json] is the value a handler hands to [json.Marshal]; [marshal] is the
    compact text Go prints: HTML-sensitive characters and the line separators
    are escaped, invalid UTF-8 becomes the replacement character, the keys of
    a Go map are sorted.  Numbers keep their text. *)
From Stdlib Require Import Ascii.
From S2P Require Import Prelude GoStr.

Local Open Scope string_scope.

Inductive json : Type :=
| JNull
| JBool (b : bool)
| JNum (tok : string)
| JStr (s : string)
| JArr (l : list json)
| JObj (l : list (string * json)).

Definition hex_char (n : nat) : ascii := if (n <? 10)%nat then chr (48 + n) else chr (87 + n).
Definition hex_byte (a : ascii) : string :=
  String (hex_char (nat_of_ascii a / 16)) (str1 (hex_char (nat_of_ascii a mod 16))).

(** [hex.EncodeToString]. *)
Fixpoint hex_encode (s : string) : string :=
  match s with
  | EmptyString => EmptyString
  | String a s' => hex_byte a +:+ hex_encode s'
  end.

(** One ASCII byte inside a JSON string. *)
Definition esc_ascii (a : ascii) : string :=
  match nat_of_ascii a with
  | 34 => backslash +:+ dquote
  | 92 => backslash +:+ backslash
  | 8 => backslash +:+ "b"
  | 12 => backslash +:+ "f"
  | 10 => backslash +:+ "n"
  | 13 => backslash +:+ "r"
  | 9 => backslash +:+ "t"
  | n => if (n <? 32) || (n =? 60) || (n =? 62) || (n =? 38)
         then backslash +:+ "u00" +:+ hex_byte a else str1 a
  end%nat.

Definition cont : ascii -> bool := in_range 128 191.
Definition utf8_2 (a b : ascii) : bool := in_range 194 223 a && cont b.
Definition utf8_3 (a b c : ascii) : bool :=
  ((in_range 224 224 a && in_range 160 191 b) || (in_range 225 236 a && cont b) ||
   (in_range 237 237 a && in_range 128 159 b) || (in_range 238 239 a && cont b)) && cont c.
Definition utf8_4 (a b c d : ascii) : bool :=
  ((in_range 240 240 a && in_range 144 191 b) || (in_range 241 243 a && cont b) ||
   (in_range 244 244 a && in_range 128 143 b)) && cont c && cont d.

(** U+2028 and U+2029, the separators a JSON text may not show to JavaScript. *)
Definition line_sep (a b c : ascii) : bool :=
  (nat_of_ascii a =? 226)%nat && (nat_of_ascii b =? 128)%nat && in_range 168 169 c.

Definition replacement : string := backslash +:+ "ufffd".

Fixpoint json_escape (s : string) : string :=
  match s with
  | EmptyString => EmptyString
  | String a r =>
      if is_ascii a then esc_ascii a +:+ json_escape r
      else match r with
      | String b r1 =>
          if utf8_2 a b then String a (String b (json_escape r1))
          else match r1 with
          | String c r2 =>
              if utf8_3 a b c then
                if line_sep a b c
                then backslash +:+ "u202" +:+ str1 (hex_char (nat_of_ascii c mod 16)) +:+ json_escape r2
                else String a (String b (String c (json_escape r2)))
              else match r2 with
              | String d r3 =>
                  if utf8_4 a b c d
                  then String a (String b (String c (String d (json_escape r3))))
                  else replacement +:+ json_escape r
              | EmptyString => replacement +:+ json_escape r
              end
          | EmptyString => replacement +:+ json_escape r
          end
      | EmptyString => replacement
      end
  end.

Definition json_string (s : string) : string := dquote +:+ json_escape s +:+ dquote.

Fixpoint marshal (v : json) : string :=
  match v with
  | JNull => "null"
  | JBool b => if b then "true" else "false"
  | JNum t => t
  | JStr s => json_string s
  | JArr l => "[" +:+ Join (map marshal l) "," +:+ "]"
  | JObj l => "{" +:+ Join (map (fun p => json_string p.1 +:+ ":" +:+ marshal p.2) l) "," +:+ "}"
  end.

(** A Go map of strings, printed in the order of its keys. *)
Definition key_le (p q : string * string) : Prop := String.le p.1 q.1.
#[export] Instance key_le_dec : RelDecision key_le.
Proof. intros p q. unfold key_le. apply _. Defined.

Definition sorted_pairs (m : gmap string string) : list (string * string) :=
  merge_sort key_le (map_to_list m).

Definition JMap (m : gmap string string) : json :=
  JObj (map (fun p => (p.1, JStr p.2)) (sorted_pairs m)).

Definition JInt (z : Z) : json := JNum (FormatInt z).

(** ** What an escaped string cannot contain

    [plain] accepts the bytes that may follow one another inside a quoted
    scalar: no control character, and no quote that is not escaped. *)
Definition printable (a : ascii) : bool := negb (in_range 0 31 a).

Lemma esc_ascii_printable a : string_forall printable (esc_ascii a) = true.
Proof. revert a. apply all_ascii. vm_compute. reflexivity. Qed.

Lemma not_ascii_printable a : is_ascii a = false -> printable a = true.
Proof.
  assert (H : forall a, is_ascii a || printable a = true) by (apply all_ascii; vm_compute; reflexivity).
  specialize (H a). destruct (is_ascii a); [done|]. intros _. exact H.
Qed.

Lemma in_range_hi_printable lo hi a : (32 <= lo)%nat -> in_range lo hi a = true -> printable a = true.
Proof.
  unfold printable, in_range. intros Hlo [H1%Nat.leb_le H2]%andb_true_iff.
  apply negb_true_iff, andb_false_iff. right. apply Nat.leb_gt. lia.
Qed.

Lemma cont_printable a : cont a = true -> printable a = true.
Proof. apply in_range_hi_printable. lia. Qed.
