(* ===== verification/Room.v ===== *)
(** * Package [room]: identifiers and configuration of the queues

    [queue/internal/room/room.go]. *)
From Stdlib Require Import Ascii SpecFloat.
From S2P Require Import Prelude GoStr F64.

Local Open Scope Z_scope.

Record ID : Type := MkID { Tenant : string; Room : string }.

#[export] Instance ID_eq_dec : EqDecision ID.
Proof. solve_decision. Defined.

(** [fmt]'s [%q] on the ASCII range. *)
Definition go_quote1 (a : ascii) : string :=
  (if Ascii.eqb a (chr 34) || Ascii.eqb a (chr 92) then backslash +:+ str1 a else str1 a)%string.
Fixpoint go_quote (s : string) : string :=
  match s with EmptyString => EmptyString | String a s' => (go_quote1 a +:+ go_quote s')%string end.

Definition Parse (s : string) : goerr + ID :=
  match Cut "."%char s with
  | Some (t, r) =>
      if slug_match t && slug_match r then inr (MkID t r)
      else inl (Err ("identifiant de file invalide : " +:+ dquote +:+ go_quote s +:+ dquote))
  | None => inl (Err ("identifiant de file invalide : " +:+ dquote +:+ go_quote s +:+ dquote))
  end%string.

Definition ID_String (id : ID) : string := (Tenant id +:+ "." +:+ Room id)%string.

Definition Key (id : ID) (suffix : string) : string :=
  ("{r:" +:+ Tenant id +:+ ":" +:+ Room id +:+ "}:" +:+ suffix)%string.

Definition StOpen : string := "open".
Definition StQueue : string := "queue".
Definition StClosed : string := "closed".

(** Durations are in nanoseconds. *)
Record Config : Type := MkConfig {
  State : string;
  Rate : f64;
  MaxActive : Z;
  WaveSec : Z;
  PassTTL : Z;
  Domains : list string;
  OpensAt : Z;
  Title : string;
  Theme : gmap string string
}.

Definition set_State (v : string) (c : Config) : Config :=
  MkConfig v (Rate c) (MaxActive c) (WaveSec c) (PassTTL c) (Domains c) (OpensAt c) (Title c) (Theme c).
Definition set_Rate (v : f64) (c : Config) : Config :=
  MkConfig (State c) v (MaxActive c) (WaveSec c) (PassTTL c) (Domains c) (OpensAt c) (Title c) (Theme c).
Definition set_MaxActive (v : Z) (c : Config) : Config :=
  MkConfig (State c) (Rate c) v (WaveSec c) (PassTTL c) (Domains c) (OpensAt c) (Title c) (Theme c).
Definition set_WaveSec (v : Z) (c : Config) : Config :=
  MkConfig (State c) (Rate c) (MaxActive c) v (PassTTL c) (Domains c) (OpensAt c) (Title c) (Theme c).
Definition set_PassTTL (v : Z) (c : Config) : Config :=
  MkConfig (State c) (Rate c) (MaxActive c) (WaveSec c) v (Domains c) (OpensAt c) (Title c) (Theme c).
Definition set_Domains (v : list string) (c : Config) : Config :=
  MkConfig (State c) (Rate c) (MaxActive c) (WaveSec c) (PassTTL c) v (OpensAt c) (Title c) (Theme c).
Definition set_OpensAt (v : Z) (c : Config) : Config :=
  MkConfig (State c) (Rate c) (MaxActive c) (WaveSec c) (PassTTL c) (Domains c) v (Title c) (Theme c).
Definition set_Title (v : string) (c : Config) : Config :=
  MkConfig (State c) (Rate c) (MaxActive c) (WaveSec c) (PassTTL c) (Domains c) (OpensAt c) v (Theme c).
Definition set_Theme (v : gmap string string) (c : Config) : Config :=
  MkConfig (State c) (Rate c) (MaxActive c) (WaveSec c) (PassTTL c) (Domains c) (OpensAt c) (Title c) v.

(** The zero value of the struct. *)
Definition zero_Config : Config := MkConfig "" fzero 0 0 0 [] 0 "" ∅.

Definition Defaults : Config :=
  MkConfig StQueue (of_int 10) 0 30 (20 * minute) [] 0 "" ∅.

(** [Validate] has a pointer receiver: the fields it has already normalised
    stay normalised when a later check fails. *)
Definition Validate (c : Config) : option goerr * Config :=
  let state_err := (Some (Err "state doit être open, queue ou closed"), c) in
  let go (c : Config) :=
    let c := if fleb (Rate c) fzero then set_Rate (of_int 10) c else c in
    if fltb (of_int 100000) (Rate c) then (Some (Err "rate trop élevé"), c) else
    let c := if WaveSec c <? 1 then set_WaveSec 30 c else c in
    if 600 <? WaveSec c then (Some (Err "wave_s au maximum 600"), c) else
    let c := if PassTTL c <? minute then set_PassTTL (20 * minute) c else c in
    if 24 * hour <? PassTTL c then (Some (Err "pass_ttl au maximum 24h"), c) else
    (None, set_Domains (map (fun d => ToLower (TrimSpace d)) (Domains c)) c) in
  if bool_decide (State c = StOpen) || bool_decide (State c = StQueue) || bool_decide (State c = StClosed)
  then go c
  else if bool_decide (State c = EmptyString) then go (set_State StQueue c)
  else state_err.

Definition AllowsDomain (c : Config) (h : string) : bool :=
  existsb (String.eqb (ToLower h)) (Domains c).

(** ** The configuration as a Redis hash *)

Section Hash.

(** [json.Marshal] and [json.Unmarshal] at type [map[string]string]; the
    second gives the map as it is left, error or not. *)
Context (marshal_map : gmap string string -> string).
Context (unmarshal_map : string -> gmap string string).

Definition themeJSON (t : gmap string string) : string :=
  if (size t =? 0)%nat then "{}" else marshal_map t.

Definition ToHash (c : Config) : list (string * string) :=
  [("state", State c); ("rate", FormatFloat (Rate c));
   ("max_active", FormatInt (MaxActive c)); ("wave_s", FormatInt (WaveSec c));
   ("pass_ttl", FormatInt (trunc (duration_seconds (PassTTL c)))); ("domains", Join (Domains c) ",");
   ("opens_at", FormatInt (OpensAt c)); ("title", Title c); ("theme", themeJSON (Theme c))]%string.

(** A missing field of a hash reads as the empty string. *)
Definition field (h : gmap string string) (k : string) : string := default EmptyString (h !! k).

Definition on_some {A} (o : option A) (f : A -> Config -> Config) (c : Config) : Config :=
  match o with Some v => f v c | None => c end.

Definition FromHash (h : gmap string string) : Config * bool :=
  if (size h =? 0)%nat then (Defaults, false)
  else
    let c := set_State (field h "state") Defaults in
    let c := on_some (ParseFloat (field h "rate")) set_Rate c in
    let c := on_some (ParseInt (field h "max_active")) set_MaxActive c in
    let c := on_some (ParseInt (field h "wave_s")) set_WaveSec c in
    let c := on_some (ParseInt (field h "pass_ttl")) (fun v => set_PassTTL (wrap64 (v * second))) c in
    let c := if bool_decide (field h "domains" = EmptyString) then c
             else set_Domains (Split ","%char (field h "domains")) c in
    let c := on_some (ParseInt (field h "opens_at")) set_OpensAt c in
    let c := set_Title (field h "title") c in
    let c := if bool_decide (field h "theme" = EmptyString) then c
             else set_Theme (unmarshal_map (field h "theme")) c in
    let '(_, c) := Validate c in
    (c, true).

End Hash.

(** ** Waves *)

(** [t.Unix()] of a time in nanoseconds. *)
Definition unix (now : Z) : Z := now / second.

(** Go's integer division truncates; a divisor of zero panics, which
    [Validate] excludes. *)
Definition Wave (now waveSec : Z) : Z := Z.quot (unix now) waveSec.

Definition WaveScore (wave rank : Z) : f64 := of_int (wrap64 (wrap64 (wave * 10000000) + rank)).

(** ** Identifiers *)

Lemma Parse_inv s id : Parse s = inr id ->
  s = ID_String id /\ slug_match (Tenant id) = true /\ slug_match (Room id) = true.
Proof.
  unfold Parse, ID_String. destruct (Cut "."%char s) as [[t r]|] eqn:E; [|done].
  destruct (slug_match t) eqn:Et, (slug_match r) eqn:Er; simpl; try done.
  intros [= <-]. apply Cut_inv in E as [-> _]. done.
Qed.

Lemma Parse_ID_String id :
  slug_match (Tenant id) = true -> slug_match (Room id) = true -> Parse (ID_String id) = inr id.
Proof.
  intros Ht Hr. unfold Parse, ID_String. change ("." +:+ Room id)%string with (String "."%char (Room id)).
  rewrite Cut_app by (by apply slug_no_sep). rewrite Ht, Hr. by destruct id.
Qed.

(** A queue whose identifier passed [Parse]. *)
Definition valid_ID (id : ID) : Prop := slug_match (Tenant id) = true /\ slug_match (Room id) = true.

Lemma Key_inj_ID id id' s s' : valid_ID id -> valid_ID id' -> Key id s = Key id' s' -> id = id' /\ s = s'.
Proof.
  intros [Ht Hr] [Ht' Hr']. unfold Key. intros H. apply string_app_inv_l in H.
  change (":" +:+ Room id +:+ "}:" +:+ s)%string with (String ":"%char (Room id +:+ String "}"%char (":" +:+ s)))%string in H.
  change (":" +:+ Room id' +:+ "}:" +:+ s')%string with (String ":"%char (Room id' +:+ String "}"%char (":" +:+ s')))%string in H.
  apply sep_app_inj in H as [E1 H]; [|by apply slug_no_sep..].
  apply sep_app_inj in H as [E2 H]; [|by apply slug_no_sep..].
  apply string_app_inv_l in H as E3. destruct id, id'; simpl in *; subst. done.
Qed.

Lemma Key_inj id s s' : Key id s = Key id s' -> s = s'.
Proof. unfold Key. intros H. by do 5 apply string_app_inv_l in H. Qed.

(** ** Configuration *)

(** What a configuration satisfies once [Validate] accepts it. *)
Definition valid_Config (c : Config) : Prop :=
  (State c = StOpen \/ State c = StQueue \/ State c = StClosed) /\
  fleb (Rate c) fzero = false /\ fltb (of_int 100000) (Rate c) = false /\
  1 <= WaveSec c <= 600 /\ minute <= PassTTL c <= 24 * hour /\
  Forall (fun d => ToLower (TrimSpace d) = d) (Domains c).

Lemma map_id_Forall {A} (f : A -> A) l : Forall (fun x => f x = x) l -> map f l = l.
Proof. induction 1 as [|x l Hx Hl IH]; simpl; [done|]. by rewrite Hx, IH. Qed.

Lemma Validate_valid c c' : Validate c = (None, c') -> valid_Config c'.
Proof.
  unfold Validate. intros H.
  assert (Hst : exists c0, (State c0 = StOpen \/ State c0 = StQueue \/ State c0 = StClosed) /\
    (let c := if fleb (Rate c0) fzero then set_Rate (of_int 10) c0 else c0 in
    if fltb (of_int 100000) (Rate c) then (Some (Err "rate trop élevé"), c) else
    let c := if WaveSec c <? 1 then set_WaveSec 30 c else c in
    if 600 <? WaveSec c then (Some (Err "wave_s au maximum 600"), c) else
    let c := if PassTTL c <? minute then set_PassTTL (20 * minute) c else c in
    if 24 * hour <? PassTTL c then (Some (Err "pass_ttl au maximum 24h"), c) else
    (None, set_Domains (map (fun d => ToLower (TrimSpace d)) (Domains c)) c)) = (None, c')).
  { destruct (bool_decide (State c = StOpen)) eqn:E1, (bool_decide (State c = StQueue)) eqn:E2,
      (bool_decide (State c = StClosed)) eqn:E3, (bool_decide (State c = EmptyString)) eqn:E4;
      rewrite ?bool_decide_eq_true in *; cbn [orb] in H; try done;
      try (exists c; split; [tauto|exact H]).
    exists (set_State StQueue c). split; [by right; left|exact H]. }
  clear H. destruct Hst as (c0 & Hs & H). cbv zeta in H.
  set (c1 := if fleb _ _ then _ else _) in H.
  destruct (fltb _ (Rate c1)) eqn:Er; [done|].
  set (c2 := if WaveSec c1 <? 1 then _ else _) in H.
  destruct (Z.ltb_spec 600 (WaveSec c2)); [done|].
  set (c3 := if PassTTL c2 <? minute then _ else _) in H.
  destruct (Z.ltb_spec (24 * hour) (PassTTL c3)); [done|].
  injection H as <-. unfold valid_Config; cbn [State Rate WaveSec PassTTL Domains set_Domains].
  assert (State c3 = State c0) as ->.
  { unfold c3, c2, c1. by destruct (PassTTL _ <? _), (WaveSec _ <? _), (fleb _ _). }
  assert (Rate c3 = Rate c1) as ->.
  { unfold c3, c2. by destruct (PassTTL _ <? _), (WaveSec _ <? _). }
  assert (WaveSec c3 = WaveSec c2) as -> by (unfold c3; by destruct (PassTTL _ <? _)).
  repeat split.
  - exact Hs.
  - unfold c1. destruct (fleb (Rate c0) fzero) eqn:E; [vm_compute; reflexivity|exact E].
  - exact Er.
  - unfold c2. destruct (Z.ltb_spec (WaveSec c1) 1); simpl; lia.
  - lia.
  - unfold c3. destruct (Z.ltb_spec (PassTTL c2) minute); simpl; [unfold minute, second in *; lia|lia].
  - lia.
  - apply Forall_forall. intros d Hd. apply list_elem_of_In, in_map_iff in Hd as (x & <- & _).
    apply lower_trim_idem.
Qed.

Lemma Validate_id c : valid_Config c -> Validate c = (None, c).
Proof.
  intros (Hs & H1 & H2 & H3 & H4 & H5). unfold Validate.
  assert (bool_decide (State c = StOpen) || bool_decide (State c = StQueue)
            || bool_decide (State c = StClosed) = true) as ->.
  { destruct Hs as [E|[E|E]]; rewrite E; reflexivity. }
  rewrite H1, H2. destruct (Z.ltb_spec (WaveSec c) 1); [lia|].
  destruct (Z.ltb_spec 600 (WaveSec c)); [lia|].
  destruct (Z.ltb_spec (PassTTL c) minute); [lia|].
  destruct (Z.ltb_spec (24 * hour) (PassTTL c)); [lia|].
  f_equal. rewrite map_id_Forall by done. by destruct c.
Qed.

(** ** The hash round trip *)

(** The values the Redis form of a configuration can carry: whole seconds,
    64-bit integers, domains without a comma, and a rate and a theme that the
    standard library's encoders give back. *)
Definition hashable (marshal_map : gmap string string -> string)
    (unmarshal_map : string -> gmap string string) (c : Config) : Prop :=
  ParseFloat (FormatFloat (Rate c)) = Some (Rate c) /\
  in_int64 (MaxActive c) = true /\ in_int64 (OpensAt c) = true /\
  PassTTL c mod second = 0 /\ Domains c <> [EmptyString] /\
  Forall (fun d => string_forall (fun a => negb (Ascii.eqb a ","%char)) d = true) (Domains c) /\
  themeJSON marshal_map (Theme c) <> EmptyString /\
  unmarshal_map (themeJSON marshal_map (Theme c)) = Theme c.

Lemma fadd_zero_r z : Z.abs z <= 2 ^ 53 -> fadd (of_int z) (fdiv fzero (of_int 1000000000)) = of_int z.
Proof.
  intros Hz. pose proof (of_int_not_nan z Hz). unfold fadd.
  replace (fdiv fzero (of_int 1000000000)) with fzero by (vm_compute; reflexivity).
  destruct (of_int z) as [s| | |] eqn:E; try done. destruct s; [|done].
  exfalso. unfold of_int in E. destruct z; simpl in E; [done| |];
    apply (f_equal fz) in E; [|].
  - pose proof (fz_of_int (Zpos p) Hz) as Hf. unfold of_int in Hf. simpl binary_normalize in Hf.
    rewrite E in Hf. unfold unit_exp in Hf. simpl fz in Hf. lia.
  - pose proof (fz_of_int (Zneg p) Hz) as Hf. unfold of_int in Hf. simpl binary_normalize in Hf.
    rewrite E in Hf. unfold unit_exp in Hf. simpl fz in Hf. lia.
Qed.

Lemma trunc_of_int z : Z.abs z <= 2 ^ 53 -> is_inf (of_int z) = false -> trunc (of_int z) = z.
Proof.
  intros Hz Hi. unfold trunc, to_int64. rewrite (of_int_not_nan z Hz), Hi, (fz_of_int z Hz).
  rewrite Z.quot_mul by (unfold unit_exp; lia). simpl.
  assert (in_int64 z = true) as -> by (apply in_int64_spec; unfold min_int64, max_int64; lia).
  done.
Qed.

Lemma on_some_Some {A} (v : A) f c : on_some (Some v) f c = f v c.
Proof. done. Qed.

Lemma join_nonempty l : l <> [] -> l <> [EmptyString] -> Join l "," <> EmptyString.
Proof.
  destruct l as [|a [|b l]]; simpl; [done|by intros _ H ->; apply H|].
  intros _ _. destruct a; str_simpl; done.
Qed.

Lemma trunc_seconds d :
  0 <= d <= 2 ^ 53 -> d mod second = 0 -> trunc (duration_seconds d) = d / second.
Proof.
  intros Hd Hm. unfold duration_seconds.
  rewrite Z.quot_div_nonneg, Z.rem_mod_nonneg, Hm by (unfold second; lia).
  assert (Hq : Z.abs (d / second) <= 2 ^ 53).
  { pose proof (Z.div_pos d second). pose proof (Z.div_le_upper_bound d second d). unfold second in *. lia. }
  change (of_int 0) with fzero. rewrite fadd_zero_r by done.
  apply trunc_of_int; [done|by apply is_inf_of_int].
Qed.

(** Every field of the hash is one of those [ToHash] writes. *)
Lemma field_ToHash mm c h :
  let h' := list_to_map (ToHash mm c) ∪ h : gmap string string in
  field h' "state" = State c /\ field h' "rate" = FormatFloat (Rate c) /\
  field h' "max_active" = FormatInt (MaxActive c) /\ field h' "wave_s" = FormatInt (WaveSec c) /\
  field h' "pass_ttl" = FormatInt (trunc (duration_seconds (PassTTL c))) /\
  field h' "domains" = Join (Domains c) "," /\ field h' "opens_at" = FormatInt (OpensAt c) /\
  field h' "title" = Title c /\ field h' "theme" = themeJSON mm (Theme c).
Proof.
  cbv zeta. unfold field, ToHash. cbn [list_to_map foldr fst snd].
  repeat split; rewrite lookup_union; simplify_map_eq; by rewrite union_Some_l.
Qed.

(** Claim C11.  A configuration that [Validate] accepts, whose values have an
    exact text form, is read back from its Redis hash unchanged by [FromHash],
    whatever the hash held before the fields of [ToHash] were written over it. *)
Theorem FromHash_ToHash marshal_map unmarshal_map c h :
  valid_Config c -> hashable marshal_map unmarshal_map c ->
  FromHash unmarshal_map (list_to_map (ToHash marshal_map c) ∪ h) = (c, true).
Proof.
  intros Hv (Hr & Hm & Ho & Hp & Hd1 & Hd2 & Ht & Hu). unfold FromHash.
  destruct (size _ =? 0)%nat eqn:Es.
  { apply Nat.eqb_eq, map_size_empty_inv in Es.
    destruct (field_ToHash marshal_map c h) as (H & _), Hv as (Hs & _).
    rewrite Es in H. unfold field in H. rewrite lookup_empty in H. simpl in H.
    rewrite <- H in Hs. by destruct Hs as [|[|]]. }
  destruct (field_ToHash marshal_map c h) as (-> & -> & -> & -> & -> & -> & -> & -> & ->).
  pose proof Hv as (_ & _ & _ & Hw & Hpt & _).
  rewrite Hr, !ParseInt_FormatInt, trunc_seconds; try done;
    [|unfold minute, hour, second in *; lia| |].
  all: try (apply in_int64_spec; unfold min_int64, max_int64, minute, hour, second in *;
    pose proof (trunc_seconds (PassTTL c)); unfold second in *; try rewrite H by (done || lia);
    pose proof (Z.div_pos (PassTTL c) 1000000000); pose proof (Z.div_le_upper_bound (PassTTL c) 1000000000 (PassTTL c)); lia).
  rewrite (bool_decide_false _ Ht), Hu. cbn [on_some].
  set (dom := if bool_decide _ then _ else _).
  assert (Hdom : dom = set_Domains (Domains c) (set_PassTTL (PassTTL c)
    (set_WaveSec (WaveSec c) (set_MaxActive (MaxActive c) (set_Rate (Rate c) (set_State (State c) Defaults)))))).
  { unfold dom. rewrite wrap64_id; cycle 1.
    { apply in_int64_spec. unfold min_int64, max_int64, minute, hour, second in *.
      pose proof (Z.div_mod (PassTTL c) 1000000000). lia. }
    replace (PassTTL c / second * second) with (PassTTL c)
      by (unfold second in *; pose proof (Z.div_mod (PassTTL c) 1000000000); lia).
    destruct (decide (Domains c = [])) as [->|Hne]; [done|].
    rewrite (bool_decide_false _ (join_nonempty _ Hne Hd1)).
    change ","%string with (str1 ","%char). by rewrite Split_Join. }
  rewrite Hdom. clear dom Hdom. destruct c; cbn. by rewrite Validate_id.
Qed.

(** The Redis keys of two queues never collide: identifiers that
    passed [Parse] and any two suffixes give the same key only when both the
    identifiers and the suffixes are the same. *)
Theorem Key_injective s s' id id' k k' :
  Parse s = inr id -> Parse s' = inr id' -> Key id k = Key id' k' -> id = id' /\ k = k'.
Proof.
  intros (_ & Ht & Hr)%Parse_inv (_ & Ht' & Hr')%Parse_inv. apply Key_inj_ID; done.
Qed.

(** ** Scores *)

Lemma WaveScore_exact w r :
  0 <= w -> 0 <= r -> w * 10000000 + r <= 2 ^ 53 ->
  fz (WaveScore w r) = (w * 10000000 + r) * 2 ^ unit_exp /\
  is_nan (WaveScore w r) = false.
Proof.
  intros Hw Hr Hle. unfold WaveScore.
  rewrite (wrap64_id (w * 10000000)) by (apply in_int64_spec; unfold min_int64, max_int64; lia).
  rewrite wrap64_id by (apply in_int64_spec; unfold min_int64, max_int64; lia).
  split; [apply fz_of_int|apply of_int_not_nan]; lia.
Qed.

Lemma lex_score w r w' r' :
  0 <= r < 10000000 -> 0 <= r' < 10000000 ->
  (w * 10000000 + r < w' * 10000000 + r' <-> w < w' \/ (w = w' /\ r < r')).
Proof. lia. Qed.

(** Scores order tickets by wave, then by the rank drawn in the
    wave, as long as the wave numbers stay below 9 * 10^8, i.e. the clock below
    [9 * 10^8 * waveSec] seconds, and no wave has more than 10^7 tickets. *)
Theorem WaveScore_order now now' waveSec r r' :
  0 < waveSec -> 0 <= unix now <= 900000000 * waveSec -> 0 <= unix now' <= 900000000 * waveSec ->
  0 <= r < 10000000 -> 0 <= r' < 10000000 ->
  fltb (WaveScore (Wave now waveSec) r) (WaveScore (Wave now' waveSec) r') = true <->
  Wave now waveSec < Wave now' waveSec \/ (Wave now waveSec = Wave now' waveSec /\ r < r').
Proof.
  intros Hs Hn Hn' Hr Hr'. unfold Wave. rewrite !Z.quot_div_nonneg by lia.
  assert (Hb : forall u, 0 <= u <= 900000000 * waveSec -> 0 <= u / waveSec <= 900000000).
  { intros u Hu. split; [apply Z.div_pos; lia|apply Z.div_le_upper_bound; lia]. }
  pose proof (Hb _ Hn). pose proof (Hb _ Hn').
  destruct (WaveScore_exact (unix now / waveSec) r) as [E1 N1]; [lia..|].
  destruct (WaveScore_exact (unix now' / waveSec) r') as [E2 N2]; [lia..|].
  unfold fltb. rewrite N1, N2, E1, E2. simpl. rewrite Z.ltb_lt, <- Z.mul_lt_mono_pos_r by done.
  apply lex_score; lia.
Qed.

(** A configuration the administration may set: one-second waves. *)
Definition fast_waves : Config := set_WaveSec 1 Defaults.

(** With one-second waves, which [Validate] accepts, scores no
    longer fit in the 53 bits of a [float64]: in November 2023 the first two
    tickets of a wave had the same score, so that Redis ordered them by their
    identifiers and not by the rank drawn. *)
Theorem WaveScore_collision :
  Validate fast_waves = (None, fast_waves) /\
  feqb (WaveScore (Wave (1700000000 * second) (WaveSec fast_waves)) 0)
       (WaveScore (Wave (1700000000 * second) (WaveSec fast_waves)) 1) = true.
Proof. vm_compute. done. Qed.

(** ** Witnesses *)

(** A text form of the themes of the witnesses. *)
Definition enc_pairs (t : gmap string string) : string :=
  Join (map (fun p => p.1 +:+ "=" +:+ p.2)%string (map_to_list t)) "&".
Definition dec_pairs (s : string) : gmap string string :=
  list_to_map (omap (Cut "="%char) (Split "&"%char s)).

Definition shop : Config :=
  MkConfig StQueue (fdiv (of_int 5) (of_int 2)) 500 30 (15 * minute)
    ["shop.example.com"; "www.example.com"]%string 1700000000 "Vente" {["color" := "#fff"; "logo" := "x.png"]}%string.

Lemma shop_valid : valid_Config shop.
Proof.
  split; [by right; left|]. split; [vm_compute; reflexivity|]. split; [vm_compute; reflexivity|].
  split; [vm_compute; split; discriminate|]. split; [vm_compute; split; discriminate|].
  repeat constructor.
Defined.

Lemma shop_hashable : hashable enc_pairs dec_pairs shop.
Proof.
  do 4 (split; [vm_compute; reflexivity|]).
  split; [intros H; apply (f_equal length) in H; discriminate H|].
  split; [repeat constructor|].
  split; [|vm_compute; reflexivity].
  intros H. apply (f_equal String.length) in H. vm_compute in H. discriminate H.
Defined.

Lemma FromHash_ToHash_witness :
  FromHash dec_pairs (list_to_map (ToHash enc_pairs shop) ∪ {["old" := "1"]}%string) = (shop, true).
Proof. apply FromHash_ToHash; [apply shop_valid|apply shop_hashable]. Defined.

Lemma Key_injective_witness :
  MkID "a" "b" = MkID "a" "b" /\ "cfg"%string = "cfg"%string.
Proof. apply (Key_injective "a.b" "a.b"); reflexivity. Defined.

Lemma WaveScore_order_witness :
  fltb (WaveScore (Wave (1700000000 * second) 30) 9) (WaveScore (Wave (1700000030 * second) 30) 3) = true <->
  Wave (1700000000 * second) 30 < Wave (1700000030 * second) 30 \/
  (Wave (1700000000 * second) 30 = Wave (1700000030 * second) 30 /\ 9 < 3).
Proof. apply WaveScore_order; vm_compute; repeat split; discriminate. Defined.
