(* ===== verification/Base64.v ===== *)
(** * Base 64, as in Go's [encoding/base64]

    The standard alphabet with padding and the URL alphabet without: [encode]
    and [decode] are the [EncodeToString] and [DecodeString] of
    [StdEncoding] and [RawURLEncoding].  The decoder skips line breaks and
    does not look at the spare bits of the last quantum. *)
From Stdlib Require Import Ascii.
From S2P Require Import Prelude GoStr.

Local Open Scope Z_scope.

Definition byte (a : ascii) : Z := Z.of_nat (nat_of_ascii a).
Definition of_byte (z : Z) : ascii := chr (Z.to_nat z).

Definition alphabet : string := "ABCDEFGHIJKLMNOPQRSTUVWXYZabcdefghijklmnopqrstuvwxyz0123456789".

(** The 64 characters of an encoding, and whether it pads. *)
Record encoding : Type := MkEncoding { chars : string; padded : bool }.
Definition StdEncoding : encoding := MkEncoding (alphabet +:+ "+/") true.
Definition RawURLEncoding : encoding := MkEncoding (alphabet +:+ "-_") false.

Definition enc6 (e : encoding) (n : Z) : ascii :=
  match String.get (Z.to_nat n) (chars e) with Some a => a | None => "="%char end.

Fixpoint index (a : ascii) (s : string) (i : Z) : option Z :=
  match s with
  | EmptyString => None
  | String b s' => if Ascii.eqb a b then Some i else index a s' (i + 1)
  end.
Definition dec6 (e : encoding) (a : ascii) : option Z := index a (chars e) 0.

Fixpoint encode (e : encoding) (s : string) : string :=
  match s with
  | EmptyString => EmptyString
  | String a EmptyString =>
      let n := byte a * 16 in
      String (enc6 e (n / 64)) (String (enc6 e (n mod 64)) (if padded e then "==" else ""))
  | String a (String b EmptyString) =>
      let n := (byte a * 256 + byte b) * 4 in
      String (enc6 e (n / 4096)) (String (enc6 e (n / 64 mod 64)) (String (enc6 e (n mod 64))
        (if padded e then "=" else "")))
  | String a (String b (String c r)) =>
      let n := (byte a * 256 + byte b) * 256 + byte c in
      String (enc6 e (n / 262144)) (String (enc6 e (n / 4096 mod 64))
        (String (enc6 e (n / 64 mod 64)) (String (enc6 e (n mod 64)) (encode e r))))
  end.

Definition is_break (a : ascii) : bool := Ascii.eqb a (chr 10) || Ascii.eqb a (chr 13).

Fixpoint strip_breaks (s : string) : string :=
  match s with
  | EmptyString => EmptyString
  | String a s' => if is_break a then strip_breaks s' else String a (strip_breaks s')
  end.

(** The last quantum: one or two bytes, with its padding when the encoding
    pads. *)
Definition decode1 (e : encoding) (x y : ascii) : option string :=
  match dec6 e x, dec6 e y with
  | Some p, Some q => Some (str1 (of_byte ((p * 64 + q) / 16)))
  | _, _ => None
  end.
Definition decode2 (e : encoding) (x y z : ascii) : option string :=
  match dec6 e x, dec6 e y, dec6 e z with
  | Some p, Some q, Some r =>
      let n := ((p * 64 + q) * 64 + r) / 4 in
      Some (String (of_byte (n / 256)) (str1 (of_byte (n mod 256))))
  | _, _, _ => None
  end.

Fixpoint decode_quanta (e : encoding) (s : string) : option string :=
  match s with
  | EmptyString => Some EmptyString
  | String x (String y (String z (String w r))) =>
      if Ascii.eqb w "="%char && padded e && bool_decide (r = EmptyString)
      then if Ascii.eqb z "="%char then decode1 e x y else decode2 e x y z
      else
      match dec6 e x, dec6 e y, dec6 e z, dec6 e w with
      | Some p, Some q, Some r3, Some r4 =>
          let n := ((p * 64 + q) * 64 + r3) * 64 + r4 in
          match decode_quanta e r with
          | Some t => Some (String (of_byte (n / 65536))
                        (String (of_byte (n / 256 mod 256)) (String (of_byte (n mod 256)) t)))
          | None => None
          end
      | _, _, _, _ => None
      end
  | String x (String y (String z EmptyString)) => if padded e then None else decode2 e x y z
  | String x (String y EmptyString) => if padded e then None else decode1 e x y
  | String _ EmptyString => None
  end.

Definition decode (e : encoding) (s : string) : option string := decode_quanta e (strip_breaks s).

(** ** Round trip *)

Definition good (e : encoding) : bool :=
  forallb (fun n => match dec6 e (enc6 e (Z.of_nat n)) with Some m => m =? Z.of_nat n | None => false end
             && negb (is_break (enc6 e (Z.of_nat n))) && negb (Ascii.eqb (enc6 e (Z.of_nat n)) "="%char)
             && negb (Ascii.eqb (enc6 e (Z.of_nat n)) "."%char)) (seq 0 64).

Lemma StdEncoding_good : good StdEncoding = true.
Proof. vm_compute. reflexivity. Qed.
Lemma RawURLEncoding_good : good RawURLEncoding = true.
Proof. vm_compute. reflexivity. Qed.

Lemma enc6_spec e n :
  good e = true -> 0 <= n < 64 ->
  dec6 e (enc6 e n) = Some n /\ is_break (enc6 e n) = false /\
  Ascii.eqb (enc6 e n) "="%char = false /\ Ascii.eqb (enc6 e n) "."%char = false.
Proof.
  unfold good. rewrite forallb_forall. intros Hg Hn. specialize (Hg (Z.to_nat n)).
  rewrite in_seq, Z2Nat.id in Hg by lia. specialize (Hg ltac:(lia)).
  rewrite !andb_true_iff, !negb_true_iff in Hg. destruct Hg as [[[H1 H2] H3] H4].
  destruct (dec6 e (enc6 e n)) as [m|]; [|done]. apply Z.eqb_eq in H1 as ->. done.
Qed.

Lemma byte_range a : 0 <= byte a < 256.
Proof. unfold byte. pose proof (nat_ascii_bounded a). lia. Qed.

Lemma of_byte_byte a : of_byte (byte a) = a.
Proof. unfold of_byte, byte, chr. rewrite Nat2Z.id. apply ascii_nat_embedding. Qed.

Lemma byte_of_byte z : 0 <= z < 256 -> byte (of_byte z) = z.
Proof. intros Hz. unfold byte, of_byte, chr. rewrite nat_ascii_embedding; lia. Qed.

(** Three-step induction on strings. *)
Lemma string_ind3 (P : string -> Prop) :
  P EmptyString -> (forall a, P (str1 a)) -> (forall a b, P (String a (str1 b))) ->
  (forall a b c s, P s -> P (String a (String b (String c s)))) -> forall s, P s.
Proof.
  intros H0 H1 H2 H3. fix IH 1. intros [|a [|b [|c s]]]; [exact H0|exact (H1 a)|exact (H2 a b)|].
  apply H3. apply IH.
Qed.

(** The four digits of a quantum of three bytes, and back. *)
Lemma quantum3 a b c :
  0 <= a < 256 -> 0 <= b < 256 -> 0 <= c < 256 ->
  let n := (a * 256 + b) * 256 + c in
  (0 <= n / 262144 < 64 /\ 0 <= n / 4096 mod 64 < 64 /\ 0 <= n / 64 mod 64 < 64 /\ 0 <= n mod 64 < 64) /\
  ((n / 262144 * 64 + n / 4096 mod 64) * 64 + n / 64 mod 64) * 64 + n mod 64 = n /\
  n / 65536 = a /\ n / 256 mod 256 = b /\ n mod 256 = c.
Proof. intros. cbv zeta. Z.div_mod_to_equations. lia. Qed.

Lemma quantum2 a b :
  0 <= a < 256 -> 0 <= b < 256 ->
  let n := (a * 256 + b) * 4 in
  (0 <= n / 4096 < 64 /\ 0 <= n / 64 mod 64 < 64 /\ 0 <= n mod 64 < 64) /\
  let m := ((n / 4096 * 64 + n / 64 mod 64) * 64 + n mod 64) / 4 in m / 256 = a /\ m mod 256 = b.
Proof. intros. cbv zeta. Z.div_mod_to_equations. lia. Qed.

Lemma quantum1 a :
  0 <= a < 256 ->
  (0 <= a * 16 / 64 < 64 /\ 0 <= a * 16 mod 64 < 64) /\ (a * 16 / 64 * 64 + a * 16 mod 64) / 16 = a.
Proof. intros. Z.div_mod_to_equations. lia. Qed.

Lemma strip_breaks_cons a s : is_break a = false -> strip_breaks (String a s) = String a (strip_breaks s).
Proof. simpl. by intros ->. Qed.

Lemma strip_encode e s : good e = true -> strip_breaks (encode e s) = encode e s.
Proof.
  intros Hg.
  assert (Hb : forall n, 0 <= n < 64 -> is_break (enc6 e n) = false) by (intros n Hn; by apply enc6_spec).
  induction s as [|a|a b|a b c s IH] using string_ind3; cbn [encode str1]; [done|..].
  - destruct (quantum1 (byte a) (byte_range a)) as [[H1 H2] _].
    rewrite !strip_breaks_cons by auto. by destruct (padded e).
  - destruct (quantum2 (byte a) (byte b) (byte_range a) (byte_range b)) as [(H1 & H2 & H3) _].
    rewrite !strip_breaks_cons by auto. by destruct (padded e).
  - destruct (quantum3 (byte a) (byte b) (byte c) (byte_range a) (byte_range b) (byte_range c))
      as [(H1 & H2 & H3 & H4) _].
    rewrite !strip_breaks_cons by auto. by rewrite IH.
Qed.

Lemma decode1_encode e a :
  good e = true -> decode1 e (enc6 e (byte a * 16 / 64)) (enc6 e (byte a * 16 mod 64)) = Some (str1 a).
Proof.
  intros Hg. destruct (quantum1 (byte a) (byte_range a)) as [[H1 H2] H3]. unfold decode1.
  rewrite (proj1 (enc6_spec e _ Hg H1)), (proj1 (enc6_spec e _ Hg H2)), H3. by rewrite of_byte_byte.
Qed.

Lemma decode2_encode e a b :
  good e = true ->
  let n := (byte a * 256 + byte b) * 4 in
  decode2 e (enc6 e (n / 4096)) (enc6 e (n / 64 mod 64)) (enc6 e (n mod 64)) = Some (String a (str1 b)).
Proof.
  intros Hg. destruct (quantum2 (byte a) (byte b) (byte_range a) (byte_range b)) as [(H1 & H2 & H3) [H4 H5]].
  cbv zeta in *. unfold decode2.
  rewrite (proj1 (enc6_spec e _ Hg H1)), (proj1 (enc6_spec e _ Hg H2)), (proj1 (enc6_spec e _ Hg H3)).
  by rewrite H4, H5, !of_byte_byte.
Qed.

Lemma decode_encode e s : good e = true -> decode e (encode e s) = Some s.
Proof.
  intros Hg. unfold decode. rewrite strip_encode by done.
  induction s as [|a|a b|a b c s IH] using string_ind3; cbn [encode str1]; [done|..].
  - pose proof (decode1_encode e a Hg) as Hd. by destruct (padded e) eqn:Ep; cbn; rewrite ?Ep.
  - pose proof (decode2_encode e a b Hg) as Hd. cbv zeta in Hd.
    destruct (quantum2 (byte a) (byte b) (byte_range a) (byte_range b)) as [(_ & _ & H3) _].
    destruct (enc6_spec e _ Hg H3) as (_ & _ & Hne & _).
    by destruct (padded e) eqn:Ep; cbn -[Z.mul Z.add Z.div Z.modulo]; rewrite ?Ep, ?Hne.
  - destruct (quantum3 (byte a) (byte b) (byte c) (byte_range a) (byte_range b) (byte_range c))
      as [(H1 & H2 & H3 & H4) (H5 & H6 & H7 & H8)].
    destruct (enc6_spec e _ Hg H4) as (D4 & _ & Hne & _). cbn [decode_quanta]. rewrite Hne. cbn [andb].
    rewrite (proj1 (enc6_spec e _ Hg H1)), (proj1 (enc6_spec e _ Hg H2)), (proj1 (enc6_spec e _ Hg H3)), D4.
    rewrite IH, H5, H6, H7, H8. by rewrite !of_byte_byte.
Qed.

(** What holds of the 64 characters holds of the encoded text. *)
Lemma encode_forall (p : ascii -> bool) e s :
  padded e = false -> forallb (fun n => p (enc6 e (Z.of_nat n))) (seq 0 64) = true ->
  string_forall p (encode e s) = true.
Proof.
  intros Hp Hall.
  assert (Hb : forall n, 0 <= n < 64 -> p (enc6 e n) = true).
  { intros n Hn. rewrite forallb_forall in Hall. specialize (Hall (Z.to_nat n)).
    rewrite in_seq, Z2Nat.id in Hall by lia. apply Hall. lia. }
  induction s as [|a|a b|a b c s IH] using string_ind3; cbn [encode str1]; [done|..]; rewrite ?Hp.
  - destruct (quantum1 (byte a) (byte_range a)) as [[H1 H2] _]. cbn [string_forall]. by rewrite !Hb by done.
  - destruct (quantum2 (byte a) (byte b) (byte_range a) (byte_range b)) as [(H1 & H2 & H3) _].
    cbn [string_forall]. by rewrite !Hb by done.
  - destruct (quantum3 (byte a) (byte b) (byte c) (byte_range a) (byte_range b) (byte_range c))
      as [(H1 & H2 & H3 & H4) _]. cbn [string_forall]. rewrite !Hb by done. by rewrite IH.
Qed.

(** The encoded text has no dot. *)
Lemma encode_no_dot e s :
  good e = true -> padded e = false ->
  string_forall (fun a => negb (Ascii.eqb a "."%char)) (encode e s) = true.
Proof.
  intros Hg Hp. apply encode_forall; [done|]. apply forallb_forall. intros n [_ Hn]%in_seq.
  apply negb_true_iff. apply (enc6_spec e (Z.of_nat n) Hg). lia.
Qed.
