(* ===== verification/Net.v ===== *)
(** * Internet addresses: [net.ParseIP] and [To4]

    The text forms [net.ParseIP] documents: dotted decimal, IPv6, IPv6 with an
    embedded IPv4 address; no zone, no leading zero in a decimal field.  An
    address is its sixteen bytes, an IPv4 address being mapped into IPv6. *)
From Stdlib Require Import Ascii.
From S2P Require Import Prelude GoStr.

Local Open Scope list_scope.
Local Open Scope Z_scope.

(** ** Dotted decimal *)

Definition octet (s : string) : option Z :=
  if bool_decide (s = EmptyString) || negb (string_forall is_digit s) then None
  else if HasPrefix s "0" && (1 <? String.length s)%nat then None
  else n ← parse_dec s; if n <=? 255 then Some n else None.

Definition ParseIPv4 (s : string) : option (list Z) :=
  match Split "."%char s with
  | [a; b; c; d] => mapM octet [a; b; c; d]
  | _ => None
  end.

(** ** IPv6 *)

Definition hex_val (a : ascii) : option Z :=
  if is_digit a then Some (Z.of_nat (nat_of_ascii a) - 48)
  else if in_range 97 102 a then Some (Z.of_nat (nat_of_ascii a) - 87)
  else if in_range 65 70 a then Some (Z.of_nat (nat_of_ascii a) - 55)
  else None.

(** The hexadecimal digits at the head of a text, how many they are, their
    value, and what follows. *)
Fixpoint take_hex (n : nat) (v : Z) (s : string) : nat * Z * string :=
  match s with
  | String a r => match hex_val a with Some d => take_hex (S n) (v * 16 + d) r | None => (n, v, s) end
  | EmptyString => (n, v, s)
  end.

(** The groups, [k] of them at most; [got] are the bytes read so far and
    [dots] the place of the [::].  The text is used up or the result is [None]. *)
Fixpoint groups (k : nat) (s : string) (got : list Z) (dots : option nat) : option (list Z * option nat) :=
  match k with
  | O => None
  | S k =>
      let '(n, v, r) := take_hex 0 0 s in
      if bool_decide (n = 0%nat) || (4 <? n)%nat then None
      else
        let got' := got ++ [v / 256; v mod 256] in
        match r with
        | EmptyString => Some (got', dots)
        | String c r =>
            if Ascii.eqb c "."%char then
              if (bool_decide (dots = None) && negb (length got =? 12)%nat) || (16 <? length got + 4)%nat then None
              else b ← ParseIPv4 s; Some (got ++ b, dots)
            else if negb (Ascii.eqb c ":"%char) then None
            else match r with
                 | EmptyString => None
                 | String c' r' =>
                     if Ascii.eqb c' ":"%char then
                       match dots with
                       | Some _ => None
                       | None => if bool_decide (r' = EmptyString) then Some (got', Some (length got'))
                                 else groups k r' got' (Some (length got'))
                       end
                     else groups k r got' dots
                 end
        end
  end.

(** The [::] stands for one group of zeros or more. *)
Definition expand (x : list Z * option nat) : option (list Z) :=
  let '(got, dots) := x in
  match dots with
  | None => if (length got =? 16)%nat then Some got else None
  | Some e => if (length got <? 16)%nat then Some (take e got ++ replicate (16 - length got) 0 ++ drop e got) else None
  end.

Definition ParseIPv6 (s : string) : option (list Z) :=
  match cut_prefix "::" s with
  | Some EmptyString => Some (replicate 16 0)
  | Some r => groups 8 r [] (Some 0%nat) ≫= expand
  | None => groups 8 s [] None ≫= expand
  end.

(** ** [net.ParseIP] *)

Definition mapped : list Z := replicate 10 0 ++ [255; 255].

(** The first [.] or [:] tells the form. *)
Fixpoint address_form (s : string) : option ascii :=
  match s with
  | EmptyString => None
  | String a s => if Ascii.eqb a "."%char || Ascii.eqb a ":"%char then Some a else address_form s
  end.

Definition ParseIP (s : string) : option (list Z) :=
  if negb (free_of "%"%char s) then None
  else match address_form s with
       | Some a => if Ascii.eqb a "."%char then (fun b => mapped ++ b) <$> ParseIPv4 s else ParseIPv6 s
       | None => None
       end.

Definition To4 (ip : list Z) : option (list Z) :=
  if bool_decide (take 12 ip = mapped) then Some (drop 12 ip) else None.

Example ip_dotted : ParseIP "10.0.0.7" = Some (mapped ++ [10; 0; 0; 7]).
Proof. reflexivity. Qed.
Example ip_zero : ParseIP "10.0.0.07" = None /\ ParseIP "10.0.0.256" = None /\ ParseIP "10.0.0" = None /\ ParseIP "1.2.3.4%eth0" = None.
Proof. repeat split. Qed.
Example ip_six : ParseIP "2001:DB8::7" = Some [32; 1; 13; 184; 0; 0; 0; 0; 0; 0; 0; 0; 0; 0; 0; 7].
Proof. reflexivity. Qed.
Example ip_embedded : ParseIP "::ffff:10.0.0.7" = ParseIP "10.0.0.7" /\ ParseIP "::" = Some (replicate 16 0).
Proof. split; reflexivity. Qed.
Example ip_six_bad :
  ParseIP "1:2:3:4:5:6:7:8::" = None /\ ParseIP "::1::2" = None /\ ParseIP "12345::" = None /\ ParseIP "1:2:3:4:5:6:7" = None
  /\ ParseIP "1:2:3:4:5:6:7::" <> None /\ ParseIP "1:2:3:4:5:6:1.2.3.4" <> None /\ ParseIP "1:2:3:4:5:6:7:1.2.3.4" = None
  /\ ParseIP "::1:2:3:4:5:6:7:8" = None /\ ParseIP "1:" = None /\ ParseIP ":1" = None /\ ParseIP "fe80::1%eth0" = None.
Proof. repeat split; discriminate. Qed.

(** ** What an accepted text is made of *)

Definition ip_char (a : ascii) : bool :=
  bool_decide (is_Some (hex_val a)) || Ascii.eqb a "."%char || Ascii.eqb a ":"%char.

Lemma digit_ip_char a : is_digit a = true -> ip_char a = true.
Proof. intros H. unfold ip_char, hex_val. by rewrite H. Qed.

Lemma string_forall_split (p : ascii -> bool) sep s :
  p sep = true -> Forall (fun x => string_forall p x = true) (Split sep s) -> string_forall p s = true.
Proof.
  intros Hp. induction s as [|a s IH]; [done|]. cbn [Split string_forall]. case_eq (Ascii.eqb a sep); intros Ha.
  - intros [_ H]%Forall_cons. apply Ascii.eqb_eq in Ha as ->. rewrite Hp. by apply IH.
  - destruct (Split sep s) as [|x l]; intros [H1 H2]%Forall_cons; cbn [string_forall] in H1;
      apply andb_prop in H1 as [-> H1]; apply IH; by constructor.
Qed.

Lemma octet_chars s n : octet s = Some n -> string_forall ip_char s = true.
Proof.
  unfold octet. destruct (_ || _) eqn:Hd; [done|]. apply orb_false_elim in Hd as [_ Hd%negb_false_iff].
  intros _. eapply string_forall_impl, Hd. apply digit_ip_char.
Qed.

Lemma ParseIPv4_inv s b : ParseIPv4 s = Some b -> string_forall ip_char s = true /\ length b = 4%nat.
Proof.
  unfold ParseIPv4. destruct (Split "."%char s) as [|x1 [|x2 [|x3 [|x4 [|]]]]] eqn:Hs; try done. intros Hm. split.
  - apply (string_forall_split _ "."%char); [done|]. rewrite Hs. apply mapM_Some_1 in Hm.
    apply Forall_forall. intros x [i Hi]%list_elem_of_lookup. destruct (Forall2_lookup_l _ _ _ _ _ Hm Hi) as (n & _ & Hn).
    by eapply octet_chars.
  - apply mapM_Some_1, Forall2_length in Hm. by rewrite <- Hm.
Qed.

Lemma take_hex_inv s : forall n v n' v' r, take_hex n v s = (n', v', r) ->
  exists h, s = h +:+ r /\ string_forall ip_char h = true.
Proof.
  induction s as [|a s IH]; intros n v n' v' r; cbn [take_hex].
  - intros [= <- <- <-]. by exists EmptyString.
  - destruct (hex_val a) as [d|] eqn:Ha.
    + intros (h & -> & Hh)%IH. exists (String a h). split; [done|]. cbn [string_forall]. unfold ip_char at 1.
      by rewrite Ha.
    + intros [= <- <- <-]. by exists EmptyString.
Qed.

Lemma groups_chars k : forall s got dots x, groups k s got dots = Some x -> string_forall ip_char s = true.
Proof.
  induction k as [|k IH]; intros s got dots x; [done|]. cbn [groups].
  destruct (take_hex 0 0 s) as [[n v] r] eqn:Ht. destruct (take_hex_inv _ _ _ _ _ _ Ht) as (h & Hs & Hh).
  destruct (_ || _); [done|]. destruct r as [|c r].
  - intros _. by rewrite Hs, string_app_nil_r.
  - case_eq (Ascii.eqb c "."%char); intros Hc.
    + destruct (_ || _); [done|]. destruct (ParseIPv4 s) as [b|] eqn:Hb; [|done]. intros _. by apply ParseIPv4_inv in Hb as [].
    + case_eq (Ascii.eqb c ":"%char); intros Hc'; [|done]. cbn [negb]. apply Ascii.eqb_eq in Hc' as ->.
      rewrite Hs, string_forall_app, Hh. cbn [string_forall andb]. change (ip_char ":"%char) with true. cbn [andb].
      destruct r as [|c' r']; [done|]. case_eq (Ascii.eqb c' ":"%char); intros Hc'.
      * apply Ascii.eqb_eq in Hc' as ->. destruct dots as [e|]; [done|]. case_bool_decide as Hr; [by subst r'|].
        intros H%IH. exact H.
      * apply IH.
Qed.

Lemma expand_length x ip : expand x = Some ip -> length ip = 16%nat.
Proof.
  destruct x as [got [e|]]; cbn [expand].
  - destruct (Nat.ltb_spec (length got) 16) as [Hl|]; [|done]. intros [= <-].
    rewrite !length_app, length_replicate, length_take, length_drop. lia.
  - destruct (Nat.eqb_spec (length got) 16); [|done]. by intros [= <-].
Qed.

Lemma cut_prefix_inv p : forall s r, cut_prefix p s = Some r -> s = p +:+ r.
Proof.
  induction p as [|a p IH]; intros s r; cbn [cut_prefix]; [by destruct s; intros [= <-]|].
  destruct s as [|b s]; [done|]. case_eq (Ascii.eqb a b); intros Hab; [|done].
  apply Ascii.eqb_eq in Hab as ->. by intros ->%IH.
Qed.

Lemma ParseIPv6_inv s ip : ParseIPv6 s = Some ip -> string_forall ip_char s = true /\ length ip = 16%nat.
Proof.
  unfold ParseIPv6. destruct (cut_prefix "::" s) as [r|] eqn:Hc.
  - apply cut_prefix_inv in Hc as ->.
    destruct r as [|c r]; [by intros [= <-]|]. intros (x & Hg & He)%bind_Some.
    split; [|by eapply expand_length]. rewrite string_forall_app. apply groups_chars in Hg. by rewrite Hg.
  - intros (x & Hg & He)%bind_Some. split; [by eapply groups_chars|by eapply expand_length].
Qed.

Lemma ParseIP_inv s ip : ParseIP s = Some ip -> string_forall ip_char s = true /\ length ip = 16%nat /\ s <> EmptyString.
Proof.
  unfold ParseIP. destruct (negb _); [done|]. destruct (address_form s) as [a|] eqn:Hf; [|done].
  assert (s <> EmptyString) by (by intros ->). destruct (Ascii.eqb a "."%char).
  - intros (b & [Hb Hl]%ParseIPv4_inv & ->)%fmap_Some. by rewrite length_app, Hl.
  - by intros [Hb Hl]%ParseIPv6_inv.
Qed.
