(* ===== verification/Pass.v ===== *)
(** * Package [pass]: the signed passes

    [internal/pass/pass.go].  PEM and X.509 decoding, SHA-256, ECDSA and the
    JSON decoder of the payload belong to Go's cryptographic and encoding
    packages: they are parameters, whose documented behaviour the theorems
    name as hypotheses.  Printing the token, its base 64 form and the checks
    of [Verify] are translated. *)
From Stdlib Require Import Ascii.
From S2P Require Import Prelude GoStr F64 Json Base64.

Local Open Scope Z_scope.

Record Claims : Type := MkClaims {
  c_Sub : string; c_Tenant : string; c_Dom : string; c_Room : string; c_TTL : Z }.

Record Payload : Type := MkPayload {
  p_Iss : string; p_Sub : string; p_Tid : string; p_Dom : string; p_Rm : string;
  p_Iat : Z; p_Exp : Z; p_Kid : string }.

#[export] Instance Payload_eq_dec : EqDecision Payload.
Proof. solve_decision. Defined.

(** The JSON form: the tenant is omitted when empty. *)
Definition payload_json (p : Payload) : json :=
  JObj ([("iss"%string, JStr (p_Iss p)); ("sub"%string, JStr (p_Sub p))]
    ++ (if bool_decide (p_Tid p = EmptyString) then [] else [("tid"%string, JStr (p_Tid p))])
    ++ [("dom"%string, JStr (p_Dom p)); ("rm"%string, JStr (p_Rm p)); ("iat"%string, JInt (p_Iat p));
        ("exp"%string, JInt (p_Exp p)); ("kid"%string, JStr (p_Kid p))]).

(** The protected header, its keys in the order of a Go map. *)
Definition header_json (kid : string) : json :=
  JObj [("alg", JStr "ES256"); ("kid", JStr kid); ("typ", JStr "JWT")]%string.

Definition b64 (b : string) : string := encode RawURLEncoding b.

(** [i.FillBytes] of 32 bytes, big endian; a larger number panics, which an
    ECDSA signature on P-256 never is. *)
Fixpoint be_bytes (n : nat) (z : Z) : string :=
  match n with
  | O => EmptyString
  | S n => (be_bytes n (z / 256) +:+ str1 (of_byte (z mod 256)))%string
  end.
Definition pad32 (i : Z) : string := be_bytes 32 i.

(** [new(big.Int).SetBytes]. *)
Fixpoint SetBytes_from (acc : Z) (s : string) : Z :=
  match s with EmptyString => acc | String a s' => SetBytes_from (acc * 256 + byte a) s' end.
Definition SetBytes (s : string) : Z := SetBytes_from 0 s.

(** [s[:n]] and [s[n:]]. *)
Fixpoint stake (n : nat) (s : string) : string :=
  match n, s with S n, String a s' => String a (stake n s') | _, _ => EmptyString end.
Fixpoint sdrop (n : nat) (s : string) : string :=
  match n, s with S n, String a s' => sdrop n s' | _, _ => s end.

Section Pass.
(** Private and public keys. *)
Context {SK PK : Type}.
(** [pem.Decode] followed by the bytes of the block; [x509.ParseECPrivateKey];
    [x509.ParsePKIXPublicKey], whose key may be of another kind ([None]). *)
Context (pem_decode : string -> option string).
Context (parse_ec : string -> goerr + SK).
Context (parse_pkix : string -> goerr + option PK).
Context (sha256 : string -> string).
(** [ecdsa.Sign] with the randomness it draws, [ecdsa.Verify]. *)
Context (ecdsa_sign : Z -> SK -> string -> goerr + (Z * Z)).
Context (ecdsa_verify : PK -> string -> Z -> Z -> bool).
(** [json.Unmarshal] at type [Payload]. *)
Context (unmarshal_payload : string -> goerr + Payload).

Definition ParsePrivate (pemStr : string) : goerr + SK :=
  match pem_decode pemStr with
  | None => inl (Err "clé privée : PEM invalide")
  | Some b => parse_ec b
  end.

Definition ParsePublic (pemStr : string) : goerr + PK :=
  match pem_decode pemStr with
  | None => inl (Err "clé publique : PEM invalide")
  | Some b =>
      match parse_pkix b with
      | inl e => inl e
      | inr None => inl (Err "clé publique : pas une clé ECDSA")
      | inr (Some pub) => inr pub
      end
  end.

(** [sub8] and [nonce] are the random draws, [now] the clock in seconds. *)
Definition Mint (sub8 : string) (nonce now : Z) (privatePEM kid : string) (c : Claims) : goerr + string :=
  match ParsePrivate privatePEM with
  | inl e => inl e
  | inr priv =>
      let sub := if bool_decide (c_Sub c = EmptyString) then ("t_" +:+ hex_encode sub8)%string else c_Sub c in
      let ttl := if c_TTL c =? 0 then 20 * minute else c_TTL c in
      let hdr := marshal (header_json kid) in
      let pl := marshal (payload_json (MkPayload "flyc" sub (c_Tenant c) (ToLower (c_Dom c)) (c_Room c)
                  now (wrap64 (now + trunc (duration_seconds ttl))) kid)) in
      let signing := (b64 hdr +:+ "." +:+ b64 pl)%string in
      match ecdsa_sign nonce priv (sha256 signing) with
      | inl e => inl e
      | inr (r, s) => inr (signing +:+ "." +:+ b64 (pad32 r +:+ pad32 s))%string
      end
  end.

Definition Verify (now : Z) (publicPEM token dom : string) : goerr + Payload :=
  match ParsePublic publicPEM with
  | inl e => inl e
  | inr pub =>
      match Split "."%char token with
      | [p0; p1; p2] =>
          match decode RawURLEncoding p2 with
          | None => inl (Err "signature invalide")
          | Some sig =>
              if negb (String.length sig =? 64)%nat then inl (Err "signature invalide")
              else if negb (ecdsa_verify pub (sha256 (p0 +:+ "." +:+ p1)%string)
                             (SetBytes (stake 32 sig)) (SetBytes (sdrop 32 sig)))
              then inl (Err "signature refusée")
              else
                match decode RawURLEncoding p1 with
                | None => inl (Err "illegal base64 data")
                | Some raw =>
                    match unmarshal_payload raw with
                    | inl e => inl e
                    | inr p =>
                        if p_Exp p <=? now then inl (Err "pass expiré")
                        else if negb (bool_decide (dom = EmptyString)) && negb (bool_decide (p_Dom p = ToLower dom))
                        then inl (Err ("pass émis pour " +:+ p_Dom p +:+ ", pas pour " +:+ dom)%string)
                        else inr p
                    end
                end
          end
      | _ => inl (Err "format JWT invalide")
      end
  end.

(** ** Lemmas *)

Lemma be_bytes_length n z : String.length (be_bytes n z) = n.
Proof.
  revert z. induction n as [|n IH]; intros z; cbn [be_bytes]; [done|]. rewrite length_sapp, IH. simpl. lia.
Qed.

Lemma SetBytes_from_app acc s t : SetBytes_from acc (s +:+ t) = SetBytes_from (SetBytes_from acc s) t.
Proof. revert acc. induction s as [|a s IH]; intros acc; str_simpl; [done|]. apply IH. Qed.

Lemma SetBytes_be n z : 0 <= z < 256 ^ Z.of_nat n -> SetBytes (be_bytes n z) = z.
Proof.
  unfold SetBytes. revert z. induction n as [|n IH]; intros z Hz; [simpl in *; lia|].
  cbn [be_bytes]. rewrite SetBytes_from_app. rewrite Nat2Z.inj_succ, Z.pow_succ_r in Hz by lia.
  rewrite IH; cycle 1.
  { split; [apply Z.div_pos; lia|]. apply Z.div_lt_upper_bound; lia. }
  simpl. rewrite byte_of_byte by (apply Z.mod_pos_bound; lia).
  pose proof (Z.div_mod z 256). lia.
Qed.

Lemma stake_app s t : stake (String.length s) (s +:+ t) = s.
Proof. induction s as [|a s IH]; str_simpl; [by destruct t|]. by rewrite IH. Qed.
Lemma sdrop_app s t : sdrop (String.length s) (s +:+ t) = t.
Proof. induction s as [|a s IH]; str_simpl; [by destruct t|]. done. Qed.

Lemma Split_three sep a b c :
  Forall (fun s => string_forall (fun x => negb (Ascii.eqb x sep)) s = true) [a; b; c] ->
  Split sep ((a +:+ str1 sep +:+ b) +:+ str1 sep +:+ c) = [a; b; c].
Proof.
  intros Hf. rewrite <- (Split_Join sep [a; b; c]) by done. f_equal.
  cbn [Join]. by rewrite !string_app_assoc.
Qed.

Lemma b64_decode s : decode RawURLEncoding (b64 s) = Some s.
Proof. apply decode_encode, RawURLEncoding_good. Qed.

(** The payload [Mint] signs. *)
Definition minted (sub8 : string) (now : Z) (kid : string) (c : Claims) : Payload :=
  MkPayload "flyc" (if bool_decide (c_Sub c = EmptyString) then ("t_" +:+ hex_encode sub8)%string else c_Sub c)
    (c_Tenant c) (ToLower (c_Dom c)) (c_Room c) now
    (wrap64 (now + trunc (duration_seconds (if c_TTL c =? 0 then 20 * minute else c_TTL c)))) kid.

(** A pair of keys of the standard library: what one signs the other accepts. *)
Definition key_pair (priv pub : string) : Prop :=
  exists sk pk, ParsePrivate priv = inr sk /\ ParsePublic pub = inr pk /\
    forall nonce d r s, ecdsa_sign nonce sk d = inr (r, s) ->
      ecdsa_verify pk d r s = true /\ 0 <= r < 256 ^ 32 /\ 0 <= s < 256 ^ 32.

(** A pass that [Mint] signs is accepted by [Verify] with the
    matching public key, for its domain in any case or for no domain, until
    its expiry, and the claims come back; at its expiry it is refused as
    expired, and before that for another domain as issued for its own. *)
Theorem Mint_Verify sub8 nonce now priv pub kid c tok :
  key_pair priv pub ->
  unmarshal_payload (marshal (payload_json (minted sub8 now kid c))) = inr (minted sub8 now kid c) ->
  Mint sub8 nonce now priv kid c = inr tok ->
  forall now' dom, Verify now' pub tok dom =
    if p_Exp (minted sub8 now kid c) <=? now' then inl (Err "pass expiré")
    else if bool_decide (dom = EmptyString) || bool_decide (ToLower (c_Dom c) = ToLower dom)
    then inr (minted sub8 now kid c)
    else inl (Err ("pass émis pour " +:+ ToLower (c_Dom c) +:+ ", pas pour " +:+ dom)%string).
Proof.
  intros (sk & pk & Hsk & Hpk & Hsv) Hun Hm now' dom. unfold Mint in Hm. rewrite Hsk in Hm. cbv zeta in Hm.
  fold (minted sub8 now kid c) in Hm.
  destruct (ecdsa_sign _ _ _) as [e|[r s]] eqn:Es; [done|]. apply (inj inr) in Hm as <-.
  apply Hsv in Es as (Hver & Hr & Hs). unfold Verify. rewrite Hpk.
  change "."%string with (str1 "."%char).
  rewrite Split_three by (repeat constructor; by apply encode_no_dot; [apply RawURLEncoding_good|]).
  rewrite b64_decode.
  assert (Hlen : String.length (pad32 r +:+ pad32 s) = 64%nat) by (by rewrite length_sapp; unfold pad32; rewrite !be_bytes_length).
  rewrite Hlen. cbn [Nat.eqb negb].
  replace 32%nat with (String.length (pad32 r)) by (unfold pad32; by rewrite be_bytes_length).
  rewrite stake_app, sdrop_app. unfold pad32. rewrite !SetBytes_be by done.
  change (str1 "."%char) with "."%string. rewrite Hver. cbn [negb].
  rewrite b64_decode, Hun.
  destruct (p_Exp _ <=? now'); [done|]. cbn [minted p_Dom].
  by destruct (bool_decide (dom = EmptyString)), (bool_decide (ToLower (c_Dom c) = ToLower dom)).
Qed.

End Pass.

(** [Verify] accepts a token only when its signature is valid on
    its first two parts, its payload is what the second part decodes to, it has
    not expired and, when a domain is asked for, it was issued for it. *)
Theorem Verify_sound {PK} pem_decode parse_pkix sha256 ecdsa_verify unmarshal_payload now pub tok dom p :
  Verify (PK := PK) pem_decode parse_pkix sha256 ecdsa_verify unmarshal_payload now pub tok dom = inr p ->
  exists pk p0 p1 p2 sig raw,
    ParsePublic pem_decode parse_pkix pub = inr pk /\ Split "."%char tok = [p0; p1; p2] /\
    decode RawURLEncoding p2 = Some sig /\ String.length sig = 64%nat /\
    ecdsa_verify pk (sha256 (p0 +:+ "." +:+ p1)%string) (SetBytes (stake 32 sig)) (SetBytes (sdrop 32 sig)) = true /\
    decode RawURLEncoding p1 = Some raw /\ unmarshal_payload raw = inr p /\
    now < p_Exp p /\ (dom = EmptyString \/ p_Dom p = ToLower dom).
Proof.
  unfold Verify. intros Hv. destruct (ParsePublic _ _ pub) as [|pk]; [done|].
  destruct (Split _ tok) as [|p0 [|p1 [|p2 [|? ?]]]]; try done.
  destruct (decode _ p2) as [sig|] eqn:E2; [|done].
  destruct (String.length sig =? 64)%nat eqn:El; [|done]. apply Nat.eqb_eq in El. cbn [negb] in Hv.
  destruct (ecdsa_verify _ _ _ _) eqn:Ev; [|done]. cbn [negb] in Hv.
  destruct (decode _ p1) as [raw|] eqn:E1; [|done].
  destruct (unmarshal_payload raw) as [|p'] eqn:Eu; [done|].
  destruct (Z.leb_spec (p_Exp p') now); [done|].
  destruct (bool_decide (dom = EmptyString)) eqn:Ed, (bool_decide (p_Dom p' = ToLower dom)) eqn:Ep;
    simpl in Hv; simplify_eq; rewrite ?bool_decide_eq_true in *; exists pk, p0, p1, p2, sig, raw; tauto.
Qed.

(** ** Witnesses

    A toy signature scheme: the signature of a digest is its length and the
    key's; it only shows that the hypotheses can be met. *)
Definition toy_pem (s : string) : option string := cut_prefix "PEM:" s.
Definition toy_ec (s : string) : goerr + string := inr s.
Definition toy_pkix (s : string) : goerr + option string := inr (Some s).
Definition toy_sha (s : string) : string := stake 32 s.
Definition toy_sign (nonce : Z) (sk d : string) : goerr + (Z * Z) :=
  inr (Z.of_nat (String.length sk) mod 256, Z.of_nat (String.length d) mod 256).
Definition toy_verify (pk d : string) (r s : Z) : bool :=
  (r =? Z.of_nat (String.length pk) mod 256) && (s =? Z.of_nat (String.length d) mod 256).

Definition pass_claims : Claims := MkClaims "t_1" "acme" "Shop.example.com" "acme.shop" (15 * minute).
Definition pass_payload : Payload := minted "" 1700000000 "k1" pass_claims.
Definition toy_unmarshal (s : string) : goerr + Payload :=
  if bool_decide (s = marshal (payload_json pass_payload)) then inr pass_payload else inl (Err "json").
Definition toy_token : string :=
  match Mint toy_pem toy_ec toy_sha toy_sign "" 5 1700000000 "PEM:key" "k1" pass_claims with
  | inr t => t | inl _ => "" end.

Lemma toy_pair : key_pair toy_pem toy_ec toy_pkix toy_sign toy_verify "PEM:key" "PEM:key".
Proof.
  exists "key"%string, "key"%string. split; [reflexivity|]. split; [reflexivity|].
  intros nonce d r s Hs. unfold toy_sign in Hs. injection Hs as <- <-. unfold toy_verify.
  rewrite !Z.eqb_refl. split; [reflexivity|].
  assert (Hb : forall z, 0 <= z mod 256 < 256 ^ 32).
  { intros z. pose proof (Z.mod_pos_bound z 256). lia. }
  split; apply Hb.
Defined.

Lemma Mint_Verify_witness :
  Verify toy_pem toy_pkix toy_sha toy_verify toy_unmarshal 1700000899 "PEM:key" toy_token "SHOP.example.com"
    = inr pass_payload /\
  Verify toy_pem toy_pkix toy_sha toy_verify toy_unmarshal 1700000900 "PEM:key" toy_token "shop.example.com"
    = inl (Err "pass expiré").
Proof.
  split.
  - rewrite (Mint_Verify toy_pem toy_ec toy_pkix toy_sha toy_sign toy_verify toy_unmarshal
      "" 5 1700000000 "PEM:key" "PEM:key" "k1" pass_claims toy_token toy_pair);
      [vm_compute; reflexivity|vm_compute; reflexivity|vm_compute; reflexivity].
  - rewrite (Mint_Verify toy_pem toy_ec toy_pkix toy_sha toy_sign toy_verify toy_unmarshal
      "" 5 1700000000 "PEM:key" "PEM:key" "k1" pass_claims toy_token toy_pair);
      [vm_compute; reflexivity|vm_compute; reflexivity|vm_compute; reflexivity].
Defined.

Lemma Verify_sound_witness :
  exists pk p0 p1 p2, toy_pkix "key" = inr (Some pk) /\ Split "."%char toy_token = [p0; p1; p2] /\
    1700000899 < p_Exp pass_payload.
Proof.
  destruct (Verify_sound toy_pem toy_pkix toy_sha toy_verify toy_unmarshal 1700000899 "PEM:key" toy_token
    "shop.example.com" pass_payload) as (pk & p0 & p1 & p2 & sig & raw & H1 & H2 & _ & _ & _ & _ & _ & H3 & _);
    [vm_compute; reflexivity|].
  exists pk, p0, p1, p2. split; [|split; [exact H2|exact H3]].
  unfold ParsePublic in H1. simpl in H1. unfold toy_pkix. congruence.
Defined.
