(* ===== verification/Store.v ===== *)
(** * Package [store]: the Redis operations of the waiting room

    [queue/internal/store/store.go], over any server of the class
    [RedisServer].  Each operation is a computation of the monad [M St]; the
    random bytes an operation draws are an argument.  A receive on a
    pub/sub channel is not modelled: [Publish] appends to [chan]. *)
From Stdlib Require Import Ascii.
From S2P Require Import Prelude GoStr F64 Redis Json Room.

Local Open Scope list_scope.
Local Open Scope Z_scope.

Definition StatusWaiting : string := "waiting".
Definition StatusAdmitted : string := "admitted".
Definition ticketTTL : Z := 24 * hour.
Definition RoomsKey : string := "rooms".

Record Ticket : Type := MkTicket {
  t_ID : string;
  t_Created : Z;
  t_Wave : Z;
  t_Status : string;
  t_Score : f64;
  t_Dom : string;
  t_Ret : string;
  t_Pass : string;
  t_Exp : Z;
  t_Adm : Z
}.

Record Event : Type := MkEvent {
  ev_Type : string;
  ev_Admitted : list string;
  ev_Pending : Z;
  ev_Head : f64;
  ev_Rate : f64
}.

(** The JSON form; zero values are omitted, the type is not. *)
Definition event_json (ev : Event) : json :=
  let opt (zero : bool) (k : string) (v : json) := if zero then [] else [(k, v)] in
  JObj (("type"%string, JStr (ev_Type ev))
    :: opt (bool_decide (ev_Admitted ev = [])) "admitted" (JArr (map JStr (ev_Admitted ev)))
    ++ opt (ev_Pending ev =? 0) "pending" (JInt (ev_Pending ev))
    ++ opt (feqb (ev_Head ev) fzero) "head" (JNum (json_float (ev_Head ev)))
    ++ opt (feqb (ev_Rate ev) fzero) "rate" (JNum (json_float (ev_Rate ev)))).

(** The identifier made of 16 random bytes. *)
Definition newID (b : string) : string := ("t_" +:+ hex_encode b)%string.

Definition ticket_key (id : ID) (tid : string) : string := Key id ("t:" +:+ tid)%string.
Definition wave_key (id : ID) (n : Z) : string := Key id ("wave:" +:+ FormatInt n)%string.

(** ** Shuffle *)

(** [ids[i], ids[j] = ids[j], ids[i]]. *)
Definition swap (i j : nat) (ids : list string) : list string :=
  match ids !! i, ids !! j with
  | Some x, Some y => <[j := x]> (<[i := y]> ids)
  | _, _ => ids
  end.

(** The loop from [i] down to 1; [rnd] holds the successive results of
    [randUint64]. *)
Fixpoint shuffle_from (i : nat) (rnd : list Z) (ids : list string) : list string :=
  match i with
  | O => ids
  | S i' =>
      let j := Z.to_nat (hd 0 rnd mod Z.of_nat (i + 1)) in
      shuffle_from i' (tl rnd) (swap i j ids)
  end.

Definition Shuffle (rnd : list Z) (ids : list string) : list string :=
  shuffle_from (length ids - 1) rnd ids.

(** [binary.LittleEndian.Uint64]. *)
Fixpoint randUint64 (b : string) : Z :=
  match b with
  | EmptyString => 0
  | String a b' => Z.of_nat (nat_of_ascii a) + 256 * randUint64 b'
  end.

(** ** Replies as Go values *)

(** A reply of another type than the command's is an error of the client. *)
Definition bad_reply : goerr := Err "redis: unexpected reply".
Definition as_hash (r : reply) : goerr + gmap string string :=
  match r with RHash h => inr h | _ => inl bad_reply end.
Definition as_int (r : reply) : goerr + Z := match r with RInt z => inr z | _ => inl bad_reply end.
Definition as_str (r : reply) : goerr + string := match r with RBulk s => inr s | _ => inl bad_reply end.
Definition as_strs (r : reply) : goerr + list string := match r with RStrs l => inr l | _ => inl bad_reply end.
Definition as_zs (r : reply) : goerr + list (string * f64) := match r with RZs l => inr l | _ => inl bad_reply end.

(** The fields of a hash as a ticket. *)
Definition ticket_of (tid : string) (h : gmap string string) : Ticket :=
  MkTicket tid (ParseIntV (field h "created")) (ParseIntV (field h "wave")) (field h "status")
    (ParseFloatV (field h "score")) (field h "dom") (field h "ret") (field h "pass")
    (ParseIntV (field h "exp")) (ParseIntV (field h "admitted")).

Section Store.
Context {St : Type} `{RedisServer St}.
Context (marshal_map : gmap string string -> string).
Context (unmarshal_map : string -> gmap string string).

Definition do_as {A} (f : reply -> goerr + A) (c : cmd) : M St A :=
  r ← Do1 c; lift_err (f r).

Definition exec_ (cs : list cmd) : M St unit := _ ← Exec cs; mret tt.

Definition Publish (id : ID) (ev : Event) : M St unit :=
  exec_ [Redis.Publish (Key id "ev") (marshal (event_json ev))].

Definition Config (id : ID) : M St (Room.Config * bool) :=
  h ← do_as as_hash (HGetAll (Key id "cfg"));
  mret (FromHash unmarshal_map h).

Definition SetConfig (id : ID) (c : Room.Config) : M St unit :=
  let '(err, c) := Validate c in
  match err with
  | Some e => mfail e
  | None =>
      _ ← exec_ [HSet (Key id "cfg") (ToHash marshal_map c); SAdd RoomsKey (ID_String id)];
      Publish id (MkEvent "config" [] 0 fzero (Rate c))
  end.

Definition Rooms : M St (list string) := do_as as_strs (SMembers RoomsKey).

Definition CreateTicket (rnd : string) (id : ID) (cfg : Room.Config) (dom ret : string) (now : Z) : M St Ticket :=
  let t := MkTicket (newID rnd) (unix now) (Wave now (WaveSec cfg)) StatusWaiting fzero dom ret "" 0 0 in
  _ ← exec_
    [HSet (ticket_key id (t_ID t))
       [("created", FormatInt (t_Created t)); ("wave", FormatInt (t_Wave t));
        ("status", t_Status t); ("dom", dom); ("ret", ret)]%string;
     Expire (ticket_key id (t_ID t)) ticketTTL;
     SAdd (wave_key id (t_Wave t)) (t_ID t);
     Expire (wave_key id (t_Wave t)) (2 * hour);
     HIncrBy (Key id "stats") "tickets_total" 1;
     SAdd RoomsKey (ID_String id)];
  mret t.

Definition AdmitDirect (rnd : string) (id : ID) (dom ret pass : string) (exp now : Z) : M St Ticket :=
  let t := MkTicket (newID rnd) (unix now) 0 StatusAdmitted fzero dom ret pass exp (unix now) in
  _ ← exec_
    [HSet (ticket_key id (t_ID t))
       [("created", FormatInt (t_Created t)); ("status", t_Status t); ("dom", dom); ("ret", ret);
        ("pass", pass); ("exp", FormatInt exp); ("admitted", FormatInt (t_Adm t))]%string;
     Expire (ticket_key id (t_ID t)) ticketTTL;
     HIncrBy (Key id "stats") "tickets_total" 1;
     HIncrBy (Key id "stats") "admitted_total" 1];
  mret t.

(** [None] is the nil pointer: an unknown ticket. *)
Definition GetTicket (id : ID) (tid : string) : M St (option Ticket) :=
  h ← do_as as_hash (HGetAll (ticket_key id tid));
  mret (if (size h =? 0)%nat then None else Some (ticket_of tid h)).

Definition LastWave (id : ID) : M St Z :=
  r ← mtry (do_as as_str (StrGet (Key id "lastwave")));
  match r with
  | inl ErrNil => mret (-1)
  | inl e => mfail e
  | inr v => match ParseInt v with
             | Some n => mret n
             | None => mfail (Err "strconv.ParseInt: parsing lastwave")
             end
  end.

Definition SetLastWave (id : ID) (n : Z) : M St unit :=
  exec_ [StrSet (Key id "lastwave") (FormatInt n)].

(** The loop of SPOPs; [fuel] bounds the number of batches. *)
Fixpoint pop_all (fuel : nat) (key : string) (ids : list string) : M St (list string) :=
  match fuel with
  | O => mfail ErrLoop
  | S fuel =>
      r ← mtry (do_as as_strs (SPopN key 1000));
      match r with
      | inl ErrNil => mret ids
      | inl e => mfail e
      | inr [] => mret ids
      | inr batch => pop_all fuel key (ids ++ batch)
      end
  end.

(** The pipeline for the tickets [ids], whose first has rank [i]. *)
Definition rank_cmds (id : ID) (n : Z) (i : nat) (ids : list string) : list cmd :=
  imap (fun k tid => HSet (ticket_key id tid)
          [("score", FormatFloat0 (WaveScore n (Z.of_nat (i + k))))]%string) ids
  ++ [ZAdd (Key id "pending") (imap (fun k tid => (WaveScore n (Z.of_nat (i + k)), tid)) ids)].

(** The loop over the slices of a thousand; [fuel] bounds their number. *)
Fixpoint rank_batches (fuel : nat) (id : ID) (n : Z) (i : nat) (ids : list string) : M St unit :=
  match ids, fuel with
  | [], _ => mret tt
  | _, O => mfail ErrLoop
  | _, S fuel =>
      _ ← exec_ (rank_cmds id n i (take 1000 ids));
      rank_batches fuel id n (i + 1000)%nat (drop 1000 ids)
  end.

(** The count returned next to an error is dropped: no caller reads it. *)
Definition CloseWave (fuel : nat) (rnd : list Z) (id : ID) (n : Z) : M St Z :=
  ids ← pop_all fuel (wave_key id n) [];
  match ids with
  | [] => mret 0
  | _ =>
      let ids := Shuffle rnd ids in
      _ ← rank_batches (length ids) id n 0 ids;
      _ ← mtry (exec_ [Del (wave_key id n)]);
      mret (Z.of_nat (length ids))
  end.

(** The waves named by the keys, but for the current one and the one before. *)
Definition stray_waves (cur : Z) (ks : list string) : list Z :=
  omap (fun k => match ParseInt (after_last ":"%char k) with
                 | Some n => if (n =? cur) || (n =? cur - 1) then None else Some n
                 | None => None
                 end) ks.

(** The waves found and the error of the scan, if any.  On an error the code also
    returns the waves seen before it, whose list depends on the masters that had
    answered: none here, they are found again by the next sweep. *)
Definition StrayWaves (id : ID) (cur : Z) : M St (list Z * option goerr) :=
  r ← mtry (do_as as_strs (ScanPrefix (Key id "wave:")));
  mret (match r with inl e => ([], Some e) | inr ks => (stray_waves cur ks, None) end).

(** Pending, active, head of the queue. *)
Definition Counts (id : ID) (now : Z) : M St (Z * Z * f64) :=
  rs ← Exec [ZRemUpTo (Key id "active") (unix now); ZCard (Key id "pending");
             ZCard (Key id "active"); ZHead (Key id "pending")];
  match rs with
  | [_; RInt p; RInt a; RZs h] => mret (p, a, match h with x :: _ => x.2 | [] => fzero end)
  | _ => mfail bad_reply
  end.

Definition PopPending (id : ID) (k : Z) : M St (list string) :=
  if k <=? 0 then mret []
  else zs ← do_as as_zs (ZPopMin (Key id "pending") k); mret zs.*1.

Definition MarkAdmitted (id : ID) (tid pass : string) (exp now : Z) : M St unit :=
  exec_ [HSet (ticket_key id tid)
           [("status", StatusAdmitted); ("pass", pass); ("exp", FormatInt exp);
            ("admitted", FormatInt now)]%string;
         ZAdd (Key id "active") [(of_int exp, tid)];
         HIncrBy (Key id "stats") "admitted_total" 1].

Definition Requeue (id : ID) (t : Ticket) : M St unit :=
  if feqb (t_Score t) fzero then mret tt
  else exec_ [ZAdd (Key id "pending") [(t_Score t, t_ID t)]].

Definition Rank (id : ID) (tid : string) : M St Z :=
  r ← mtry (do_as as_int (ZRank (Key id "pending") tid));
  match r with inl ErrNil => mret (-1) | inl e => mfail e | inr z => mret z end.

Definition Ranks (id : ID) (tids : list string) : M St (list Z) :=
  rs ← send (map (ZRank (Key id "pending")) tids);
  let out := map (fun r => match r with RInt z => z | _ => -1 end) rs in
  match first_err rs with
  | None | Some ErrNil => mret out
  | Some e => mfail e
  end.

Definition WaveSize (id : ID) (n : Z) : M St Z := do_as as_int (SCard (wave_key id n)).

Definition Acquire (id : ID) (owner : string) (ttl : Z) : M St bool :=
  ok ← do_as as_int (SetNX (Key id "lock") owner ttl);
  if ok =? 1 then mret true else
  cur ← do_as as_str (StrGet (Key id "lock"));
  if bool_decide (cur = owner) then _ ← exec_ [Expire (Key id "lock") ttl]; mret true
  else mret false.

Definition Release (id : ID) (owner : string) : M St unit :=
  _ ← mtry (exec_ [DelIfEq (Key id "lock") owner]); mret tt.

Definition Stats (id : ID) : M St (gmap string string) := do_as as_hash (HGetAll (Key id "stats")).

Definition Flush (id : ID) (now waveSec : Z) : M St unit :=
  let cur := Wave now waveSec in
  _ ← exec_ ([Del (Key id "pending")]
             ++ map (fun i => Del (wave_key id (cur - 200 + Z.of_nat i))) (seq 0 202)
             ++ [StrSet (Key id "lastwave") (FormatInt (cur - 1))]);
  Publish id (MkEvent "flush" [] 0 fzero fzero).

End Store.

(** ** The shuffle is uniform *)

Lemma swap_perm i j l : swap i j l ≡ₚ l.
Proof.
  unfold swap. destruct (l !! i) eqn:Ei, (l !! j) eqn:Ej; try done. by apply Permutation_insert_swap.
Qed.

Lemma shuffle_from_perm i rnd l : shuffle_from i rnd l ≡ₚ l.
Proof.
  revert rnd l. induction i as [|i IH]; intros rnd l; cbn [shuffle_from]; [done|].
  rewrite IH. apply swap_perm.
Qed.

Lemma swap_app i j l tl :
  (i < length l)%nat -> (j < length l)%nat -> swap i j (l ++ tl) = swap i j l ++ tl.
Proof.
  intros Hi Hj. unfold swap. rewrite !lookup_app_l by done.
  destruct (l !! i); [|done]. destruct (l !! j); [|done].
  by rewrite !insert_app_l by (rewrite ?length_insert; done).
Qed.

Lemma shuffle_from_app i rnd l tl :
  (i < length l)%nat -> shuffle_from i rnd (l ++ tl) = shuffle_from i rnd l ++ tl.
Proof.
  revert rnd l. induction i as [|i IH]; intros rnd l Hi; cbn [shuffle_from]; [done|].
  assert (Hj : (Z.to_nat (hd 0 rnd mod Z.of_nat (S i + 1))%Z < length l)%nat).
  { pose proof (Z.mod_pos_bound (hd 0 rnd) (Z.of_nat (S i + 1)) ltac:(lia)). lia. }
  rewrite swap_app by done. apply IH. rewrite (Permutation_length (swap_perm _ _ _)). lia.
Qed.

(** The draws of the loop from [i]: an index at most [i], then at most [i-1]
    and so on; there are [(i+1)!] of them. *)
Fixpoint draws (i : nat) (js : list Z) : Prop :=
  match i, js with
  | O, [] => True
  | S i', j :: js => 0 <= j <= Z.of_nat i /\ draws i' js
  | _, _ => False
  end.

(** Bringing [y], the element of index [j], to the end of a list. *)
Lemma swap_last l y j :
  l !! j = Some y ->
  exists l1, swap (length l - 1) j l = l1 ++ [y] /\ l ≡ₚ l1 ++ [y] /\ length l1 = (length l - 1)%nat.
Proof.
  intros Hj. pose proof (lookup_lt_Some _ _ _ Hj) as Hlt.
  pose proof (swap_perm (length l - 1) j l) as Hp.
  assert (Hl : swap (length l - 1) j l !! (length l - 1)%nat = Some y).
  { unfold swap. destruct (lookup_lt_is_Some_2 l (length l - 1)) as [x Hx]; [lia|].
    rewrite Hx, Hj. destruct (decide (j = length l - 1)%nat) as [->|Hne].
    - rewrite list_lookup_insert_eq by (rewrite length_insert; lia). congruence.
    - rewrite list_lookup_insert_ne by done. rewrite list_lookup_insert_eq by lia. done. }
  pose proof (Permutation_length Hp) as Hlen.
  exists (take (length l - 1) (swap (length l - 1) j l)).
  assert (Heq : swap (length l - 1) j l = take (length l - 1) (swap (length l - 1) j l) ++ [y]).
  { rewrite <- (take_S_r _ _ _ Hl). rewrite take_ge by lia. done. }
  split; [done|]. split; [by rewrite <- Heq|]. rewrite length_take. lia.
Qed.

Lemma shuffle_from_draws i l l' :
  length l = S i -> NoDup l -> l ≡ₚ l' ->
  exists! js, draws i js /\ shuffle_from i js l = l'.
Proof.
  revert l l'. induction i as [|i IH]; intros l l' Hlen Hnd Hp.
  { exists []. destruct l as [|x [|? ?]]; try done. apply Permutation_singleton_l in Hp as ->.
    split; [done|]. by intros [|j js] [? _]. }
  destruct l' as [|y m _] using rev_ind; [by apply Permutation_length in Hp; rewrite Hlen in Hp|].
  assert (Hy : y ∈ l) by (rewrite Hp, elem_of_app, list_elem_of_singleton; by right).
  apply list_elem_of_lookup in Hy as [j Hj]. pose proof (lookup_lt_Some _ _ _ Hj) as Hlt.
  destruct (swap_last l y j Hj) as (l1 & Hsw & Hp1 & Hl1).
  rewrite Hlen, Nat.sub_succ, Nat.sub_0_r in Hsw, Hl1.
  destruct (IH l1 m) as (js & [Hd Hs] & Huniq).
  { done. } { rewrite Hp1 in Hnd. by apply NoDup_app in Hnd as [? _]. }
  { apply (Permutation_app_inv_r [y]). by rewrite <- Hp1, <- Hp. }
  exists (Z.of_nat j :: js). split.
  - split; [split; [lia|done]|]. cbn [shuffle_from hd tl].
    rewrite Z.mod_small, Nat2Z.id by lia. rewrite Hsw, shuffle_from_app by lia. by rewrite Hs.
  - intros [|j' js'] [Hd' Hs']; [done|]. destruct Hd' as [Hj' Hd']. cbn [shuffle_from hd tl] in Hs'.
    rewrite Z.mod_small in Hs' by lia.
    destruct (lookup_lt_is_Some_2 l (Z.to_nat j')) as [y' Hy']; [lia|].
    destruct (swap_last l y' _ Hy') as (l2 & Hsw2 & _ & Hl2).
    rewrite Hlen, Nat.sub_succ, Nat.sub_0_r in Hsw2, Hl2.
    rewrite Hsw2, shuffle_from_app in Hs' by lia. apply app_inj_tail in Hs' as [Hs' ->].
    assert (Z.to_nat j' = j) as Hjj by (eapply NoDup_lookup; eauto).
    rewrite Hjj in Hsw2. rewrite Hsw in Hsw2. apply app_inj_tail in Hsw2 as [<- _].
    f_equal; [lia|]. by apply Huniq.
Qed.

(** ** Keys *)

Lemma ticket_key_inj id a b : ticket_key id a = ticket_key id b -> a = b.
Proof. unfold ticket_key. intros H%Key_inj. by apply string_app_inv_l in H. Qed.

Lemma wave_key_inj id a b : wave_key id a = wave_key id b -> a = b.
Proof. unfold wave_key. intros H%Key_inj. apply string_app_inv_l in H. by apply FormatInt_inj. Qed.

Lemma ticket_key_ne id tid k :
  HasPrefix k "t:" = false -> ticket_key id tid <> Key id k.
Proof. unfold ticket_key. intros Hk H%Key_inj. subst k. by rewrite HasPrefix_app in Hk. Qed.

Lemma wave_key_ne id n k : HasPrefix k "wave:" = false -> wave_key id n <> Key id k.
Proof. unfold wave_key. intros Hk H%Key_inj. subst k. by rewrite HasPrefix_app in Hk. Qed.

Lemma ticket_wave_ne id tid n : ticket_key id tid <> wave_key id n.
Proof. apply ticket_key_ne. done. Qed.

Lemma Key_ne_rooms id k : Key id k <> RoomsKey.
Proof. unfold Key. str_simpl. done. Qed.

(** ** What the operations do to the keyspace *)

Abbreviation pending_key id := (Key id "pending").
Abbreviation active_key id := (Key id "active").

Section Effects.
Context {St : Type} `{RedisServer St} {HL : RedisLaws St}.

Lemma do_as_inv {A} (f : reply -> goerr + A) c (s : St) a s' :
  do_as f c s = (inr a, s') ->
  exists r, f r = inr a /\ cmd_spec c (keyspace s) r (keyspace s') /\ reply_err r = None.
Proof.
  unfold do_as. intros H1. apply M_bind_inv in H1 as (r & s1 & H1 & H2).
  apply Do1_inv in H1 as [H1 Hr]. unfold lift_err in H2. simplify_eq. eauto.
Qed.

Lemma exec_inv cs (s : St) u s' :
  exec_ cs s = (inr u, s') ->
  exists rs, pipe_spec cs (keyspace s) rs (keyspace s') /\ Forall (fun r => reply_err r = None) rs.
Proof.
  unfold exec_. intros H1. apply M_bind_inv in H1 as (rs & s1 & H1 & H2).
  unfold mret, M_ret in H2. simplify_eq. apply Exec_inv in H1. eauto.
Qed.

Lemma mtry_inv {A} (m : M St A) (s : St) r s' : mtry m s = (r, s') ->
  exists x, r = inr x /\ m s = (x, s').
Proof. unfold mtry. destruct (m s) as [x s1]. intros [= <- <-]. eauto. Qed.

Lemma do_as_err {A} (f : reply -> goerr + A) c (s : St) e s' :
  (forall r, f r <> inl ErrLoop) -> do_as f c s = (inl e, s') -> e <> ErrLoop.
Proof.
  intros Hf. unfold do_as, mbind, M_bind, Do1, lift_err. unfold mbind, M_bind.
  destruct (Exec [c] s) as [[e1|rs] s1] eqn:E.
  - intros [= <- <-]. by apply Exec_err in E as [? _].
  - destruct rs; simpl; intros [= He <-]; [by subst|]. intros ->. by apply (Hf r).
Qed.

(** The keys outside [ks] are left alone. *)
Definition frame (ks : list string) (d d' : db) : Prop :=
  forall k, k ∉ ks -> kv d' !! k = kv d !! k.

Lemma SPopN_inv k n (d : db) w l d' :
  get_set d k = Some w -> cmd_spec (SPopN k n) d (RStrs l) d' ->
  NoDup l /\ list_to_set l ⊆ w /\ length l = Nat.min n (size w) /\
  get_set d' k = Some (w ∖ list_to_set l) /\ frame [k] d d'.
Proof.
  intros Hw. simpl. rewrite Hw. intros (l' & [= <-] & Hnd & Hsub & Hlen & ->).
  repeat split; auto using get_set_put_set. intros k' Hk'. apply kv_put_set. set_solver.
Qed.

Lemma do_as_cases {A} (f : reply -> goerr + A) c (s : St) r s' :
  do_as f c s = (r, s') ->
  (exists rep, cmd_spec c (keyspace s) rep (keyspace s') /\
     r = match reply_err rep with Some e => inl e | None => f rep end) \/
  (exists m, r = inl (Err m)).
Proof.
  unfold do_as, mbind, M_bind, lift_err. destruct (Do1 c s) as [[e|rep] s1] eqn:E;
    intros [= <- <-]; apply Do1_cases in E as [(rep' & Hc & Heq)|(m & Heq & _)]; simplify_eq; eauto.
  - destruct (reply_err rep') eqn:Er; simplify_eq. left. exists rep'. by rewrite Er.
  - destruct (reply_err rep') eqn:Er; simplify_eq. left. exists rep'. by rewrite Er.
Qed.

(** The reply of SPOP on a set. *)
Lemma do_SPopN_cases k n (s : St) w r s' :
  do_as as_strs (SPopN k n) s = (r, s') -> get_set (keyspace s) k = Some w ->
  (exists l, r = inr l /\ cmd_spec (SPopN k n) (keyspace s) (RStrs l) (keyspace s')) \/
  (exists m, r = inl (Err m)).
Proof.
  intros Hr Hw. apply do_as_cases in Hr as [(rep & Hc & ->)|?]; [left|by right].
  pose proof Hc as Hc'. simpl in Hc'. rewrite Hw in Hc'. destruct Hc' as (l & -> & _). eauto.
Qed.

Lemma pop_all_spec fuel k acc (s : St) ids s' w :
  pop_all fuel k acc s = (inr ids, s') -> get_set (keyspace s) k = Some w ->
  exists l, ids = acc ++ l /\ l ≡ₚ elements w /\ get_set (keyspace s') k = Some ∅ /\
    frame [k] (keyspace s) (keyspace s').
Proof.
  revert acc s w. induction fuel as [|fuel IH]; intros acc s w Hp Hw; [done|].
  cbn [pop_all] in Hp. apply M_bind_inv in Hp as (r & s1 & Hr & Hp).
  apply mtry_inv in Hr as (x & [= ->] & Hr).
  destruct (do_SPopN_cases _ _ _ _ _ _ Hr Hw) as [(l & -> & Hc)|(m & ->)]; [|done].
  apply (SPopN_inv _ _ _ w) in Hc as (Hnd & Hsub & Hlen & Hget & Hfr); [|done].
  destruct l as [|x l].
  - unfold mret, M_ret in Hp. simplify_eq. exists []. rewrite (right_id_L [] (++)).
    split; [done|]. assert (w = ∅) as -> by (apply leibniz_equiv, size_empty_inv; rewrite length_nil in Hlen; lia).
    rewrite elements_empty. by split; [done|].
  - eapply IH in Hp as (l2 & -> & Hl2 & Hg2 & Hf2); [|done].
    exists ((x :: l) ++ l2). rewrite app_assoc. split; [done|]. split; [|split; [done|]].
    + rewrite Hl2. rewrite <- (elements_list_to_set (C := gset string) (x :: l)) at 1 by done.
      rewrite <- elements_disj_union by (clear; set_solver). by rewrite <- union_difference_L.
    + intros k' Hk'. by rewrite Hf2, Hfr.
Qed.

(** *** The ranking of a wave *)

(** The keys and the scores of the tickets [ids], the first of rank [i]. *)
Definition scored (n : Z) (i : nat) (ids : list string) : list (f64 * string) :=
  imap (fun k tid => (WaveScore n (Z.of_nat (i + k)), tid)) ids.

Definition score_set (id : ID) (n : Z) (i : nat) (ids : list string) : list cmd :=
  imap (fun k tid => HSet (ticket_key id tid)
          [("score"%string, FormatFloat0 (WaveScore n (Z.of_nat (i + k))))]) ids.

Lemma score_set_cons id n i x ids :
  score_set id n i (x :: ids) =
  HSet (ticket_key id x) [("score"%string, FormatFloat0 (WaveScore n (Z.of_nat i)))] :: score_set id n (S i) ids.
Proof.
  unfold score_set. cbn [imap]. rewrite Nat.add_0_r. f_equal. apply imap_ext.
  intros k y _. cbn. by rewrite Nat.add_succ_r.
Qed.

Lemma scored_app n i l1 l2 : scored n i (l1 ++ l2) = scored n i l1 ++ scored n (i + length l1) l2.
Proof.
  unfold scored. rewrite imap_app. f_equal. apply imap_ext. intros k y _. cbn. by rewrite Nat.add_assoc.
Qed.

Lemma HSet_ok k fs (d : db) r d' :
  cmd_spec (HSet k fs) d r d' -> reply_err r = None ->
  exists h, get_hash d k = Some h /\ d' = put k (VHash (hset fs h)) d.
Proof.
  simpl. destruct (get_hash d k) as [h|]; [|by intros [-> _]].
  intros (n & -> & ->) _. eauto.
Qed.

Lemma ZAdd_ok k zs (d : db) r d' :
  cmd_spec (ZAdd k zs) d r d' -> reply_err r = None ->
  exists z, get_zset d k = Some z /\ d' = put_zset k (zadd zs z) d.
Proof.
  simpl. destruct (get_zset d k) as [h|]; [|by intros [-> _]].
  intros (n & -> & ->) _. eauto.
Qed.

Lemma frame_refl ks d : frame ks d d.
Proof. by intros k _. Qed.

Lemma frame_trans ks1 ks2 d1 d2 d3 :
  frame ks1 d1 d2 -> frame ks2 d2 d3 -> frame (ks1 ++ ks2) d1 d3.
Proof. intros H1 H2 k Hk. rewrite not_elem_of_app in Hk. destruct Hk. by rewrite H2, H1. Qed.

Lemma frame_mono ks ks' d d' : ks ⊆ ks' -> frame ks d d' -> frame ks' d d'.
Proof. intros Hs Hf k Hk. apply Hf. set_solver. Qed.

(** The hash of every ranked ticket has its score. *)
Definition has_scores (id : ID) (n : Z) (i : nat) (ids : list string) (d : db) : Prop :=
  forall k tid, ids !! k = Some tid ->
    exists h, get_hash d (ticket_key id tid) = Some h /\
      field h "score" = FormatFloat0 (WaveScore n (Z.of_nat (i + k))).

Lemma score_set_spec id n i ids (d : db) cs rs d' :
  NoDup ids -> pipe_spec (score_set id n i ids ++ cs) d rs d' -> Forall (fun r => reply_err r = None) rs ->
  exists d1 rs1, frame (map (ticket_key id) ids) d d1 /\ has_scores id n i ids d1 /\
    pipe_spec cs d1 rs1 d' /\ Forall (fun r => reply_err r = None) rs1.
Proof.
  intros Hnd. revert i d rs. induction ids as [|x ids IH]; intros i d rs Hp Hr.
  { exists d, rs. split; [apply frame_refl|]. split; [|done]. by intros k tid Hk. }
  apply NoDup_cons in Hnd as [Hx Hnd]. rewrite score_set_cons in Hp. cbn [app] in Hp.
  apply pipe_cons_inv in Hp as (r & d1 & rs1 & -> & Hc & Hp). apply Forall_cons in Hr as [Hr1 Hr].
  apply HSet_ok in Hc as (h & Hh & ->); [|done].
  apply IH in Hp as (d2 & rs2 & Hf & Hs & Hp & Hr2); [|done..].
  assert (Hxk : ticket_key id x ∉ map (ticket_key id) ids).
  { intros Hin. apply list_elem_of_fmap in Hin as (y & Hy%ticket_key_inj & Hin). by subst. }
  exists d2, rs2. split; [|split; [|done]].
  - intros k Hk. cbn [map] in Hk. apply not_elem_of_cons in Hk as [Hne Hk].
    rewrite Hf by done. rewrite kv_put. by rewrite decide_False.
  - intros [|k] tid Hk; simpl in Hk.
    + simplify_eq. rewrite Nat.add_0_r. eexists. split.
      * rewrite (get_hash_kv _ _ _ (Hf _ Hxk)). apply get_hash_put.
      * unfold field, hset. simpl. by rewrite lookup_insert_eq.
    + rewrite Nat.add_succ_r, <- Nat.add_succ_l. by apply Hs.
Qed.

Lemma rank_cmds_spec id n i ids (s : St) u s' z :
  exec_ (rank_cmds id n i ids) s = (inr u, s') -> NoDup ids ->
  get_zset (keyspace s) (pending_key id) = Some z ->
  get_zset (keyspace s') (pending_key id) = Some (zadd (scored n i ids) z) /\
  has_scores id n i ids (keyspace s') /\
  frame (pending_key id :: map (ticket_key id) ids) (keyspace s) (keyspace s').
Proof.
  intros He Hnd Hz. apply exec_inv in He as (rs & Hp & Hr).
  change (rank_cmds id n i ids) with (score_set id n i ids ++ [ZAdd (pending_key id) (scored n i ids)]) in Hp.
  apply score_set_spec in Hp as (d1 & rs1 & Hf & Hs & Hp & Hr1); [|done..].
  apply pipe_cons_inv in Hp as (r & d2 & rs2 & -> & Hc & Hp). apply pipe_nil_inv in Hp as [-> <-].
  apply Forall_cons in Hr1 as [Hr1 _].
  apply ZAdd_ok in Hc as (z1 & Hz1 & Hd); [|done].
  assert (Hpk : pending_key id ∉ map (ticket_key id) ids).
  { intros (y & Hy & _)%list_elem_of_fmap. symmetry in Hy. by apply ticket_key_ne in Hy. }
  rewrite (get_zset_kv _ _ _ (Hf _ Hpk)), Hz in Hz1. injection Hz1 as <-.
  rewrite Hd. split; [by rewrite get_zset_put_zset|]. split.
  - intros k tid Hk. destruct (Hs k tid Hk) as (h & Hh & Hfld). exists h. split; [|done].
    rewrite <- Hh. apply get_hash_kv, kv_put_zset. intros E. symmetry in E. by apply ticket_key_ne in E.
  - intros k Hk. apply not_elem_of_cons in Hk as [Hne Hk]. rewrite kv_put_zset by done. by apply Hf.
Qed.

Lemma has_scores_app id n i l1 l2 (d d' : db) :
  has_scores id n i l1 d -> has_scores id n (i + length l1) l2 d' ->
  (forall tid, tid ∈ l1 -> kv d' !! ticket_key id tid = kv d !! ticket_key id tid) ->
  has_scores id n i (l1 ++ l2) d'.
Proof.
  intros H1 H2 Hf k tid Hk. apply lookup_app_Some in Hk as [Hk|[Hle Hk]].
  - destruct (H1 k tid Hk) as (h & Hh & Hfld). exists h. split; [|done]. rewrite <- Hh.
    apply get_hash_kv, Hf. by eapply list_elem_of_lookup_2.
  - destruct (H2 _ _ Hk) as (h & Hh & Hfld). exists h. split; [done|]. rewrite Hfld. do 3 f_equal. lia.
Qed.

Lemma rank_batches_spec fuel id n i ids (s : St) u s' z :
  rank_batches fuel id n i ids s = (inr u, s') -> NoDup ids ->
  get_zset (keyspace s) (pending_key id) = Some z ->
  get_zset (keyspace s') (pending_key id) = Some (zadd (scored n i ids) z) /\
  has_scores id n i ids (keyspace s') /\
  frame (pending_key id :: map (ticket_key id) ids) (keyspace s) (keyspace s').
Proof.
  revert i ids s z. induction fuel as [|fuel IH]; intros i ids s z Hb Hnd Hz.
  - destruct ids; [|done]. cbn in Hb. unfold mret, M_ret in Hb. simplify_eq.
    split; [done|]. split; [by intros k tid Hk|apply frame_refl].
  - destruct (decide (ids = [])) as [->|Hne].
    { cbn in Hb. unfold mret, M_ret in Hb. simplify_eq.
      split; [done|]. split; [by intros k tid Hk|apply frame_refl]. }
    assert (Hb' : (exec_ (rank_cmds id n i (take 1000 ids)) ≫= fun _ =>
              rank_batches fuel id n (i + 1000)%nat (drop 1000 ids)) s = (inr u, s'))
      by (destruct ids; done). clear Hb.
    apply M_bind_inv in Hb' as ([] & s1 & H1 & H2).
    rewrite <- (take_drop 1000 ids) in Hnd.
    pose proof Hnd as (Hnd1 & Hdisj & Hnd2)%NoDup_app.
    eapply rank_cmds_spec in H1 as (Hz1 & Hs1 & Hf1); [|done..].
    eapply IH in H2 as (Hz2 & Hs2 & Hf2); [|done..].
    assert (Hlen : scored n (i + 1000)%nat (drop 1000 ids) = scored n (i + length (take 1000 ids)) (drop 1000 ids)
      /\ has_scores id n (i + length (take 1000 ids)) (drop 1000 ids) (keyspace s')).
    { rewrite length_take. destruct (Nat.le_gt_cases 1000 (length ids)) as [Hl|Hl].
      - by rewrite Nat.min_l.
      - rewrite drop_ge by lia. split; [done|]. by intros k tid Hk. }
    destruct Hlen as [Hl1 Hl2]. rewrite <- (take_drop 1000 ids).
    split; [|split].
    + rewrite scored_app, zadd_app, Hz2. by rewrite Hl1.
    + eapply has_scores_app; [done..|]. intros tid Hin. apply Hf2. apply not_elem_of_cons. split.
      * intros E. by apply ticket_key_ne in E.
      * intros (y & Hy%ticket_key_inj & Hy2)%list_elem_of_fmap. subst. by eapply Hdisj.
    + eapply frame_mono; [|by eapply frame_trans]. rewrite map_app. clear. set_solver.
Qed.

(** The deletion of an empty wave, answered or not. *)
Lemma del_any k (s : St) r s' :
  mtry (exec_ [Del k]) s = (r, s') -> get_set (keyspace s) k = Some ∅ ->
  get_set (keyspace s') k = Some ∅ /\ frame [k] (keyspace s) (keyspace s').
Proof.
  intros Hd Hw.
  assert (Hc : keyspace s' = keyspace s \/ keyspace s' = drop_key k (keyspace s)).
  { apply mtry_inv in Hd as (x & -> & Hd). destruct x as [e|[]].
    - unfold exec_, mbind, M_bind in Hd. destruct (Exec [Del k] s) as [[e1|rs] s1] eqn:E; [|done].
      injection Hd as <- <-. apply Exec_err_1 in E as (_ & [->|(rep & Hs)]); [by left|right].
      by apply det_run in Hs.
    - apply exec_inv in Hd as (rs & Hp & _). right. by apply det_run_all in Hp; [|repeat constructor]. }
  destruct Hc as [->| ->]; [split; [done|apply frame_refl]|]. split.
  - unfold get_set. rewrite kv_drop. by rewrite decide_True.
  - intros k' Hk. rewrite kv_drop. rewrite decide_False; [done|]. set_solver.
Qed.

Lemma frame_kv ks d d' k : frame ks d d' -> k ∉ ks -> kv d' !! k = kv d !! k.
Proof. intros Hf. apply Hf. Qed.

Lemma wave_key_fresh id n ids : wave_key id n ∉ pending_key id :: map (ticket_key id) ids.
Proof.
  apply not_elem_of_cons. split; [by apply wave_key_ne|].
  intros (y & Hy & _)%list_elem_of_fmap. symmetry in Hy. by apply ticket_wave_ne in Hy.
Qed.

(** Claim C13.  Closing a wave moves exactly the tickets of the wave to the
    pending queue: they are ranked in the order of the shuffle with the
    consecutive scores of the wave, the score is recorded with each ticket,
    the wave is left empty and no other key changes. *)
Theorem CloseWave_spec fuel rnd id n (s : St) cnt s' w z :
  CloseWave fuel rnd id n s = (inr cnt, s') ->
  get_set (keyspace s) (wave_key id n) = Some w ->
  get_zset (keyspace s) (pending_key id) = Some z ->
  exists popped, popped ≡ₚ elements w /\ cnt = Z.of_nat (size w) /\
    let ids := Shuffle rnd popped in
    get_set (keyspace s') (wave_key id n) = Some ∅ /\
    get_zset (keyspace s') (pending_key id) = Some (zadd (scored n 0 ids) z) /\
    has_scores id n 0 ids (keyspace s') /\
    frame (wave_key id n :: pending_key id :: map (ticket_key id) ids) (keyspace s) (keyspace s').
Proof.
  intros Hc Hw Hz. unfold CloseWave in Hc. apply M_bind_inv in Hc as (ids & s1 & Hp & Hc).
  eapply pop_all_spec in Hp as (l & -> & Hl & Hw1 & Hf1); [|done]. cbn [app] in Hc.
  exists l. split; [done|].
  assert (Hpk : pending_key id ∉ [wave_key id n]).
  { apply not_elem_of_cons. split; [|apply not_elem_of_nil]. intros E. symmetry in E. by apply wave_key_ne in E. }
  assert (Hz1 : get_zset (keyspace s1) (pending_key id) = Some z) by (by rewrite (get_zset_kv _ _ _ (Hf1 _ Hpk))).
  assert (Hsz : size w = length l) by (unfold size, set_size; simpl; by rewrite Hl).
  destruct l as [|x l].
  { unfold mret, M_ret in Hc. simplify_eq. rewrite Hsz. split; [done|]. split; [done|]. split; [done|].
    split; [by intros k tid Hk|]. eapply frame_mono; [|done]. set_solver. }
  set (ids := Shuffle rnd (x :: l)) in *.
  assert (Hperm : ids ≡ₚ x :: l) by apply shuffle_from_perm.
  assert (Hnd : NoDup ids) by (rewrite Hperm, Hl; apply NoDup_elements).
  apply M_bind_inv in Hc as ([] & s2 & Hb & Hc).
  eapply rank_batches_spec in Hb as (Hz2 & Hs2 & Hf2); [|done..].
  apply M_bind_inv in Hc as (r & s3 & Hd & Hc). unfold mret, M_ret in Hc. simplify_eq.
  apply del_any in Hd as (Hw3 & Hf3);
    [|by rewrite (get_set_kv _ _ _ (Hf2 _ (wave_key_fresh id n ids)))].
  split; [by rewrite Hsz, Hperm|]. split; [done|]. split; [by rewrite (get_zset_kv _ _ _ (Hf3 _ Hpk))|].
  split.
  - intros k tid Hk. destruct (Hs2 k tid Hk) as (h & Hh & Hfld). exists h. split; [|done].
    rewrite <- Hh. apply get_hash_kv, Hf3. apply not_elem_of_cons. split; [|apply not_elem_of_nil].
    apply ticket_wave_ne.
  - eapply frame_mono; [|eapply frame_trans; [exact Hf1|eapply frame_trans; [exact Hf2|exact Hf3]]].
    generalize (map (ticket_key id) ids). clear. set_solver.
Qed.

Lemma bind_no_loop {A B} (m : M St A) (f : A -> M St B) (s : St) :
  (m s).1 <> inl ErrLoop -> (forall a s1, m s = (inr a, s1) -> (f a s1).1 <> inl ErrLoop) ->
  ((m ≫= f) s).1 <> inl ErrLoop.
Proof.
  intros Hm Hf. unfold mbind, M_bind. destruct (m s) as [[e|a] s1]; [|by apply Hf]. simpl in *. congruence.
Qed.

Lemma exec_no_loop cs (s : St) : (exec_ cs s).1 <> inl ErrLoop.
Proof.
  unfold exec_, mbind, M_bind. destruct (Exec cs s) as [[e|rs] s1] eqn:E; [|done].
  apply Exec_err in E as [He _]. simpl. congruence.
Qed.

Lemma pop_all_terminates fuel k acc (s : St) w :
  get_set (keyspace s) k = Some w -> (size w <= 1000 * fuel)%nat ->
  (pop_all (S fuel) k acc s).1 <> inl ErrLoop.
Proof.
  revert acc s w. induction fuel as [|fuel IH]; intros acc s w Hw Hsz.
  all: change (pop_all (S ?f) k acc) with (r ← mtry (do_as as_strs (SPopN k 1000));
      match r with
      | inl ErrNil => mret acc
      | inl e => mfail e
      | inr [] => mret acc
      | inr batch => pop_all f k (acc ++ batch)
      end).
  all: apply bind_no_loop; [unfold mtry; by destruct (do_as _ _ s)|].
  all: intros r s1 Hr; apply mtry_inv in Hr as (x & [= ->] & Hr).
  all: destruct (do_SPopN_cases _ _ _ _ _ _ Hr Hw) as [(l & -> & Hc)|(m & ->)]; [|done].
  all: apply (SPopN_inv _ _ _ w) in Hc as (Hnd & Hsub & Hlen & Hget & Hfr); [|done].
  all: destruct l as [|x l]; [done|].
  - exfalso. simpl length in Hlen. lia.
  - eapply IH; [done|]. rewrite size_difference by done. rewrite size_list_to_set by done.
    rewrite Hlen. lia.
Qed.

Lemma rank_batches_terminates fuel id n i ids (s : St) :
  (length ids <= fuel)%nat -> (rank_batches fuel id n i ids s).1 <> inl ErrLoop.
Proof.
  revert i ids s. induction fuel as [|fuel IH]; intros i ids s Hl.
  { by destruct ids; [|simpl in Hl; lia]. }
  destruct ids as [|x ids]; [done|].
  change (rank_batches (S fuel) id n i (x :: ids)) with
    (_ ← exec_ (rank_cmds id n i (take 1000 (x :: ids)));
      rank_batches fuel id n (i + 1000)%nat (drop 1000 (x :: ids))).
  apply bind_no_loop; [apply exec_no_loop|]. intros [] s1 _. apply IH. rewrite length_drop. simpl in Hl |- *. lia.
Qed.

(** Closing a wave terminates: with one batch of fuel for each
    thousand tickets of the wave and one for the empty batch that ends the
    loop, the bound on the loops is never what stops it. *)
Theorem CloseWave_terminates fuel rnd id n (s : St) w :
  get_set (keyspace s) (wave_key id n) = Some w -> (size w <= 1000 * fuel)%nat ->
  (CloseWave (S fuel) rnd id n s).1 <> inl ErrLoop.
Proof.
  intros Hw Hsz. unfold CloseWave. apply bind_no_loop; [by eapply pop_all_terminates|].
  intros ids s1 _. destruct ids as [|x ids]; [done|].
  apply bind_no_loop; [by apply rank_batches_terminates|]. intros [] s2 _.
  apply bind_no_loop; [unfold mtry; by destruct (exec_ _ s2)|]. done.
Qed.

End Effects.

(** ** Footprints

    Whatever its result, what a computation did to the keyspace is the effect
    of a pipeline of commands that satisfy [P]. *)

Section Footprint.
Context {St : Type} `{RedisServer St} {HL : RedisLaws St}.

Definition only (P : cmd -> Prop) {A} (m : M St A) : Prop :=
  forall s r s', m s = (r, s') ->
    exists cs rs, Forall P cs /\ pipe_spec cs (keyspace s) rs (keyspace s').

Lemma pipe_spec_app cs1 cs2 d rs1 d1 rs2 d2 :
  pipe_spec cs1 d rs1 d1 -> pipe_spec cs2 d1 rs2 d2 -> pipe_spec (cs1 ++ cs2) d (rs1 ++ rs2) d2.
Proof. induction 1; intros; simpl; [done|]. econstructor; eauto. Qed.

Lemma only_pure P {A} (r : goerr + A) (m : M St A) : (forall s, m s = (r, s)) -> only P m.
Proof. intros Hm s r' s' E. rewrite Hm in E. injection E as <- <-. exists [], []. split; constructor. Qed.

Lemma only_ret P {A} (a : A) : only P (mret a : M St A).
Proof. by apply (only_pure P (inr a)). Qed.
Lemma only_fail P {A} e : only P (mfail e : M St A).
Proof. by apply (only_pure P (inl e)). Qed.
Lemma only_lift P {A} (x : goerr + A) : only P (lift_err x : M St A).
Proof. by apply (only_pure P x). Qed.

Lemma only_mono P Q {A} (m : M St A) : (forall c, P c -> Q c) -> only P m -> only Q m.
Proof.
  intros HPQ Hm s r s' E. destruct (Hm s r s' E) as (cs & rs & Hf & Hp). exists cs, rs.
  split; [|done]. eapply Forall_impl; eauto.
Qed.

Lemma only_bind P {A B} (m : M St A) (f : A -> M St B) :
  only P m -> (forall a, only P (f a)) -> only P (m ≫= f).
Proof.
  intros Hm Hf s r s' E. unfold mbind, M_bind in E. destruct (m s) as [[e|a] s1] eqn:E1.
  - injection E as <- <-. by eapply Hm.
  - destruct (Hm _ _ _ E1) as (cs1 & rs1 & F1 & P1). destruct (Hf _ _ _ _ E) as (cs2 & rs2 & F2 & P2).
    exists (cs1 ++ cs2), (rs1 ++ rs2). split; [by apply Forall_app|by eapply pipe_spec_app].
Qed.

Lemma only_mtry P {A} (m : M St A) : only P m -> only P (mtry m).
Proof. intros Hm s r s' (x & _ & E)%mtry_inv. by eapply Hm. Qed.

Lemma only_Exec P cs : Forall P cs -> only P (Exec cs).
Proof.
  intros Hf s r s' E. destruct r as [e|rs].
  - apply Exec_err in E as (_ & cs' & rs & Hs & Hp). exists cs', rs. split; [by eapply Forall_sublist|done].
  - apply Exec_inv in E as [Hp _]. eauto.
Qed.

Lemma only_send P cs : Forall P cs -> only P (send cs).
Proof.
  intros Hf s r s' E. destruct r as [e|rs].
  - apply send_err in E as (_ & cs' & rs & Hs & Hp). exists cs', rs. split; [by eapply Forall_sublist|done].
  - apply send_inv in E. eauto.
Qed.

Lemma only_exec P cs : Forall P cs -> only P (exec_ cs).
Proof. intros Hf. apply only_bind; [by apply only_Exec|]. intros a. apply only_ret. Qed.

Lemma only_do_as P {A} (f : reply -> goerr + A) c : P c -> only P (do_as f c).
Proof.
  intros Hc. apply only_bind; [|intros a; apply only_lift]. apply only_bind; [apply only_Exec; by repeat constructor|].
  intros [|r rs]; [apply only_fail|apply only_ret].
Qed.

(** A key that no command of the footprint names is left alone. *)
Lemma only_frame P k {A} (m : M St A) s r s' :
  only P m -> (forall c, P c -> cmd_key c <> Some k) -> m s = (r, s') ->
  kv (keyspace s') !! k = kv (keyspace s) !! k.
Proof.
  intros Hm HP E. destruct (Hm _ _ _ E) as (cs & rs & Hf & Hp). eapply pipe_frame; [exact Hp|].
  eapply Forall_impl; eauto.
Qed.

Lemma only_silent P {A} (m : M St A) s r s' :
  only P m -> (forall c, P c -> silent c = true) -> m s = (r, s') ->
  chan (keyspace s') = chan (keyspace s).
Proof.
  intros Hm HP E. destruct (Hm _ _ _ E) as (cs & rs & Hf & Hp). eapply pipe_silent; [exact Hp|].
  eapply Forall_impl; eauto.
Qed.

(** The commands that write nothing. *)
Lemma only_reads {A} (m : M St A) s r s' :
  only (fun c => cmd_key c = None) m -> m s = (r, s') -> kv (keyspace s') = kv (keyspace s).
Proof. intros Hm E. apply map_eq. intros k. eapply only_frame; [exact Hm| |exact E]. by intros c ->. Qed.

Lemma only_Ranks id tids : only (fun c => cmd_key c = None) (Ranks id tids).
Proof.
  apply only_bind.
  - apply only_send. apply Forall_map, Forall_true. done.
  - intros rs. destruct (first_err rs) as [[]|]; try apply only_fail; apply only_ret.
Qed.

Definition zrank_of (z : gmap string f64) (tid : string) : Z :=
  match zrank tid z with Some i => Z.of_nat i | None => -1 end.

Lemma Ranks_inv id tids (s : St) out s' z :
  Ranks id tids s = (inr out, s') -> get_zset (keyspace s) (Key id "pending") = Some z ->
  out = map (zrank_of z) tids.
Proof.
  intros E Hz. unfold Ranks in E. apply M_bind_inv in E as (rs & s1 & E1 & E). apply send_inv in E1.
  assert (Hout : out = map (fun r => match r with RInt z => z | _ => -1 end) rs).
  { destruct (first_err rs) as [[]|]; unfold mret, M_ret, mfail in E; by simplify_eq. }
  rewrite Hout. clear E Hout. revert E1. generalize (keyspace s1). generalize dependent (keyspace s).
  revert rs. induction tids as [|tid tids IH]; intros rs d Hz d' Hp; simpl in Hp |- *.
  - by apply pipe_nil_inv in Hp as [-> _].
  - apply pipe_cons_inv in Hp as (r & d1 & rs1 & -> & Hc & Hp). simpl in Hc. rewrite Hz in Hc.
    injection Hc as -> ->. simpl. f_equal; [|by eapply IH].
    unfold zrank_of. by destruct (zrank tid z).
Qed.

Lemma Counts_inv id now (s : St) p a h s' z :
  Counts id now s = (inr (p, a, h), s') -> get_zset (keyspace s) (active_key id) = Some z ->
  (exists z', get_zset (keyspace s') (active_key id) = Some z' /\ (size z' <= size z)%nat /\ a = Z.of_nat (size z')) /\
  (exists zp, get_zset (keyspace s) (pending_key id) = Some zp /\
     p = Z.of_nat (size zp) /\ kv (keyspace s') !! pending_key id = kv (keyspace s) !! pending_key id).
Proof.
  intros Hc Hz. unfold Counts in Hc. apply M_bind_inv in Hc as (rs & s1 & He & Hc).
  apply Exec_inv in He as [Hp Hr].
  apply pipe_cons_inv in Hp as (r1 & d1 & rs1 & -> & Hc1 & Hp). apply Forall_cons in Hr as [_ Hr].
  apply pipe_cons_inv in Hp as (r2 & d2 & rs2 & -> & Hc2 & Hp). apply Forall_cons in Hr as [Hr2 Hr].
  apply pipe_cons_inv in Hp as (r3 & d3 & rs3 & -> & Hc3 & Hp).
  apply pipe_cons_inv in Hp as (r4 & d4 & rs4 & -> & Hc4 & Hp). apply pipe_nil_inv in Hp as [-> Hd].
  simpl in Hc1, Hc2, Hc3, Hc4. rewrite Hz in Hc1. injection Hc1 as -> ->.
  assert (Hkp : forall z', kv (put_zset (active_key id) z' (keyspace s)) !! pending_key id = kv (keyspace s) !! pending_key id).
  { intros z'. apply kv_put_zset. intros E. by apply Key_inj in E. }
  rewrite (get_zset_kv _ _ _ (Hkp _)) in Hc2.
  destruct (get_zset (keyspace s) (pending_key id)) as [zp|] eqn:Ez; injection Hc2 as -> ->; [|done].
  rewrite get_zset_put_zset in Hc3. injection Hc3 as -> ->.
  destruct (get_zset _ (pending_key id)) as [zp'|] eqn:Ez' in Hc4; injection Hc4 as -> ->; [|done].
  unfold mret, M_ret in Hc. injection Hc as <- <- _ <-. rewrite Hd. split.
  - eexists. split; [apply get_zset_put_zset|]. split; [|done]. apply map_subseteq_size, map_filter_subseteq.
  - exists zp. split; [done|]. split; [done|]. apply Hkp.
Qed.

End Footprint.

(** ** Properties *)

(** Claim C37.  The shuffle is uniform: among the in-range draws of its loop,
    exactly one sequence leads to each permutation of the tickets. *)
Theorem Shuffle_uniform ids ids' :
  NoDup ids -> ids ≡ₚ ids' ->
  exists! js, draws (length ids - 1) js /\ Shuffle js ids = ids'.
Proof.
  intros Hnd Hp. unfold Shuffle. destruct ids as [|x ids].
  - apply Permutation_nil_l in Hp as <-. exists []. split; [simpl; split; [exact I|reflexivity]|].
    intros [|j js] [Hd _]; [done|destruct Hd].
  - by apply shuffle_from_draws; [simpl; lia|..].
Qed.

Section Properties.
Context {St : Type} `{RedisServer St} {HL : RedisLaws St}.

Lemma SAdd_ok k m (d : db) r d' :
  cmd_spec (SAdd k m) d r d' -> reply_err r = None ->
  exists w, get_set d k = Some w /\ d' = put k (VSet ({[m]} ∪ w)) d.
Proof.
  simpl. destruct (get_set d k) as [w|]; intros [= -> ->]; [eauto|done].
Qed.

Lemma Publish_inv id ev (s : St) u s' :
  Publish id ev s = (inr u, s') ->
  kv (keyspace s') = kv (keyspace s) /\
  chan (keyspace s') = chan (keyspace s) ++ [(Key id "ev", marshal (event_json ev))].
Proof.
  intros (rs & Hp & _)%exec_inv. apply det_run_all in Hp; [|repeat constructor]. by rewrite Hp.
Qed.

Lemma GetHash_inv k (s : St) h s' :
  do_as as_hash (HGetAll k) s = (inr h, s') ->
  get_hash (keyspace s) k = Some h /\ keyspace s' = keyspace s.
Proof.
  intros (r & Hr & Hc & He)%do_as_inv. simpl in Hc.
  destruct (get_hash (keyspace s) k) as [h'|]; simplify_eq; simpl in *; by simplify_eq.
Qed.

(** A configuration that [SetConfig] stores is the one [Config]
    reads back, normalised by [Validate]; the queue is registered among the
    known queues and the change is published with the new rate. *)
Theorem SetConfig_Config marshal_map unmarshal_map id c c' (s s1 s2 : St) res :
  SetConfig marshal_map id c s = (inr tt, s1) -> Validate c = (None, c') ->
  hashable marshal_map unmarshal_map c' -> Config unmarshal_map id s1 = (inr res, s2) ->
  res = (c', true) /\
  (exists rooms, get_set (keyspace s1) RoomsKey = Some rooms /\ ID_String id ∈ rooms) /\
  chan (keyspace s1) = chan (keyspace s) ++
    [(Key id "ev", marshal (event_json (MkEvent "config" [] 0 fzero (Rate c'))))].
Proof.
  intros Hset Hv Hh Hget. unfold SetConfig in Hset. rewrite Hv in Hset.
  apply M_bind_inv in Hset as ([] & s0 & He & Hpub).
  apply Publish_inv in Hpub as [Hkv Hchan].
  apply exec_inv in He as (rs & Hp & Hr).
  apply pipe_cons_inv in Hp as (r1 & d1 & rs1 & -> & Hc1 & Hp).
  apply pipe_cons_inv in Hp as (r2 & d2 & rs2 & -> & Hc2 & Hp). apply pipe_nil_inv in Hp as [-> Hd].
  apply Forall_cons in Hr as [Hr1 Hr]. apply Forall_cons in Hr as [Hr2 _].
  apply HSet_ok in Hc1 as (h & Hh1 & ->); [|done]. apply SAdd_ok in Hc2 as (w & Hw & ->); [|done].
  rewrite Hd in Hkv, Hchan. split; [|split].
  - unfold Config in Hget. apply M_bind_inv in Hget as (h' & s3 & Hget & Hret).
    apply GetHash_inv in Hget as [Hget _]. unfold mret, M_ret in Hret. simplify_eq.
    unfold get_hash in Hget. rewrite Hkv, kv_put in Hget.
    rewrite decide_False in Hget by (intros E; symmetry in E; by apply Key_ne_rooms in E).
    rewrite kv_put, decide_True in Hget by done. apply (inj Some) in Hget as <-.
    rewrite hset_union by (apply (bool_decide_unpack _); reflexivity).
    apply FromHash_ToHash; [by eapply Validate_valid|done].
  - exists ({[ID_String id]} ∪ w). split; [|set_solver]. unfold get_set. rewrite Hkv, kv_put.
    by rewrite decide_True.
  - done.
Qed.

Lemma Expire_ok k t (d : db) r d' : cmd_spec (Expire k t) d r d' -> kv d' = kv d.
Proof. simpl. intros Heq. by destruct (kv d !! k); simplify_eq. Qed.

Lemma HIncrBy_ok k f n (d : db) r d' :
  cmd_spec (HIncrBy k f n) d r d' -> reply_err r = None ->
  forall k', k' <> k -> kv d' !! k' = kv d !! k'.
Proof.
  simpl. intros Heq He k' Hk. destruct (get_hash d k) as [h|]; [|by simplify_eq].
  destruct (ParseInt _) as [v|]; [|by simplify_eq].
  destruct (in_int64 (v + n)); simplify_eq.
  rewrite kv_put. by rewrite decide_False.
Qed.

(** A ticket that [CreateTicket] returns is waiting, is read back
    unchanged by [GetTicket] when its identifier is new, is a member of the
    wave of its arrival, and its queue is registered. *)
Theorem CreateTicket_GetTicket rnd id cfg dom ret now (s s1 s2 : St) t o :
  CreateTicket rnd id cfg dom ret now s = (inr t, s1) ->
  get_hash (keyspace s) (ticket_key id (newID rnd)) = Some ∅ ->
  in_int64 (unix now) = true -> in_int64 (Wave now (WaveSec cfg)) = true ->
  GetTicket id (t_ID t) s1 = (inr o, s2) ->
  o = Some t /\ t_Status t = StatusWaiting /\
  (exists w, get_set (keyspace s1) (wave_key id (Wave now (WaveSec cfg))) = Some w /\ t_ID t ∈ w) /\
  (exists rooms, get_set (keyspace s1) RoomsKey = Some rooms /\ ID_String id ∈ rooms).
Proof.
  intros Hc Hfresh Hu Hw Hg. unfold CreateTicket in Hc. apply M_bind_inv in Hc as ([] & s0 & He & Hc).
  unfold mret, M_ret in Hc. simplify_eq. cbn [t_ID t_Wave t_Created t_Status] in *.
  apply exec_inv in He as (rs & Hp & Hr).
  apply pipe_cons_inv in Hp as (r1 & d1 & rs1 & -> & Hc1 & Hp). apply Forall_cons in Hr as [Hr1 Hr].
  apply pipe_cons_inv in Hp as (r2 & d2 & rs2 & -> & Hc2%Expire_ok & Hp). apply Forall_cons in Hr as [_ Hr].
  apply pipe_cons_inv in Hp as (r3 & d3 & rs3 & -> & Hc3 & Hp). apply Forall_cons in Hr as [Hr3 Hr].
  apply pipe_cons_inv in Hp as (r4 & d4 & rs4 & -> & Hc4%Expire_ok & Hp). apply Forall_cons in Hr as [_ Hr].
  apply pipe_cons_inv in Hp as (r5 & d5 & rs5 & -> & Hc5 & Hp). apply Forall_cons in Hr as [Hr5 Hr].
  apply pipe_cons_inv in Hp as (r6 & d6 & rs6 & -> & Hc6 & Hp). apply Forall_cons in Hr as [Hr6 _].
  apply pipe_nil_inv in Hp as [-> Hd].
  apply HSet_ok in Hc1 as (h & Hh & ->); [|done]. rewrite Hfresh in Hh. injection Hh as <-.
  apply SAdd_ok in Hc3 as (w & Hws & ->); [|done].
  pose proof (HIncrBy_ok _ _ _ _ _ _ Hc5 Hr5) as Hk5.
  apply SAdd_ok in Hc6 as (w2 & Hw2 & ->); [|done].
  split; [|split; [done|split]].
  - unfold GetTicket in Hg. apply M_bind_inv in Hg as (h' & s3 & Hg & Hret).
    apply GetHash_inv in Hg as [Hg _]. unfold mret, M_ret in Hret. simplify_eq.
    unfold get_hash in Hg. rewrite Hd, kv_put in Hg.
    rewrite decide_False in Hg by (intros E; symmetry in E; by apply Key_ne_rooms in E).
    rewrite Hk5 in Hg by (by apply ticket_key_ne). rewrite Hc4, kv_put in Hg.
    rewrite decide_False in Hg by (intros E; symmetry in E; by apply ticket_wave_ne in E).
    rewrite Hc2, kv_put, decide_True in Hg by done. apply (inj Some) in Hg as <-.
    unfold ticket_of, field, hset. cbn [foldl fst snd]. simplify_map_eq.
    rewrite !ParseIntV_FormatInt by done. reflexivity.
  - exists ({[newID rnd]} ∪ w). split; [|set_solver]. unfold get_set. rewrite Hd, kv_put.
    rewrite decide_False by (intros E; symmetry in E; by apply Key_ne_rooms in E).
    rewrite Hk5 by (by apply wave_key_ne). rewrite Hc4, kv_put. by rewrite decide_True.
  - exists ({[ID_String id]} ∪ w2). split; [|set_solver]. unfold get_set. rewrite Hd, kv_put.
    by rewrite decide_True.
Qed.

Lemma PopPending_inv id k (s : St) ids s' z :
  PopPending id k s = (inr ids, s') -> get_zset (keyspace s) (pending_key id) = Some z ->
  let l := take (Z.to_nat k) (zsorted z) in
  ids = l.*1 /\ get_zset (keyspace s') (pending_key id) = Some (zrem l z) /\
  frame [pending_key id] (keyspace s) (keyspace s').
Proof.
  intros Hp Hz. cbv zeta. unfold PopPending in Hp. destruct (Z.leb_spec k 0) as [Hk|Hk].
  - unfold mret, M_ret in Hp. simplify_eq. rewrite Z2Nat.nonpos by lia. split; [done|].
    split; [done|apply frame_refl].
  - apply M_bind_inv in Hp as (zs & s1 & Hp & Hret). unfold mret, M_ret in Hret. simplify_eq.
    apply do_as_inv in Hp as (r & Hr & Hc & _). simpl in Hc. rewrite Hz in Hc.
    injection Hc as -> Hd. simpl in Hr. injection Hr as <-. rewrite Hd.
    split; [done|]. split; [apply get_zset_put_zset|].
    intros k' Hk'. apply kv_put_zset. intros E. apply Hk'. rewrite <- E. left.
Qed.

(** [PopPending] removes the head of the queue and nothing else:
    [min k (size)] distinct tickets, each before (score, then identifier)
    every ticket that stays. *)
Theorem PopPending_spec id k (s : St) ids s' z :
  PopPending id k s = (inr ids, s') -> get_zset (keyspace s) (pending_key id) = Some z ->
  exists z', get_zset (keyspace s') (pending_key id) = Some z' /\
    NoDup ids /\ length ids = Nat.min (Z.to_nat k) (size z) /\
    (forall x, z' !! x = if decide (x ∈ ids) then None else z !! x) /\
    (forall x y sx sy, x ∈ ids -> z !! x = Some sx -> z' !! y = Some sy -> zle (x, sx) (y, sy)).
Proof.
  intros Hp Hz. eapply PopPending_inv in Hp as (-> & Hz' & _); [|done].
  set (l := take (Z.to_nat k) (zsorted z)) in *. exists (zrem l z).
  assert (Hnd : NoDup l.*1).
  { unfold l. rewrite fmap_take. eapply sublist_NoDup; [apply zsorted_NoDup|apply sublist_take]. }
  split; [done|]. split; [done|]. split; [|split].
  - unfold l. by rewrite length_fmap, length_take, zsorted_length.
  - intros x. apply zrem_lookup.
  - intros x y sx sy Hx Hsx Hsy. rewrite zrem_lookup in Hsy.
    destruct (decide (y ∈ l.*1)) as [|Hy]; [done|].
    apply (zsorted_take_le (Z.to_nat k) z).
    + apply list_elem_of_fmap in Hx as ([x' sx'] & -> & Hx). simpl in *.
      assert (z !! x' = Some sx') as Hs'.
      { apply zsorted_elem. unfold l in Hx. eapply subseteq_take. exact Hx. }
      rewrite Hsx in Hs'. by simplify_eq.
    + apply zsorted_elem in Hsy. rewrite <- (take_drop (Z.to_nat k)) in Hsy.
      apply elem_of_app in Hsy as [Hin|Hin]; [|done]. exfalso. apply Hy.
      apply list_elem_of_fmap. by exists (y, sy).
Qed.

Lemma GetTicket_inv id tid (s : St) o s' :
  GetTicket id tid s = (inr o, s') ->
  exists h, get_hash (keyspace s) (ticket_key id tid) = Some h /\ keyspace s' = keyspace s /\
    o = if (size h =? 0)%nat then None else Some (ticket_of tid h).
Proof.
  unfold GetTicket. intros H1. apply M_bind_inv in H1 as (h & s1 & [H1 H2]%GetHash_inv & H3).
  unfold mret, M_ret in H3. simplify_eq. eauto.
Qed.

(** A ticket popped from the queue and requeued, after a failed
    admission for instance, regains the score it was ranked with, while the
    other popped tickets stay out: its recorded score reads back exactly. *)
Theorem Requeue_restores id tid n r k (s s1 s2 s3 : St) ids t z h :
  0 <= n -> 0 <= r -> 0 < n * 10000000 + r <= 2 ^ 53 ->
  get_zset (keyspace s) (pending_key id) = Some z ->
  get_hash (keyspace s) (ticket_key id tid) = Some h ->
  field h "score" = FormatFloat0 (WaveScore n r) ->
  PopPending id k s = (inr ids, s1) -> GetTicket id tid s1 = (inr (Some t), s2) ->
  Requeue id t s2 = (inr tt, s3) ->
  exists z3, get_zset (keyspace s3) (pending_key id) = Some z3 /\
    z3 !! tid = Some (WaveScore n r) /\
    forall x, x <> tid -> z3 !! x = if decide (x ∈ ids) then None else z !! x.
Proof.
  intros Hn Hr Hs Hz Hh Hf Hp Hg Hq.
  eapply PopPending_inv in Hp as (-> & Hz1 & Hf1); [|done].
  apply GetTicket_inv in Hg as (h' & Hh' & Hk2 & Ht).
  assert (h' = h) as ->.
  { assert (Hnk : ticket_key id tid ∉ [pending_key id]).
    { apply not_elem_of_cons. split; [by apply ticket_key_ne|apply not_elem_of_nil]. }
    rewrite (get_hash_kv _ _ _ (Hf1 _ Hnk)), Hh in Hh'. by simplify_eq. }
  destruct (size h =? 0)%nat; [done|]. injection Ht as ->.
  assert (Hsc : t_Score (ticket_of tid h) = WaveScore n r).
  { cbn. rewrite Hf. unfold WaveScore. rewrite (wrap64_id (n * 10000000)), wrap64_id
      by (apply in_int64_spec; unfold min_int64, max_int64; lia). by apply ParseFloatV_FormatFloat0. }
  unfold Requeue in Hq. rewrite Hsc in Hq.
  destruct (WaveScore_exact n r) as [E1 N1]; [lia..|].
  assert (feqb (WaveScore n r) fzero = false) as Hne.
  { unfold feqb. rewrite N1, E1. simpl. apply Z.eqb_neq. intros E0. apply Z.mul_eq_0 in E0 as [|E0]; [lia|done]. }
  rewrite Hne in Hq. apply exec_inv in Hq as (rs & Hp & Hrs).
  apply pipe_cons_inv in Hp as (r1 & d1 & rs1 & -> & Hc & Hp). apply pipe_nil_inv in Hp as [-> Hd].
  apply Forall_cons in Hrs as [Hr1 _]. apply ZAdd_ok in Hc as (z1 & Hz1' & ->); [|done].
  rewrite Hk2, Hz1 in Hz1'. injection Hz1' as <-. rewrite Hd.
  eexists. split; [apply get_zset_put_zset|]. unfold zadd. cbn [foldl fst snd t_ID ticket_of].
  split; [by rewrite lookup_insert_eq|]. intros x Hx. rewrite lookup_insert_ne by done. apply zrem_lookup.
Qed.

(** *** The lease of a queue *)

Abbreviation lock_key id := (Key id "lock").

Lemma SetNX_inv k v t (s : St) n s' :
  do_as as_int (SetNX k v t) s = (inr n, s') ->
  (n = 1 /\ kv (keyspace s) !! k = None /\ kv (keyspace s') !! k = Some (VStr v) /\ ttls (keyspace s') !! k = Some t)
  \/ (n = 0 /\ is_Some (kv (keyspace s) !! k) /\ keyspace s' = keyspace s).
Proof.
  intros (r & Hr & Hc & _)%do_as_inv. simpl in Hc. destruct (kv (keyspace s) !! k) as [v'|] eqn:E;
    injection Hc as -> Hd; simpl in Hr; injection Hr as <-; rewrite Hd; [right; eauto|left].
  split; [done|]. split; [done|]. simpl. by rewrite !lookup_insert_eq.
Qed.

Lemma StrGet_inv k (s : St) v s' :
  do_as as_str (StrGet k) s = (inr v, s') ->
  kv (keyspace s) !! k = Some (VStr v) /\ keyspace s' = keyspace s.
Proof.
  intros (r & Hr & Hc & He)%do_as_inv. simpl in Hc.
  destruct (kv (keyspace s) !! k) as [[]|] eqn:E; injection Hc as -> Hd; simpl in *; by simplify_eq.
Qed.

(** The owner of the lease after [Acquire]. *)
Lemma Acquire_inv id p ttl (s : St) b s' :
  Acquire id p ttl s = (inr b, s') ->
  exists q, kv (keyspace s') !! lock_key id = Some (VStr q) /\ b = bool_decide (q = p) /\
    (b = true -> ttls (keyspace s') !! lock_key id = Some ttl) /\
    (b = false -> keyspace s' = keyspace s) /\
    (forall w, kv (keyspace s) !! lock_key id = Some (VStr w) -> w = q).
Proof.
  unfold Acquire. intros Ha. apply M_bind_inv in Ha as (n & s1 & Hn & Ha).
  apply SetNX_inv in Hn as [(-> & Hno & Hk & Ht)|(-> & [v Hv] & Hs)]; cbn [Z.eqb Pos.eqb] in Ha.
  { unfold mret, M_ret in Ha. simplify_eq. exists p. rewrite bool_decide_true by done.
    repeat split; try done. intros w Hw. congruence. }
  apply M_bind_inv in Ha as (cur & s2 & Hc & Ha). apply StrGet_inv in Hc as [Hc Hs2].
  case_bool_decide as Hcur.
  - subst cur. apply M_bind_inv in Ha as (u & s3 & He & Ha). unfold mret, M_ret in Ha. simplify_eq.
    apply exec_inv in He as (rs & Hp & _). apply det_run_all in Hp; [|repeat constructor].
    rewrite Hs2 in Hp. simpl in Hp. rewrite Hc in Hp. rewrite Hp. exists p.
    rewrite bool_decide_true by done. simpl. rewrite lookup_insert_eq.
    repeat split; try done. intros w Hw. rewrite <- Hs in Hw. congruence.
  - unfold mret, M_ret in Ha. simplify_eq. exists cur. rewrite bool_decide_false by done.
    rewrite Hs2. repeat split; try done. intros w Hw. rewrite <- Hs in Hw. congruence.
Qed.

(** The lease is exclusive when its operations are not
    interleaved: after [p] has acquired it, with its time to live set, another
    process is refused and its [Release] leaves the lease to [p]. *)
Theorem Acquire_exclusive id p q ttl (s s1 s2 s3 : St) b u :
  p <> q -> Acquire id p ttl s = (inr true, s1) ->
  Acquire id q ttl s1 = (inr b, s2) -> Release id q s2 = (inr u, s3) ->
  b = false /\ ttls (keyspace s1) !! lock_key id = Some ttl /\
  kv (keyspace s3) !! lock_key id = Some (VStr p).
Proof.
  intros Hpq (p' & Hk & Hb & Ht & _)%Acquire_inv (q' & Hk2 & Hb2 & _ & Hf2 & Hw2)%Acquire_inv Hr.
  symmetry in Hb. apply bool_decide_eq_true in Hb as ->. apply Hw2 in Hk as ->.
  rewrite bool_decide_false in Hb2 by done. split; [done|]. split; [by apply Ht|].
  unfold Release in Hr. apply M_bind_inv in Hr as (r & s4 & Hr & Hret). unfold mret, M_ret in Hret. simplify_eq.
  apply mtry_inv in Hr as (x & [= ->] & Hr).
  assert (keyspace s3 = keyspace s2 \/ exists rep, cmd_spec (DelIfEq (lock_key id) q) (keyspace s2) rep (keyspace s3)) as Hc.
  { destruct x as [e|[]].
    - unfold exec_, mbind, M_bind in Hr. destruct (Exec _ s2) as [[e1|rs] s5] eqn:E; [|done].
      injection Hr as <- <-. by apply Exec_err_1 in E as [_ Hx].
    - apply exec_inv in Hr as (rs & Hp & _). right.
      apply pipe_cons_inv in Hp as (r & d & rs1 & -> & Hc & Hp). apply pipe_nil_inv in Hp as [_ ->]. eauto. }
  destruct Hc as [->|(rep & Hc)]; [done|]. simpl in Hc. rewrite Hk2 in Hc.
  rewrite decide_False in Hc by done. by injection Hc as _ ->.
Qed.

End Properties.

(** The lease expires and [q] takes it: one action of the environment. *)
Definition expire_and_acquire (id : ID) (q : string) (ttl : Z) (d : db) : (goerr + bool) * mem :=
  Acquire id q ttl (MkMem (drop_key (Key id "lock") d) []).

(** The renewal of the lease is not atomic: when it expires
    between the GET and the EXPIRE of the owner's [Acquire] and another process
    takes it in between, both are told that they hold the queue. *)
Theorem Acquire_not_exclusive id p q ttl d :
  kv d !! Key id "lock" = Some (VStr p) ->
  let others d := mem_db (expire_and_acquire id q ttl d).2 in
  let '(b, s') := Acquire id p ttl (MkShared d [fun d => d; fun d => d; others]) in
  b = inr true /\ (expire_and_acquire id q ttl d).1 = inr true /\
  kv (sh_db s') !! Key id "lock" = Some (VStr q).
Proof.
  intros Hk. cbv zeta.
  assert (Hq : expire_and_acquire id q ttl d =
    (inr true, MkMem (set_ttl (Key id "lock") ttl (put (Key id "lock") (VStr q) (drop_key (Key id "lock") d))) [])).
  { unfold expire_and_acquire, Acquire, do_as, Do1, Exec, send, mbind, M_bind. simpl.
    rewrite lookup_delete_eq. done. }
  rewrite Hq. unfold Acquire, do_as, Do1, Exec, exec_, send, mbind, M_bind. simpl. rewrite Hk. simpl.
  rewrite Hk. simpl. rewrite bool_decide_true by done.
  unfold Exec, send, mbind, M_bind. simpl. rewrite Hq. simpl. rewrite lookup_insert_eq. simpl.
  split; [done|]. split; [done|]. by rewrite lookup_insert_eq.
Qed.

(** ** Witnesses *)

Definition acme : ID := MkID "acme" "shop".
Definition empty_mem : mem := MkMem empty_db [].
Definition at_150 : Z := 150 * second.
Definition waves_of_30 : Room.Config := Defaults.

(** Three tickets in wave 5, then one of them twice identified. *)
Definition join (rnd : string) (s : mem) : mem :=
  (CreateTicket rnd acme waves_of_30 "shop.example.com" "/panier" at_150 s).2.
Definition three_waiting : mem := join "abc" (join "xyz" (join "k42" empty_mem)).
Definition three : gset string := {[newID "abc"; newID "xyz"; newID "k42"]}.
Definition classed : mem := (CloseWave 2 [7; 3] acme 5 three_waiting).2.
Definition pending_of (s : mem) : gmap string f64 := default ∅ (get_zset (mem_db s) (pending_key acme)).

Lemma CloseWave_spec_witness :
  exists popped, popped ≡ₚ elements three /\
    get_zset (keyspace classed) (pending_key acme) = Some (zadd (scored 5 0 (Shuffle [7; 3] popped)) ∅).
Proof.
  destruct (CloseWave_spec 2 [7; 3] acme 5 three_waiting 3 classed three ∅) as (popped & Hp & _ & _ & Hz & _);
    [vm_compute; reflexivity..|]. exists popped. split; [exact Hp|exact Hz].
Defined.

Lemma CloseWave_terminates_witness : (CloseWave 2 [7; 3] acme 5 three_waiting).1 <> inl ErrLoop.
Proof.
  apply (CloseWave_terminates 1 [7; 3] acme 5 three_waiting three); [vm_compute; reflexivity|].
  apply Nat.leb_le. vm_compute. reflexivity.
Defined.

Lemma Shuffle_uniform_witness :
  exists! js, draws 2 js /\ Shuffle js ["a"; "b"; "c"]%string = ["c"; "a"; "b"]%string.
Proof.
  apply (Shuffle_uniform ["a"; "b"; "c"]%string ["c"; "a"; "b"]%string).
  - apply (bool_decide_unpack _). vm_compute. exact I.
  - change ["a"; "b"; "c"]%string with (["a"; "b"]%string ++ ["c"%string]). apply Permutation_app_comm.
Defined.

Definition configured : mem := (SetConfig enc_pairs acme shop empty_mem).2.

Lemma SetConfig_Config_witness : (shop, true) = (shop, true) /\
  exists rooms, get_set (keyspace configured) RoomsKey = Some rooms /\ ID_String acme ∈ rooms.
Proof.
  destruct (SetConfig_Config enc_pairs dec_pairs acme shop shop empty_mem configured configured (shop, true))
    as (H1 & H2 & _); [vm_compute; reflexivity|vm_compute; reflexivity|apply shop_hashable|vm_compute; reflexivity|].
  split; [exact H1|exact H2].
Defined.

Definition k42 : Ticket := MkTicket (newID "k42") 150 5 StatusWaiting fzero "shop.example.com" "/panier" "" 0 0.

Lemma CreateTicket_GetTicket_witness : Some k42 = Some k42 /\ t_Status k42 = StatusWaiting.
Proof.
  destruct (CreateTicket_GetTicket "k42" acme waves_of_30 "shop.example.com" "/panier" at_150 empty_mem
    (join "k42" empty_mem) (join "k42" empty_mem) k42 (Some k42)) as (H1 & H2 & _);
    [vm_compute; reflexivity..|]. split; [exact H1|exact H2].
Defined.

Definition popped : mem := (PopPending acme 2 classed).2.

Lemma PopPending_spec_witness :
  exists ids z', PopPending acme 2 classed = (inr ids, popped) /\
    get_zset (keyspace popped) (pending_key acme) = Some z' /\ NoDup ids /\ length ids = 2%nat.
Proof.
  exists (take 2 (zsorted (pending_of classed))).*1.
  destruct (PopPending_spec acme 2 classed (take 2 (zsorted (pending_of classed))).*1 popped (pending_of classed))
    as (z' & Hz & Hnd & Hlen & _); [vm_compute; reflexivity..|].
  exists z'. split; [vm_compute; reflexivity|]. split; [exact Hz|]. split; [exact Hnd|].
  vm_compute. reflexivity.
Defined.

Definition classed_k42 : Ticket :=
  ticket_of (newID "k42") (default ∅ (get_hash (mem_db classed) (ticket_key acme (newID "k42")))).
Definition requeued : mem := (Requeue acme classed_k42 popped).2.

Lemma Requeue_restores_witness :
  exists r z3, 0 <= r < 3 /\ get_zset (keyspace requeued) (pending_key acme) = Some z3 /\
    z3 !! newID "k42" = Some (WaveScore 5 r).
Proof.
  exists 1.
  destruct (Requeue_restores acme (newID "k42") 5 1 2 classed popped popped requeued
    (take 2 (zsorted (pending_of classed))).*1 classed_k42 (pending_of classed)
    (default ∅ (get_hash (mem_db classed) (ticket_key acme (newID "k42"))))) as (z3 & H1 & H2 & _);
    try lia; try (vm_compute; reflexivity).
  exists z3. split; [lia|]. split; [exact H1|exact H2].
Defined.

Lemma Acquire_exclusive_witness :
  exists b (s2 s3 : mem), b = false /\ kv (keyspace s3) !! Key acme "lock" = Some (VStr "p") /\
    Acquire acme "q" (5 * second) (Acquire acme "p" (5 * second) empty_mem).2 = (inr b, s2).
Proof.
  pose (s1 := (Acquire acme "p" (5 * second) empty_mem).2).
  pose (s2 := (Acquire acme "q" (5 * second) s1).2).
  destruct (Acquire_exclusive acme "p" "q" (5 * second) empty_mem s1 s2 (Release acme "q" s2).2 false tt)
    as (_ & _ & H); [done|vm_compute; reflexivity..|].
  exists false, s2, (Release acme "q" s2).2. split; [reflexivity|]. split; [exact H|vm_compute; reflexivity].
Defined.

Lemma Acquire_not_exclusive_witness :
  let d := put (Key acme "lock") (VStr "p") empty_db in
  (expire_and_acquire acme "q" (5 * second) d).1 = inr true.
Proof.
  exact (proj1 (proj2 (Acquire_not_exclusive acme "p" "q" (5 * second)
    (put (Key acme "lock") (VStr "p") empty_db) eq_refl))).
Defined.
