(* ===== verification/Admitter.v ===== *)
(** * Package [admitter]: one loop per queue

    [queue/internal/admitter/admitter.go].  The state of a tick is the Redis
    server and the token bucket, which the loop of the queue owns; the
    Prometheus gauges and the log are left out.  The signing key is what
    [keys.Current] returned, the clock and the random draws are arguments. *)
From Stdlib Require Import Ascii.
From S2P Require Import Prelude GoStr F64 Redis Json Room Pass Store.

Local Open Scope list_scope.
Local Open Scope Z_scope.

Definition lockTTL : Z := 5 * second.
Definition waveGrace : Z := second.

Section Admitter.
Context {St : Type} `{RedisServer St}.
Context (unmarshal_map : string -> gmap string string).
(** The signature primitives of [Pass.Mint], the nonce and the clock (in
    seconds) of the mint number [i] of the tick. *)
Context {SK : Type} (pem_decode : string -> option string) (parse_ec : string -> goerr + SK).
Context (sha256 : string -> string) (ecdsa_sign : Z -> SK -> string -> goerr + (Z * Z)).
Context (nonce clock : nat -> Z).
(** The draws of the shuffle of each wave, and the bound of its SPOP loop. *)
Context (draws : Z -> list Z) (fuel : nat).

(** The server and the tokens. *)
Definition World : Type := St * f64.

Definition on_store {A} (m : M St A) : M World A := fun w =>
  let '(r, s) := m w.1 in (r, (s, w.2)).
Definition get_tokens : M World f64 := fun w => (inr w.2, w).
Definition set_tokens (x : f64) : M World unit := fun w => (inr tt, (w.1, x)).

(** The waves [n], [n+1], ... below [cur] whose window has ended; [todo] is
    [cur - n]. *)
Fixpoint close_waves (todo : nat) (id : ID) (waveSec now n : Z) : M St unit :=
  match todo with
  | O => mret tt
  | S todo =>
      if now <? (n + 1) * waveSec * second + waveGrace then mret tt
      else
        _ ← CloseWave fuel (draws n) id n;
        _ ← SetLastWave id n;
        close_waves todo id waveSec now (n + 1)
  end.

Fixpoint close_strays (id : ID) (ns : list Z) : M St unit :=
  match ns with
  | [] => mret tt
  | n :: ns => _ ← CloseWave fuel (draws n) id n; close_strays id ns
  end.

(** The pass of a ticket. *)
Definition mint (i : nat) (priv kid : string) (id : ID) (cfg : Room.Config) (t : Ticket) : goerr + string :=
  Mint pem_decode parse_ec sha256 ecdsa_sign "" (nonce i) (clock i) priv kid
    (MkClaims (t_ID t) (Tenant id) (t_Dom t) (ID_String id) (PassTTL cfg)).

(** The loop over the popped tickets, the first of which is the number [i];
    the result lists the admitted ones. *)
Fixpoint admit_all (i : nat) (priv kid : string) (id : ID) (cfg : Room.Config) (now : Z)
    (ids admitted : list string) : M St (list string) :=
  match ids with
  | [] => mret admitted
  | tid :: ids =>
      r ← mtry (GetTicket id tid);
      match r with
      | inl _ | inr None => admit_all (S i) priv kid id cfg now ids admitted
      | inr (Some t) =>
          match mint i priv kid id cfg t with
          | inl _ => _ ← mtry (Requeue id t); admit_all (S i) priv kid id cfg now ids admitted
          | inr tok =>
              r ← mtry (MarkAdmitted id tid tok (unix (now + PassTTL cfg)) (unix now));
              match r with
              | inl e => _ ← mtry (Requeue id t); mfail e
              | inr _ => admit_all (S i) priv kid id cfg now ids (admitted ++ [tid])
              end
          end
      end
  end.

(** How many tickets the tick may admit. *)
Definition quota (cfg : Room.Config) (tokens : f64) (active pending : Z) : Z :=
  let k := floor tokens in
  let k := if (0 <? MaxActive cfg) && (MaxActive cfg - active <? k) then MaxActive cfg - active else k in
  if pending <? k then pending else k.

Definition refill (cfg : Room.Config) (tokens dt : f64) : f64 :=
  fmin (fadd tokens (fmul (Rate cfg) dt)) (fmul (Rate cfg) (of_int 5)).

(** Steps 1 and 1b: the waves. *)
Definition tick_waves (id : ID) (cfg : Room.Config) (now : Z) : M St unit :=
  let cur := Wave now (WaveSec cfg) in
  lastWave ← LastWave id;
  let lastWave := if (lastWave <? 0) || (lastWave <? cur - 200) || (cur <=? lastWave) then cur - 2 else lastWave in
  _ ← close_waves (Z.to_nat (cur - (lastWave + 1))) id (WaveSec cfg) now (lastWave + 1);
  if Z.rem (unix now) 30 =? 0 then
    strays ← StrayWaves id cur;
    close_strays id strays.1
  else mret tt.

(** Step 3, once [k > 0] tickets may be admitted. *)
Definition tick_admit (kid priv : string) (id : ID) (cfg : Room.Config) (now k pending : Z) (head : f64) : M World unit :=
  if bool_decide (kid = EmptyString) then mret tt
  else
    ids ← on_store (PopPending id k);
    admitted ← on_store (admit_all 0 priv kid id cfg now ids []);
    tokens ← get_tokens;
    _ ← set_tokens (fsub tokens (of_int (Z.of_nat (length admitted))));
    match admitted with
    | [] => mret tt
    | _ => on_store (Publish id
             (MkEvent "admitted" admitted (pending - Z.of_nat (length admitted)) head (Rate cfg)))
    end.

Definition tickOnce (kid priv : string) (id : ID) (now : Z) (dt : f64) : M World unit :=
  c ← on_store (Config unmarshal_map id);
  let cfg := c.1 in
  _ ← on_store (tick_waves id cfg now);
  cnt ← on_store (Counts id now);
  let '(pending, active, head) := cnt in
  tokens ← get_tokens;
  _ ← set_tokens (refill cfg tokens dt);
  if negb (bool_decide (State cfg = StQueue)) || (pending =? 0) then mret tt
  else
    tokens ← get_tokens;
    let k := quota cfg tokens active pending in
    if k <=? 0 then mret tt
    else tick_admit kid priv id cfg now k pending head.

(** ** The loop of a queue *)

(** Its local variables; [last] is in nanoseconds. *)
Record Loop : Type := MkLoop { l_tokens : f64; l_last : Z; l_leader : bool }.

(** One turn: [t0] and [t1] are the clock after [Acquire] and before the tick. *)
Definition loop_turn (kid priv owner : string) (id : ID) (t0 t1 : Z) (s : St) (l : Loop) : St * Loop :=
  match Acquire id owner lockTTL s with
  | (inl _, s) => (s, l)
  | (inr false, s) => (s, MkLoop fzero t0 false)
  | (inr true, s) =>
      let last := if l_leader l then l_last l else t0 in
      let '(_, (s, tokens)) := tickOnce kid priv id t1 (duration_seconds (t1 - last)) (s, l_tokens l) in
      (s, MkLoop tokens t1 true)
  end.

(** The end of the loop, when its context is cancelled. *)
Definition loop_end (owner : string) (id : ID) (s : St) (l : Loop) : St :=
  if l_leader l then (Release id owner s).2 else s.

End Admitter.

(** [Run]: the queues for which a loop is started, given those that have one. *)
Definition start_loops (rooms : list string) (loops : gset string) : list ID * gset string :=
  foldl (fun acc r =>
    if bool_decide (r ∈ acc.2) then acc
    else match Parse r with
         | inl _ => acc
         | inr id => (acc.1 ++ [id], {[r]} ∪ acc.2)
         end) ([], loops) rooms.

(** ** How much an operation can add to a sorted set *)

Section Bounds.
Context {St : Type} `{RedisServer St} {HL : RedisLaws St}.

(** Whatever its result, [m] adds at most [n] members to the sorted set [k]. *)
Definition adds_at_most (k : string) (n : nat) {A} (m : M St A) : Prop :=
  forall s r s', m s = (r, s') -> grows k n (keyspace s) (keyspace s').

Lemma aam_mono k n n' {A} (m : M St A) : (n <= n')%nat -> adds_at_most k n m -> adds_at_most k n' m.
Proof. intros Hn Hm s r s' E. eapply grows_mono; [exact Hn|by eapply Hm]. Qed.

Lemma aam_ret k {A} (a : A) : adds_at_most k 0 (mret a : M St A).
Proof. intros s r s' [= <- <-]. by apply grows_kv. Qed.

Lemma aam_fail k {A} e : adds_at_most k 0 (mfail e : M St A).
Proof. intros s r s' [= <- <-]. by apply grows_kv. Qed.

Lemma aam_lift k {A} (x : goerr + A) : adds_at_most k 0 (lift_err x : M St A).
Proof. intros s r s' [= <- <-]. by apply grows_kv. Qed.

Lemma aam_bind k n n' {A B} (m : M St A) (f : A -> M St B) :
  adds_at_most k n m -> (forall a, adds_at_most k n' (f a)) -> adds_at_most k (n + n') (m ≫= f).
Proof.
  intros Hm Hf s r s' E. unfold mbind, M_bind in E. destruct (m s) as [[e|a] s1] eqn:E1.
  - injection E as <- <-. eapply grows_mono; [|by eapply Hm]. lia.
  - eapply grows_trans; [by eapply Hm|by eapply Hf].
Qed.

Lemma aam_bind0 k n {A B} (m : M St A) (f : A -> M St B) :
  adds_at_most k 0 m -> (forall a, adds_at_most k n (f a)) -> adds_at_most k n (m ≫= f).
Proof. intros. change n with (0 + n)%nat. by apply aam_bind. Qed.

Lemma aam_bind_r k n {A B} (m : M St A) (f : A -> M St B) :
  adds_at_most k n m -> (forall a, adds_at_most k 0 (f a)) -> adds_at_most k n (m ≫= f).
Proof. intros. replace n with (n + 0)%nat by lia. by apply aam_bind. Qed.

Lemma aam_mtry k n {A} (m : M St A) : adds_at_most k n m -> adds_at_most k n (mtry m).
Proof. intros Hm s r s' (x & _ & E)%mtry_inv. by eapply Hm. Qed.

Lemma aam_Exec k n cs : pipe_adds k cs = Some n -> adds_at_most k n (Exec cs).
Proof. intros Hn s r s' E. by eapply Exec_grows. Qed.

Lemma pipe_adds_0 k cs : Forall (fun c => adds k c = Some 0%nat) cs -> pipe_adds k cs = Some 0%nat.
Proof. induction 1 as [|c cs Hc _ IH]; simpl; [done|]. by rewrite Hc, IH. Qed.

Lemma adds_0 k c : cmd_key c <> Some k -> adds k c = Some 0%nat.
Proof.
  intros Hk. unfold adds. destruct c; try done; simpl in Hk;
    rewrite decide_False by (simpl; congruence); done.
Qed.

Lemma aam_exec k n cs : pipe_adds k cs = Some n -> adds_at_most k n (exec_ cs).
Proof. intros Hn. apply aam_bind_r; [by apply aam_Exec|]. intros a. apply aam_ret. Qed.

Lemma aam_do_as k {A} (f : reply -> goerr + A) c : adds k c = Some 0%nat -> adds_at_most k 0 (do_as f c).
Proof.
  intros Hc. apply aam_bind0; [|intros a; apply aam_lift]. unfold Do1.
  apply aam_bind0; [apply aam_Exec; simpl; by rewrite Hc|].
  intros [|r rs]; [apply aam_fail|apply aam_ret].
Qed.

Lemma adds_0_Key id k k' c :
  cmd_key c = Some (Key id k') -> k' <> k -> adds (Key id k) c = Some 0%nat.
Proof. intros Hc Hk. apply adds_0. rewrite Hc. intros E%(inj Some). by apply Key_inj in E. Qed.

(** The commands that add no active pass and publish nothing. *)
Definition idle (id : ID) (c : cmd) : Prop := adds (active_key id) c = Some 0%nat /\ silent c = true.

Lemma idle_ne id c : cmd_key c <> Some (active_key id) -> silent c = true -> idle id c.
Proof. intros Hk Hs. split; [by apply adds_0|done]. Qed.

Lemma idle_Key id k c : cmd_key c = Some (Key id k) -> k <> "active"%string -> silent c = true -> idle id c.
Proof. intros Hc Hk Hs. split; [by eapply adds_0_Key|done]. Qed.

Lemma aam_only id {A} (m : M St A) : only (idle id) m -> adds_at_most (active_key id) 0 m.
Proof.
  intros Hm s r s' E. destruct (Hm _ _ _ E) as (cs & rs & Hf & Hp). eapply pipe_grows; [exact Hp|].
  apply pipe_adds_0. eapply Forall_impl; [exact Hf|]. by intros c [? _].
Qed.

Lemma only_CloseWave id fuel rnd n : only (idle id) (CloseWave fuel rnd id n).
Proof.
  assert (Hw : wave_key id n <> active_key id) by (by apply wave_key_ne).
  assert (Hp : forall fuel acc, only (idle id) (pop_all fuel (wave_key id n) acc)).
  { induction fuel0 as [|f IH]; intros acc; cbn [pop_all]; [apply only_fail|].
    apply only_bind; [apply only_mtry, only_do_as, idle_ne; simpl; congruence|].
    intros [[]|[|x l]]; try apply only_fail; try apply only_ret. apply IH. }
  assert (Hb : forall fuel i ids, only (idle id) (rank_batches fuel id n i ids)).
  { induction fuel0 as [|f IH]; intros i ids; destruct ids as [|x ids]; cbn [rank_batches];
      try apply only_ret; [apply only_fail|].
    apply only_bind; [|intros a; apply IH]. apply only_exec, Forall_app. split.
    - apply Forall_forall. intros c (j & y & -> & _)%elem_of_lookup_imap_1. apply idle_ne; [|done]. simpl.
      intros E%(inj Some). by apply ticket_key_ne in E.
    - apply Forall_singleton. by eapply idle_Key. }
  unfold CloseWave. apply only_bind; [apply Hp|]. intros [|x ids]; [apply only_ret|].
  apply only_bind; [apply Hb|]. intros _. apply only_bind; [|intros _; apply only_ret].
  apply only_mtry, only_exec. apply Forall_singleton, idle_ne; simpl; congruence.
Qed.

Lemma only_SetLastWave id n : only (idle id) (SetLastWave id n).
Proof. apply only_exec. apply Forall_singleton. by eapply idle_Key. Qed.

Lemma only_LastWave id : only (idle id) (LastWave id).
Proof.
  apply only_bind; [by apply only_mtry, only_do_as, idle_ne|]. intros [[]|v]; try apply only_ret; try apply only_fail.
  destruct (ParseInt v); [apply only_ret|apply only_fail].
Qed.

Lemma only_StrayWaves id cur : only (idle id) (StrayWaves id cur).
Proof. apply only_bind; [by apply only_mtry, only_do_as, idle_ne|]. intros r. apply only_ret. Qed.

Lemma only_tick_waves draws fuel id cfg now : only (idle id) (tick_waves draws fuel id cfg now).
Proof.
  assert (Hc : forall todo n, only (idle id) (close_waves draws fuel todo id (WaveSec cfg) now n)).
  { induction todo as [|todo IH]; intros n; cbn [close_waves]; [apply only_ret|].
    destruct (_ <? _); [apply only_ret|]. apply only_bind; [apply only_CloseWave|]. intros _.
    apply only_bind; [apply only_SetLastWave|]. intros _. apply IH. }
  assert (Hs : forall ns, only (idle id) (close_strays draws fuel id ns)).
  { induction ns as [|n ns IH]; cbn [close_strays]; [apply only_ret|].
    apply only_bind; [apply only_CloseWave|]. intros _. apply IH. }
  unfold tick_waves. apply only_bind; [apply only_LastWave|]. intros lw.
  apply only_bind; [apply Hc|]. intros _. destruct (_ =? 0); [|apply only_ret].
  apply only_bind; [apply only_StrayWaves|]. intros strays. apply Hs.
Qed.

Lemma only_Config um id : only (idle id) (Config um id).
Proof. apply only_bind; [by apply only_do_as, idle_ne|]. intros h. apply only_ret. Qed.

Lemma only_GetTicket id tid : only (idle id) (GetTicket id tid).
Proof. apply only_bind; [by apply only_do_as, idle_ne|]. intros h. apply only_ret. Qed.

Lemma only_Requeue id t : only (idle id) (Requeue id t).
Proof.
  unfold Requeue. destruct (feqb _ _); [apply only_ret|]. apply only_exec. apply Forall_singleton.
  by eapply idle_Key.
Qed.

Lemma only_PopPending id k : only (idle id) (PopPending id k).
Proof.
  unfold PopPending. destruct (k <=? 0); [apply only_ret|]. apply only_bind; [apply only_do_as; by eapply idle_Key|].
  intros zs. apply only_ret.
Qed.

Lemma aam_MarkAdmitted id tid tok exp now : adds_at_most (active_key id) 1 (MarkAdmitted id tid tok exp now).
Proof.
  apply aam_exec. cbn [pipe_adds]. rewrite adds_0 by (simpl; intros E%(inj Some); by apply ticket_key_ne in E).
  rewrite (adds_0_Key id "active" "stats" (HIncrBy (Key id "stats") "admitted_total" 1)) by done. simpl. by rewrite decide_True.
Qed.

Lemma aam_Publish id ev : adds_at_most (active_key id) 0 (Publish id ev).
Proof. apply aam_exec, pipe_adds_0. by repeat constructor. Qed.

End Bounds.

Section Tick.
Context {St : Type} `{RedisServer St} {HL : RedisLaws St}.
Context (unmarshal_map : string -> gmap string string).
Context {SK : Type} (pem_decode : string -> option string) (parse_ec : string -> goerr + SK).
Context (sha256 : string -> string) (ecdsa_sign : Z -> SK -> string -> goerr + (Z * Z)).
Context (nonce clock : nat -> Z) (draws : Z -> list Z) (fuel : nat).

Abbreviation admits := (admit_all pem_decode parse_ec sha256 ecdsa_sign nonce clock).
Abbreviation tick := (tickOnce unmarshal_map pem_decode parse_ec sha256 ecdsa_sign nonce clock draws fuel).

Lemma aam_admit_all i priv kid id cfg now ids acc :
  adds_at_most (active_key id) (length ids) (admits i priv kid id cfg now ids acc : M St _).
Proof.
  revert i acc. induction ids as [|tid ids IH]; intros i acc; cbn [admit_all]; [apply aam_ret|].
  apply aam_bind0; [apply aam_mtry, aam_only, only_GetTicket|]. cbn [length].
  assert (IH' : forall i acc, adds_at_most (active_key id) (S (length ids)) (admits i priv kid id cfg now ids acc : M St _)).
  { intros j a. eapply aam_mono; [|apply IH]. lia. }
  intros [e|[t|]]; [apply IH'| |apply IH'].
  destruct (mint _ _ _ _ _ _ _ _ _ _ _) as [e|tok].
  - apply aam_bind0; [apply aam_mtry, aam_only, only_Requeue|]. intros _. apply IH'.
  - change (S (length ids)) with (1 + length ids)%nat.
    apply aam_bind; [apply aam_mtry, aam_MarkAdmitted|]. intros [e|u]; [|apply IH].
    eapply aam_mono; [|apply aam_bind0; [apply aam_mtry, aam_only, only_Requeue|intros _; apply aam_fail]]. lia.
Qed.

Lemma on_store_inv {A} (m : M St A) w r w' :
  on_store m w = (r, w') -> exists s', m w.1 = (r, s') /\ w' = (s', w.2).
Proof. unfold on_store. destruct (m w.1) as [x s']. intros [= <- <-]. eauto. Qed.

(** What a tick does to the active passes: [n] is the number it may add. *)
Definition tick_growth (kid : string) (id : ID) (cfg : Room.Config) (tokens : f64) (za : gmap string f64) (s' : St) : Prop :=
  exists (za2 : gmap string f64) (n : nat) (za' : gmap string f64), (size za2 <= size za)%nat /\
    get_zset (keyspace s') (active_key id) = Some za' /\ (size za' <= size za2 + n)%nat /\
    (n = 0%nat \/ exists pending k, k = quota cfg tokens (Z.of_nat (size za2)) pending /\
       0 < k /\ n = Z.to_nat k /\ State cfg = StQueue /\ kid <> EmptyString).

Lemma tick_growth_0 kid id cfg tokens za (s s' : St) z1 :
  get_zset (keyspace s) (active_key id) = Some z1 -> (size z1 <= size za)%nat ->
  grows (active_key id) 0 (keyspace s) (keyspace s') -> tick_growth kid id cfg tokens za s'.
Proof.
  intros Hz Hle Hg. destruct (Hg _ Hz) as (z' & Hz' & Hle'). exists z1, 0%nat, z'. auto.
Qed.

Lemma tick_admit_growth kid priv id cfg now k pending head (s : St) t r s' t' n :
  0 < k -> n = Z.to_nat k ->
  tick_admit pem_decode parse_ec sha256 ecdsa_sign nonce clock kid priv id cfg now k pending head (s, t) = (r, (s', t')) ->
  (kid = EmptyString /\ s' = s) \/
  (kid <> EmptyString /\ grows (active_key id) n (keyspace s) (keyspace s')).
Proof.
  intros Hk -> Ht. unfold tick_admit in Ht. case_bool_decide as Hkid.
  { left. unfold mret, M_ret in Ht. by simplify_eq. }
  right. split; [done|]. unfold mbind, M_bind in Ht.
  destruct (on_store (PopPending id k) (s, t)) as [[e|ids] w1] eqn:E1;
    apply on_store_inv in E1 as (s1 & E1 & ->); cbn [fst snd] in E1, Ht.
  { injection Ht as <- <- <-. eapply grows_mono; [|exact (aam_only _ _ (only_PopPending _ _) _ _ _ E1)]. lia. }
  pose proof (aam_only _ _ (only_PopPending id k) _ _ _ E1) as G1.
  assert (Hlen : (length ids <= Z.to_nat k)%nat).
  { unfold PopPending in E1. destruct (Z.leb_spec k 0); [lia|]. apply M_bind_inv in E1 as (zs & s2 & E1 & E2).
    unfold mret, M_ret in E2. simplify_eq. apply do_as_inv in E1 as (rr & Hr & Hc & He). simpl in Hc.
    destruct (get_zset (keyspace s) (pending_key id)); injection Hc as -> _; simpl in Hr; [|done].
    injection Hr as <-. rewrite length_fmap, length_take. lia. }
  destruct (on_store (admits 0%nat priv kid id cfg now ids []) (s1, t)) as [[e|adm] w2] eqn:E2;
    apply on_store_inv in E2 as (s2 & E2 & ->); cbn [fst snd] in E2, Ht; apply aam_admit_all in E2 as G2;
    (pose proof (grows_trans _ _ _ _ _ _ G1 G2) as G; eapply grows_mono in G; [|simpl; exact Hlen]).
  { by injection Ht as <- <- <-. }
  unfold get_tokens, set_tokens in Ht. cbn [fst snd] in Ht. destruct adm as [|a adm].
  { unfold mret, M_ret in Ht. by injection Ht as <- <- <-. }
  apply on_store_inv in Ht as (s3 & E3 & [= -> ->]). simpl in E3. apply aam_Publish in E3.
  eapply grows_mono; [|eapply grows_trans; [exact G|exact E3]]. lia.
Qed.

Lemma tick_core kid priv id now dt (s s' : St) t t' r h cfg za :
  tick kid priv id now dt (s, t) = (r, (s', t')) ->
  get_hash (keyspace s) (Key id "cfg") = Some h -> (FromHash unmarshal_map h).1 = cfg ->
  get_zset (keyspace s) (active_key id) = Some za ->
  tick_growth kid id cfg (refill cfg t dt) za s'.
Proof.
  intros Ht Hh Hcfg Hza. unfold tickOnce, mbind, M_bind in Ht.
  destruct (on_store (Config unmarshal_map id) (s, t)) as [[e|c] w1] eqn:E1;
    apply on_store_inv in E1 as (s1 & E1 & ->); cbn [fst snd] in E1, Ht; pose proof (aam_only _ _ (only_Config _ _) _ _ _ E1) as G1.
  { injection Ht as <- <- <-. by eapply tick_growth_0. }
  assert (c = FromHash unmarshal_map h) as ->.
  { unfold Config in E1. apply M_bind_inv in E1 as (h' & s2 & E1 & E2). apply GetHash_inv in E1 as [E1 _].
    rewrite Hh in E1. apply (inj Some) in E1 as <-. unfold mret, M_ret in E2. by injection E2 as <- _. }
  rewrite Hcfg in Ht. clear E1.
  destruct (on_store (tick_waves draws fuel id cfg now) (s1, t)) as [[e|u] w2] eqn:E2;
    apply on_store_inv in E2 as (s2 & E2 & ->); cbn [fst snd] in E2, Ht; pose proof (aam_only _ _ (only_tick_waves _ _ _ _ _) _ _ _ E2) as G2;
    pose proof (grows_trans _ _ _ _ _ _ G1 G2) as G.
  { injection Ht as <- <- <-. by eapply tick_growth_0. }
  destruct (G _ Hza) as (z2 & Hz2 & L2). rewrite Nat.add_0_r in L2.
  destruct (on_store (Counts id now) (s2, t)) as [[e|[[p a] hd]] w3] eqn:E3;
    apply on_store_inv in E3 as (s3 & E3 & ->); cbn [fst snd] in E3, Ht.
  { injection Ht as <- <- <-. eapply tick_growth_0; [exact Hz2|done|].
    unfold Counts in E3. eapply (aam_bind0 _ 0); [|intros rs|exact E3].
    - apply aam_Exec. done.
    - destruct rs as [|? [|[] [|[] [|[] [|? ?]]]]]; try apply aam_fail. apply aam_ret. }
  eapply Counts_inv in E3 as [(z3 & Hz3 & L3 & ->) _]; [|exact Hz2].
  unfold get_tokens, set_tokens in Ht. cbn [fst snd] in Ht.
  destruct (negb (bool_decide (State cfg = StQueue)) || (p =? 0)) eqn:Eg.
  { unfold mret, M_ret in Ht. injection Ht as <- <- <-. eapply tick_growth_0; [exact Hz3|lia|by apply grows_kv]. }
  cbn [snd] in Ht. apply orb_false_iff in Eg as [Eg _]. apply negb_false_iff, bool_decide_eq_true in Eg.
  destruct (Z.leb_spec (quota cfg (refill cfg t dt) (Z.of_nat (size z3)) p) 0) as [Hk|Hk].
  { unfold mret, M_ret in Ht. injection Ht as <- <- <-. eapply tick_growth_0; [exact Hz3|lia|by apply grows_kv]. }
  destruct (tick_admit_growth _ _ _ _ _ _ _ _ _ _ _ _ _ _ Hk eq_refl Ht) as [[-> ->]|[Hkid Hg]].
  { eapply tick_growth_0; [exact Hz3|lia|by apply grows_kv]. }
  destruct (Hg _ Hz3) as (z4 & Hz4 & L4).
  exists z3, (Z.to_nat (quota cfg (refill cfg t dt) (Z.of_nat (size z3)) p)), z4.
  split; [lia|]. split; [done|]. split; [done|]. right. exists p. eexists. split; [reflexivity|]. auto.
Qed.

Lemma quota_le_floor cfg tokens a p : quota cfg tokens a p <= floor tokens.
Proof.
  unfold quota. destruct ((0 <? MaxActive cfg) && (MaxActive cfg - a <? floor tokens)) eqn:E.
  - apply andb_true_iff in E as [_ E%Z.ltb_lt]. destruct (Z.ltb_spec p (MaxActive cfg - a)); lia.
  - destruct (Z.ltb_spec p (floor tokens)); lia.
Qed.

Lemma quota_le_max cfg tokens a p : 0 < MaxActive cfg -> quota cfg tokens a p <= MaxActive cfg - a.
Proof.
  unfold quota. intros Hm. apply Z.ltb_lt in Hm. rewrite Hm. simpl.
  destruct (Z.ltb_spec (MaxActive cfg - a) (floor tokens));
    match goal with |- context [?x <? ?y] => destruct (Z.ltb_spec x y) end; lia.
Qed.

Lemma quota_le_pending cfg tokens a p : quota cfg tokens a p <= p.
Proof. unfold quota. destruct (_ && _); match goal with |- context [p <? ?y] => destruct (Z.ltb_spec p y) end; lia. Qed.

(** Claim C12.  Whatever fails during a tick, the number of active passes
    stays within [MaxActive] when it is positive and it was not exceeded
    before, it grows at most by the whole tokens available, and it does not
    grow at all unless the queue is in state [queue] and a signing key is
    loaded. *)
Theorem tickOnce_bounded kid priv id now dt (s s' : St) t t' r h cfg za :
  tick kid priv id now dt (s, t) = (r, (s', t')) ->
  get_hash (keyspace s) (Key id "cfg") = Some h -> (FromHash unmarshal_map h).1 = cfg ->
  get_zset (keyspace s) (active_key id) = Some za ->
  exists za', get_zset (keyspace s') (active_key id) = Some za' /\
    (0 < MaxActive cfg -> Z.of_nat (size za') <= Z.max (Z.of_nat (size za)) (MaxActive cfg)) /\
    Z.of_nat (size za') <= Z.of_nat (size za) + Z.max 0 (floor (refill cfg t dt)) /\
    (State cfg <> StQueue \/ kid = EmptyString -> (size za' <= size za)%nat).
Proof.
  intros Ht Hh Hcfg Hza.
  destruct (tick_core _ _ _ _ _ _ _ _ _ _ _ _ _ Ht Hh Hcfg Hza) as (za2 & n & za' & L2 & Hz' & L' & Hn).
  exists za'. split; [done|]. destruct Hn as [->|(p & k & Hq & Hk & -> & Hst & Hkid)].
  - split; [|split]; intros; lia.
  - pose proof (quota_le_floor cfg (refill cfg t dt) (Z.of_nat (size za2)) p).
    split; [|split; [lia|]].
    + intros Hm. pose proof (quota_le_max cfg (refill cfg t dt) (Z.of_nat (size za2)) p Hm). lia.
    + by intros [?|?].
Qed.

(** *** The admitted tickets *)

Definition pass_exp (cfg : Room.Config) (now : Z) : Z := unix (now + PassTTL cfg).

(** The ticket has its pass and counts among the active ones. *)
Definition has_pass (id : ID) (cfg : Room.Config) (now : Z) (tid tok : string) (d : db) : Prop :=
  exists h z, get_hash d (ticket_key id tid) = Some h /\
    field h "status" = StatusAdmitted /\ field h "pass" = tok /\
    field h "exp" = FormatInt (pass_exp cfg now) /\
    get_zset d (active_key id) = Some z /\ z !! tid = Some (of_int (pass_exp cfg now)).

Lemma has_pass_frame id cfg now tid tok d d' :
  has_pass id cfg now tid tok d -> kv d' !! ticket_key id tid = kv d !! ticket_key id tid ->
  kv d' !! active_key id = kv d !! active_key id -> has_pass id cfg now tid tok d'.
Proof.
  intros (h & z & Hh & H1 & H2 & H3 & Hz & Ht) Hk Ha. exists h, z.
  rewrite (get_hash_kv _ _ _ Hk), (get_zset_kv _ _ _ Ha). auto 6.
Qed.

Lemma mtry_exec_frame cs (s : St) r s' k :
  mtry (exec_ cs) s = (r, s') -> Forall (fun c => cmd_key c <> Some k) cs ->
  kv (keyspace s') !! k = kv (keyspace s) !! k.
Proof.
  intros (x & _ & E)%mtry_inv Hf. unfold exec_, mbind, M_bind in E.
  destruct (Exec cs s) as [[e|rs] s1] eqn:E1; eapply Exec_frame in E1; try done; by injection E as _ <-.
Qed.

Lemma do_as_frame {A} (f : reply -> goerr + A) c (s : St) r s' k :
  do_as f c s = (r, s') -> cmd_key c <> Some k -> kv (keyspace s') !! k = kv (keyspace s) !! k.
Proof.
  intros E Hk. unfold do_as, mbind, M_bind, lift_err in E.
  destruct (Do1 c s) as [x s1] eqn:E1. assert (s' = s1) as -> by (destruct x; by injection E).
  apply Do1_cases in E1 as [(rep & Hc & _)|(m & _ & [->|(rep & Hc)])]; [|done|]; by eapply cmd_frame.
Qed.

Lemma GetTicket_frame id tid (s : St) r s' k :
  mtry (GetTicket id tid) s = (r, s') -> kv (keyspace s') !! k = kv (keyspace s) !! k.
Proof.
  intros (x & _ & E)%mtry_inv. unfold GetTicket, mbind, M_bind in E.
  destruct (do_as _ _ s) as [[e|h] s1] eqn:E1; eapply do_as_frame in E1; try done; by injection E as _ <-.
Qed.

Lemma Requeue_frame id t (s : St) r s' k :
  mtry (Requeue id t) s = (r, s') -> k <> pending_key id -> kv (keyspace s') !! k = kv (keyspace s) !! k.
Proof.
  unfold Requeue. destruct (feqb _ _).
  - intros (x & _ & E)%mtry_inv _. by injection E as _ <-.
  - intros E Hk. eapply mtry_exec_frame; [exact E|]. repeat constructor. simpl. congruence.
Qed.

Lemma MarkAdmitted_inv id tid tok cfg now (s : St) u s' :
  mtry (MarkAdmitted id tid tok (unix (now + PassTTL cfg)) (unix now)) s = (inr (inr u), s') ->
  has_pass id cfg now tid tok (keyspace s') /\
  forall tid' tok', tid' <> tid -> has_pass id cfg now tid' tok' (keyspace s) ->
    has_pass id cfg now tid' tok' (keyspace s').
Proof.
  intros (x & [= <-] & E)%mtry_inv. apply exec_inv in E as (rs & Hp & Hr).
  apply pipe_cons_inv in Hp as (r1 & d1 & rs1 & -> & Hc1 & Hp). apply Forall_cons in Hr as [Hr1 Hr].
  apply pipe_cons_inv in Hp as (r2 & d2 & rs2 & -> & Hc2 & Hp). apply Forall_cons in Hr as [Hr2 Hr].
  apply pipe_cons_inv in Hp as (r3 & d3 & rs3 & -> & Hc3 & Hp). apply pipe_nil_inv in Hp as [-> Hd].
  apply HSet_ok in Hc1 as (h & Hh & ->); [|done]. apply ZAdd_ok in Hc2 as (z & Hz & ->); [|done].
  match type of Hc3 with cmd_spec _ ?d2 _ _ =>
    assert (Hk3 : forall k, k <> Key id "stats" -> kv (keyspace s') !! k = kv d2 !! k) end.
  { intros k Hk. rewrite Hd. eapply cmd_frame; [exact Hc3|]. simpl. congruence. }
  clear Hd Hc3.
  assert (Hta : forall tid, ticket_key id tid <> active_key id) by (intros; by apply ticket_key_ne).
  assert (Hts : forall tid, ticket_key id tid <> Key id "stats") by (intros; by apply ticket_key_ne).
  assert (Has : active_key id <> Key id "stats") by (intros E; by apply Key_inj in E).
  assert (Hz' : get_zset (keyspace s') (active_key id) = Some (<[tid := of_int (pass_exp cfg now)]> z)).
  { rewrite (get_zset_kv _ _ _ (Hk3 _ Has)). apply get_zset_put_zset. }
  split.
  - eexists _, _. split; [|split; [|split; [|split; [|split; [exact Hz'|apply lookup_insert_eq]]]]].
    + rewrite (get_hash_kv _ _ _ (Hk3 _ (Hts tid))).
      rewrite (get_hash_kv _ _ _ (kv_put_zset _ _ _ _ (not_eq_sym (Hta tid)))). apply get_hash_put.
    + unfold field, hset. simpl. by simplify_map_eq.
    + unfold field, hset. simpl. by simplify_map_eq.
    + unfold field, hset. simpl. by simplify_map_eq.
  - intros tid' tok' Hne (h' & z0 & Hh' & H1 & H2 & H3 & Hz0 & Ht0).
    exists h', (<[tid := of_int (pass_exp cfg now)]> z).
    split; [|split; [done|split; [done|split; [done|split; [done|]]]]].
    + rewrite (get_hash_kv _ _ _ (Hk3 _ (Hts tid'))).
      rewrite (get_hash_kv _ _ _ (kv_put_zset _ _ _ _ (not_eq_sym (Hta tid')))).
      rewrite <- Hh'. apply get_hash_kv. rewrite kv_put, decide_False; [done|]. intros E. by apply ticket_key_inj in E.
    + rewrite lookup_insert_ne by done.
      assert (Heq : get_zset (keyspace s) (active_key id) = Some z).
      { rewrite <- Hz. symmetry. apply get_zset_kv. rewrite kv_put, decide_False; [done|]. apply Hta. }
      rewrite Heq in Hz0. by injection Hz0 as ->.
Qed.

Abbreviation mints := (mint pem_decode parse_ec sha256 ecdsa_sign nonce clock).

(** The ticket [tid] was given a pass minted for it. *)
Definition admitted_with (priv kid : string) (id : ID) (cfg : Room.Config) (now : Z) (tid : string) (d : db) : Prop :=
  exists i t tok, t_ID t = tid /\ mints i priv kid id cfg t = inr tok /\ has_pass id cfg now tid tok d.

Definition keeps_passes (id : ID) (cfg : Room.Config) (now : Z) (ids : list string) (d d' : db) : Prop :=
  forall tid tok, tid ∉ ids -> has_pass id cfg now tid tok d -> has_pass id cfg now tid tok d'.

Lemma keeps_passes_frame id cfg now ids d d' :
  (forall k, k <> pending_key id -> kv d' !! k = kv d !! k) -> keeps_passes id cfg now ids d d'.
Proof.
  intros Hf tid tok _ Hp. eapply has_pass_frame; [exact Hp|..]; apply Hf.
  - by apply ticket_key_ne.
  - intros E. by apply Key_inj in E.
Qed.

Lemma keeps_passes_trans id cfg now ids ids' d1 d2 d3 :
  keeps_passes id cfg now ids d1 d2 -> keeps_passes id cfg now ids' d2 d3 ->
  (forall x, x ∈ ids -> x ∈ ids') -> keeps_passes id cfg now ids' d1 d3.
Proof. intros H1 H2 Hs tid tok Hn Hp. apply H2; [done|]. apply H1; [|done]. intros Hin. by apply Hn, Hs. Qed.

Lemma GetTicket_ID id tid (s : St) t s' : mtry (GetTicket id tid) s = (inr (inr (Some t)), s') -> t_ID t = tid.
Proof.
  intros (x & [= <-] & E)%mtry_inv. apply GetTicket_inv in E as (h & _ & _ & Ho).
  destruct (size h =? 0)%nat; by simplify_eq.
Qed.

Lemma admit_all_spec i priv kid id cfg now ids acc (s : St) adm s' :
  admits i priv kid id cfg now ids acc s = (inr adm, s') -> NoDup ids ->
  exists new, adm = acc ++ new /\ sublist new ids /\
    (forall tid, tid ∈ new -> admitted_with priv kid id cfg now tid (keyspace s')) /\
    keeps_passes id cfg now ids (keyspace s) (keyspace s').
Proof.
  revert i acc s. induction ids as [|tid ids IH]; intros i acc s E Hnd.
  { cbn in E. unfold mret, M_ret in E. simplify_eq. exists []. rewrite (right_id_L [] (++)).
    split; [done|]. split; [done|]. split; [by intros ? ?%elem_of_nil|]. by apply keeps_passes_frame. }
  apply NoDup_cons in Hnd as [Hni Hnd]. cbn [admit_all] in E.
  apply M_bind_inv in E as (r & s1 & E1 & E). pose proof (fun k => GetTicket_frame _ _ _ _ _ k E1) as F1.
  assert (Hskip : forall (s2 : St), (forall k, k <> pending_key id -> kv (keyspace s2) !! k = kv (keyspace s) !! k) ->
    admits (S i) priv kid id cfg now ids acc s2 = (inr adm, s') ->
    exists new, adm = acc ++ new /\ sublist new (tid :: ids) /\
      (forall tid, tid ∈ new -> admitted_with priv kid id cfg now tid (keyspace s')) /\
      keeps_passes id cfg now (tid :: ids) (keyspace s) (keyspace s')).
  { intros s2 Hf E2. apply IH in E2 as (new & -> & Hs & Hn & Hk); [|done].
    exists new. split; [done|]. split; [by constructor|]. split; [done|].
    intros x tok [_ Hx]%not_elem_of_cons Hp. apply Hk; [done|].
    by eapply (keeps_passes_frame _ _ _ []); [exact Hf|apply not_elem_of_nil|]. }
  destruct r as [e|[t|]]; [eapply Hskip; eauto| |eapply Hskip; eauto].
  apply GetTicket_ID in E1 as Hid.
  destruct (mint _ _ _ _ _ _ i priv kid id cfg t) as [e|tok] eqn:Em.
  - apply M_bind_inv in E as (r & s2 & E2 & E). eapply Hskip; [|exact E].
    intros k Hk. rewrite (Requeue_frame _ _ _ _ _ k E2 Hk). apply F1.
  - apply M_bind_inv in E as (r & s2 & E2 & E). destruct r as [e|u].
    { apply M_bind_inv in E as (r & s3 & _ & E). done. }
    rewrite <- Hid in E2. apply MarkAdmitted_inv in E2 as [Hp2 Hk2]. rewrite Hid in Hp2, Hk2.
    apply IH in E as (new & -> & Hs & Hn & Hk); [|done].
    exists (tid :: new). rewrite <- app_assoc. split; [done|]. split; [by constructor|]. split.
    + intros x [->|Hx]%elem_of_cons; [|by apply Hn]. exists i, t, tok. split; [done|]. split; [done|]. by apply Hk.
    + intros x tok' [Hne Hx]%not_elem_of_cons Hp. apply Hk; [done|]. apply Hk2; [done|].
      by eapply (keeps_passes_frame _ _ _ []); [intros k _; apply F1|apply not_elem_of_nil|].
Qed.

(** What is silent in a tick: everything but the final event. *)
Abbreviation quiet := (only (fun c => silent c = true)).

Lemma quiet_idle id {A} (m : M St A) : only (idle id) m -> quiet m.
Proof. apply only_mono. by intros c [_ ?]. Qed.

Lemma quiet_admit_all i priv kid id cfg now ids acc :
  quiet (admits i priv kid id cfg now ids acc : M St _).
Proof.
  revert i acc. induction ids as [|tid ids IH]; intros i acc; cbn [admit_all]; [apply only_ret|].
  apply only_bind; [apply only_mtry; eapply quiet_idle, only_GetTicket|].
  intros [e|[t|]]; [apply IH| |apply IH].
  destruct (mint _ _ _ _ _ _ _ _ _ _ _) as [e|tok].
  - apply only_bind; [apply only_mtry; eapply quiet_idle, only_Requeue|]. intros _. apply IH.
  - apply only_bind; [apply only_mtry, only_exec; by repeat constructor|]. intros [e|u]; [|apply IH].
    apply only_bind; [apply only_mtry; eapply quiet_idle, only_Requeue|intros _; apply only_fail].
Qed.

Lemma quiet_chan {A} (m : M St A) s r s' : quiet m -> m s = (r, s') -> chan (keyspace s') = chan (keyspace s).
Proof. intros Hm E. eapply only_silent; [exact Hm|done|exact E]. Qed.

Lemma PopPending_NoDup id k (s : St) ids s' : PopPending id k s = (inr ids, s') -> NoDup ids.
Proof.
  intros E. unfold PopPending in E. destruct (k <=? 0); [unfold mret, M_ret in E; simplify_eq; constructor|].
  apply M_bind_inv in E as (zs & s1 & E & Hr). unfold mret, M_ret in Hr. simplify_eq.
  apply do_as_inv in E as (r & Hr & Hc & He). simpl in Hc.
  destruct (get_zset (keyspace s) (pending_key id)) as [z|]; injection Hc as -> _; simpl in Hr; [|done].
  injection Hr as <-. rewrite fmap_take. eapply sublist_NoDup; [apply zsorted_NoDup|apply sublist_take].
Qed.

Lemma tick_admit_event kid priv id cfg now k pending head (s : St) t s' t' :
  tick_admit pem_decode parse_ec sha256 ecdsa_sign nonce clock kid priv id cfg now k pending head (s, t) = (inr tt, (s', t')) ->
  exists adm, NoDup adm /\ (forall tid, tid ∈ adm -> admitted_with priv kid id cfg now tid (keyspace s')) /\
    chan (keyspace s') = chan (keyspace s) ++
      (if bool_decide (adm = []) then [] else
        [(Key id "ev", marshal (event_json
           (MkEvent "admitted" adm (pending - Z.of_nat (length adm)) head (Rate cfg))))]).
Proof.
  intros Ht. unfold tick_admit in Ht. case_bool_decide as Hkid.
  { unfold mret, M_ret in Ht. simplify_eq. exists []. split; [constructor|].
    split; [by intros ? ?%elem_of_nil|]. simpl. by rewrite app_nil_r. }
  apply M_bind_inv in Ht as (ids & w1 & E1 & Ht). apply on_store_inv in E1 as (s1 & E1 & ->). cbn [fst snd] in E1, Ht.
  apply M_bind_inv in Ht as (adm & w2 & E2 & Ht). apply on_store_inv in E2 as (s2 & E2 & ->). cbn [fst snd] in E2, Ht.
  apply M_bind_inv in Ht as (tk & w3 & E3 & Ht). injection E3 as <- <-.
  apply M_bind_inv in Ht as (u & w4 & E4 & Ht). injection E4 as <- <-. cbn [fst snd] in Ht.
  pose proof (PopPending_NoDup _ _ _ _ _ E1) as Hnd.
  pose proof (quiet_chan _ _ _ _ (quiet_idle _ _ (only_PopPending id k)) E1) as C1.
  pose proof (quiet_chan _ _ _ _ (quiet_admit_all _ _ _ _ _ _ _ _) E2) as C2.
  apply admit_all_spec in E2 as (new & -> & Hs & Hn & _); [|done]. cbn [app] in Ht.
  exists new. split; [by eapply sublist_NoDup|]. destruct new as [|x new].
  - unfold mret, M_ret in Ht. injection Ht as <- <-. split; [done|]. rewrite C2, C1. simpl. by rewrite app_nil_r.
  - apply on_store_inv in Ht as (s3 & E5 & [= -> ->]). cbn [fst snd] in E5. apply Publish_inv in E5 as [Hk Hc].
    rewrite bool_decide_false by done. split; [|by rewrite Hc, C2, C1].
    intros tid Htid. destruct (Hn tid Htid) as (i & tt & tok & H1 & H2 & H3). exists i, tt, tok.
    split; [done|]. split; [done|]. eapply has_pass_frame; [exact H3|by rewrite Hk..].
Qed.

Lemma quiet_Counts id now : quiet (Counts id now : M St _).
Proof.
  apply only_bind; [apply only_Exec; by repeat constructor|].
  intros [|? [|[] [|[] [|[] [|? ?]]]]]; try apply only_fail. apply only_ret.
Qed.

(** A tick that succeeds announces exactly the tickets it
    admitted: each of them has a pass minted for it, is recorded as admitted
    with the expiry of the pass and counts among the active ones; when it
    admits none it publishes nothing. *)
Theorem tickOnce_announces kid priv id now dt (s s' : St) t t' h cfg :
  tick kid priv id now dt (s, t) = (inr tt, (s', t')) ->
  get_hash (keyspace s) (Key id "cfg") = Some h -> (FromHash unmarshal_map h).1 = cfg ->
  exists adm pending head, NoDup adm /\
    (forall tid, tid ∈ adm -> admitted_with priv kid id cfg now tid (keyspace s')) /\
    chan (keyspace s') = chan (keyspace s) ++
      (if bool_decide (adm = []) then [] else
        [(Key id "ev", marshal (event_json
           (MkEvent "admitted" adm (pending - Z.of_nat (length adm)) head (Rate cfg))))]).
Proof.
  intros Ht Hh Hcfg. unfold tickOnce in Ht.
  apply M_bind_inv in Ht as (c & w1 & E1 & Ht). apply on_store_inv in E1 as (s1 & E1 & ->). cbn [fst snd] in E1, Ht.
  pose proof (quiet_chan _ _ _ _ (quiet_idle _ _ (only_Config _ id)) E1) as C1.
  assert (c = FromHash unmarshal_map h) as ->.
  { unfold Config in E1. apply M_bind_inv in E1 as (h' & s2 & E1 & E2). apply GetHash_inv in E1 as [E1 _].
    rewrite Hh in E1. apply (inj Some) in E1 as <-. unfold mret, M_ret in E2. by injection E2 as <- _. }
  rewrite Hcfg in Ht. clear E1.
  apply M_bind_inv in Ht as (u & w2 & E2 & Ht). apply on_store_inv in E2 as (s2 & E2 & ->). cbn [fst snd] in E2, Ht.
  pose proof (quiet_chan _ _ _ _ (quiet_idle _ _ (only_tick_waves _ _ id cfg now)) E2) as C2.
  apply M_bind_inv in Ht as ([[p a] hd] & w3 & E3 & Ht). apply on_store_inv in E3 as (s3 & E3 & ->). cbn [fst snd] in E3, Ht.
  pose proof (quiet_chan _ _ _ _ (quiet_Counts id now) E3) as C3.
  apply M_bind_inv in Ht as (tk & w4 & E4 & Ht). injection E4 as <- <-.
  apply M_bind_inv in Ht as (u2 & w5 & E5 & Ht). injection E5 as <- <-. cbn [fst snd] in Ht.
  assert (Hnone : s' = s3 -> exists adm pending head, NoDup adm /\
    (forall tid, tid ∈ adm -> admitted_with priv kid id cfg now tid (keyspace s')) /\
    chan (keyspace s') = chan (keyspace s) ++
      (if bool_decide (adm = []) then [] else
        [(Key id "ev", marshal (event_json
           (MkEvent "admitted" adm (pending - Z.of_nat (length adm)) head (Rate cfg))))])).
  { intros ->. exists [], 0, fzero. split; [constructor|]. split; [by intros ? ?%elem_of_nil|].
    rewrite C3, C2, C1. simpl. by rewrite app_nil_r. }
  destruct (negb _ || _); [unfold mret, M_ret in Ht; simplify_eq; by apply Hnone|].
  apply M_bind_inv in Ht as (tk & w6 & E6 & Ht). injection E6 as <- <-. cbn [fst snd] in Ht.
  destruct (_ <=? 0); [unfold mret, M_ret in Ht; simplify_eq; by apply Hnone|].
  apply tick_admit_event in Ht as (adm & Hnd & Ha & Hc). exists adm, p, hd.
  split; [done|]. split; [done|]. by rewrite Hc, C3, C2, C1.
Qed.

(** *** The tokens *)

Lemma refill_ok cfg t dt : f64_ok t -> f64_ok (refill cfg t dt).
Proof. intros Ht. unfold refill. auto with flyc. Qed.

Lemma refill_nonneg cfg t dt :
  f64_ok t -> f64_ok dt -> f64_ok (Rate cfg) -> 0 <= fz t -> 0 <= fz dt -> 0 <= fz (Rate cfg) ->
  0 <= fz (refill cfg t dt).
Proof.
  intros. unfold refill. apply fmin_nonneg; [apply fadd_nonneg; auto using fmul_nonneg with flyc|].
  apply fmul_nonneg; auto with flyc. vm_compute. discriminate.
Qed.

(** Taking [n] whole tokens from a bucket that holds them. *)
Lemma spend_nonneg x n :
  f64_ok x -> 0 <= n <= floor x -> floor x <= 2 ^ 53 -> 0 <= fz x -> 0 <= fz (fsub x (of_int n)).
Proof.
  intros Hx Hn Hf Px. destruct (Z.eq_dec n 0) as [->|Hn0].
  - by destruct x as [[]|[]| |[] m e].
  - destruct (floor_pos_finite x) as [Hnan Hinf]; [lia|].
    apply fsub_nonneg; auto with flyc; [apply is_inf_of_int; lia|].
    rewrite fz_of_int by lia. apply floor_pos_le. lia.
Qed.

Lemma admits_length i priv kid id cfg now ids acc (s : St) adm s' :
  admits i priv kid id cfg now ids acc s = (inr adm, s') -> (length adm <= length acc + length ids)%nat.
Proof.
  revert i acc s. induction ids as [|tid ids IH]; intros i acc s E; cbn [admit_all] in E.
  { unfold mret, M_ret in E. simplify_eq. simpl. lia. }
  apply M_bind_inv in E as (r & s1 & _ & E). destruct r as [e|[t|]]; [apply IH in E; simpl; lia| |apply IH in E; simpl; lia].
  destruct (mint _ _ _ _ _ _ _ _ _ _ _) as [e|tok].
  - apply M_bind_inv in E as (r & s2 & _ & E). apply IH in E. simpl. lia.
  - apply M_bind_inv in E as (r & s2 & _ & E). destruct r as [e|u].
    + by apply M_bind_inv in E as (r & s3 & _ & E).
    + apply IH in E. rewrite length_app in E. simpl in *. lia.
Qed.

Lemma PopPending_length id k (s : St) ids s' : PopPending id k s = (inr ids, s') -> Z.of_nat (length ids) <= Z.max 0 k.
Proof.
  intros E. unfold PopPending in E. destruct (Z.leb_spec k 0).
  { unfold mret, M_ret in E; simplify_eq. simpl. lia. }
  apply M_bind_inv in E as (zs & s1 & E & Hr). unfold mret, M_ret in Hr. simplify_eq.
  apply do_as_inv in E as (r & Hr & Hc & He). simpl in Hc.
  destruct (get_zset (keyspace s) (pending_key id)) as [z|]; injection Hc as -> _; simpl in Hr; [|done].
  injection Hr as <-. rewrite length_fmap, length_take. lia.
Qed.

(** The bucket after the admissions: some of its whole tokens are spent. *)
Lemma tick_admit_tokens kid priv id cfg now k pending head (s : St) t r s' t' :
  0 < k <= floor t ->
  tick_admit pem_decode parse_ec sha256 ecdsa_sign nonce clock kid priv id cfg now k pending head (s, t) = (r, (s', t')) ->
  t' = t \/ exists n, 0 <= n <= floor t /\ t' = fsub t (of_int n).
Proof.
  intros Hk Ht. unfold tick_admit in Ht. case_bool_decide.
  { unfold mret, M_ret in Ht. left. by simplify_eq. }
  unfold mbind, M_bind in Ht.
  destruct (on_store (PopPending id k) (s, t)) as [[e|ids] w1] eqn:E1;
    apply on_store_inv in E1 as (s1 & E1 & ->); cbn [fst snd] in E1, Ht; [left; by simplify_eq|].
  apply PopPending_length in E1.
  destruct (on_store (admits 0%nat priv kid id cfg now ids []) (s1, t)) as [[e|adm] w2] eqn:E2;
    apply on_store_inv in E2 as (s2 & E2 & ->); cbn [fst snd] in E2, Ht; [left; by simplify_eq|].
  apply admits_length in E2. simpl in E2. right. exists (Z.of_nat (length adm)). split; [lia|].
  unfold get_tokens, set_tokens in Ht. cbn [fst snd] in Ht.
  destruct adm; [unfold mret, M_ret in Ht; by simplify_eq|].
  apply on_store_inv in Ht as (s3 & _ & [= -> ->]). done.
Qed.

(** Claim C38.  Whatever a tick does, the bucket of the queue is unchanged,
    or refilled at the configured rate and capped at five seconds' worth, less
    the whole tokens spent; it never becomes negative. *)
Theorem tickOnce_tokens kid priv id now dt (s s' : St) t t' r h cfg :
  tick kid priv id now dt (s, t) = (r, (s', t')) ->
  get_hash (keyspace s) (Key id "cfg") = Some h -> (FromHash unmarshal_map h).1 = cfg ->
  f64_ok t -> f64_ok dt -> f64_ok (Rate cfg) ->
  0 <= fz t -> 0 <= fz dt -> 0 <= fz (Rate cfg) -> floor (refill cfg t dt) <= 2 ^ 53 ->
  0 <= fz t' /\
  (t' = t \/ t' = refill cfg t dt \/
   exists n, 0 <= n <= floor (refill cfg t dt) /\ t' = fsub (refill cfg t dt) (of_int n)) /\
  (is_nan (refill cfg t dt) = false -> is_inf (refill cfg t dt) = false ->
   fz (refill cfg t dt) <= fz (fmul (Rate cfg) (of_int 5))).
Proof.
  intros Ht Hh Hcfg Ot Od Or Pt Pd Pr Hfl.
  assert (Hcore : t' = t \/ t' = refill cfg t dt \/
    exists n, 0 <= n <= floor (refill cfg t dt) /\ t' = fsub (refill cfg t dt) (of_int n)).
  { unfold tickOnce, mbind, M_bind in Ht.
    destruct (on_store (Config unmarshal_map id) (s, t)) as [[e|c] w1] eqn:E1;
      apply on_store_inv in E1 as (s1 & E1 & ->); cbn [fst snd] in E1, Ht; [left; by simplify_eq|].
    assert (c = FromHash unmarshal_map h) as ->.
    { unfold Config in E1. apply M_bind_inv in E1 as (h' & s2 & E1 & E2). apply GetHash_inv in E1 as [E1 _].
      rewrite Hh in E1. apply (inj Some) in E1 as <-. unfold mret, M_ret in E2. by injection E2 as <- _. }
    rewrite Hcfg in Ht.
    destruct (on_store (tick_waves draws fuel id cfg now) (s1, t)) as [[e|u] w2] eqn:E2;
      apply on_store_inv in E2 as (s2 & E2 & ->); cbn [fst snd] in E2, Ht; [left; by simplify_eq|].
    destruct (on_store (Counts id now) (s2, t)) as [[e|[[p a] hd]] w3] eqn:E3;
      apply on_store_inv in E3 as (s3 & E3 & ->); cbn [fst snd] in E3, Ht; [left; by simplify_eq|].
    unfold get_tokens, set_tokens in Ht. cbn [fst snd] in Ht.
    destruct (negb _ || _); [unfold mret, M_ret in Ht; right; left; by simplify_eq|]. cbn [snd] in Ht.
    destruct (Z.leb_spec (quota cfg (refill cfg t dt) a p) 0) as [Hk|Hk];
      [unfold mret, M_ret in Ht; right; left; by simplify_eq|].
    pose proof (quota_le_floor cfg (refill cfg t dt) a p).
    apply tick_admit_tokens in Ht as [->|Hn]; [right; by left|by right; right|lia]. }
  split; [|split; [exact Hcore|]].
  - destruct Hcore as [->|[->|(n & Hn & ->)]]; [done|by apply refill_nonneg|].
    apply spend_nonneg; auto using refill_ok, refill_nonneg.
  - intros Hnan Hinf. unfold refill in *. by apply fmin_le_r.
Qed.

End Tick.

(** ** Witnesses

    Three classed tickets, 2.5 admissions per second, one second later. *)
Definition ready : mem := (SetConfig enc_pairs acme shop classed).2.
Definition demo_tick (s : mem) : (goerr + unit) * (mem * f64) :=
  tickOnce dec_pairs toy_pem toy_ec toy_sha toy_sign (fun _ => 5) (fun _ => 200) (fun _ => [7; 3]) 2
    "k1" "PEM:key" acme (200 * second) (of_int 1) (s, fzero).
Definition ticked : mem := (demo_tick ready).2.1.
Definition left_tokens : f64 := (demo_tick ready).2.2.
Definition shop_hash : gmap string string := default ∅ (get_hash (mem_db ready) (Key acme "cfg")).

Lemma tick_eq : demo_tick ready = (inr tt, (ticked, left_tokens)).
Proof. vm_compute. reflexivity. Defined.
Lemma shop_hash_eq : get_hash (keyspace ready) (Key acme "cfg") = Some shop_hash.
Proof. vm_compute. reflexivity. Defined.
Lemma shop_cfg_eq : (FromHash dec_pairs shop_hash).1 = shop.
Proof. vm_compute. reflexivity. Defined.

Lemma tickOnce_bounded_witness :
  exists za', get_zset (keyspace ticked) (active_key acme) = Some za' /\ Z.of_nat (size za') <= 500.
Proof.
  destruct (tickOnce_bounded dec_pairs toy_pem toy_ec toy_sha toy_sign (fun _ => 5) (fun _ => 200) (fun _ => [7; 3]) 2
    "k1" "PEM:key" acme (200 * second) (of_int 1) ready ticked fzero left_tokens (inr tt) shop_hash shop ∅
    tick_eq shop_hash_eq shop_cfg_eq eq_refl) as (za' & H1 & H2 & _).
  exists za'. split; [exact H1|]. apply H2. reflexivity.
Defined.

Lemma tickOnce_announces_witness :
  exists adm pending head, NoDup adm /\
    chan (keyspace ticked) = chan (keyspace ready) ++
      (if bool_decide (adm = []) then [] else
        [(Key acme "ev", marshal (event_json
           (MkEvent "admitted" adm (pending - Z.of_nat (length adm)) head (Rate shop))))]).
Proof.
  destruct (tickOnce_announces dec_pairs toy_pem toy_ec toy_sha toy_sign (fun _ => 5) (fun _ => 200) (fun _ => [7; 3]) 2
    "k1" "PEM:key" acme (200 * second) (of_int 1) ready ticked fzero left_tokens shop_hash shop
    tick_eq shop_hash_eq shop_cfg_eq) as (adm & p & hd & H1 & _ & H2).
  exists adm, p, hd. split; [exact H1|exact H2].
Defined.

Lemma tickOnce_tokens_witness : 0 <= fz left_tokens.
Proof.
  refine (proj1 (tickOnce_tokens dec_pairs toy_pem toy_ec toy_sha toy_sign (fun _ => 5) (fun _ => 200) (fun _ => [7; 3]) 2
    "k1" "PEM:key" acme (200 * second) (of_int 1) ready ticked fzero left_tokens (inr tt) shop_hash shop
    tick_eq shop_hash_eq shop_cfg_eq I _ _ _ _ _ _)).
  - apply of_int_ok.
  - vm_compute. discriminate.
  - vm_compute. discriminate.
  - vm_compute. discriminate.
  - vm_compute. discriminate.
  - vm_compute. discriminate.
Defined.

Example tick_admits_two :
  match (demo_tick ready).2.1.(mem_db).(chan) with
  | _ :: (_, m) :: _ => Contains m "admitted" = true
  | _ => False
  end /\ feqb left_tokens (fdiv (of_int 1) (of_int 2)) = true.
Proof. vm_compute. split; reflexivity. Qed.
