(* ===== verification/Hub.v ===== *)
(** * Package [hub]: the fan-out of the events to the SSE streams

    [queue/internal/hub/hub.go].  A [roomHub] is shared between the map of the
    hub, its two goroutines and the closures that unsubscribe: the model keeps
    them in a heap, under numbers that stand for the pointers.  [rh_live] is
    the context of the two goroutines; a buffered channel is the list of the
    messages it holds.  The critical sections of the mutex are the steps. *)
From Stdlib Require Import Ascii.
From S2P Require Import Prelude GoStr F64 Redis Json Room Store.

Local Open Scope list_scope.
Local Open Scope Z_scope.

Record Msg : Type := MkMsg { m_Event : string; m_Data : json }.

Record Status : Type := MkStatus {
  st_State : string;
  st_Position : Z;
  st_Ahead : Z;
  st_Pending : Z;
  st_ETA : Z;
  st_WaveIn : Z;
  st_Rate : f64
}.

Definition status_json (s : Status) : json :=
  JObj [("state", JStr (st_State s)); ("position", JInt (st_Position s)); ("ahead", JInt (st_Ahead s));
        ("pending", JInt (st_Pending s)); ("eta_s", JInt (st_ETA s)); ("wave_in_s", JInt (st_WaveIn s));
        ("rate", JNum (json_float (st_Rate s)))]%string.

(** [now] is a parameter of the source that its body does not use. *)
Definition BuildStatus (cfg : Room.Config) (pending rank waveIn : Z) : Status :=
  if 0 <=? rank then
    MkStatus (State cfg) (wrap64 (rank + 1)) rank pending
      (wrap64 (trunc (fdiv (of_int rank) (Rate cfg)) + 1)) 0 (Rate cfg)
  else
    MkStatus (State cfg) 0 0 pending
      (wrap64 (wrap64 (waveIn + trunc (fdiv (of_int pending) (Rate cfg))) + 1)) waveIn (Rate cfg).

Record sub : Type := MkSub { s_ticket : string; s_ch : list Msg }.

Record roomHub : Type := MkRoomHub { rh_id : ID; rh_subs : gmap nat sub; rh_live : bool }.

Record Hub : Type := MkHub { rooms : gmap string nat; heap : gmap nat roomHub; next : nat }.

Definition New : Hub := MkHub ∅ ∅ 0.

Definition chan_cap : nat := 8.

Definition send (m : Msg) (s : sub) : sub :=
  if (length (s_ch s) <? chan_cap)%nat then MkSub (s_ticket s) (s_ch s ++ [m]) else s.

Definition set_subs (f : gmap nat sub -> gmap nat sub) (p : nat) (h : Hub) : Hub :=
  match heap h !! p with
  | Some rh => MkHub (rooms h) (<[p := MkRoomHub (rh_id rh) (f (rh_subs rh)) (rh_live rh)]> (heap h)) (next h)
  | None => h
  end.

(** The pointers of the [roomHub] and of the [sub], which the closure that
    unsubscribes holds. *)
Definition Subscribe (id : ID) (ticket : string) (h : Hub) : (nat * nat) * Hub :=
  let '(p, h) :=
    match rooms h !! ID_String id with
    | Some p => (p, h)
    | None =>
        let p := next h in
        (p, MkHub (<[ID_String id := p]> (rooms h)) (<[p := MkRoomHub id ∅ true]> (heap h)) (S p))
    end in
  let q := next h in
  ((p, q), set_subs (fun m => <[q := MkSub ticket []]> m) p (MkHub (rooms h) (heap h) (S q))).

Definition unsubscribe (p q : nat) (h : Hub) : Hub :=
  match heap h !! p with
  | None => h
  | Some rh =>
      let subs := delete q (rh_subs rh) in
      if decide (subs = ∅)
      then MkHub (delete (ID_String (rh_id rh)) (rooms h)) (<[p := MkRoomHub (rh_id rh) subs false]> (heap h)) (next h)
      else MkHub (rooms h) (<[p := MkRoomHub (rh_id rh) subs (rh_live rh)]> (heap h)) (next h)
  end.

Definition admitted_msg (ticket : string) : Msg := MkMsg "admitted" (JObj [("ticket", JStr ticket)])%string.
Definition refresh_msg (reason : string) : Msg := MkMsg "refresh" (JObj [("reason", JStr reason)])%string.

(** The body of [pump] for one event, already decoded. *)
Definition relay (ev : Event) (p : nat) (h : Hub) : Hub :=
  if bool_decide (ev_Type ev = "admitted"%string) then
    set_subs (fmap (fun s => if decide (s_ticket s ∈ ev_Admitted ev) then send (admitted_msg (s_ticket s)) s else s)) p h
  else if bool_decide (ev_Type ev = "config"%string) || bool_decide (ev_Type ev = "flush"%string) then
    set_subs (fmap (send (refresh_msg (ev_Type ev)))) p h
  else h.

(** One send of [statusLoop]. *)
Definition send_status (p q : nat) (st : Status) (h : Hub) : Hub :=
  set_subs (alter (send (MkMsg "status" (status_json st))) q) p h.

(** A stream takes the next message of its channel. *)
Definition receive (p q : nat) (h : Hub) : option Msg * Hub :=
  match heap h !! p ≫= fun rh => rh_subs rh !! q with
  | Some (MkSub t (m :: ch)) => (Some m, set_subs (insert q (MkSub t ch)) p h)
  | _ => (None, h)
  end.

Section StatusLoop.
Context {St : Type} `{RedisServer St}.
Context (unmarshal_map : string -> gmap string string).

(** The batches of five hundred; a batch whose ranks cannot be read is
    skipped.  [fuel] bounds their number. *)
Fixpoint status_batches (fuel : nat) (id : ID) (cfg : Room.Config) (pending : Z) (subs : list (nat * string)) :
    M St (list (nat * Status)) :=
  match subs, fuel with
  | [], _ => mret []
  | _, O => mfail ErrLoop
  | _, S fuel =>
      let batch := take 500 subs in
      r ← mtry (Ranks id batch.*2);
      rest ← status_batches fuel id cfg pending (drop 500 subs);
      mret (match r with
            | inl _ => rest
            | inr ranks => zip_with (fun p rank => (p.1, BuildStatus cfg pending rank 0)) batch ranks ++ rest
            end)
  end.

(** One round of [statusLoop] over a snapshot of the subscribers. *)
Definition status_round (id : ID) (now : Z) (subs : list (nat * string)) : M St (list (nat * Status)) :=
  if bool_decide (subs = []) then mret []
  else
    c ← Config unmarshal_map id;
    cnt ← Counts id now;
    status_batches (length subs) id c.1 cnt.1.1 subs.

End StatusLoop.

(** ** The hub as a transition system

    The state is the hub with the subscriptions that are open: each stream
    unsubscribes once, when its handler returns. *)
Inductive step : Hub * gset (nat * nat) -> Hub * gset (nat * nat) -> Prop :=
| step_subscribe h L id ticket pq h' :
    Subscribe id ticket h = (pq, h') -> step (h, L) (h', {[pq]} ∪ L)
| step_unsubscribe h L p q :
    (p, q) ∈ L -> step (h, L) (unsubscribe p q h, L ∖ {[(p, q)]})
| step_relay h L ev p :
    step (h, L) (relay ev p h, L)
| step_status h L p q st :
    step (h, L) (send_status p q st h, L)
| step_receive h L p q m h' :
    (p, q) ∈ L -> receive p q h = (m, h') -> step (h, L) (h', L).

(** The registered hubs are the running ones; they have subscribers, which are
    the open streams; a cancelled hub has none; no channel holds more than its
    capacity. *)
Record hub_inv (w : Hub * gset (nat * nat)) : Prop := {
  inv_rooms : forall key p, rooms w.1 !! key = Some p ->
    exists rh, heap w.1 !! p = Some rh /\ ID_String (rh_id rh) = key /\ rh_live rh = true /\ rh_subs rh <> ∅;
  inv_heap : forall p rh, heap w.1 !! p = Some rh ->
    if rh_live rh then rooms w.1 !! ID_String (rh_id rh) = Some p else rh_subs rh = ∅;
  inv_subs : forall p q, (p, q) ∈ w.2 <-> exists rh s, heap w.1 !! p = Some rh /\ rh_subs rh !! q = Some s;
  inv_chans : forall p rh q s, heap w.1 !! p = Some rh -> rh_subs rh !! q = Some s -> (length (s_ch s) <= chan_cap)%nat;
  inv_next : forall p rh, heap w.1 !! p = Some rh -> (p < next w.1)%nat /\ forall q s, rh_subs rh !! q = Some s -> (q < next w.1)%nat
}.

(** ** The invariant *)

Lemma New_inv : hub_inv (New, ∅).
Proof. split; simpl; try done; try (intros; by simplify_map_eq). intros p q. split; [done|]. by intros (? & ? & ? & _). Qed.

(** A change of the subscribers that keeps who they are. *)
Lemma set_subs_inv f p h L :
  (forall m q, is_Some (f m !! q) <-> is_Some (m !! q)) ->
  (forall m q s, (forall q s, m !! q = Some s -> (length (s_ch s) <= chan_cap)%nat) ->
     f m !! q = Some s -> (length (s_ch s) <= chan_cap)%nat) ->
  hub_inv (h, L) -> hub_inv (set_subs f p h, L).
Proof.
  intros Hdom Hlen Hi. unfold set_subs. destruct (heap h !! p) as [rh|] eqn:Ep; [|done].
  assert (Hemp : f (rh_subs rh) = ∅ <-> rh_subs rh = ∅).
  { split; intros E; apply map_empty; intros q; apply eq_None_not_Some.
    - rewrite <- Hdom, E, lookup_empty. by intros [? ?].
    - rewrite Hdom, E, lookup_empty. by intros [? ?]. }
  destruct Hi as [I1 I2 I3 I4 I5]; split; cbn [fst snd rooms heap next] in *.
  - intros key p' Hr. destruct (I1 key p' Hr) as (rh' & Hh & Hk & Hl & Hs).
    destruct (decide (p = p')) as [<-|Hne].
    + rewrite Ep in Hh. injection Hh as <-. rewrite lookup_insert_eq. eexists. split; [done|]. simpl. tauto.
    + rewrite lookup_insert_ne by done. eauto.
  - intros p' rh' Hh. apply lookup_insert_Some in Hh as [[<- <-]|[Hne Hh]]; [|by apply I2].
    simpl. specialize (I2 _ _ Ep). destruct (rh_live rh); tauto.
  - intros p' q. rewrite I3. split; intros (rh' & s & Hh & Hs).
    + destruct (decide (p = p')) as [<-|Hne].
      * rewrite Ep in Hh. injection Hh as <-. rewrite lookup_insert_eq.
        destruct (proj2 (Hdom (rh_subs rh) q)) as [s' Hs']; [by eauto|]. eexists _, s'. eauto.
      * rewrite lookup_insert_ne by done. eauto.
    + apply lookup_insert_Some in Hh as [[<- <-]|[Hne Hh]]; [|by eauto].
      destruct (proj1 (Hdom (rh_subs rh) q)) as [s' Hs']; [by eauto|]. eauto.
  - intros p' rh' q s Hh Hs. apply lookup_insert_Some in Hh as [[<- <-]|[Hne Hh]]; [|by eauto].
    eapply Hlen; [|exact Hs]. eauto.
  - intros p' rh' Hh. apply lookup_insert_Some in Hh as [[<- <-]|[Hne Hh]]; [|by eauto].
    destruct (I5 _ _ Ep) as [Hp Hq]. split; [done|]. intros q s Hs.
    destruct (proj1 (Hdom (rh_subs rh) q)) as [s' Hs']; [by eauto|]. by eapply Hq.
Qed.

Lemma send_length m s : (length (s_ch s) <= chan_cap)%nat -> (length (s_ch (send m s)) <= chan_cap)%nat.
Proof.
  unfold send. destruct (Nat.ltb_spec (length (s_ch s)) chan_cap); simpl; [|done].
  rewrite length_app. simpl. lia.
Qed.

Lemma fmap_inv g p h L :
  (forall s, (length (s_ch s) <= chan_cap)%nat -> (length (s_ch (g s)) <= chan_cap)%nat) ->
  hub_inv (h, L) -> hub_inv (set_subs (fmap g) p h, L).
Proof.
  intros Hg. apply set_subs_inv.
  - intros m q. rewrite lookup_fmap. by rewrite fmap_is_Some.
  - intros m q s Hm. rewrite lookup_fmap, fmap_Some. intros (s' & Hs' & ->). eauto.
Qed.

Lemma relay_inv ev p h L : hub_inv (h, L) -> hub_inv (relay ev p h, L).
Proof.
  unfold relay. case_bool_decide; [|destruct (_ || _); [|done]]; apply fmap_inv.
  - intros s Hs. case_decide; [by apply send_length|done].
  - intros s. apply send_length.
Qed.

Lemma send_status_inv p q st h L : hub_inv (h, L) -> hub_inv (send_status p q st h, L).
Proof.
  apply set_subs_inv.
  - intros m q'. by rewrite lookup_alter_is_Some.
  - intros m q' s Hm. rewrite lookup_alter_Some. intros [(-> & s' & Hs' & ->)|[_ Hs]]; [|eauto].
    apply send_length. eauto.
Qed.

Lemma receive_inv p q h L m h' :
  receive p q h = (m, h') -> hub_inv (h, L) -> hub_inv (h', L).
Proof.
  unfold receive. destruct (heap h !! p) as [rh|] eqn:Ep; simpl; [|by intros [= <- <-]].
  destruct (rh_subs rh !! q) as [[t [|m0 ch]]|] eqn:Eq; [by intros [= <- <-]| |by intros [= <- <-]].
  intros [= <- <-] [I1 I2 I3 I4 I5]. unfold set_subs. rewrite Ep.
  assert (Hc : (length (m0 :: ch) <= chan_cap)%nat) by (by apply (I4 _ _ _ _ Ep Eq)).
  split; cbn [fst snd rooms heap next] in *.
  - intros key p' Hr. destruct (I1 key p' Hr) as (rh' & Hh & Hk & Hl & Hs).
    destruct (decide (p = p')) as [<-|Hne].
    + rewrite Ep in Hh. injection Hh as <-. rewrite lookup_insert_eq. eexists. split; [done|]. simpl.
      split; [done|]. split; [done|]. apply insert_non_empty.
    + rewrite lookup_insert_ne by done. eauto.
  - intros p' rh' Hh. apply lookup_insert_Some in Hh as [[<- <-]|[Hne Hh]]; [|by apply I2].
    simpl. specialize (I2 _ _ Ep). destruct (rh_live rh); [done|]. by rewrite I2 in Eq.
  - intros p' q'. rewrite I3. split; intros (rh' & s & Hh & Hs).
    + destruct (decide (p = p')) as [<-|Hne].
      * rewrite Ep in Hh. injection Hh as <-. rewrite lookup_insert_eq. eexists _. simpl.
        destruct (decide (q = q')) as [<-|Hq]; [exists (MkSub t ch)|exists s]; (split; [reflexivity|]); simpl;
          [apply lookup_insert_eq|by rewrite lookup_insert_ne].
      * rewrite lookup_insert_ne by done. eauto.
    + apply lookup_insert_Some in Hh as [[<- <-]|[Hne Hh]]; [|by eauto]. simpl in Hs.
      apply lookup_insert_Some in Hs as [[<- _]|[_ Hs]]; eauto.
  - intros p' rh' q' s Hh Hs. apply lookup_insert_Some in Hh as [[<- <-]|[Hne Hh]]; [|by eauto]. simpl in Hs.
    apply lookup_insert_Some in Hs as [[<- <-]|[_ Hs]]; [simpl in *; lia|eauto].
  - intros p' rh' Hh. apply lookup_insert_Some in Hh as [[<- <-]|[Hne Hh]]; [|by eauto].
    destruct (I5 _ _ Ep) as [Hp Hq]. split; [done|]. simpl. intros q' s Hs.
    apply lookup_insert_Some in Hs as [[<- _]|[_ Hs]]; eauto.
Qed.

Lemma unsubscribe_inv p q h L :
  (p, q) ∈ L -> hub_inv (h, L) -> hub_inv (unsubscribe p q h, L ∖ {[(p, q)]}).
Proof.
  intros Hin [I1 I2 I3 I4 I5]. cbn [fst snd] in *.
  destruct (proj1 (I3 p q) Hin) as (rh & sq & Ep & Eq). unfold unsubscribe. rewrite Ep.
  assert (Hlive : rh_live rh = true /\ rooms h !! ID_String (rh_id rh) = Some p).
  { specialize (I2 _ _ Ep). destruct (rh_live rh); [done|]. by rewrite I2 in Eq. }
  destruct Hlive as [Hl Hroom].
  assert (H3 : forall p' q' b, (p', q') ∈ L ∖ {[(p, q)]} <->
    exists rh' s, <[p := MkRoomHub (rh_id rh) (delete q (rh_subs rh)) b]> (heap h) !! p' = Some rh' /\ rh_subs rh' !! q' = Some s).
  { intros p' q' b. rewrite elem_of_difference, elem_of_singleton, I3. split.
    - intros [(rh' & s & Hh & Hs) Hne]. destruct (decide (p = p')) as [<-|Hp].
      + rewrite Ep in Hh. injection Hh as <-. rewrite lookup_insert_eq. eexists _, s. split; [done|]. simpl.
        rewrite lookup_delete_ne by congruence. done.
      + rewrite lookup_insert_ne by done. eauto.
    - intros (rh' & s & Hh & Hs). apply lookup_insert_Some in Hh as [[<- <-]|[Hp Hh]].
      + simpl in Hs. apply lookup_delete_Some in Hs as [Hq Hs]. split; [by eauto|congruence].
      + split; [by eauto|congruence]. }
  assert (H4 : forall p' rh' q' s b, <[p := MkRoomHub (rh_id rh) (delete q (rh_subs rh)) b]> (heap h) !! p' = Some rh' ->
    rh_subs rh' !! q' = Some s -> (length (s_ch s) <= chan_cap)%nat).
  { intros p' rh' q' s b Hh Hs. apply lookup_insert_Some in Hh as [[<- <-]|[Hp Hh]]; [|by eauto].
    simpl in Hs. apply lookup_delete_Some in Hs as [_ Hs]. eauto. }
  assert (H5 : forall p' rh' b, <[p := MkRoomHub (rh_id rh) (delete q (rh_subs rh)) b]> (heap h) !! p' = Some rh' ->
    (p' < next h)%nat /\ forall q' s, rh_subs rh' !! q' = Some s -> (q' < next h)%nat).
  { intros p' rh' b Hh. apply lookup_insert_Some in Hh as [[<- <-]|[Hp Hh]]; [|by eauto].
    destruct (I5 _ _ Ep) as [Hp Hq]. split; [done|]. simpl. intros q' s [_ Hs]%lookup_delete_Some. eauto. }
  destruct (decide (delete q (rh_subs rh) = ∅)) as [He|He]; split; cbn [fst snd rooms heap next]; try (by eauto).
  - intros key p' [Hne Hr]%lookup_delete_Some. destruct (I1 key p' Hr) as (rh' & Hh & Hk & Hrest).
    destruct (decide (p = p')) as [<-|Hp]; [by rewrite Ep in Hh; simplify_eq|].
    rewrite lookup_insert_ne by done. eauto.
  - intros p' rh' Hh. apply lookup_insert_Some in Hh as [[<- <-]|[Hp Hh]]; [done|].
    specialize (I2 _ _ Hh). destruct (rh_live rh'); [|done].
    rewrite lookup_delete_ne; [done|]. intros E. rewrite E in Hroom. congruence.
  - intros key p' Hr. destruct (I1 key p' Hr) as (rh' & Hh & Hk & Hrest).
    destruct (decide (p = p')) as [<-|Hp].
    + rewrite Ep in Hh. injection Hh as <-. rewrite lookup_insert_eq. eexists. split; [done|]. by destruct Hrest.
    + rewrite lookup_insert_ne by done. eauto.
  - intros p' rh' Hh. apply lookup_insert_Some in Hh as [[<- <-]|[Hp Hh]]; [by simpl; rewrite Hl|by apply I2].
Qed.

(** Adding a subscriber with a new number to a running hub. *)
Lemma add_sub_inv p q rh ticket h L :
  hub_inv (h, L) -> heap h !! p = Some rh -> rh_live rh = true -> q = next h ->
  hub_inv (set_subs (fun m => <[q := MkSub ticket []]> m) p (MkHub (rooms h) (heap h) (S q)), {[(p, q)]} ∪ L).
Proof.
  intros [I1 I2 I3 I4 I5] Ep Hl ->. unfold set_subs. cbn [heap fst snd rooms next] in *. rewrite Ep.
  assert (Hfresh : rh_subs rh !! next h = None).
  { destruct (rh_subs rh !! next h) eqn:E; [|done]. apply (I5 _ _ Ep) in E. lia. }
  split; cbn [fst snd rooms heap next] in *.
  - intros key p' Hr. destruct (I1 key p' Hr) as (rh' & Hh & Hk & Hrest).
    destruct (decide (p = p')) as [<-|Hp].
    + rewrite Ep in Hh. injection Hh as <-. rewrite lookup_insert_eq. eexists. split; [done|]. simpl.
      split; [done|]. split; [done|]. apply insert_non_empty.
    + rewrite lookup_insert_ne by done. eauto.
  - intros p' rh' Hh. apply lookup_insert_Some in Hh as [[<- <-]|[Hp Hh]]; [|by apply I2].
    simpl. rewrite Hl. specialize (I2 _ _ Ep). by rewrite Hl in I2.
  - intros p' q'. rewrite elem_of_union, elem_of_singleton, I3. split.
    + intros [[= -> ->]|(rh' & s & Hh & Hs)].
      * rewrite lookup_insert_eq. eexists _, _. split; [reflexivity|]. simpl. apply lookup_insert_eq.
      * destruct (decide (p = p')) as [<-|Hp].
        -- rewrite Ep in Hh. injection Hh as <-. rewrite lookup_insert_eq. eexists _, s. split; [done|]. simpl.
           rewrite lookup_insert_ne; [done|]. intros <-. by rewrite Hfresh in Hs.
        -- rewrite lookup_insert_ne by done. eauto.
    + intros (rh' & s & Hh & Hs). apply lookup_insert_Some in Hh as [[<- <-]|[Hp Hh]]; [|right; eauto].
      simpl in Hs. apply lookup_insert_Some in Hs as [[<- _]|[_ Hs]]; [by left|right; eauto].
  - intros p' rh' q' s Hh Hs. apply lookup_insert_Some in Hh as [[<- <-]|[Hp Hh]]; [|by eauto].
    simpl in Hs. apply lookup_insert_Some in Hs as [[<- <-]|[_ Hs]]; [simpl; lia|eauto].
  - intros p' rh' Hh. apply lookup_insert_Some in Hh as [[<- <-]|[Hp Hh]].
    + destruct (I5 _ _ Ep) as [Hp Hq]. split; [lia|]. simpl. intros q' s Hs.
      apply lookup_insert_Some in Hs as [[<- _]|[_ Hs]]; [lia|]. specialize (Hq _ _ Hs). lia.
    + destruct (I5 _ _ Hh) as [Hp' Hq']. split; [lia|]. intros q' s Hs. specialize (Hq' _ _ Hs). lia.
Qed.

(** The first subscriber of a queue. *)
Lemma new_room_inv id ticket h L :
  hub_inv (h, L) -> rooms h !! ID_String id = None ->
  let p := next h in
  hub_inv (MkHub (<[ID_String id := p]> (rooms h))
             (<[p := MkRoomHub id {[S p := MkSub ticket []]} true]> (heap h)) (S (S p)), {[(p, S p)]} ∪ L).
Proof.
  intros [I1 I2 I3 I4 I5] Hnone p. cbn [fst snd] in *.
  assert (Hfresh : heap h !! p = None).
  { destruct (heap h !! p) eqn:E; [|done]. apply I5 in E. lia. }
  assert (Hne : forall p' rh', heap h !! p' = Some rh' -> p <> p').
  { intros p' rh' Hh ->. congruence. }
  split; cbn [fst snd rooms heap next].
  - intros key p' [[<- <-]|[Hk Hr]]%lookup_insert_Some.
    + rewrite lookup_insert_eq. eexists. split; [done|]. simpl. split; [done|]. split; [done|]. apply map_non_empty_singleton.
    + destruct (I1 key p' Hr) as (rh' & Hh & Hrest). rewrite lookup_insert_ne by eauto. eauto.
  - intros p' rh' [[<- <-]|[Hp Hh]]%lookup_insert_Some; [simpl; apply lookup_insert_eq|].
    specialize (I2 _ _ Hh). destruct (rh_live rh'); [|done].
    rewrite lookup_insert_ne; [done|]. intros E. rewrite E in Hnone. congruence.
  - intros p' q'. rewrite elem_of_union, elem_of_singleton, I3. split.
    + intros [[= -> ->]|(rh' & s & Hh & Hs)].
      * rewrite lookup_insert_eq. eexists _, _. split; [reflexivity|]. simpl. apply lookup_singleton_eq.
      * rewrite lookup_insert_ne by eauto. eauto.
    + intros (rh' & s & [[<- <-]|[Hp Hh]]%lookup_insert_Some & Hs); [|right; eauto].
      simpl in Hs. apply lookup_singleton_Some in Hs as [<- _]. by left.
  - intros p' rh' q' s [[<- <-]|[Hp Hh]]%lookup_insert_Some Hs; [|by eauto].
    simpl in Hs. apply lookup_singleton_Some in Hs as [_ <-]. simpl. lia.
  - intros p' rh' [[<- <-]|[Hp Hh]]%lookup_insert_Some.
    + split; [lia|]. simpl. intros q' s [<- _]%lookup_singleton_Some. lia.
    + destruct (I5 _ _ Hh) as [Hp' Hq']. unfold p. split; [lia|]. intros q' s Hs. specialize (Hq' _ _ Hs). lia.
Qed.

Lemma Subscribe_inv id ticket h L pq h' :
  Subscribe id ticket h = (pq, h') -> hub_inv (h, L) -> hub_inv (h', {[pq]} ∪ L).
Proof.
  unfold Subscribe. intros E Hi. destruct (rooms h !! ID_String id) as [p|] eqn:Er.
  - injection E as <- <-. destruct (inv_rooms _ Hi _ _ Er) as (rh & Hh & _ & Hl & _). by eapply add_sub_inv.
  - injection E as <- <-. unfold set_subs. cbn [heap rooms next]. rewrite lookup_insert_eq. cbn [rh_id rh_subs rh_live].
    rewrite insert_insert_eq. apply (new_room_inv id ticket h L Hi Er).
Qed.

Lemma step_inv w w' : step w w' -> hub_inv w -> hub_inv w'.
Proof.
  destruct 1; eauto using Subscribe_inv, unsubscribe_inv, relay_inv, send_status_inv, receive_inv.
Qed.

(** Claim C35.  In every reachable state of the hub the queues with running
    goroutines are exactly those with an open stream, each open stream is a
    subscriber of the running hub of its queue, and no channel holds more than
    eight messages. *)
Theorem hub_reachable_inv w : rtc step (New, ∅) w -> hub_inv w.
Proof.
  intros Hr. remember (New, ∅) as w0 eqn:E.
  assert (H0 : hub_inv w0) by (subst; apply New_inv). clear E.
  induction Hr as [w|w w1 w2 H1 _ IH]; [done|]. apply IH. by eapply step_inv.
Qed.

(** ** Delivery *)

Lemma relay_admitted ids pending head rate p h rh q s :
  heap h !! p = Some rh -> rh_subs rh !! q = Some s ->
  exists rh', heap (relay (MkEvent "admitted" ids pending head rate) p h) !! p = Some rh' /\
    rh_subs rh' !! q = Some (if decide (s_ticket s ∈ ids) then send (admitted_msg (s_ticket s)) s else s).
Proof.
  intros Hh Hs. unfold relay. cbn [ev_Type ev_Admitted]. rewrite bool_decide_true by done.
  unfold set_subs. rewrite Hh. cbn [heap]. rewrite lookup_insert_eq. eexists. split; [done|]. simpl.
  by rewrite lookup_fmap, Hs.
Qed.

(** The relay of an admission is exact: a stream whose channel has
    room receives one message when its ticket is among the admitted ones, and
    every other stream is left as it was; a stream whose channel is full loses
    the message. *)
Theorem relay_exact ids pending head rate p h rh q s :
  heap h !! p = Some rh -> rh_subs rh !! q = Some s ->
  exists rh' s', heap (relay (MkEvent "admitted" ids pending head rate) p h) !! p = Some rh' /\
    rh_subs rh' !! q = Some s' /\ s_ticket s' = s_ticket s /\
    (s_ticket s ∉ ids -> s_ch s' = s_ch s) /\
    (s_ticket s ∈ ids -> (length (s_ch s) < chan_cap)%nat -> s_ch s' = s_ch s ++ [admitted_msg (s_ticket s)]) /\
    (s_ticket s ∈ ids -> (chan_cap <= length (s_ch s))%nat -> s_ch s' = s_ch s).
Proof.
  intros Hh Hs. destruct (relay_admitted ids pending head rate p h rh q s Hh Hs) as (rh' & Hh' & Hs').
  exists rh'. eexists. split; [exact Hh'|]. split; [exact Hs'|]. unfold send.
  destruct (decide (s_ticket s ∈ ids)), (Nat.ltb_spec (length (s_ch s)) chan_cap); simpl;
    repeat split; intros; try done; lia.
Qed.

(** What may happen to the streams after the announcement of an admission:
    statuses, other events, and readers taking messages. *)
Inductive later : Hub -> Hub -> Prop :=
| later_status h p q st : later h (send_status p q st h)
| later_event h p ev : ev_Type ev <> "admitted"%string -> later h (relay ev p h)
| later_receive h p q : later h (receive p q h).2.

(** The stream is open and will not learn of its admission. *)
Definition uninformed (p q : nat) (h : Hub) : Prop :=
  exists rh s, heap h !! p = Some rh /\ rh_subs rh !! q = Some s /\
    Forall (fun m => m_Event m <> "admitted"%string) (s_ch s).

Lemma send_uninformed m s :
  m_Event m <> "admitted"%string ->
  Forall (fun m => m_Event m <> "admitted"%string) (s_ch s) ->
  Forall (fun m => m_Event m <> "admitted"%string) (s_ch (send m s)).
Proof.
  intros Hm Hs. unfold send. destruct (_ <? _)%nat; simpl; [|done]. apply Forall_app. split; [done|].
  by apply Forall_singleton.
Qed.

(** A change of the subscribers of some hub that keeps the stream uninformed. *)
Lemma set_subs_uninformed f p' p q h :
  (forall m s, m !! q = Some s -> Forall (fun m => m_Event m <> "admitted"%string) (s_ch s) ->
     exists s', f m !! q = Some s' /\ Forall (fun m => m_Event m <> "admitted"%string) (s_ch s')) ->
  uninformed p q h -> uninformed p q (set_subs f p' h).
Proof.
  intros Hf (rh & s & Hh & Hs & Hu). unfold set_subs. destruct (heap h !! p') as [rh'|] eqn:Ep; [|by exists rh, s].
  destruct (decide (p' = p)) as [->|Hne].
  - rewrite Hh in Ep. injection Ep as <-. destruct (Hf _ _ Hs Hu) as (s' & Hs' & Hu').
    eexists _, s'. cbn [heap]. rewrite lookup_insert_eq. split; [reflexivity|]. by split.
  - exists rh, s. cbn [heap]. rewrite lookup_insert_ne by done. by split.
Qed.

Lemma later_uninformed p q h h' : later h h' -> uninformed p q h -> uninformed p q h'.
Proof.
  intros Hl Hu. destruct Hl as [h p' q' st|h p' ev Hev|h p' q'].
  - apply set_subs_uninformed; [|done]. intros m s Hs Hf. destruct (decide (q' = q)) as [->|Hq].
    + eexists. rewrite lookup_alter_eq, Hs. split; [reflexivity|]. by apply send_uninformed.
    + exists s. by rewrite lookup_alter_ne.
  - unfold relay. rewrite bool_decide_false by done. destruct (_ || _); [|done].
    apply set_subs_uninformed; [|done]. intros m s Hs Hf. eexists. rewrite lookup_fmap, Hs.
    split; [reflexivity|]. by apply send_uninformed.
  - unfold receive. destruct (heap h !! p') as [rh|] eqn:Ep; simpl; [|done].
    destruct (rh_subs rh !! q') as [[t [|m0 ch]]|] eqn:Eq; simpl; [done| |done].
    pose proof Hu as (rh2 & s2 & Hh2 & Hs2 & Hf2). unfold set_subs. rewrite Ep.
    destruct (decide (p' = p)) as [->|Hp].
    + rewrite Ep in Hh2. injection Hh2 as <-. destruct (decide (q' = q)) as [->|Hq].
      * rewrite Eq in Hs2. injection Hs2 as <-. apply Forall_cons in Hf2 as [_ Hf2].
        eexists _, _. cbn [heap]. rewrite lookup_insert_eq. split; [reflexivity|]. simpl.
        rewrite lookup_insert_eq. by split.
      * eexists _, s2. cbn [heap]. rewrite lookup_insert_eq. split; [reflexivity|]. simpl.
        rewrite lookup_insert_ne by done. by split.
    + exists rh2, s2. cbn [heap]. rewrite lookup_insert_ne by done. by split.
Qed.

(** A stream whose channel was full when its admission was relayed
    never learns of it from what follows: no later status or event, and no
    reading of the channel, brings the message back. *)
Theorem admission_lost ids pending head rate p q h rh s h' :
  heap h !! p = Some rh -> rh_subs rh !! q = Some s ->
  (chan_cap <= length (s_ch s))%nat -> Forall (fun m => m_Event m <> "admitted"%string) (s_ch s) ->
  rtc later (relay (MkEvent "admitted" ids pending head rate) p h) h' ->
  uninformed p q h'.
Proof.
  intros Hh Hs Hfull Hno Hr.
  assert (H0 : uninformed p q (relay (MkEvent "admitted" ids pending head rate) p h)).
  { destruct (relay_admitted ids pending head rate p h rh q s Hh Hs) as (rh' & Hh' & Hs').
    eexists rh', _. split; [done|]. split; [exact Hs'|]. unfold send.
    destruct (decide _); [|done]. destruct (Nat.ltb_spec (length (s_ch s)) chan_cap); [lia|done]. }
  revert H0. induction Hr as [|h1 h2 h3 H1 _ IH]; [done|]. intros H0. apply IH. by eapply later_uninformed.
Qed.

(** ** What the visitors see *)

Section Rounds.
Context {St : Type} `{RedisServer St} {HL : RedisLaws St}.

Lemma status_batches_spec fuel id cfg pending subs (s : St) l s' z :
  status_batches fuel id cfg pending subs s = (inr l, s') ->
  get_zset (keyspace s) (pending_key id) = Some z ->
  forall q st, (q, st) ∈ l -> exists tid, (q, tid) ∈ subs /\ st = BuildStatus cfg pending (zrank_of z tid) 0.
Proof.
  revert subs s l. induction fuel as [|fuel IH]; intros subs s l E Hz q st Hin.
  { destruct subs; [|done]. cbn in E. unfold mret, M_ret in E. simplify_eq. by apply elem_of_nil in Hin. }
  destruct (decide (subs = [])) as [->|Hne].
  { cbn in E. unfold mret, M_ret in E. simplify_eq. by apply elem_of_nil in Hin. }
  assert (E' : (r ← mtry (Ranks id (take 500 subs).*2);
      rest ← status_batches fuel id cfg pending (drop 500 subs);
      mret (match r with
            | inl _ => rest
            | inr ranks => zip_with (fun p rank => (p.1, BuildStatus cfg pending rank 0)) (take 500 subs) ranks ++ rest
            end)) s = (inr l, s')) by (destruct subs; done). clear E.
  apply M_bind_inv in E' as (r & s1 & E1 & E'). apply M_bind_inv in E' as (rest & s2 & E2 & E').
  unfold mret, M_ret in E'. injection E' as <- <-.
  pose proof (only_reads _ _ _ _ (only_mtry _ _ (only_Ranks id _)) E1) as Hk.
  assert (Hrest : forall q st, (q, st) ∈ rest -> exists tid, (q, tid) ∈ subs /\ st = BuildStatus cfg pending (zrank_of z tid) 0).
  { intros q' st' Hin'. eapply IH in E2; [|unfold get_zset; rewrite Hk; exact Hz|exact Hin'].
    destruct E2 as (tid & Ht & ->). exists tid. split; [|done]. rewrite <- (take_drop 500 subs). apply elem_of_app. by right. }
  destruct r as [e|ranks]; [by apply Hrest|]. apply elem_of_app in Hin as [Hin|Hin]; [|by apply Hrest].
  apply mtry_inv in E1 as (x & [= <-] & E1). pose proof (Ranks_inv _ _ _ _ _ z E1 Hz) as ->.
  apply list_elem_of_lookup in Hin as [i Hi]. apply lookup_zip_with_Some in Hi as ([q' tid] & rank & Heq & Hp & Hr).
  simpl in Heq. injection Heq as -> ->. rewrite list_lookup_fmap, list_lookup_fmap, Hp in Hr. injection Hr as <-.
  exists tid. split; [|done]. apply list_elem_of_lookup_2 in Hp. eapply subseteq_take. exact Hp.
Qed.

(** A round of the status loop tells each stream it reaches the
    state of the queue, the number of classed tickets and the position of its
    own ticket: its rank among them, or none when it is not classed. *)
Theorem status_round_spec um id now subs (s : St) l s' h za z :
  status_round um id now subs s = (inr l, s') ->
  get_hash (keyspace s) (Key id "cfg") = Some h ->
  get_zset (keyspace s) (Key id "active") = Some za ->
  get_zset (keyspace s) (pending_key id) = Some z ->
  forall q st, (q, st) ∈ l -> exists tid, (q, tid) ∈ subs /\
    st = BuildStatus (FromHash um h).1 (Z.of_nat (size z)) (zrank_of z tid) 0.
Proof.
  intros E Hh Hza Hz q st Hin. unfold status_round in E. case_bool_decide.
  { unfold mret, M_ret in E. simplify_eq. by apply elem_of_nil in Hin. }
  apply M_bind_inv in E as (c & s1 & E1 & E). apply M_bind_inv in E as ([[p a] hd] & s2 & E2 & E).
  assert (Hc : c = FromHash um h /\ keyspace s1 = keyspace s).
  { unfold Config in E1. apply M_bind_inv in E1 as (h' & s3 & E1 & E3). apply GetHash_inv in E1 as [E1 Hk].
    rewrite Hh in E1. apply (inj Some) in E1 as <-. unfold mret, M_ret in E3. injection E3 as <- <-. done. }
  destruct Hc as [-> Hk].
  eapply Counts_inv in E2 as [_ (zp & Hzp & -> & Hkp)]; [|by rewrite Hk].
  rewrite Hk, Hz in Hzp. injection Hzp as <-. cbn [fst snd] in E.
  eapply status_batches_spec in E; [exact E| |exact Hin].
  rewrite (get_zset_kv _ _ _ Hkp). by rewrite Hk.
Qed.

(** The fuel of a round is enough. *)
Lemma status_batches_terminates fuel id cfg pending subs (s : St) :
  (length subs <= fuel)%nat -> (status_batches fuel id cfg pending subs s).1 <> inl ErrLoop.
Proof.
  revert subs s. induction fuel as [|fuel IH]; intros subs s Hl.
  { by destruct subs; [|simpl in Hl; lia]. }
  destruct subs as [|x subs]; [done|].
  change (status_batches (S fuel) id cfg pending (x :: subs)) with
    (r ← mtry (Ranks id (take 500 (x :: subs)).*2);
      rest ← status_batches fuel id cfg pending (drop 500 (x :: subs));
      mret (match r with
            | inl _ => rest
            | inr ranks => zip_with (fun p rank => (p.1, BuildStatus cfg pending rank 0)) (take 500 (x :: subs)) ranks ++ rest
            end) : M St (list (nat * Status))).
  apply bind_no_loop; [unfold mtry; by destruct (Ranks _ _ s)|]. intros r s1 _.
  apply bind_no_loop; [|done]. apply IH. rewrite length_drop. simpl in Hl |- *. lia.
Qed.

End Rounds.

(** ** Witnesses *)

Definition one_stream : Hub := (Subscribe acme "t_1" New).2.
Definition stream_hub : roomHub := MkRoomHub acme (<[1%nat := MkSub "t_1" []]> ∅) true.
Definition full_stream : Hub :=
  Nat.iter 8 (send_status 0 1 (BuildStatus Defaults 10 (-1) 0)) one_stream.
Definition lost_hub : Hub := relay (MkEvent "admitted" ["t_1"%string] 9 fzero fzero) 0 full_stream.

Lemma hub_reachable_inv_witness : hub_inv (one_stream, {[(0%nat, 1%nat)]} ∪ ∅).
Proof.
  apply hub_reachable_inv. apply rtc_once. eapply step_subscribe. reflexivity.
Defined.

Lemma relay_exact_witness :
  exists rh' s', heap (relay (MkEvent "admitted" ["t_1"%string] 9 fzero fzero) 0 one_stream) !! 0%nat = Some rh' /\
    rh_subs rh' !! 1%nat = Some s' /\ s_ch s' = [admitted_msg "t_1"].
Proof.
  destruct (relay_exact ["t_1"%string] 9 fzero fzero 0 one_stream
    stream_hub 1 (MkSub "t_1" [])
    ltac:(vm_compute; reflexivity) ltac:(vm_compute; reflexivity))
    as (rh' & s' & H1 & H2 & _ & _ & H3 & _).
  exists rh', s'. split; [exact H1|]. split; [exact H2|]. apply H3; [left|apply Nat.ltb_lt; reflexivity].
Defined.

Lemma admission_lost_witness :
  uninformed 0 1 (receive 0 1 (send_status 0 1 (BuildStatus Defaults 9 (-1) 0) lost_hub)).2.
Proof.
  destruct (heap full_stream !! 0%nat) as [rh|] eqn:Eh; [|vm_compute in Eh; discriminate Eh].
  destruct (rh_subs rh !! 1%nat) as [sb|] eqn:Es; cycle 1.
  { vm_compute in Eh. injection Eh as <-. vm_compute in Es. discriminate Es. }
  apply (admission_lost ["t_1"%string] 9 fzero fzero 0 1 full_stream rh sb); [exact Eh|exact Es| | |].
  - vm_compute in Eh. injection Eh as <-. vm_compute in Es. injection Es as <-. apply Nat.leb_le. reflexivity.
  - vm_compute in Eh. injection Eh as <-. vm_compute in Es. injection Es as <-. repeat constructor; discriminate.
  - eapply rtc_l; [apply later_status|]. apply rtc_once. apply later_receive.
Defined.

Definition round_input : mem := (MarkAdmitted acme "t_9" "pass" 500 100 (SetConfig enc_pairs acme shop classed).2).2.
Definition round_result : list (nat * Status) :=
  match (status_round dec_pairs acme (200 * second) [(4%nat, newID "k42")] round_input).1 with
  | inr l => l | inl _ => [] end.
Definition round_end : mem := (status_round dec_pairs acme (200 * second) [(4%nat, newID "k42")] round_input).2.

Lemma status_round_spec_witness :
  exists st tid, (4%nat, st) ∈ round_result /\ (4%nat, tid) ∈ [(4%nat, newID "k42")] /\ st_Position st = 2.
Proof.
  assert (Hin : (4%nat, BuildStatus shop 3 1 0) ∈ round_result).
  { assert (Hr : round_result = [(4%nat, BuildStatus shop 3 1 0)]) by (vm_compute; reflexivity).
    rewrite Hr. left. }
  destruct (status_round_spec dec_pairs acme (200 * second) [(4%nat, newID "k42")] round_input round_result round_end
    (default ∅ (get_hash (mem_db round_input) (Key acme "cfg")))
    (default ∅ (get_zset (mem_db round_input) (Key acme "active")))
    (default ∅ (get_zset (mem_db round_input) (Key acme "pending")))) with (q := 4%nat) (st := BuildStatus shop 3 1 0)
    as (tid & Ht & _); [vm_compute; reflexivity..|exact Hin|].
  exists (BuildStatus shop 3 1 0), tid. split; [exact Hin|]. split; [exact Ht|vm_compute; reflexivity].
Defined.
