(* ===== verification/Httpx.v ===== *)
(** * Package [httpx]: JSON responses, health, environment

    [internal/httpx/httpx.go].  A response is its status code, its headers,
    its cookies and its body; the listener and the signals of [Serve] are left
    out. *)
From Stdlib Require Import Ascii.
From S2P Require Import Prelude GoStr Json.

Local Open Scope list_scope.
Local Open Scope Z_scope.

Inductive body : Type :=
| NoBody
| BJson (v : json)
| BText (s : string)
| BStream (frames : list (string * json)).

Record resp : Type := MkResp {
  r_code : Z;
  r_headers : list (string * string);
  r_cookies : list (string * string);
  r_body : body
}.

Definition JSON (code : Z) (v : json) : resp :=
  MkResp code [("Content-Type", "application/json; charset=utf-8")]%string [] (BJson v).

(** The keys of a Go map are printed in order: [error], [message]. *)
Definition Error (status : Z) (code msg : string) : resp :=
  JSON status (JObj [("error", JStr code); ("message", JStr msg)]%string).

Definition add_header (k v : string) (r : resp) : resp :=
  MkResp (r_code r) (r_headers r ++ [(k, v)]) (r_cookies r) (r_body r).
Definition add_cookie (k v : string) (r : resp) : resp :=
  MkResp (r_code r) (r_headers r) (r_cookies r ++ [(k, v)]) (r_body r).

(** [http.Redirect]: the status and the address; the page it writes for a client
    that does not follow is left out. *)
Definition Redirect (url : string) (code : Z) : resp := MkResp code [("Location"%string, url)] [] NoBody.

(** [http.Error] and [http.NotFound]. *)
Definition http_Error (text : string) (code : Z) : resp :=
  MkResp code [("Content-Type", "text/plain; charset=utf-8"); ("X-Content-Type-Options", "nosniff")]%string []
    (BText (text +:+ newline)).

Definition NotFound : resp := http_Error "404 page not found" 404.

(** The checks of [HealthHandler], already run: name and error. *)
Definition HealthHandler (checks : list (string * option string)) : resp :=
  let out := foldl (fun (m : gmap string string) c => <[c.1 := default "ok"%string c.2]> m) ∅ checks in
  let ok := forallb (fun c => match c.2 with None => true | Some _ => false end) checks in
  JSON (if ok then 200 else 503)
    (JObj [("checks", JMap out); ("status", JStr (if ok then "ok" else "degraded"))]%string).

(** [os.Getenv] gives the empty string for a variable that is not set. *)
Definition Env (getenv : string -> string) (key def : string) : string :=
  if bool_decide (getenv key = EmptyString) then def else getenv key.

(** [MustEnv]: the exit code when the variable is missing. *)
Definition MustEnv (getenv : string -> string) (key : string) : Z + string :=
  if bool_decide (getenv key = EmptyString) then inl 2 else inr (getenv key).

(** [Healthcheck]: an exit code, or none when an address without a byte makes
    [addr[0]] panic; [get] is the status of the answer to a GET. *)
Definition Healthcheck (get : string -> goerr + Z) (addr : string) : option Z :=
  match addr with
  | EmptyString => None
  | String a _ =>
      let addr := if Ascii.eqb a ":"%char then ("127.0.0.1" +:+ addr)%string else addr in
      Some (match get ("http://" +:+ addr +:+ "/healthz")%string with
            | inl _ => 1
            | inr code => if code =? 200 then 0 else 1
            end)
  end.

(** The bytes [url.QueryEscape] keeps, and the form it gives to the others. *)
Definition unreserved (a : ascii) : bool :=
  is_lower a || is_upper a || is_digit a || Ascii.eqb a "-"%char || Ascii.eqb a "_"%char
  || Ascii.eqb a "."%char || Ascii.eqb a "~"%char.
Definition hex_upper (n : nat) : ascii := if (n <? 10)%nat then chr (48 + n) else chr (55 + n).

Fixpoint QueryEscape (s : string) : string :=
  match s with
  | EmptyString => EmptyString
  | String a s' =>
      if unreserved a then String a (QueryEscape s')
      else if Ascii.eqb a " "%char then String "+"%char (QueryEscape s')
      else String "%"%char (String (hex_upper (nat_of_ascii a / 16)) (String (hex_upper (nat_of_ascii a mod 16))
             (QueryEscape s')))
  end.
