(* ===== verification/Mux.v ===== *)
(** * Routing: the patterns of [http.ServeMux]

    Both services name their routes by patterns, [METHOD /path/{name}], and leave
    it to [net/http] to choose the handler of a request; this file holds what they
    use of it.  A pattern that ends with a slash matches all that follows.  What is
    proved: the search finds a route when one matches, it finds the most
    specific, and two patterns that can match one path are told by computation. *)
From Stdlib Require Import Ascii.
From S2P Require Import Prelude GoStr Json Httpx.

Local Open Scope list_scope.
Local Open Scope Z_scope.

(** ** Paths *)

(** [path.Clean] of a rooted path: its elements, the last one first. *)
Fixpoint clean_elements (done : list string) (l : list string) : list string :=
  match l with
  | [] => done
  | x :: l =>
      if bool_decide (x = EmptyString) || String.eqb x "." then clean_elements done l
      else if String.eqb x ".." then clean_elements (tail done) l
      else clean_elements (x :: done) l
  end.
Definition Clean (p : string) : string := ("/" +:+ Join (rev (clean_elements [] (Split "/"%char p))) "/")%string.

Definition HasSuffix (s p : string) : bool :=
  (String.length p <=? String.length s)%nat && String.eqb (String.substring (String.length s - String.length p) (String.length p) s) p.

Definition cleanPath (p : string) : string :=
  let p := match p with String "/" _ => p | _ => ("/" +:+ p)%string end in
  let np := Clean p in
  if HasSuffix p "/" && negb (String.eqb np "/") then (np +:+ "/")%string else np.

(** [url.PathUnescape], which leaves a text it cannot decode as it is. *)
Definition unhex (a : ascii) : option Z :=
  let n := Z.of_N (N_of_ascii a) in
  if (48 <=? n) && (n <=? 57) then Some (n - 48)
  else if (97 <=? n) && (n <=? 102) then Some (n - 87)
  else if (65 <=? n) && (n <=? 70) then Some (n - 55) else None.
Fixpoint decode_percent (s : string) : option string :=
  match s with
  | EmptyString => Some EmptyString
  | String "%" (String a (String b s')) =>
      h ← unhex a; l ← unhex b; t ← decode_percent s'; Some (String (ascii_of_N (Z.to_N (16 * h + l))) t)
  | String "%" _ => None
  | String a s' => String a <$> decode_percent s'
  end.
Definition pathUnescape (s : string) : string := default s (decode_percent s).

(** The elements of a path; a slash at its end is one of them. *)
Fixpoint elements_of (l : list string) : list string :=
  match l with
  | [] => []
  | [x] => if bool_decide (x = EmptyString) then ["/"%string] else [pathUnescape x]
  | x :: l => pathUnescape x :: elements_of l
  end.
Definition elements (path : string) : list string := elements_of (tail (Split "/"%char path)).

(** ** Patterns *)

Inductive segment : Type :=
| Lit (s : string)
| Wild (name : string)
| Rest.
#[export] Instance segment_eq_dec : EqDecision segment.
Proof. solve_decision. Defined.

Definition parse_segment (s : string) : segment :=
  match s with
  | String "{" s' => Wild (String.substring 0 (String.length s' - 1) s')
  | _ => Lit (pathUnescape s)
  end.
Fixpoint parse_segments (l : list string) : list segment :=
  match l with
  | [] => []
  | [x] => if bool_decide (x = EmptyString) then [Rest] else [parse_segment x]
  | x :: l => parse_segment x :: parse_segments l
  end.

Record pattern : Type := MkPattern { pt_method : string; pt_path : list segment }.
#[export] Instance pattern_eq_dec : EqDecision pattern.
Proof. solve_decision. Defined.

(** [parsePattern]: a method, a space, a path. *)
Definition parse_pattern (s : string) : pattern :=
  match GoStr.Cut " "%char s with
  | Some (m, p) => MkPattern m (parse_segments (tail (Split "/"%char p)))
  | None => MkPattern EmptyString (parse_segments (tail (Split "/"%char s)))
  end.

Definition names (ps : list segment) : list string := omap (fun s => match s with Wild n => Some n | _ => None end) ps.

(** What the wildcards of a pattern stand for in a path. *)
Fixpoint match_one (ps : list segment) (path : list string) : option (list string) :=
  match ps, path with
  | [], [] => Some []
  | Lit s :: ps, x :: path => if String.eqb s x then match_one ps path else None
  | Wild _ :: ps, x :: path => if String.eqb x "/" then None else (cons x) <$> match_one ps path
  | Rest :: _, _ :: _ => Some []
  | _, _ => None
  end.

(** ** The search *)

Section Search.
Context {A : Type}.
Abbreviation candidate := (list segment * A)%type.

Definition after_lit (x : string) (c : candidate) : option candidate :=
  match c.1 with Lit s :: ps => if String.eqb s x then Some (ps, c.2) else None | _ => None end.
Definition after_wild (c : candidate) : option candidate :=
  match c.1 with Wild _ :: ps => Some (ps, c.2) | _ => None end.
Definition at_rest (c : candidate) : option A := match c.1 with Rest :: _ => Some c.2 | _ => None end.
Definition ends_here (c : candidate) : option A := match c.1 with [] => Some c.2 | _ => None end.

(** [routingNode.matchPath]: at each element the patterns with that literal are
    tried first, those with a wildcard next, and last the one that takes the
    rest. *)
Fixpoint matchPath (cs : list candidate) (path : list string) : option (A * list string) :=
  match path with
  | [] => (fun a => (a, [])) <$> List.hd_error (omap ends_here cs)
  | x :: path =>
      match matchPath (omap (after_lit x) cs) path with
      | Some r => Some r
      | None =>
          match (if String.eqb x "/" then None else matchPath (omap after_wild cs) path) with
          | Some (a, vs) => Some (a, x :: vs)
          | None => (fun a => (a, [])) <$> List.hd_error (omap at_rest cs)
          end
      end
  end.

(** [ps] goes before [qs] in the search. *)
Fixpoint prefers (ps qs : list segment) : bool :=
  match ps, qs with
  | [], [] | Rest :: _, Rest :: _ => true
  | Lit a :: ps, Lit b :: qs => String.eqb a b && prefers ps qs
  | Wild _ :: ps, Wild _ :: qs => prefers ps qs
  | Lit _ :: _, (Wild _ :: _ | Rest :: _) | Wild _ :: _, Rest :: _ => true
  | _, _ => false
  end.

(** Some path matches both. *)
Fixpoint overlaps (ps qs : list segment) : bool :=
  match ps, qs with
  | [], [] => true
  | Lit a :: ps, Lit b :: qs => String.eqb a b && overlaps ps qs
  | Lit a :: ps, Wild _ :: qs => negb (String.eqb a "/") && overlaps ps qs
  | Wild _ :: ps, Lit a :: qs => negb (String.eqb a "/") && overlaps ps qs
  | Wild _ :: ps, Wild _ :: qs => overlaps ps qs
  | Rest :: _, _ :: _ | _ :: _, Rest :: _ => true
  | _, _ => false
  end.

End Search.

(** ** The choice of a handler *)

Section Serve.
Context {A : Type}.

(** A table in the order of its registrations. *)
Abbreviation table := (list (pattern * A)).

Definition of_method (m : string) (t : table) : list (list segment * (pattern * A)) :=
  omap (fun c => if String.eqb (pt_method c.1) m then Some (pt_path c.1, c) else None) t.

(** [routingNode.match]: a request for the headers alone is served by the
    handler of [GET] when it has none of its own. *)
Definition find_match (t : table) (m : string) (path : list string) : option ((pattern * A) * list string) :=
  match matchPath (of_method m t) path with
  | Some r => Some r
  | None => match (if String.eqb m "HEAD" then matchPath (of_method "GET" t) path else None) with
            | Some r => Some r
            | None => matchPath (of_method EmptyString t) path
            end
  end.

Definition exactMatch (r : option ((pattern * A) * list string)) (path : list string) : bool :=
  match r with
  | None => false
  | Some ((p, _), _) =>
      if bool_decide (last (pt_path p) = Some Rest)
      then bool_decide (last path = Some "/"%string) && (length (pt_path p) =? length path)%nat else true
  end.

Inductive outcome : Type :=
| Found (p : pattern) (a : A) (vs : list string)
| Moved (path : string)
| NotAllowed (methods : list string)
| Missing.

Definition methods_of (t : table) (path : list string) : list string :=
  base.filter (fun m => is_Some (find_match t m path)) (remove_dups (map (fun c => pt_method c.1) t)).

(** [ServeMux.findHandler], for the path of the request as it is written. *)
Definition findHandler (t : table) (m escaped : string) : outcome :=
  let path := if String.eqb m "CONNECT" then escaped else cleanPath escaped in
  let r := find_match t m (elements path) in
  let slash := elements (path +:+ "/")%string in
  if negb (exactMatch r (elements path)) && negb (HasSuffix path "/") && negb (String.eqb path EmptyString)
     && exactMatch (find_match t m slash) slash then Moved (path +:+ "/")%string
  else if negb (String.eqb path escaped) then Moved path
  else match r with
       | Some ((p, a), vs) => Found p a vs
       | None => match methods_of t (elements path) with [] => Missing | l => NotAllowed l end
       end.

End Serve.
Arguments outcome : clear implicits.

(** ** Lemmas *)

Lemma overlaps_sound ps qs l vs ws : match_one ps l = Some vs -> match_one qs l = Some ws -> overlaps ps qs = true.
Proof.
  revert qs l vs ws. induction ps as [|[a|n|] ps IH]; intros [|[b|k|] qs] [|x l] vs ws; simpl; try done.
  - destruct (String.eqb_spec a x) as [->|]; [|done]. destruct (String.eqb_spec b x) as [->|]; [|done].
    intros H1 H2. rewrite String.eqb_refl. by eapply IH.
  - destruct (String.eqb_spec a x) as [->|]; [|done]. destruct (String.eqb_spec x "/"); [done|].
    intros H1 (ws' & H2 & _)%fmap_Some. by eapply IH.
  - destruct (String.eqb_spec b x) as [->|]; [|by destruct (String.eqb x "/")]. destruct (String.eqb_spec x "/"); [done|].
    intros (vs' & H1 & _)%fmap_Some H2. by eapply IH.
  - destruct (String.eqb_spec x "/"); [done|]. intros (vs' & H1 & _)%fmap_Some (ws' & H2 & _)%fmap_Some. by eapply IH.
Qed.

Section Search.
Context {A : Type}.
Implicit Types cs : list (list segment * A).

(** The choice is a pattern that matches, with what its wildcards stand for, and
    no pattern that matches goes before it. *)
Definition best cs (l : list string) (a : A) (vs : list string) : Prop :=
  exists ps, (ps, a) ∈ cs /\ match_one ps l = Some vs /\
    forall qs b ws, (qs, b) ∈ cs -> match_one qs l = Some ws -> prefers ps qs = true.

Lemma hd_omap_Some {B C} (f : B -> option C) l c : List.hd_error (omap f l) = Some c -> exists b, b ∈ l /\ f b = Some c.
Proof.
  intros Hh. apply list_elem_of_omap. destruct (omap f l); [done|]. injection Hh as ->. left.
Qed.

Lemma hd_omap_None {B C} (f : B -> option C) l b : List.hd_error (omap f l) = None -> b ∈ l -> f b = None.
Proof.
  intros Hh Hb. destruct (f b) as [c|] eqn:Hf; [|done].
  assert (c ∈ omap f l) by (apply list_elem_of_omap; eauto). destruct (omap f l); [set_solver|done].
Qed.

Lemma matchPath_None cs l : matchPath cs l = None -> forall ps a, (ps, a) ∈ cs -> match_one ps l = None.
Proof.
  revert cs. induction l as [|x l IH]; intros cs; cbn [matchPath].
  - intros Hn ps a Hin. apply fmap_None in Hn. pose proof (hd_omap_None ends_here cs (ps, a) Hn Hin) as He.
    by destruct ps as [|[]].
  - destruct (matchPath (omap (after_lit x) cs) l) eqn:Hlit; [done|].
    destruct (if String.eqb x "/" then None else _) as [[a0 vs0]|] eqn:Hwild; [done|].
    intros Hrest%fmap_None ps a Hin. destruct ps as [|[s|n|] ps]; [done|..]; cbn [match_one].
    + destruct (String.eqb s x) eqn:Hs; [|done]. apply (IH _ Hlit ps a), list_elem_of_omap.
      exists (Lit s :: ps, a). split; [done|]. unfold after_lit. simpl. by rewrite Hs.
    + destruct (String.eqb x "/"); [done|]. apply fmap_None. apply (IH _ Hwild ps a), list_elem_of_omap.
      by exists (Wild n :: ps, a).
    + by pose proof (hd_omap_None at_rest cs _ Hrest Hin).
Qed.

Lemma prefers_refl ps : prefers ps ps = true.
Proof. induction ps as [|[]]; simpl; rewrite ?String.eqb_refl; done. Qed.

Lemma matchPath_best cs l a vs : matchPath cs l = Some (a, vs) -> best cs l a vs.
Proof.
  revert cs a vs. induction l as [|x l IH]; intros cs a vs; cbn [matchPath].
  - intros (? & (c & Hc & Hf)%hd_omap_Some & [= -> ->])%fmap_Some. destruct c as [[|] a']; [|by destruct s].
    unfold ends_here in Hf; simpl in Hf; simplify_eq. exists []. split_and!; [done..|]. by intros [|[] qs] b ws.
  - destruct (matchPath (omap (after_lit x) cs) l) as [r|] eqn:Hlit.
    + intros [= ->]. apply IH in Hlit as (ps & Hin & Hm & Hbest).
      apply list_elem_of_omap in Hin as ([[|[s| |] ps'] a'] & Hc & Hf); try done. unfold after_lit in Hf. simpl in Hf.
      destruct (String.eqb_spec s x) as [->|]; simplify_eq. exists (Lit x :: ps). split; [done|]. cbn [match_one].
      rewrite String.eqb_refl. split; [done|]. intros [|[t|n|] qs] b ws Hq Hw; simpl in *; try done.
      destruct (String.eqb_spec t x) as [->|]; [|done]. rewrite String.eqb_refl. apply (Hbest qs b ws); [|done].
      apply list_elem_of_omap. exists (Lit x :: qs, b). split; [done|]. unfold after_lit. simpl. by rewrite String.eqb_refl.
    + pose proof (matchPath_None _ _ Hlit) as Hnolit.
      assert (Hlits : forall s qs b ws, (Lit s :: qs, b) ∈ cs -> match_one (Lit s :: qs) (x :: l) = Some ws -> False).
      { intros s qs b ws Hq. simpl. destruct (String.eqb_spec s x) as [->|]; [|done]. rewrite (Hnolit qs b); [done|].
        apply list_elem_of_omap. exists (Lit x :: qs, b). split; [done|]. unfold after_lit. simpl. by rewrite String.eqb_refl. }
      destruct (if String.eqb x "/" then None else _) as [[a0 vs0]|] eqn:Hwild.
      * intros [= <- <-]. destruct (String.eqb_spec x "/") as [|Hx]; [done|].
        apply IH in Hwild as (ps & Hin & Hm & Hbest).
        apply list_elem_of_omap in Hin as ([[|[|n|] ps'] a'] & Hc & Hf); try done. unfold after_wild in Hf. simplify_eq/=.
        exists (Wild n :: ps). split; [done|]. cbn [match_one]. rewrite (proj2 (String.eqb_neq _ _) Hx), Hm. split; [done|].
        intros [|[t|k|] qs] b ws Hq Hw; try done; [by exfalso; eapply Hlits|]. simpl in Hw |- *.
        rewrite (proj2 (String.eqb_neq _ _) Hx) in Hw. apply fmap_Some in Hw as (ws' & Hw & _).
        apply (Hbest qs b ws'); [|done]. apply list_elem_of_omap. by exists (Wild k :: qs, b).
      * intros (? & (c & Hc & Hf)%hd_omap_Some & [= -> ->])%fmap_Some. destruct c as [[|[] ps] a']; try done.
        injection Hf as ->. exists (Rest :: ps). split; [done|]. split; [done|].
        intros [|[t|k|] qs] b ws Hq Hw; try done; [by exfalso; eapply Hlits|]. simpl in Hw.
        destruct (String.eqb_spec x "/") as [|Hx]; [done|]. apply fmap_Some in Hw as (ws' & Hw & _).
        rewrite (matchPath_None _ _ Hwild qs b) in Hw; [done|]. apply list_elem_of_omap. by exists (Wild k :: qs, b).
Qed.

(** A pattern that no other goes before is chosen whenever it matches. *)
Lemma matchPath_chosen cs ps a l vs : (ps, a) ∈ cs -> match_one ps l = Some vs ->
  (forall qs b, (qs, b) ∈ cs -> overlaps ps qs = true -> prefers qs ps = true -> qs = ps /\ b = a) ->
  matchPath cs l = Some (a, vs).
Proof.
  intros Hin Hm Hfirst. destruct (matchPath cs l) as [[b ws]|] eqn:Hp.
  - apply matchPath_best in Hp as (qs & Hq & Hw & Hbest).
    destruct (Hfirst qs b Hq) as [-> ->]; [by eapply overlaps_sound|by eapply Hbest|]. congruence.
  - by rewrite (matchPath_None _ _ Hp ps a Hin) in Hm.
Qed.

End Search.

Section Serve.
Context {A : Type}.
Implicit Types t : list (pattern * A).

Lemma elem_of_method m t ps c : (ps, c) ∈ of_method m t <-> c ∈ t /\ pt_method c.1 = m /\ ps = pt_path c.1.
Proof.
  unfold of_method. rewrite list_elem_of_omap. split.
  - intros (c' & Hc & Hf). destruct (String.eqb_spec (pt_method c'.1) m); by simplify_eq.
  - intros (Hc & <- & ->). exists c. split; [done|]. by rewrite String.eqb_refl.
Qed.

(** What is found is a registration, for the method of the request or one that
    serves it, whose pattern the path matches. *)
Lemma find_match_sound t m path p a vs : find_match t m path = Some ((p, a), vs) ->
  (p, a) ∈ t /\ match_one (pt_path p) path = Some vs /\
  (pt_method p = m \/ pt_method p = EmptyString \/ m = "HEAD"%string /\ pt_method p = "GET"%string).
Proof.
  assert (Hone : forall m', matchPath (of_method m' t) path = Some ((p, a), vs) ->
    (p, a) ∈ t /\ match_one (pt_path p) path = Some vs /\ pt_method p = m').
  { intros m' (ps & (Hin & Hme & ->)%elem_of_method & Hp & _)%matchPath_best. by split_and!. }
  unfold find_match. destruct (matchPath (of_method m t) path) as [r|] eqn:E1.
  { intros [= ->]. apply Hone in E1 as (? & ? & ?). auto. }
  destruct (if String.eqb m "HEAD" then _ else _) as [r|] eqn:E2.
  - intros [= ->]. destruct (String.eqb_spec m "HEAD") as [Hm|]; [|done]. apply Hone in E2 as (? & ? & ?). auto 6.
  - intros E3. apply Hone in E3 as (? & ? & ?). auto 6.
Qed.

Lemma findHandler_sound t m path p a vs : findHandler t m path = Found p a vs ->
  (p, a) ∈ t /\ match_one (pt_path p) (elements path) = Some vs /\
  (pt_method p = m \/ pt_method p = EmptyString \/ m = "HEAD"%string /\ pt_method p = "GET"%string).
Proof.
  unfold findHandler. set (q := if String.eqb m "CONNECT" then path else cleanPath path).
  destruct (negb _ && _ && _ && _); [done|]. destruct (String.eqb_spec q path) as [Hq|]; [|done]. cbn [negb]. rewrite Hq.
  destruct (find_match t m (elements path)) as [[[p' a'] vs']|] eqn:Hf; [|by destruct (methods_of _ _)].
  intros [= -> -> ->]. by apply find_match_sound.
Qed.

(** A table [net/http] accepts: of two patterns of one method that overlap, one
    alone goes before the other. *)
Definition compatible (p q : pattern) : bool :=
  negb (String.eqb (pt_method p) (pt_method q) && overlaps (pt_path p) (pt_path q))
  || xorb (prefers (pt_path p) (pt_path q)) (prefers (pt_path q) (pt_path p)).
Fixpoint compatible_all (l : list pattern) : bool :=
  match l with [] => true | p :: l => forallb (compatible p) l && compatible_all l end.

(** [p] goes before every pattern of the table that overlaps it. *)
Definition foremost (p : pattern) (l : list pattern) : bool :=
  forallb (fun q => bool_decide (q = p)
    || negb (String.eqb (pt_method q) (pt_method p) && overlaps (pt_path p) (pt_path q) && prefers (pt_path q) (pt_path p))) l.

(** A request that matches such a pattern, with its method and a clean path, is
    given to its handler with the values of its wildcards. *)
Lemma findHandler_foremost t p a path vs : (p, a) ∈ t -> NoDup t.*1 -> foremost p t.*1 = true ->
  pt_method p <> "CONNECT"%string -> cleanPath path = path -> last (pt_path p) <> Some Rest ->
  match_one (pt_path p) (elements path) = Some vs ->
  findHandler t (pt_method p) path = Found p a vs.
Proof.
  intros Hin Hnd Hfor Hmeth Hclean Hlast Hm.
  assert (Hfind : find_match t (pt_method p) (elements path) = Some ((p, a), vs)).
  { unfold find_match. erewrite (matchPath_chosen _ (pt_path p) (p, a)); [done| |done|].
    - by apply elem_of_method.
    - intros qs [q b] (Hq & Hqm & ->)%elem_of_method Hov Hpre. cbn [fst] in *.
      apply forallb_forall with (x := q) in Hfor; [|apply list_elem_of_In, list_elem_of_fmap; by exists (q, b)].
      apply orb_true_iff in Hfor as [->%bool_decide_eq_true|Hfor].
      + split; [done|]. f_equal. apply list_elem_of_lookup in Hin as [i Hi], Hq as [j Hj].
        assert (i = j) as <-. { eapply NoDup_lookup; [done|..]; rewrite list_lookup_fmap; [by rewrite Hi|by rewrite Hj]. }
        congruence.
      + rewrite Hqm, String.eqb_refl, Hov, Hpre in Hfor. done. }
  unfold findHandler. rewrite (proj2 (String.eqb_neq _ _) Hmeth), Hclean, Hfind, String.eqb_refl. cbn [exactMatch negb andb].
  by rewrite bool_decide_false.
Qed.

End Serve.
