(* ===== verification/Keys.v ===== *)
(** * Package [keys]: the signing key of the queue service

    [queue/internal/keys/keys.go].  The HTTP exchange with the control service
    is its outcome: a transport error, or a status with a body that decodes or
    does not. *)
From S2P Require Import Prelude GoStr F64.

Local Open Scope Z_scope.

Record Client : Type := MkClient { kid : string; privPEM : string; pubPEM : string }.

Definition New : Client := MkClient "" "" "".
Definition Current (c : Client) : string * string := (kid c, privPEM c).
Definition Ready (c : Client) : bool := negb (bool_decide (kid c = EmptyString)).

Inductive outcome : Type :=
| Failed (e : goerr)
| Answer (status : Z) (decoded : goerr + (string * string * string)).

Definition fetch (o : outcome) (c : Client) : option goerr * Client :=
  match o with
  | Failed e => (Some e, c)
  | Answer status decoded =>
      if negb (status =? 200) then (Some (Err ("flyc-control a répondu " +:+ FormatInt status)%string), c)
      else match decoded with
           | inl e => (Some e, c)
           | inr (k, priv, pub) =>
               if bool_decide (k = EmptyString) || bool_decide (priv = EmptyString)
               then (Some (Err "réponse de flyc-control incomplète"), c)
               else (None, MkClient k priv pub)
           end
  end.

(** One turn of [Run]: the client, the backoff, and the wait before the next. *)
Definition run_turn (o : outcome) (st : Client * Z) : Client * Z * Z :=
  let '(c, backoff) := st in
  match fetch o c with
  | (Some _, c) => (c, if backoff <? 30 * second then backoff * 2 else backoff, backoff)
  | (None, c) => (c, 2 * second, 60 * second)
  end.

Fixpoint Run (os : list outcome) (st : Client * Z) : Client * Z :=
  match os with [] => st | o :: os => Run os (run_turn o st).1 end.

(** The backoffs [Run] can reach from two seconds. *)
Definition backoff_ok (b : Z) : Prop := exists n, (n <= 4)%nat /\ b = 2 * second * 2 ^ Z.of_nat n.

Lemma run_turn_backoff o c b : backoff_ok b -> backoff_ok (run_turn o (c, b)).1.2.
Proof.
  intros (n & Hn & ->). unfold run_turn. destruct (fetch o c) as [[e|] c']; simpl.
  - destruct (Z.ltb_spec (2 * second * 2 ^ Z.of_nat n) (30 * second)) as [Hlt|Hge]; [|by exists n].
    exists (S n). rewrite Nat2Z.inj_succ, Z.pow_succ_r by lia. split; [|lia].
    destruct (decide (n = 4)%nat) as [->|]; [|lia]. vm_compute in Hlt. done.
  - exists 0%nat. split; [lia|]. done.
Qed.

(** Whatever the control service answers, the client has no key or
    a complete one, a complete key is only replaced by a complete key, and the
    wait after a failure stays between 2 and 32 seconds. *)
Theorem Run_keys os c b :
  (kid c = EmptyString -> c = New) -> (kid c <> EmptyString -> privPEM c <> EmptyString) -> backoff_ok b ->
  let '(c', b') := Run os (c, b) in
  (kid c' = EmptyString -> c' = New) /\ (kid c' <> EmptyString -> privPEM c' <> EmptyString) /\
  (Ready c = true -> Ready c' = true) /\ 2 * second <= b' <= 32 * second.
Proof.
  revert c b. induction os as [|o os IH]; intros c b H1 H2 Hb; cbn [Run].
  - split; [done|]. split; [done|]. split; [done|]. destruct Hb as (n & Hn & ->).
    do 5 (destruct n as [|n]; [vm_compute; split; discriminate|]). lia.
  - pose proof (run_turn_backoff o c b Hb) as Hb'. destruct (run_turn o (c, b)) as [[c1 b1] w] eqn:E. cbn [fst snd] in *.
    assert (Hc : (kid c1 = EmptyString -> c1 = New) /\ (kid c1 <> EmptyString -> privPEM c1 <> EmptyString) /\
                 (Ready c = true -> Ready c1 = true)).
    { unfold run_turn, fetch in E. destruct o as [e|st [e|[[k priv] pub]]].
      - injection E as <- _ _. done.
      - destruct (negb (st =? 200)); injection E as <- _ _; done.
      - destruct (negb (st =? 200)); [by injection E as <- _ _|].
        destruct (decide (k = EmptyString)) as [->|Hk]; [by injection E as <- _ _|].
        destruct (decide (priv = EmptyString)) as [->|Hp].
        + rewrite (bool_decide_true (EmptyString = EmptyString)), orb_true_r in E by done. by injection E as <- _ _.
        + rewrite !bool_decide_false in E by done. simpl in E. injection E as <- _ _.
          split; [done|]. split; [done|]. intros _. unfold Ready. simpl. by rewrite bool_decide_false. }
    destruct Hc as (C1 & C2 & C3). specialize (IH c1 b1 C1 C2 Hb'). destruct (Run os (c1, b1)) as [c' b'].
    destruct IH as (I1 & I2 & I3 & I4). split; [done|]. split; [done|]. split; [auto|done].
Qed.

Lemma Run_keys_witness :
  Ready (Run [Failed (Err "timeout"); Answer 200 (inr ("k1", "pem", "pub")); Answer 503 (inl (Err "eof"))]%string
    (New, 2 * second)).1 = true /\ 2 * second <= 4 * second <= 32 * second.
Proof.
  destruct (Run_keys [Answer 503 (inl (Err "eof"))]%string (MkClient "k1" "pem" "pub") (2 * second)) as (_ & _ & H1 & H2).
  - intros H. discriminate H.
  - intros _ H. discriminate H.
  - exists 0%nat. split; [lia|reflexivity].
  - split; [exact (H1 eq_refl)|exact H2].
Defined.
