(* ===== verification/QueueApi.v ===== *)
(** * Package [api] of the queue service: the public and internal routes

    [queue/internal/api/api.go].  A handler is a computation over the Redis
    server that always returns a response.  HMAC, [url.Parse], the JSON
    decoders and the siteverify service are parameters; the signing key is
    what [keys.Current] returned.  A request carries the decoded path value,
    query parameter, headers and cookies the handlers read. *)
From Stdlib Require Import Ascii.
From S2P Require Import Prelude GoStr F64 Redis Json Base64 Room Pass Store Hub Httpx.

Local Open Scope list_scope.
Local Open Scope Z_scope.

(** What the handlers read of [url.Parse]'s result. *)
Record Url : Type := MkUrl { u_Host : string; u_Hostname : string; u_EscapedPath : string; u_RawQuery : string }.

Record ticketReq : Type := MkTicketReq { tr_H : string; tr_R : string; tr_Turnstile : string }.

Record Options : Type := MkOptions {
  InternalToken : string; CookieSecret : string; TurnstileSecret : string; TurnstileSiteKey : string }.

Record request : Type := MkRequest {
  rq_room : string;                      (* r.PathValue("room") *)
  rq_t : string;                         (* r.URL.Query().Get("t") *)
  rq_cookies : gmap string string;
  rq_headers : gmap string string;
  rq_body : string
}.

Definition header (r : request) (k : string) : string := default EmptyString (rq_headers r !! k).

Definition goPath (id : ID) (tid : string) : string := ("/q/" +:+ ID_String id +:+ "/go?t=" +:+ tid)%string.

Definition cookie_name (id : ID) : string := ("flyc_ticket_" +:+ Tenant id +:+ "_" +:+ Room id)%string.

Section Api.
Context {St : Type} `{RedisServer St}.
Context (marshal_map : gmap string string -> string) (unmarshal_map : string -> gmap string string).
(** HMAC-SHA256 of a key and a message, as bytes. *)
Context (hmac : string -> string -> string).
Context (url_parse : string -> option Url).
(** The [ticketReq] left by decoding the first 4096 bytes of a body. *)
Context (decode_ticket : string -> ticketReq).
(** The configuration and [pass_ttl_s] that decoding a body over a
    configuration gives. *)
Context (decode_room : Room.Config -> string -> goerr + (Room.Config * Z)).
(** Cloudflare's answer to a secret, a token and an address; [None] when it
    cannot be reached. *)
Context (siteverify : string -> string -> string -> option bool).
Context {SK : Type} (pem_decode : string -> option string) (parse_ec : string -> goerr + SK).
Context (sha256 : string -> string) (ecdsa_sign : Z -> SK -> string -> goerr + (Z * Z)).
Context (opt : Options).

(** [auth]: the internal routes. *)
Definition auth (next : request -> M St resp) (r : request) : M St resp :=
  if bool_decide (InternalToken opt = EmptyString)
     || negb (bool_decide (header r "Authorization" = "Bearer " +:+ InternalToken opt))%string
  then mret (Error 401 "unauthorized" "jeton interne invalide")
  else next r.

Definition roomOf (r : request) : M St (resp + (ID * Room.Config)) :=
  match Parse (rq_room r) with
  | inl _ => mret (inl (Error 404 "unknown_room" "file inconnue"))
  | inr id =>
      c ← mtry (Store.Config unmarshal_map id);
      mret (match c with
            | inl _ => inl (Error 503 "store" "file d'attente indisponible")
            | inr (_, false) => inl (Error 404 "unknown_room" "file non configurée")
            | inr (cfg, true) => inr (id, cfg)
            end)
  end.

(** [id, cfg, ok := a.roomOf(w, r); if !ok { return }]. *)
Definition with_room (r : request) (k : ID -> Room.Config -> M St resp) : M St resp :=
  x ← roomOf r;
  match x with inl e => mret e | inr (id, cfg) => k id cfg end.

Definition signTicket (id : ID) (tid : string) : string :=
  (tid +:+ "." +:+ stake 32 (hex_encode (hmac (CookieSecret opt) (ID_String id +:+ "|" +:+ tid))))%string.

Definition verifyTicket (id : ID) (v : string) : string * bool :=
  match Cut "."%char v with
  | Some (tid, sig) =>
      if bool_decide (tid = EmptyString) then (EmptyString, false)
      else
        let want := TrimPrefix (signTicket id tid) (tid +:+ ".")%string in
        (tid, bool_decide (sig = want))
  | None => (EmptyString, false)
  end.

Definition setTicketCookie (id : ID) (tid : string) (r : resp) : resp :=
  add_cookie (cookie_name id) (signTicket id tid) r.

(** The ticket of the signed cookie, if any. *)
Definition cookie_ticket (r : request) (id : ID) : option string :=
  match rq_cookies r !! cookie_name id with
  | Some v => match verifyTicket id v with (tid, true) => Some tid | (_, false) => None end
  | None => None
  end.

Definition ticketFromRequest (r : request) (id : ID) : string :=
  if negb (bool_decide (rq_t r = EmptyString)) then rq_t r
  else default EmptyString (cookie_ticket r id).

Definition normalizeReturn (raw dom : string) : string :=
  if bool_decide (raw = EmptyString) then "/"%string
  else
    let raw := match decode StdEncoding raw with
               | Some b => b
               | None => match decode RawURLEncoding raw with Some b => b | None => raw end
               end in
    if HasPrefix raw "/" && negb (HasPrefix raw "//") then raw
    else match url_parse raw with
         | Some u =>
             if negb (bool_decide (u_Host u = EmptyString)) && EqualFold (u_Hostname u) dom then
               let p := if bool_decide (u_EscapedPath u = EmptyString) then "/"%string else u_EscapedPath u in
               if bool_decide (u_RawQuery u = EmptyString) then p else (p +:+ "?" +:+ u_RawQuery u)%string
             else "/"%string
         | None => "/"%string
         end.

Definition goURL (dom ret tok : string) : string :=
  ("https://" +:+ dom +:+ "/__flyc/go?p=" +:+ QueryEscape tok +:+ "&r=" +:+ QueryEscape (encode StdEncoding ret))%string.

Definition verifyTurnstile (token ip : string) : bool :=
  if bool_decide (token = EmptyString) then false
  else match siteverify (TurnstileSecret opt) token ip with Some b => b | None => false end.

(** ** Public routes *)

Definition config (r : request) : M St resp :=
  with_room r (fun id cfg =>
    mret (JSON 200 (JObj [("opens_at", JInt (OpensAt cfg)); ("room", JStr (ID_String id)); ("state", JStr (State cfg));
      ("theme", JMap (Theme cfg)); ("title", JStr (Title cfg)); ("turnstile_sitekey", JStr (TurnstileSiteKey opt));
      ("wave_s", JInt (WaveSec cfg))]%string))).

Definition statusOf (id : ID) (cfg : Room.Config) (t : Ticket) (now : Z) : M St Status :=
  cnt ← Counts id now;
  let pending := cnt.1.1 in
  rank ← Rank id (t_ID t);
  if rank <? 0 then
    if fltb fzero (t_Score t) then
      _ ← mtry (Requeue id t);
      rank ← mtry (Rank id (t_ID t));
      (* rank, _ = Rank(...): zero next to an error *)
      mret (BuildStatus cfg pending (match rank with inr k => k | inl _ => 0 end) 0)
    else
      let waveIn := wrap64 (wrap64 ((t_Wave t + 1) * WaveSec cfg) + 1 - unix now) in
      mret (BuildStatus cfg pending rank (if waveIn <? 0 then 0 else waveIn))
  else mret (BuildStatus cfg pending rank 0).

Definition zero_Status : Status := MkStatus EmptyString 0 0 0 0 0 fzero.

Definition respondTicket (id : ID) (cfg : Room.Config) (t : Ticket) (now : Z) : M St resp :=
  if bool_decide (t_Status t = StatusAdmitted) then
    mret (JSON 200 (JObj [("go", JStr (goPath id (t_ID t))); ("state", JStr "admitted"); ("ticket", JStr (t_ID t))]%string))
  else
    st ← mtry (statusOf id cfg t now);
    mret (JSON 200 (JObj [("state", JStr "waiting");
      ("status", status_json (match st with inr s => s | inl _ => zero_Status end));
      ("theme", JMap (Theme cfg)); ("ticket", JStr (t_ID t)); ("title", JStr (Title cfg))]%string)).

(** The existing ticket the handler gives back: still waiting, or admitted
    with a pass that has not expired. *)
Definition existing_ticket (r : request) (id : ID) (now : Z) : M St (option Ticket) :=
  match cookie_ticket r id with
  | None => mret None
  | Some tid =>
      o ← mtry (GetTicket id tid);
      mret (match o with
            | inr (Some t) => if bool_decide (t_Status t = StatusWaiting) || (unix now <? t_Exp t) then Some t else None
            | _ => None
            end)
  end.

(** [rnd] is the randomness of the ticket identifier; [sub8], [nonce] and
    [mint_now] those and the clock of [Mint]. *)
Definition ticket (rnd sub8 : string) (nonce mint_now now : Z) (kid priv : string) (r : request) : M St resp :=
  with_room r (fun id cfg =>
    let req := decode_ticket (rq_body r) in
    let dom := ToLower (TrimSpace (tr_H req)) in
    if negb (AllowsDomain cfg dom) then
      mret (Error 400 "bad_domain" "ce domaine n'est pas protégé par cette file")
    else
      let ret := normalizeReturn (tr_R req) dom in
      if bool_decide (State cfg = StClosed) then
        mret (JSON 200 (JObj [("opens_at", JInt (OpensAt cfg)); ("state", JStr "closed");
          ("theme", JMap (Theme cfg)); ("title", JStr (Title cfg))]%string))
      else
        old ← existing_ticket r id now;
        match old with
        | Some t => respondTicket id cfg t now
        | None =>
            if negb (bool_decide (TurnstileSecret opt = EmptyString)) && bool_decide (State cfg = StQueue)
               && negb (verifyTurnstile (tr_Turnstile req) (header r "X-Real-IP"))
            then mret (Error 403 "captcha" "vérification anti-robot échouée")
            else if bool_decide (State cfg = StOpen) then
              if bool_decide (kid = EmptyString) then mret (Error 503 "no_key" "signature indisponible")
              else
                match Mint pem_decode parse_ec sha256 ecdsa_sign sub8 nonce mint_now priv kid
                        (MkClaims "" (Tenant id) dom (ID_String id) (PassTTL cfg)) with
                | inl _ => mret (Error 500 "sign" "signature impossible")
                | inr tok =>
                    t ← mtry (AdmitDirect rnd id dom ret tok (unix (now + PassTTL cfg)) now);
                    match t with
                    | inl _ => mret (Error 503 "store" "file d'attente indisponible")
                    | inr t => mret (setTicketCookie id (t_ID t)
                        (JSON 200 (JObj [("go", JStr (goPath id (t_ID t))); ("state", JStr "admitted");
                           ("ticket", JStr (t_ID t))]%string)))
                    end
                end
            else
              t ← mtry (CreateTicket rnd id cfg dom ret now);
              match t with
              | inl _ => mret (Error 503 "store" "file d'attente indisponible")
              | inr t => resp ← respondTicket id cfg t now; mret (setTicketCookie id (t_ID t) resp)
              end
        end).

(** [t, _ := a.st.GetTicket(...)]: nil next to an error. *)
Definition find_ticket (id : ID) (tid : string) : M St (option Ticket) :=
  o ← mtry (GetTicket id tid);
  mret (match o with inr t => t | inl _ => None end).

Definition status (now : Z) (r : request) : M St resp :=
  with_room r (fun id cfg =>
    o ← find_ticket id (ticketFromRequest r id);
    match o with
    | None => mret (Error 404 "unknown_ticket" "ticket inconnu ou expiré")
    | Some t =>
        if bool_decide (State cfg = StClosed) then
          mret (JSON 200 (JObj [("opens_at", JInt (OpensAt cfg)); ("state", JStr "closed")]%string))
        else if bool_decide (t_Status t = StatusAdmitted) then
          mret (JSON 200 (JObj [("go", JStr (goPath id (t_ID t))); ("state", JStr "admitted")]%string))
        else
          st ← mtry (statusOf id cfg t now);
          mret (match st with
                | inl _ => Error 503 "store" "file d'attente indisponible"
                | inr s => JSON 200 (JObj [("poll_s", JInt 5); ("state", JStr "waiting"); ("status", status_json s)]%string)
                end)
    end).

(** The opening of a stream: the response with the frames written so far and,
    when the stream stays open, the ticket it subscribes with. *)
Definition events_open (now : Z) (r : request) : M St (resp * option (ID * string)) :=
  x ← roomOf r;
  match x with
  | inl e => mret (e, None)
  | inr (id, cfg) =>
      if negb (bool_decide (header r "X-Flyc-Degraded" = EmptyString)) then
        mret (add_header "Retry-After" "15" (JSON 503 (JObj [("error", JStr "degraded"); ("poll_s", JInt 15)]%string)), None)
      else
        o ← find_ticket id (ticketFromRequest r id);
        match o with
        | None => mret (Error 404 "unknown_ticket" "ticket inconnu ou expiré", None)
        | Some t =>
            let stream frames := MkResp 200 [("Content-Type", "text/event-stream"); ("Cache-Control", "no-store");
                                             ("X-Accel-Buffering", "no")]%string [] (BStream frames) in
            if bool_decide (State cfg = StClosed) then
              mret (stream [("closed", JObj [("opens_at", JInt (OpensAt cfg))])]%string, None)
            else if bool_decide (t_Status t = StatusAdmitted) then
              mret (stream [("admitted", JObj [("go", JStr (goPath id (t_ID t))); ("ticket", JStr (t_ID t))])]%string, None)
            else
              st ← mtry (statusOf id cfg t now);
              mret (stream (match st with inr s => [("status"%string, status_json s)] | inl _ => [] end),
                    Some (id, t_ID t))
        end
  end.

(** One message of the channel: the frame written and whether the stream ends. *)
Definition events_message (id : ID) (tid : string) (m : Msg) : (string * json) * bool :=
  if bool_decide (m_Event m = "admitted"%string)
  then (("admitted"%string, JObj [("go", JStr (goPath id tid)); ("ticket", JStr tid)]%string), true)
  else ((m_Event m, m_Data m), false).

Definition usable (t : Ticket) : bool :=
  bool_decide (t_Status t = StatusAdmitted) && negb (bool_decide (t_Pass t = EmptyString)).

Definition goTo (now : Z) (r : request) : M St resp :=
  with_room r (fun id cfg =>
    o ← find_ticket id (ticketFromRequest r id);
    match o with
    | Some t =>
        if negb (usable t) then mret (Error 403 "not_admitted" "ce ticket n'est pas encore admis")
        else if t_Exp t <=? unix now then mret (Error 410 "expired" "le pass a expiré, reprenez un ticket")
        else if bool_decide (State cfg = StClosed) then
          mret (Redirect ("/w/" +:+ ID_String id +:+ "?h=" +:+ QueryEscape (t_Dom t) +:+ "&closed=1")%string 302)
        else mret (add_header "Cache-Control" "no-store" (Redirect (goURL (t_Dom t) (t_Ret t) (t_Pass t)) 302))
    | None => mret (Error 403 "not_admitted" "ce ticket n'est pas encore admis")
    end).

Definition passJSON (now : Z) (r : request) : M St resp :=
  with_room r (fun id cfg =>
    o ← find_ticket id (ticketFromRequest r id);
    match o with
    | Some t =>
        if negb (usable t) then mret (Error 403 "not_admitted" "ce ticket n'est pas encore admis")
        else if (t_Exp t <=? unix now) || bool_decide (State cfg = StClosed) then
          mret (Error 410 "expired" "le pass a expiré ou la file est fermée")
        else mret (add_header "Cache-Control" "no-store"
               (JSON 200 (JObj [("dom", JStr (t_Dom t)); ("exp", JInt (t_Exp t)); ("pass", JStr (t_Pass t));
                                ("room", JStr (ID_String id))]%string)))
    | None => mret (Error 403 "not_admitted" "ce ticket n'est pas encore admis")
    end).

(** ** Internal routes *)

(** The JSON form of a configuration; durations are in nanoseconds. *)
Definition config_json (c : Room.Config) : json :=
  JObj [("state", JStr (State c)); ("rate", JNum (json_float (Rate c))); ("max_active", JInt (MaxActive c));
        ("wave_s", JInt (WaveSec c)); ("pass_ttl", JInt (PassTTL c)); ("domains", JArr (map JStr (Domains c)));
        ("opens_at", JInt (OpensAt c)); ("title", JStr (Title c)); ("theme", JMap (Theme c))]%string.

Definition putRoom (r : request) : M St resp :=
  match Parse (rq_room r) with
  | inl e => mret (Error 400 "bad_room" (error_text e))
  | inr id =>
      match decode_room Defaults (rq_body r) with
      | inl e => mret (Error 400 "bad_json" (error_text e))
      | inr (cfg, ttl) =>
          let cfg := if 0 <? ttl then set_PassTTL (wrap64 (ttl * second)) cfg else cfg in
          let '(err, cfg) := Validate cfg in
          match err with
          | Some e => mret (Error 400 "invalid" (error_text e))
          | None =>
              x ← mtry (SetConfig marshal_map id cfg);
              mret (match x with
                    | inl e => Error 503 "store" (error_text e)
                    | inr _ => JSON 200 (config_json cfg)
                    end)
          end
      end
  end.

Definition getRoom (now : Z) (r : request) : M St resp :=
  with_room r (fun id cfg =>
    cnt ← mtry (Counts id now);
    let '(pending, active, head) := match cnt with inr x => x | inl _ => (0, 0, fzero) end in
    inWave ← mtry (WaveSize id (Wave now (WaveSec cfg)));
    stats ← mtry (Stats id);
    mret (JSON 200 (JObj [("active", JInt active); ("config", config_json cfg); ("head", JNum (json_float head));
      ("in_wave", JInt (match inWave with inr n => n | inl _ => 0 end)); ("pending", JInt pending);
      ("room", JStr (ID_String id));
      ("stats", match stats with inr m => JMap m | inl _ => JNull end)]%string))).

Definition flushRoom (now : Z) (r : request) : M St resp :=
  with_room r (fun id cfg =>
    x ← mtry (Flush id now (WaveSec cfg));
    mret (match x with
          | inl e => Error 503 "store" (error_text e)
          | inr _ => JSON 200 (JObj [("status", JStr "flushed")]%string)
          end)).

End Api.

(** ** The signed cookie *)

Definition no_dot (s : string) : bool := string_forall (fun a => negb (Ascii.eqb a "."%char)) s.

Lemma trim_sign hmac opt id tid :
  TrimPrefix (signTicket hmac opt id tid) (tid +:+ ".")%string =
  stake 32 (hex_encode (hmac (CookieSecret opt) (ID_String id +:+ "|" +:+ tid)))%string.
Proof. unfold signTicket, TrimPrefix. by rewrite <- string_app_assoc, cut_prefix_app. Qed.

(** The cookie of a ticket is verified exactly: [verifyTicket]
    accepts a value for a ticket when it is the one [signTicket] gives to that
    ticket in that queue, and nothing else. *)
Theorem verifyTicket_exact hmac opt id v tid :
  verifyTicket hmac opt id v = (tid, true) <->
  tid <> EmptyString /\ no_dot tid = true /\ v = signTicket hmac opt id tid.
Proof.
  unfold verifyTicket. split.
  - destruct (Cut "."%char v) as [[t sig]|] eqn:Ec; [|done].
    case_bool_decide as Ht; [done|]. intros [= -> Hs].
    apply bool_decide_eq_true in Hs. apply Cut_inv in Ec as [-> Hd]. split; [done|]. split; [done|].
    rewrite Hs, trim_sign. done.
  - intros (Ht & Hd & ->). unfold signTicket at 1.
    assert (Hdot : forall x, ("." +:+ x)%string = String "."%char x) by reflexivity.
    rewrite Hdot, (Cut_app "."%char tid) by done. rewrite bool_decide_false by done. f_equal.
    apply bool_decide_eq_true. by rewrite trim_sign.
Qed.

Lemma verifyTicket_exact_witness :
  verifyTicket (fun k m => (k +:+ m)%string) (MkOptions "" "secret" "" "") acme
    (signTicket (fun k m => (k +:+ m)%string) (MkOptions "" "secret" "" "") acme "t_abc") = ("t_abc"%string, true).
Proof. apply verifyTicket_exact. split; [discriminate|]. split; reflexivity. Defined.

(** ** The return path *)

(** What [net/url] guarantees of a URL that has a host. *)
Definition url_rooted (url_parse : string -> option Url) : Prop :=
  forall raw u, url_parse raw = Some u -> u_Host u <> EmptyString ->
    u_EscapedPath u = EmptyString \/ HasPrefix (u_EscapedPath u) "/" = true.

(** The return path a ticket keeps always starts with a slash:
    whatever the visitor sends, it is not a URL with a scheme. *)
Theorem normalizeReturn_rooted url_parse raw dom :
  url_rooted url_parse -> HasPrefix (normalizeReturn url_parse raw dom) "/" = true.
Proof.
  intros Hu. unfold normalizeReturn. case_bool_decide; [done|].
  set (raw1 := match decode StdEncoding raw with Some b => b | None => _ end).
  destruct (HasPrefix raw1 "/" && negb (HasPrefix raw1 "//")) eqn:E; [by apply andb_true_iff in E as [-> _]|].
  destruct (url_parse raw1) as [u|] eqn:Eu; [|done].
  destruct (negb _ && _) eqn:Eh; [|done]. apply andb_true_iff in Eh as [Eh _].
  apply negb_true_iff, bool_decide_eq_false in Eh.
  destruct (Hu _ _ Eu Eh) as [Hpath|Hpath].
  - rewrite Hpath. rewrite (bool_decide_true (EmptyString = EmptyString)) by done. case_bool_decide; [done|by apply HasPrefix_app_l].
  - rewrite (bool_decide_false (u_EscapedPath u = EmptyString)) by (by intros E0; rewrite E0 in Hpath).
    case_bool_decide; [done|by apply HasPrefix_app_l].
Qed.

Definition offsite_url : string := "https://demo.example.com//evil.example/".
Definition demo_parse (s : string) : option Url :=
  if bool_decide (s = offsite_url)
  then Some (MkUrl "demo.example.com" "demo.example.com" "//evil.example/" "") else None.

Lemma normalizeReturn_rooted_witness :
  HasPrefix (normalizeReturn demo_parse (encode StdEncoding offsite_url) "demo.example.com") "/" = true.
Proof.
  apply normalizeReturn_rooted. intros raw u Hu _. right. unfold demo_parse in Hu.
  destruct (bool_decide (raw = offsite_url)); [|discriminate Hu]. injection Hu as <-. reflexivity.
Defined.

(** It may however start with two slashes, which a browser takes
    for another host: the path of an absolute URL of the protected domain is
    kept as it is, while a relative path with two slashes is refused. *)
Theorem normalizeReturn_offsite url_parse :
  url_parse offsite_url = Some (MkUrl "demo.example.com" "demo.example.com" "//evil.example/" "") ->
  normalizeReturn url_parse (encode StdEncoding offsite_url) "demo.example.com" = "//evil.example/"%string.
Proof.
  intros Hu. unfold normalizeReturn. rewrite bool_decide_false by (by vm_compute).
  rewrite decode_encode by apply StdEncoding_good.
  replace (HasPrefix offsite_url "/") with false by reflexivity. cbn [andb]. rewrite Hu. reflexivity.
Qed.

Lemma normalizeReturn_offsite_witness :
  normalizeReturn demo_parse (encode StdEncoding offsite_url) "demo.example.com" = "//evil.example/"%string.
Proof. apply normalizeReturn_offsite. reflexivity. Defined.

(** ** The routes *)

Section Routes.
Context {St : Type} `{RedisServer St} {HL : RedisLaws St}.
Context (unmarshal_map : string -> gmap string string).
Context (hmac : string -> string -> string) (opt : Options).

(** The room a request names is configured, as the server stores it. *)
Definition room_at (r : request) (s : St) (id : ID) (cfg : Room.Config) : Prop :=
  Parse (rq_room r) = inr id /\
  exists h, get_hash (keyspace s) (Key id "cfg") = Some h /\ FromHash unmarshal_map h = (cfg, true).

Lemma with_room_inv r k (s : St) resp s' :
  with_room unmarshal_map r k s = (inr resp, s') ->
  400 <= r_code resp \/
  exists id cfg s1, room_at r s id cfg /\ keyspace s1 = keyspace s /\
    roomOf unmarshal_map r s = (inr (inr (id, cfg)), s1) /\ k id cfg s1 = (inr resp, s').
Proof.
  unfold with_room. intros E. unfold roomOf in *. destruct (Parse (rq_room r)) as [e|id] eqn:Ep.
  { unfold mbind, M_bind, mret, M_ret in E. injection E as <- _. left. done. }
  apply M_bind_inv in E as (x & s1 & E1 & E). rewrite E1.
  apply M_bind_inv in E1 as (c & s2 & E1 & E2).
  unfold mret, M_ret in E2. injection E2 as <- <-. apply mtry_inv in E1 as (y & [= <-] & E1).
  destruct c as [e|[cfg []]].
  - unfold mret, M_ret in E. injection E as <- _. left. done.
  - right. exists id, cfg, s2. unfold Config in E1. apply M_bind_inv in E1 as (h & s3 & E1 & E2).
    apply GetHash_inv in E1 as [Hh Hk]. unfold mret, M_ret in E2. injection E2 as E2 <-. unfold room_at.
    split; [eauto|]. split; [done|]. split; [done|exact E].
  - unfold mret, M_ret in E. injection E as <- _. left. done.
Qed.

Lemma find_ticket_inv id tid (s : St) o s' :
  find_ticket id tid s = (inr o, s') ->
  (forall t, o = Some t -> exists h, get_hash (keyspace s) (ticket_key id tid) = Some h /\ t = ticket_of tid h /\
     keyspace s' = keyspace s).
Proof.
  unfold find_ticket. intros E t ->. apply M_bind_inv in E as (x & s1 & E1 & E2).
  unfold mret, M_ret in E2. injection E2 as E2 <-. apply mtry_inv in E1 as (y & [= <-] & E1).
  destruct x as [e|o]; [done|]. subst o. apply GetTicket_inv in E1 as (h & Hh & Hk & Ho).
  destruct (size h =? 0)%nat; [done|]. injection Ho as ->. eauto.
Qed.

(** The ticket of the request is admitted, with a pass that is still valid. *)
Definition may_pass (r : request) (s : St) (now : Z) (id : ID) (t : Ticket) : Prop :=
  exists h, get_hash (keyspace s) (ticket_key id (ticketFromRequest hmac opt r id)) = Some h /\
    t = ticket_of (ticketFromRequest hmac opt r id) h /\
    t_Status t = StatusAdmitted /\ t_Pass t <> EmptyString /\ unix now < t_Exp t.

Lemma usable_spec t : usable t = true <-> t_Status t = StatusAdmitted /\ t_Pass t <> EmptyString.
Proof. unfold usable. rewrite andb_true_iff, negb_true_iff, bool_decide_eq_true, bool_decide_eq_false. done. Qed.

(** Claim C30.  A pass leaves the service only for an admitted ticket whose
    pass has not expired, in a queue that is not closed: the redirection of
    [goTo] carries the pass of the ticket to its own domain, or leads back to
    the waiting page when the queue is closed, and [passJSON] answers it. *)
Theorem pass_disclosed now r (s s' : St) resp :
  (goTo unmarshal_map hmac opt now r s = (inr resp, s') -> r_code resp < 400 ->
     exists id cfg t, room_at r s id cfg /\ may_pass r s now id t /\
       resp = if bool_decide (State cfg = StClosed)
              then Redirect ("/w/" +:+ ID_String id +:+ "?h=" +:+ QueryEscape (t_Dom t) +:+ "&closed=1")%string 302
              else add_header "Cache-Control" "no-store" (Redirect (goURL (t_Dom t) (t_Ret t) (t_Pass t)) 302)) /\
  (passJSON unmarshal_map hmac opt now r s = (inr resp, s') -> r_code resp < 400 ->
     exists id cfg t, room_at r s id cfg /\ may_pass r s now id t /\ State cfg <> StClosed /\
       r_body resp = BJson (JObj [("dom", JStr (t_Dom t)); ("exp", JInt (t_Exp t)); ("pass", JStr (t_Pass t));
                                  ("room", JStr (ID_String id))]%string)).
Proof.
  split; intros E Hcode; apply with_room_inv in E as [Hbad|(id & cfg & s1 & Hroom & Hk & _ & E)]; try lia;
    apply M_bind_inv in E as (o & s2 & E1 & E);
    (destruct o as [t|]; [|unfold mret, M_ret in E; injection E as <- _; by simpl in Hcode]);
    destruct (find_ticket_inv _ _ _ _ _ E1 t eq_refl) as (h & Hh & Ht & _); rewrite Hk in Hh;
    (destruct (usable t) eqn:Eu; cbn [negb] in E; [|unfold mret, M_ret in E; injection E as <- _; by simpl in Hcode]);
    apply usable_spec in Eu as [Hst Hpass];
    destruct (Z.leb_spec (t_Exp t) (unix now)) as [Hexp|Hexp]; cbn [orb] in E;
    try (unfold mret, M_ret in E; injection E as <- _; by simpl in Hcode).
  - exists id, cfg, t. split; [done|]. split; [by exists h|].
    case_bool_decide; unfold mret, M_ret in E; by injection E as <- _.
  - case_bool_decide; unfold mret, M_ret in E; injection E as <- _; [by simpl in Hcode|].
    exists id, cfg, t. split; [done|]. split; [by exists h|]. done.
Qed.

Lemma room_at_fun r (s : St) id cfg id' cfg' :
  room_at r s id cfg -> room_at r s id' cfg' -> id = id' /\ cfg = cfg'.
Proof.
  intros [H1 (h & H2 & H3)] [H1' (h' & H2' & H3')]. rewrite H1 in H1'. injection H1' as <-.
  rewrite H2 in H2'. apply (inj Some) in H2' as <-. rewrite H3 in H3'. by injection H3' as <-.
Qed.

Context (url_parse : string -> option Url) (decode_ticket : string -> ticketReq).
Context (siteverify : string -> string -> string -> option bool).
Context {SK : Type} (pem_decode : string -> option string) (parse_ec : string -> goerr + SK).
Context (sha256 : string -> string) (ecdsa_sign : Z -> SK -> string -> goerr + (Z * Z)).

Abbreviation take_ticket :=
  (ticket unmarshal_map hmac url_parse decode_ticket siteverify pem_decode parse_ec sha256 ecdsa_sign opt).

(** A closed queue gives nothing: no ticket is created, nothing is
    written, no cookie is set, and the answer is that the queue is closed,
    even to the holder of an admitted ticket. *)
Theorem ticket_closed rnd sub8 nonce mint_now now kid priv r (s s' : St) resp id cfg :
  take_ticket rnd sub8 nonce mint_now now kid priv r s = (inr resp, s') ->
  room_at r s id cfg -> State cfg = StClosed -> r_code resp < 400 ->
  keyspace s' = keyspace s /\ r_cookies resp = [] /\
  r_body resp = BJson (JObj [("opens_at", JInt (OpensAt cfg)); ("state", JStr "closed");
          ("theme", JMap (Theme cfg)); ("title", JStr (Title cfg))]%string).
Proof.
  intros E Hroom Hst Hcode. apply with_room_inv in E as [Hbad|(id' & cfg' & s1 & Hroom' & Hk & Hro & E)]; [lia|].
  destruct (room_at_fun _ _ _ _ _ _ Hroom Hroom') as [<- <-]. cbv zeta in E.
  destruct (negb (AllowsDomain _ _)); [unfold mret, M_ret in E; injection E as <- _; by simpl in Hcode|].
  rewrite Hst, (bool_decide_true (StClosed = StClosed)) in E by done.
  unfold mret, M_ret in E. injection E as <- <-. done.
Qed.

(** Nothing but the pending queue changes when a waiting ticket is shown. *)
Lemma statusOf_frame id cfg t now (s : St) r s' k :
  statusOf id cfg t now s = (r, s') -> k <> pending_key id -> k <> active_key id ->
  kv (keyspace s') !! k = kv (keyspace s) !! k.
Proof.
  intros E Hp Ha.
  assert (Ho : only (fun c => cmd_key c = None \/ cmd_key c = Some (pending_key id) \/ cmd_key c = Some (active_key id))
            (statusOf id cfg t now : M St _)).
  { assert (Hr : only (fun c => cmd_key c = None \/ cmd_key c = Some (pending_key id) \/ cmd_key c = Some (active_key id))
              (Rank id (t_ID t) : M St _)).
    { apply only_bind; [by apply only_mtry, only_do_as; left|].
      intros [[]|]; try apply only_fail; apply only_ret. }
    apply only_bind.
    { apply only_bind; [apply only_Exec; repeat (apply Forall_cons; split; [simpl; auto|]); by apply Forall_nil|].
      intros [|? [|[] [|[] [|[] [|? ?]]]]]; try apply only_fail. apply only_ret. }
    intros cnt. apply only_bind; [exact Hr|]. intros rank. destruct (rank <? 0); [|apply only_ret].
    destruct (fltb _ _); [|apply only_ret]. apply only_bind.
    - apply only_mtry. unfold Requeue. destruct (feqb _ _); [apply only_ret|]. apply only_exec.
      apply Forall_singleton. by right; left.
    - intros _. apply only_bind; [by apply only_mtry|]. intros r'. apply only_ret. }
  eapply only_frame; [exact Ho| |exact E]. intros c [-> | [-> | ->]]; congruence.
Qed.

(** A visitor who holds a waiting ticket is not let through by a
    queue that is open: the handler shows the ticket as waiting and gives it no
    pass, although the same request without the cookie would be admitted at
    once; and no tick admits it, since ticks admit in state [queue] only. *)
Theorem ticket_open_keeps_waiting rnd sub8 nonce mint_now now kid priv r (s s' : St) resp id cfg tid h :
  take_ticket rnd sub8 nonce mint_now now kid priv r s = (inr resp, s') ->
  room_at r s id cfg -> State cfg = StOpen -> r_code resp < 400 ->
  cookie_ticket hmac opt r id = Some tid ->
  get_hash (keyspace s) (ticket_key id tid) = Some h -> field h "status" = StatusWaiting ->
  (forall s1, roomOf unmarshal_map r s = (inr (inr (id, cfg)), s1) -> exists o s2, GetTicket id tid s1 = (inr o, s2)) ->
  (exists st, r_body resp = BJson (JObj [("state", JStr "waiting"); ("status", status_json st);
      ("theme", JMap (Theme cfg)); ("ticket", JStr tid); ("title", JStr (Title cfg))]%string)) /\
  get_hash (keyspace s') (ticket_key id tid) = Some h.
Proof.
  intros E Hroom Hst Hcode Hck Hh Hw Hans. apply with_room_inv in E as [Hbad|(id' & cfg' & s1 & Hroom' & Hk & Hro & E)]; [lia|].
  destruct (room_at_fun _ _ _ _ _ _ Hroom Hroom') as [<- <-]. cbv zeta in E.
  destruct (negb (AllowsDomain _ _)); [unfold mret, M_ret in E; injection E as <- _; by simpl in Hcode|].
  rewrite Hst, (bool_decide_false (StOpen = StClosed)) in E by done.
  destruct (Hans s1 Hro) as (o & s2 & Hg). apply GetTicket_inv in Hg as Hg'.
  destruct Hg' as (h' & Hh' & Hk2 & Ho). rewrite Hk, Hh in Hh'. apply (inj Some) in Hh' as <-.
  assert (Hsz : (size h =? 0)%nat = false).
  { apply Nat.eqb_neq. intros Hz. apply map_size_empty_inv in Hz. subst h. unfold field in Hw.
    by rewrite lookup_empty in Hw. }
  rewrite Hsz in Ho. subst o.
  assert (Hex : existing_ticket hmac opt r id now s1 = (inr (Some (ticket_of tid h)), s2)).
  { unfold existing_ticket. rewrite Hck. unfold mbind, M_bind, mtry. rewrite Hg. cbn [t_Status ticket_of].
    rewrite Hw, (bool_decide_true (StatusWaiting = StatusWaiting)) by done. done. }
  unfold mbind, M_bind in E. rewrite Hex in E. unfold respondTicket in E. cbn [t_Status ticket_of t_ID] in E.
  rewrite Hw, (bool_decide_false (StatusWaiting = StatusAdmitted)) in E by done.
  apply M_bind_inv in E as (st & s3 & E1 & E). unfold mret, M_ret in E. injection E as <- <-.
  split; [by eexists|]. apply mtry_inv in E1 as (x & [= <-] & E1).
  rewrite <- Hh, <- Hk, <- Hk2. eapply get_hash_kv, statusOf_frame; [exact E1|..].
  - by apply ticket_key_ne.
  - by apply ticket_key_ne.
Qed.

End Routes.

(** ** Witnesses *)

Definition toy_hmac (k m : string) : string := (k +:+ m)%string.
Definition demo_opt : Options := MkOptions "token" "secret" "" "".
Definition demo_decode (b : string) : ticketReq := MkTicketReq "shop.example.com" b "".
Definition demo_request (t : string) (cookies : gmap string string) : request :=
  MkRequest "acme.shop" t cookies ∅ "/panier".
Definition demo_ticket (rnd : string) (r : request) (s : mem) : (goerr + resp) * mem :=
  ticket dec_pairs toy_hmac demo_parse demo_decode (fun _ _ _ => Some true) toy_pem toy_ec toy_sha toy_sign demo_opt
    rnd "" 5 200 (200 * second) "k1" "PEM:key" r s.
Definition shop_in (st : string) (s : mem) : mem := (SetConfig enc_pairs acme (set_State st shop) s).2.
Definition shop_hash_in (st : string) : gmap string string :=
  default ∅ (get_hash (mem_db (shop_in st empty_mem)) (Key acme "cfg")).

Definition open_admitted : mem := (demo_ticket "abc" (demo_request "" ∅) (shop_in StOpen empty_mem)).2.
Definition go_resp : resp :=
  match (goTo dec_pairs toy_hmac demo_opt (300 * second) (demo_request (newID "abc") ∅) open_admitted).1 with
  | inr r => r | inl _ => MkResp 500 [] [] NoBody end.

Lemma pass_disclosed_witness :
  r_code go_resp = 302 /\
  exists id cfg t, room_at dec_pairs (demo_request (newID "abc") ∅) open_admitted id cfg /\
    may_pass toy_hmac demo_opt (demo_request (newID "abc") ∅) open_admitted (300 * second) id t.
Proof.
  split; [vm_compute; reflexivity|].
  destruct (proj1 (pass_disclosed dec_pairs toy_hmac demo_opt (300 * second) (demo_request (newID "abc") ∅)
    open_admitted (goTo dec_pairs toy_hmac demo_opt (300 * second) (demo_request (newID "abc") ∅) open_admitted).2 go_resp))
    as (id & cfg & t & H1 & H2 & _); [vm_compute; reflexivity|vm_compute; reflexivity|].
  exists id, cfg, t. split; [exact H1|exact H2].
Defined.

Definition closed_state : mem := shop_in StClosed empty_mem.
Definition closed_resp : resp :=
  match (demo_ticket "abc" (demo_request "" ∅) closed_state).1 with
  | inr r => r | inl _ => MkResp 500 [] [] NoBody end.

Lemma shop_at st s h :
  get_hash (mem_db s) (Key acme "cfg") = Some h -> FromHash dec_pairs h = (set_State st shop, true) ->
  room_at (St := mem) dec_pairs (demo_request "" ∅) s acme (set_State st shop).
Proof. intros H1 H2. split; [reflexivity|]. exists h. split; [exact H1|exact H2]. Defined.

Lemma ticket_closed_witness :
  r_code closed_resp = 200 /\ r_cookies closed_resp = [] /\
  keyspace (demo_ticket "abc" (demo_request "" ∅) closed_state).2 = keyspace closed_state.
Proof.
  split; [vm_compute; reflexivity|].
  destruct (ticket_closed dec_pairs toy_hmac demo_opt demo_parse demo_decode (fun _ _ _ => Some true) toy_pem toy_ec
    toy_sha toy_sign "abc" "" 5 200 (200 * second) "k1" "PEM:key" (demo_request "" ∅) closed_state
    (demo_ticket "abc" (demo_request "" ∅) closed_state).2 closed_resp acme (set_State StClosed shop)) as (H1 & H2 & _).
  - vm_compute. reflexivity.
  - apply (shop_at StClosed closed_state (shop_hash_in StClosed)); vm_compute; reflexivity.
  - reflexivity.
  - vm_compute. reflexivity.
  - split; [exact H2|exact H1].
Defined.

(** A visitor took a ticket in the queue, which then opens. *)
Definition cookie_of (tid : string) : gmap string string :=
  {[cookie_name acme := signTicket toy_hmac demo_opt acme tid]}.
Definition then_open : mem := shop_in StOpen (demo_ticket "abc" (demo_request "" ∅) (shop_in StQueue empty_mem)).2.
Definition back_request : request := demo_request "" (cookie_of (newID "abc")).
Definition back_resp : resp :=
  match (demo_ticket "new" back_request then_open).1 with inr r => r | inl _ => MkResp 500 [] [] NoBody end.
Definition back_hash : gmap string string := default ∅ (get_hash (mem_db then_open) (ticket_key acme (newID "abc"))).

Lemma ticket_open_keeps_waiting_witness :
  r_code back_resp = 200 /\
  get_hash (keyspace (demo_ticket "new" back_request then_open).2) (ticket_key acme (newID "abc")) = Some back_hash.
Proof.
  split; [vm_compute; reflexivity|].
  refine (proj2 (ticket_open_keeps_waiting dec_pairs toy_hmac demo_opt demo_parse demo_decode (fun _ _ _ => Some true)
    toy_pem toy_ec toy_sha toy_sign "new" "" 5 200 (200 * second) "k1" "PEM:key" back_request then_open
    (demo_ticket "new" back_request then_open).2 back_resp acme (set_State StOpen shop) (newID "abc") back_hash
    _ _ _ _ _ _ _ _)).
  - vm_compute. reflexivity.
  - split; [reflexivity|]. exists (default ∅ (get_hash (mem_db then_open) (Key acme "cfg"))).
    split; vm_compute; reflexivity.
  - reflexivity.
  - vm_compute. reflexivity.
  - vm_compute. reflexivity.
  - vm_compute. reflexivity.
  - vm_compute. reflexivity.
  - intros s1 Hro.
    assert (Hs : s1 = (roomOf dec_pairs back_request then_open).2) by (rewrite Hro; reflexivity).
    rewrite Hs. eexists _, _. vm_compute. reflexivity.
Defined.
