(* ===== verification/QueueRoutes.v ===== *)
(** * The whole API of the queue service

    [Register] of [queue/internal/api/api.go] and the routes [main] adds
    ([queue/cmd/flyc-queue/main.go]): the table of every route, and what answers a
    request.  A stream of events is served up to its opening; what follows is the
    hub's.  What is proved: whoever does not hold the internal token changes no
    configuration, takes nobody's place in a queue, announces nothing, and is
    admitted by none but an open queue. *)
From Stdlib Require Import Ascii.
From S2P Require Import Prelude GoStr F64 Redis Json Room Pass Store Hub Httpx Mux Keys QueueApi.

Local Open Scope list_scope.
Local Open Scope Z_scope.

(** What serving a request takes of the clock and of [crypto/rand]. *)
Record draws : Type := MkDraws {
  dr_now : Z; dr_mint_now : Z; dr_nonce : Z; dr_rnd : string; dr_sub8 : string
}.

Record incoming : Type := MkIncoming { in_method : string; in_path : string; in_request : request }.

(** [Request.SetPathValue] for the wildcard [room], which every pattern of the
    API has. *)
Definition with_value (p : pattern) (vs : list string) (r : request) : request :=
  MkRequest (default EmptyString ((list_to_map (zip (names (pt_path p)) vs) : gmap string string) !! "room"%string))
    (rq_t r) (rq_cookies r) (rq_headers r) (rq_body r).

Section Table.
Context {St : Type} `{RedisServer St}.
Context (marshal_map : gmap string string -> string) (unmarshal_map : string -> gmap string string).
Context (hmac : string -> string -> string) (url_parse : string -> option Url) (decode_ticket : string -> ticketReq).
Context (decode_room : Room.Config -> string -> goerr + (Room.Config * Z)).
Context (siteverify : string -> string -> string -> option bool).
Context {SK : Type} (pem_decode : string -> option string) (parse_ec : string -> goerr + SK).
Context (sha256 : string -> string) (ecdsa_sign : Z -> SK -> string -> goerr + (Z * Z)).
(** [Ping] and [ClusterInfo] of the Redis client, the metrics, the version, the
    address of a redirection as [URL.String] writes it. *)
Context (Ping : St -> option goerr) (ClusterInfo : St -> goerr + string) (metrics version : string).
Context (relocate : request -> string -> string).

(** What [main] gives to the API. *)
Definition options (getenv : string -> string) (internalToken : string) : Options :=
  MkOptions internalToken (sha256 ("flyc-ticket|" +:+ internalToken)%string)
    (getenv "FLYC_TURNSTILE_SECRET"%string) (getenv "FLYC_TURNSTILE_SITEKEY"%string).

Definition redisHealthy (s : St) : option goerr :=
  match Ping s with
  | Some e => Some (wrap "ping" e)
  | None =>
      match ClusterInfo s with
      | inl e => Some (wrap "cluster info" e)
      | inr info => if Contains info "cluster_state:ok" then None else Some (Err "cluster_state pas ok")
      end
  end.

Context (opt : Options) (kc : Client) (dr : draws).

Definition healthz : M St resp := fun s =>
  (inr (HealthHandler
     [("redis"%string, error_text <$> redisHealthy s);
      ("signing_key"%string, if Ready kc then None else Some "clé de signature pas encore chargée"%string)]), s).
Definition versionz : M St resp := mret (JSON 200 (JObj [("service", JStr "flyc-queue"); ("version", JStr version)]%string)).
Definition metricz : M St resp := mret (MkResp 200 [] [] (BText metrics)).

Abbreviation handler := (request -> M St resp).

(** [events], up to the opening of the stream. *)
Definition opening : handler := fun r => x ← events_open unmarshal_map hmac opt (dr_now dr) r; mret x.1.

(** [API.Register]. *)
Definition Register : list (string * handler) :=
  [("GET /q/{room}/config", config unmarshal_map opt);
   ("POST /q/{room}/ticket", ticket unmarshal_map hmac url_parse decode_ticket siteverify pem_decode parse_ec sha256 ecdsa_sign opt
      (dr_rnd dr) (dr_sub8 dr) (dr_nonce dr) (dr_mint_now dr) (dr_now dr) (Current kc).1 (Current kc).2);
   ("GET /q/{room}/status", status unmarshal_map hmac opt (dr_now dr));
   ("GET /q/{room}/events", opening);
   ("GET /q/{room}/go", goTo unmarshal_map hmac opt (dr_now dr));
   ("GET /q/{room}/pass", passJSON unmarshal_map hmac opt (dr_now dr));
   ("PUT /internal/rooms/{room}", auth opt (putRoom marshal_map decode_room));
   ("GET /internal/rooms/{room}", auth opt (getRoom unmarshal_map (dr_now dr)));
   ("POST /internal/rooms/{room}/flush", auth opt (flushRoom unmarshal_map (dr_now dr)))]%string.

(** The routes of [main]. *)
Definition table : list (pattern * handler) :=
  map (fun x => (parse_pattern x.1, x.2))
    ([("GET /healthz", fun _ => healthz); ("GET /version", fun _ => versionz); ("GET /metrics", fun _ => metricz)]%string ++ Register).

Definition serve (q : incoming) : M St resp :=
  match findHandler table (in_method q) (in_path q) with
  | Found p h vs => h (with_value p vs (in_request q))
  | Moved target => mret (Redirect (relocate (in_request q) target) 301)
  | NotAllowed methods => mret (add_header "Allow" (Join methods ", ")
      (http_Error "Method Not Allowed" 405))
  | Missing => mret NotFound
  end.

End Table.

(** ** What a request from outside may do *)

(** What becomes of a queue: nothing is announced; but for the queue itself, the
    passes in use, the counters, the waves and the new ticket, no key changes;
    nobody leaves the queue or changes place in it; queues are only added to the
    list of those that are watched; and the new ticket waits, unless the queue is
    open. *)
Record allowed (id : ID) (tid : string) (opened : bool) (d d' : db) : Prop := MkAllowed {
  al_chan : chan d' = chan d;
  al_frame k : k <> pending_key id -> k <> active_key id -> k <> Key id "stats" -> k <> RoomsKey ->
    k <> ticket_key id tid -> (forall n, k <> wave_key id n) -> kv d' !! k = kv d !! k;
  al_pending z : get_zset d (pending_key id) = Some z -> exists z', get_zset d' (pending_key id) = Some z' /\ z ⊆ z';
  al_waiting : opened = false -> (forall h, get_hash d (ticket_key id tid) = Some h -> field h "status" <> StatusAdmitted) ->
    forall h, get_hash d' (ticket_key id tid) = Some h -> field h "status" <> StatusAdmitted
}.

Section Allowed.
Context {St : Type} `{RedisServer St} {HL : RedisLaws St}.
Context (id : ID) (tid : string) (opened : bool).
Abbreviation allow := (allowed id tid opened).

#[export] Instance allowed_preorder : PreOrder allow.
Proof.
  split.
  - intros d. split; try done. intros z Hz. by exists z.
  - intros d1 d2 d3 [C1 F1 P1 W1] [C2 F2 P2 W2]. split.
    + congruence.
    + intros k *. intros. rewrite F2, F1; done.
    + intros z (z' & Hz & Hs)%P1. destruct (P2 z' Hz) as (z'' & Hz' & Hs'). exists z''. split; [done|]. by etrans.
    + exact (fun Ho Hw => W2 Ho (W1 Ho Hw)).
Qed.

(** The commands that do no more, wherever they occur. *)
Inductive meek : cmd -> Prop :=
| meek_read c : cmd_key c = None -> silent c = true -> meek c
| meek_active n : meek (ZRemUpTo (active_key id) n)
| meek_ticket fs : (opened = false -> Forall (fun f => f.1 = "status"%string -> f.2 = StatusWaiting) fs) -> meek (HSet (ticket_key id tid) fs)
| meek_wave n m : meek (SAdd (wave_key id n) m)
| meek_stats f n : meek (HIncrBy (Key id "stats") f n)
| meek_rooms m : meek (SAdd RoomsKey m).

Lemma meek_key c k : meek c -> cmd_key c = Some k ->
  k = active_key id \/ k = ticket_key id tid \/ (exists n, k = wave_key id n) \/ k = Key id "stats" \/ k = RoomsKey.
Proof. destruct 1; simpl; intros; simplify_eq; eauto 6; congruence. Qed.

Lemma field_hset fs (h : gmap string string) k :
  field (hset fs h) k = field h k \/ exists f, f ∈ fs /\ f.1 = k /\ field (hset fs h) k = f.2.
Proof.
  revert h. induction fs as [|[f v] fs IH]; intros h; [by left|]. change (hset ((f, v) :: fs) h) with (hset fs (<[f:=v]> h)).
  destruct (IH (<[f:=v]> h)) as [->|(x & Hx & Hk & ->)]; [|right; exists x; split_and!; [by right|done..]].
  destruct (decide (f = k)) as [->|Hf]; unfold field.
  - right. exists (k, v). rewrite lookup_insert_eq. split_and!; [by left|done..].
  - left. by rewrite lookup_insert_ne.
Qed.

Lemma meek_allowed c d r d' : meek c -> cmd_spec c d r d' -> allow d d'.
Proof.
  intros Hc Hs.
  assert (Hf : forall k, cmd_key c <> Some k -> kv d' !! k = kv d !! k) by (intros k; by eapply cmd_frame).
  assert (Hp : kv d' !! pending_key id = kv d !! pending_key id).
  { apply Hf. intros Hk. apply (meek_key c) in Hk as [Hk|[Hk|[(n & Hk)|[Hk|Hk]]]]; [..|done].
    - by apply Key_inj in Hk.
    - by apply Key_inj in Hk.
    - by apply Key_inj in Hk.
    - by apply Key_inj in Hk.
    - by apply Key_ne_rooms in Hk. }
  split.
  - eapply cmd_silent; [|exact Hs]. by destruct Hc.
  - intros k *. intros. apply Hf. intros Hk. apply (meek_key c) in Hk as [-> | [-> | [(n & ->) |[-> | ->]]]]; naive_solver.
  - intros z Hz. exists z. split; [|done]. unfold get_zset in *. by rewrite Hp.
  - intros Ho Hw h Hh. destruct (decide (cmd_key c = Some (ticket_key id tid))) as [Hk|Hk].
    2: { apply Hw. unfold get_hash in *. by rewrite <- Hf. }
    destruct Hc as [c Hc|n|fs Hfs|n m|f n|m]; cbn [cmd_key] in Hk; [congruence|..]; apply (inj Some) in Hk.
    + by apply Key_inj in Hk.
    + simpl in Hs. destruct (get_hash d (ticket_key id tid)) as [h0|] eqn:Hh0.
      2: { destruct Hs as [_ ->]. congruence. }
      destruct Hs as (n & -> & ->). unfold get_hash in Hh. simpl in Hh. rewrite lookup_insert_eq in Hh. injection Hh as <-.
      destruct (field_hset fs h0 "status") as [->|(x & Hx & Hxk & ->)]; [by apply Hw|].
      rewrite (proj1 (Forall_forall _ _) (Hfs Ho) x Hx Hxk). done.
    + by apply Key_inj in Hk.
    + by apply Key_inj in Hk.
    + by destruct (Key_ne_rooms _ _ (eq_sym Hk)).
Qed.

Definition safe {A} (m : M St A) : Prop := forall s r s', m s = (r, s') -> allow (keyspace s) (keyspace s').

Lemma safe_only {A} (m : M St A) : only meek m -> safe m.
Proof.
  intros Hm s r s' E. destruct (Hm s r s' E) as (cs & rs & Hf & Hp). clear E. induction Hp as [d|c cs d r1 d1 rs d2 Hc Hp IH]; [done|].
  apply Forall_cons in Hf as [Hm1 Hf]. etrans; [by eapply meek_allowed|by apply IH].
Qed.
Lemma safe_ret {A} (a : A) : safe (mret a : M St A).
Proof. apply safe_only, only_ret. Qed.
Lemma safe_bind {A B} (m : M St A) (f : A -> M St B) : safe m -> (forall a, safe (f a)) -> safe (m ≫= f).
Proof.
  intros Hm Hf s r s' E. unfold mbind, M_bind in E. destruct (m s) as [[e|a] s1] eqn:E1.
  - injection E as <- <-. by eapply Hm.
  - etrans; [by eapply Hm|by eapply Hf].
Qed.
Lemma safe_mtry {A} (m : M St A) : safe m -> safe (mtry m).
Proof. intros Hm s r s' (x & _ & E)%mtry_inv. by eapply Hm. Qed.

Lemma safe_reads {A} (m : M St A) : only (fun c => cmd_key c = None /\ silent c = true) m -> safe m.
Proof. intros Hm. apply safe_only. eapply only_mono; [|exact Hm]. intros c [??]. by constructor. Qed.

Lemma safe_Config um i : safe (Store.Config um i).
Proof. apply safe_reads, only_bind; [by apply only_do_as|]. intros h. apply only_ret. Qed.
Lemma safe_GetTicket i t : safe (GetTicket i t).
Proof. apply safe_reads, only_bind; [by apply only_do_as|]. intros h. apply only_ret. Qed.
Lemma safe_Rank i t : safe (Rank i t).
Proof. apply safe_reads, only_bind; [by apply only_mtry, only_do_as|]. intros [[]|]; try apply only_fail; apply only_ret. Qed.
Lemma safe_Counts now : safe (Counts id now).
Proof.
  apply safe_only. unfold Counts. apply only_bind.
  - apply only_Exec. repeat (apply Forall_cons; split); [apply meek_active|by apply meek_read..|by apply Forall_nil].
  - intros [|? [|[] [|[] [|[] [|? ?]]]]]; try apply only_fail. apply only_ret.
Qed.

Lemma safe_find_ticket i t : safe (find_ticket i t).
Proof. apply safe_bind; [apply safe_mtry, safe_GetTicket|]. intros o. apply safe_ret. Qed.

(** A ticket goes back to the queue only when it is not in it. *)
Lemma zrank_absent t z : zrank t z = None -> z !! t = None.
Proof.
  unfold zrank. intros Hf%fmap_None%list_find_None. destruct (z !! t) as [x|] eqn:Hx; [|done]. exfalso.
  apply (proj1 (Forall_forall _ _) Hf (t, x)); [|done]. unfold zsorted. rewrite merge_sort_Permutation.
  by apply elem_of_map_to_list.
Qed.

Lemma Rank_absent i t (s : St) k s' z : Rank i t s = (inr k, s') -> k < 0 ->
  get_zset (keyspace s) (pending_key i) = Some z -> keyspace s' = keyspace s /\ z !! t = None.
Proof.
  intros E Hk Hz. unfold Rank in E. apply M_bind_inv in E as (r & s1 & E1 & E). apply mtry_inv in E1 as (r' & [= <-] & E1).
  apply do_as_cases in E1 as [(rep & Hc & ->)|(m & ->)]; [|done]. simpl in Hc. rewrite Hz in Hc. injection Hc as -> Hd.
  destruct (zrank t z) as [n|] eqn:Hn; simpl in E; unfold mret, M_ret in E; injection E as <- <-; [lia|].
  split; [done|by apply zrank_absent].
Qed.

Lemma Requeue_allowed t (s : St) r s' :
  (forall z, get_zset (keyspace s) (pending_key id) = Some z -> z !! t_ID t = None) ->
  Requeue id t s = (r, s') -> allow (keyspace s) (keyspace s').
Proof.
  intros Habs E. unfold Requeue in E. destruct (feqb _ _); [unfold mret, M_ret in E; by injection E as <- <-|].
  destruct (only_exec (fun c => c = ZAdd (pending_key id) [(t_Score t, t_ID t)]) [ZAdd (pending_key id) [(t_Score t, t_ID t)]]
    ltac:(by apply Forall_singleton) s r s' E)
    as (cs & rs & Hf & Hp). clear E.
  assert (Hall : forall k, k <> pending_key id -> kv (keyspace s') !! k = kv (keyspace s) !! k).
  { intros k Hk. eapply pipe_frame; [exact Hp|]. eapply Forall_impl; [exact Hf|]. intros c ->. simpl. congruence. }
  split.
  - eapply pipe_silent; [exact Hp|]. eapply Forall_impl; [exact Hf|]. by intros c ->.
  - intros k Hk *. intros. by apply Hall.
  - intros z Hz. specialize (Habs z Hz). clear Hall.
    assert (Hgen : forall z0, get_zset (keyspace s) (pending_key id) = Some z0 -> z0 = z \/ z0 = <[t_ID t := t_Score t]> z ->
      exists z', get_zset (keyspace s') (pending_key id) = Some z' /\ z ⊆ z').
    2: { apply (Hgen z Hz). by left. }
    clear Hz. induction Hp as [d|c cs d r1 d1 rs d2 Hc Hp IH].
    + intros z0 Hz0 [->| ->]; eexists; (split; [exact Hz0|]); [done|by apply insert_subseteq].
    + intros z0 Hz0 Hor. apply Forall_cons in Hf as [-> Hf]. simpl in Hc. rewrite Hz0 in Hc. destruct Hc as (n & -> & ->).
      apply (IH Hf (zadd [(t_Score t, t_ID t)] z0)); [apply get_zset_put_zset|]. right. simpl.
      destruct Hor as [->| ->]; [done|]. by rewrite insert_insert_eq.
  - intros _ Hw h Hh. apply Hw. unfold get_hash in *. rewrite <- Hall; [done|]. intros Hk. by apply Key_inj in Hk.
Qed.

Lemma safe_statusOf cfg t now : safe (statusOf id cfg t now).
Proof.
  apply safe_bind; [apply safe_Counts|]. intros cnt s r s' E. unfold mbind at 1, M_bind in E.
  destruct (Rank id (t_ID t) s) as [[e|k] s1] eqn:E1; pose proof (safe_Rank id (t_ID t) s _ _ E1) as H1.
  { by injection E as <- <-. }
  etrans; [exact H1|]. destruct (Z.ltb_spec k 0) as [Hk|Hk]; [|unfold mret, M_ret in E; by injection E as <- <-].
  destruct (fltb _ _); [|unfold mret, M_ret in E; by injection E as <- <-].
  assert (Hreq : forall x s2, mtry (Requeue id t) s1 = (x, s2) -> allow (keyspace s1) (keyspace s2)).
  { intros x s2 (y & _ & Hr)%mtry_inv. eapply Requeue_allowed; [|exact Hr]. intros z Hz.
    assert (Hz0 : get_zset (keyspace s) (pending_key id) = Some z).
    { apply only_reads in E1 as Hkv; [|apply only_bind; [by apply only_mtry, only_do_as|]; intros [[]|]; try apply only_fail; apply only_ret].
      unfold get_zset in *. by rewrite <- Hkv. }
    by eapply Rank_absent. }
  unfold mbind at 1, M_bind in E. destruct (mtry (Requeue id t) s1) as [[e|x] s2] eqn:E2.
  - injection E as <- <-. by eapply Hreq.
  - etrans; [by eapply Hreq|]. eapply (safe_bind (mtry (Rank id (t_ID t)))); [apply safe_mtry, safe_Rank| |exact E].
    intros y. apply safe_ret.
Qed.

Lemma safe_respondTicket cfg t now : safe (respondTicket id cfg t now).
Proof.
  unfold respondTicket. case_bool_decide; [apply safe_ret|]. apply safe_bind; [apply safe_mtry, safe_statusOf|].
  intros st. apply safe_ret.
Qed.

End Allowed.

(** ** Requests from outside *)

Section Outside.
Context {St : Type} `{RedisServer St} {HL : RedisLaws St}.
Context (marshal_map : gmap string string -> string) (unmarshal_map : string -> gmap string string).
Context (hmac : string -> string -> string) (url_parse : string -> option Url) (decode_ticket : string -> ticketReq).
Context (decode_room : Room.Config -> string -> goerr + (Room.Config * Z)).
Context (siteverify : string -> string -> string -> option bool).
Context {SK : Type} (pem_decode : string -> option string) (parse_ec : string -> goerr + SK).
Context (sha256 : string -> string) (ecdsa_sign : Z -> SK -> string -> goerr + (Z * Z)).
Context (Ping : St -> option goerr) (ClusterInfo : St -> goerr + string) (metrics version : string).
Context (relocate : request -> string -> string).
Context (opt : Options) (kc : Client) (dr : draws).

Abbreviation fresh_id := (newID (dr_rnd dr)).
Abbreviation routes := (table marshal_map unmarshal_map hmac url_parse decode_ticket decode_room siteverify pem_decode parse_ec
  sha256 ecdsa_sign Ping ClusterInfo metrics version opt kc dr).
Abbreviation answer := (serve marshal_map unmarshal_map hmac url_parse decode_ticket decode_room siteverify pem_decode parse_ec
  sha256 ecdsa_sign Ping ClusterInfo metrics version relocate opt kc dr).

Definition opened (cfg : Room.Config) : bool := bool_decide (State cfg = StOpen).

Definition untouched (d d' : db) : Prop := kv d' = kv d /\ chan d' = chan d.

Lemma untouched_allowed id tid o d d' : untouched d d' -> allowed id tid o d d'.
Proof.
  intros [Hk Hc]. split; unfold get_zset, get_hash; rewrite ?Hk; try done. intros z Hz. by exists z.
Qed.

Lemma roomOf_cases r (s : St) x s' : roomOf unmarshal_map r s = (x, s') ->
  untouched (keyspace s) (keyspace s') /\ forall id cfg, x = inr (inr (id, cfg)) -> room_at unmarshal_map r s id cfg.
Proof.
  intros E. unfold roomOf in E. destruct (Parse (rq_room r)) as [e|id] eqn:Ep.
  { unfold mret, M_ret in E. injection E as <- <-. split; [done|discriminate]. }
  assert (Hr : only (fun c => cmd_key c = None /\ silent c = true) (Store.Config unmarshal_map id : M St _)).
  { apply only_bind; [by apply only_do_as|]. intros h. apply only_ret. }
  unfold mbind, M_bind in E. destruct (mtry _ s) as [[e|c] s1] eqn:E1; apply mtry_inv in E1 as (y & Hy & E1); [done|].
  injection Hy as <-. unfold mret, M_ret in E. injection E as <- <-. split.
  - split.
    + apply only_reads in E1; [done|]. eapply only_mono; [|exact Hr]. by intros c' [].
    + eapply only_silent; [exact Hr| |exact E1]. by intros c' [].
  - intros id' cfg Hc. destruct c as [e|[cfg' []]]; simplify_eq. split; [done|].
    apply M_bind_inv in E1 as (h & s2 & (Hh & _)%GetHash_inv & E2). unfold mret, M_ret in E2. injection E2 as E2 _. eauto.
Qed.

(** What a handler does for the queue the request names, or nothing. *)
Definition polite (r : request) {A} (m : M St A) : Prop := forall s x s', m s = (x, s') ->
  untouched (keyspace s) (keyspace s') \/
  exists id cfg, room_at unmarshal_map r s id cfg /\ allowed id fresh_id (opened cfg) (keyspace s) (keyspace s').

Lemma polite_still r {A} (m : M St A) : (forall s, (m s).2 = s) -> polite r m.
Proof. intros Hm s x s' E. left. specialize (Hm s). rewrite E in Hm. simpl in Hm. by subst. Qed.

Lemma polite_roomOf r {A} (f : resp + (ID * Room.Config) -> M St A) :
  (forall e s, (f (inl e) s).2 = s) -> (forall id cfg, safe id fresh_id (opened cfg) (f (inr (id, cfg)))) ->
  polite r (roomOf unmarshal_map r ≫= f).
Proof.
  intros He Hf s x s' E. unfold mbind, M_bind in E. destruct (roomOf unmarshal_map r s) as [[e|y] s1] eqn:E1.
  { injection E as <- <-. left. by apply roomOf_cases in E1 as [? _]. }
  apply roomOf_cases in E1 as [Hu Hr]. destruct y as [e|[id cfg]].
  - left. specialize (He e s1). rewrite E in He. simpl in He. by subst.
  - right. exists id, cfg. split; [by apply Hr|]. etrans; [by apply untouched_allowed|by eapply Hf].
Qed.

Lemma polite_with_room r (k : ID -> Room.Config -> M St resp) :
  (forall id cfg, safe id fresh_id (opened cfg) (k id cfg)) -> polite r (with_room unmarshal_map r k).
Proof. intros Hk. unfold with_room. by apply polite_roomOf. Qed.

Lemma polite_map r {A B} (m : M St A) (g : A -> B) : polite r m -> polite r (x ← m; mret (g x)).
Proof.
  intros Hm s x s' E. unfold mbind, M_bind in E. destruct (m s) as [[e|a] s1] eqn:E1; [injection E as <- <-; by eapply Hm|].
  unfold mret, M_ret in E. injection E as <- <-. by eapply Hm.
Qed.

Lemma polite_config r : polite r (config unmarshal_map opt r).
Proof. apply polite_with_room. intros id cfg. apply safe_ret. Qed.

Lemma safe_existing r id tid o now : safe id tid o (existing_ticket hmac opt r id now : M St _).
Proof.
  unfold existing_ticket. destruct (cookie_ticket _ _ _ _); [|apply safe_ret].
  apply safe_bind; [apply safe_mtry, safe_GetTicket|]. intros x. apply safe_ret.
Qed.

Lemma safe_AdmitDirect id dom ret tok exp now : safe id fresh_id true (AdmitDirect (dr_rnd dr) id dom ret tok exp now : M St _).
Proof.
  apply safe_only, only_bind; [|intros []; apply only_ret]. apply only_exec.
  repeat (apply Forall_cons; split); [by apply meek_ticket|by apply meek_read|apply meek_stats..|by apply Forall_nil].
Qed.

Lemma safe_CreateTicket id o cfg dom ret now : safe id fresh_id o (CreateTicket (dr_rnd dr) id cfg dom ret now : M St _).
Proof.
  apply safe_only, only_bind; [|intros []; apply only_ret]. apply only_exec.
  repeat (apply Forall_cons; split);
    [apply meek_ticket; intros _; by repeat constructor|by apply meek_read|apply meek_wave|by apply meek_read
    |apply meek_stats|apply meek_rooms|by apply Forall_nil].
Qed.

Lemma polite_ticket r : polite r (ticket unmarshal_map hmac url_parse decode_ticket siteverify pem_decode parse_ec sha256 ecdsa_sign opt
  (dr_rnd dr) (dr_sub8 dr) (dr_nonce dr) (dr_mint_now dr) (dr_now dr) (Current kc).1 (Current kc).2 r).
Proof.
  apply polite_with_room. intros id cfg. cbv zeta. destruct (negb _); [apply safe_ret|].
  case_bool_decide; [apply safe_ret|]. apply safe_bind; [apply safe_existing|]. intros [t|]; [apply safe_respondTicket|].
  destruct (_ && _ && _); [apply safe_ret|]. destruct (decide (State cfg = StOpen)) as [Ho|Ho];
    [rewrite (bool_decide_true _ Ho)|rewrite (bool_decide_false _ Ho)].
  - case_bool_decide; [apply safe_ret|]. destruct (Mint _ _ _ _ _ _ _ _ _ _); [apply safe_ret|].
    unfold opened. rewrite (bool_decide_true _ Ho). apply safe_bind; [apply safe_mtry, safe_AdmitDirect|]. intros [e|t]; apply safe_ret.
  - apply safe_bind; [apply safe_mtry, safe_CreateTicket|]. intros [e|t]; [apply safe_ret|].
    apply safe_bind; [apply safe_respondTicket|]. intros x. apply safe_ret.
Qed.

Lemma polite_status r : polite r (status unmarshal_map hmac opt (dr_now dr) r).
Proof.
  apply polite_with_room. intros id cfg. apply safe_bind; [apply safe_find_ticket|]. intros [t|]; [|apply safe_ret].
  case_bool_decide; [apply safe_ret|]. case_bool_decide; [apply safe_ret|].
  apply safe_bind; [apply safe_mtry, safe_statusOf|]. intros x. apply safe_ret.
Qed.

Lemma polite_opening r : polite r (opening unmarshal_map hmac opt dr r).
Proof.
  apply polite_map. unfold events_open. apply polite_roomOf; [done|]. intros id cfg.
  destruct (negb _); [apply safe_ret|]. apply safe_bind; [apply safe_find_ticket|]. intros [t|]; [|apply safe_ret].
  cbv zeta. case_bool_decide; [apply safe_ret|]. case_bool_decide; [apply safe_ret|].
  apply safe_bind; [apply safe_mtry, safe_statusOf|]. intros x. apply safe_ret.
Qed.

Lemma polite_goTo r : polite r (goTo unmarshal_map hmac opt (dr_now dr) r).
Proof.
  apply polite_with_room. intros id cfg. apply safe_bind; [apply safe_find_ticket|]. intros [t|]; [|apply safe_ret].
  destruct (negb _); [apply safe_ret|]. destruct (_ <=? _); [apply safe_ret|]. case_bool_decide; apply safe_ret.
Qed.

Lemma polite_passJSON r : polite r (passJSON unmarshal_map hmac opt (dr_now dr) r).
Proof.
  apply polite_with_room. intros id cfg. apply safe_bind; [apply safe_find_ticket|]. intros [t|]; [|apply safe_ret].
  destruct (negb _); [apply safe_ret|]. destruct (_ || _); apply safe_ret.
Qed.

(** The request bears the internal token. *)
Definition insider (r : request) : Prop :=
  InternalToken opt <> EmptyString /\ header r "Authorization" = ("Bearer " +:+ InternalToken opt)%string.

Lemma auth_outsider (h : request -> M St resp) r : ~ insider r ->
  auth opt h r = mret (Error 401 "unauthorized" "jeton interne invalide").
Proof.
  intros Hn. unfold auth. case_bool_decide as Ht; [done|]. case_bool_decide as Ha; [|done]. by destruct Hn.
Qed.

Lemma table_polite p h r : (p, h) ∈ routes -> ~ insider r -> polite r (h r).
Proof.
  intros Hin Hn.
  assert (Hall : Forall (fun x => polite r (x.2 r)) routes).
  { unfold table, Register. cbn [map app]. repeat apply Forall_cons_2; cbn [snd];
      rewrite ?auth_outsider by done; try by apply polite_still.
    - apply polite_config.
    - apply polite_ticket.
    - apply polite_status.
    - apply polite_opening.
    - apply polite_goTo.
    - apply polite_passJSON.
    - by apply Forall_nil_2. }
  exact (proj1 (Forall_forall _ _) Hall (p, h) Hin).
Qed.

(** Claim C6: whoever does not hold the internal token does no harm, whatever the
    request and whatever fails: no configuration changes, nor the lock of an
    admitter or its last wave; nothing is announced; nobody leaves a queue or
    changes place in it; every ticket stays as it is; and the ticket that is made
    is not admitted when the queue is not open. *)
Theorem outsider_harmless q (s : St) x s' id :
  ~ insider (in_request q) -> answer q s = (x, s') -> valid_ID id ->
  chan (keyspace s') = chan (keyspace s) /\
  (forall k, k ∈ ["cfg"; "lock"; "lastwave"]%string -> kv (keyspace s') !! Key id k = kv (keyspace s) !! Key id k) /\
  (forall z, get_zset (keyspace s) (pending_key id) = Some z -> exists z', get_zset (keyspace s') (pending_key id) = Some z' /\ z ⊆ z') /\
  (forall tid, tid <> fresh_id -> kv (keyspace s') !! ticket_key id tid = kv (keyspace s) !! ticket_key id tid) /\
  (get_hash (keyspace s) (ticket_key id fresh_id) = Some ∅ ->
   (forall h cfg, get_hash (keyspace s) (Key id "cfg") = Some h -> FromHash unmarshal_map h = (cfg, true) -> State cfg <> StOpen) ->
   forall h, get_hash (keyspace s') (ticket_key id fresh_id) = Some h -> field h "status" <> StatusAdmitted).
Proof.
  intros Hn E Hv.
  assert (Hp : untouched (keyspace s) (keyspace s') \/ exists id' cfg r, rq_room r = ID_String id' /\ valid_ID id' /\
    room_at unmarshal_map r s id' cfg /\ allowed id' fresh_id (opened cfg) (keyspace s) (keyspace s')).
  { unfold serve in E. destruct (findHandler _ _ _) as [p h vs|target|ms|] eqn:Hf;
      try (unfold mret, M_ret in E; injection E as <- <-; left; by split).
    apply findHandler_sound in Hf as [Hin _]. apply table_polite with (r := with_value p vs (in_request q)) in Hin; [|done].
    destruct (Hin s x s' E) as [Hu|(id' & cfg & Hr & Ha)]; [by left|]. right. exists id', cfg, (with_value p vs (in_request q)).
    destruct (Parse_inv _ _ (proj1 Hr)) as (? & ? & ?). done. }
  destruct Hp as [[Hk Hc]|(id' & cfg & r & Hr & Hv' & Hroom & [Hc Hk Hz Hw])].
  { split_and!; [done|by intros k _; rewrite Hk| |by intros tid _; rewrite Hk|].
    - intros z. unfold get_zset. rewrite Hk. intros Hz. by exists z.
    - unfold get_hash. rewrite Hk. intros Hh _ h Hh'. rewrite Hh in Hh'. by injection Hh' as <-. }
  assert (Hother : forall k, id' <> id -> kv (keyspace s') !! Key id k = kv (keyspace s) !! Key id k).
  { intros k Hne. apply Hk; try (intros Heq; by apply Key_inj_ID in Heq as [? _]); [apply Key_ne_rooms|].
    intros n Heq. by apply Key_inj_ID in Heq as [? _]. }
  destruct (decide (id' = id)) as [->|Hne].
  - split_and!; [done| |exact Hz| |].
    + intros k Hin. apply Hk; try (intros Heq; apply Key_inj in Heq; set_solver); [apply Key_ne_rooms|].
      intros n Heq. apply Key_inj in Heq. set_solver.
    + intros tid Ht. apply Hk; try (by intros Heq; apply Key_inj in Heq); [apply Key_ne_rooms| |intros n; apply ticket_wave_ne].
      intros Heq. by apply ticket_key_inj in Heq.
    + intros Hnew Hst. apply Hw.
      * destruct Hroom as (_ & h & Hh & Hcfg). apply bool_decide_eq_false. by eapply Hst.
      * intros h. rewrite Hnew. by intros [= <-].
  - split_and!; [done|by intros; apply Hother| |by intros; apply Hother|].
    + intros z. unfold get_zset. rewrite Hother by done. intros Hz'. by exists z.
    + unfold get_hash. unfold ticket_key. rewrite Hother by done. intros Hnew _ h Hh. rewrite Hnew in Hh. by injection Hh as <-.
Qed.

(** No route hides another, and [net/http] accepts the table: a clean path that
    matches a pattern, asked with its method, is answered by that route. *)
Lemma queue_reachable p h path vs q : (p, h) ∈ routes -> in_method q = pt_method p -> in_path q = path -> cleanPath path = path ->
  match_one (pt_path p) (elements path) = Some vs ->
  compatible_all routes.*1 = true /\ answer q = h (with_value p vs (in_request q)).
Proof.
  intros Hin Hmeth <- Hclean Hm.
  assert (Hc : compatible_all routes.*1 = true) by (vm_compute; reflexivity). split; [exact Hc|]. clear Hc.
  assert (Hall : forallb (fun p => negb (bool_decide (last (pt_path p) = Some Rest)) && foremost p routes.*1
    && negb (bool_decide (pt_method p = "CONNECT"%string))) routes.*1 = true) by (vm_compute; reflexivity).
  assert (Hnd : NoDup routes.*1) by (apply (bool_decide_unpack _); vm_compute; exact I).
  assert (Hp : List.In p routes.*1) by (apply list_elem_of_In, list_elem_of_fmap; exists (p, h); split; [reflexivity|exact Hin]).
  apply (proj1 (forallb_forall _ _) Hall) in Hp as [[Hl Hfor]%andb_true_iff Hcon]%andb_true_iff.
  rewrite negb_true_iff, bool_decide_eq_false in Hl, Hcon.
  unfold serve. by rewrite Hmeth, (findHandler_foremost routes p h (in_path q) vs).
Qed.

(** The health check of the container tells the truth: its exit code is 0 exactly
    when Redis answers, its cluster is sound and the signing key is there. *)
Lemma healthcheck_told (get : string -> goerr + Z) r (s : St) x s' :
  answer (MkIncoming "GET" "/healthz" r) s = (inr x, s') -> get "http://127.0.0.1:8080/healthz"%string = inr (r_code x) ->
  exists code, Healthcheck get ":8080" = Some code /\
    (code = 0 <-> Ping s = None /\ (exists info, ClusterInfo s = inr info /\ Contains info "cluster_state:ok" = true) /\ kid kc <> EmptyString).
Proof.
  intros E Hget. unfold Healthcheck. cbn [Ascii.eqb Bool.eqb]. change ("http://" +:+ ("127.0.0.1" +:+ ":8080") +:+ "/healthz")%string
    with "http://127.0.0.1:8080/healthz"%string. rewrite Hget. eexists. split; [done|].
  change (healthz Ping ClusterInfo kc s = (inr x, s')) in E. unfold healthz, HealthHandler, JSON in E. injection E as <- _. cbn [forallb r_code snd].
  unfold redisHealthy, Ready. destruct (Ping s) as [e|]; [by cbn; split; [|intros [? _]]|].
  destruct (ClusterInfo s) as [e|info]; [by cbn; split; [|intros (_ & (? & ? & _) & _)]|].
  destruct (Contains info _) eqn:Hi; [|cbn; split; [done|]; intros (_ & (i & [= <-] & Hc) & _); congruence].
  cbn. case_bool_decide as Hk; cbn; [by split; [|intros (_ & _ & [])]|]. split; [|done]. intros _. by split_and!; [|exists info|].
Qed.

End Outside.

(** ** Examples *)

Module QueueDemo.

Definition demo_draws : draws := MkDraws (100 * second) (100 * second) 7 "abc" "12345678".
Abbreviation demo_serve := (serve (St := mem) enc_pairs dec_pairs toy_hmac demo_parse demo_decode (fun c _ => inr (c, 0)) (fun _ _ _ => Some true)
  toy_pem toy_ec toy_sha toy_sign (fun _ => None) (fun _ => inr "cluster_state:ok"%string) EmptyString "1.0" (fun _ s => s)
  demo_opt (MkClient "k1" "PEM:key" "public") demo_draws).

(** A visitor without a ticket, a queue that holds visitors back. *)
Definition takes_ticket : incoming := MkIncoming "POST" "/q/acme.shop/ticket" (demo_request "" ∅).
Definition opens_queue : incoming := MkIncoming "PUT" "/internal/rooms/acme.shop" (demo_request "" ∅).
Definition code_of (x : goerr + resp) : Z := match x with inr r => r_code r | inl _ => 0 end.

Definition status_at (tid : string) (s : mem) : option string := (fun h => field h "status") <$> get_hash (keyspace s) (ticket_key acme tid).

Lemma queue_held h cfg : get_hash (keyspace (shop_in StQueue empty_mem)) (Key acme "cfg") = Some h -> FromHash dec_pairs h = (cfg, true) ->
  State cfg <> StOpen.
Proof.
  assert (E : (fun h => State (FromHash dec_pairs h).1) <$> get_hash (keyspace (shop_in StQueue empty_mem)) (Key acme "cfg") = Some StQueue)
    by (vm_compute; reflexivity).
  intros Hh Hc. rewrite Hh in E. cbn [fmap option_fmap option_map] in E. rewrite Hc in E. injection E as ->. discriminate.
Qed.

Lemma outsider_harmless_witness :
  let s := shop_in StQueue empty_mem in
  code_of (demo_serve opens_queue s).1 = 401 /\ code_of (demo_serve takes_ticket s).1 = 200 /\
  status_at (newID "abc") (demo_serve takes_ticket s).2 = Some StatusWaiting /\
  status_at (newID "abc") (demo_serve takes_ticket (shop_in StOpen empty_mem)).2 = Some StatusAdmitted /\
  kv (keyspace (demo_serve takes_ticket s).2) !! Key acme "cfg" = kv (keyspace s) !! Key acme "cfg" /\
  (forall h, get_hash (keyspace (demo_serve takes_ticket s).2) (ticket_key acme (newID "abc")) = Some h -> field h "status" <> StatusAdmitted).
Proof.
  cbv zeta. do 4 (split; [vm_compute; reflexivity|]).
  destruct (outsider_harmless (St := mem) enc_pairs dec_pairs toy_hmac demo_parse demo_decode (fun c _ => inr (c, 0)) (fun _ _ _ => Some true)
    toy_pem toy_ec toy_sha toy_sign (fun _ => None) (fun _ => inr "cluster_state:ok"%string) EmptyString "1.0" (fun _ s => s)
    demo_opt (MkClient "k1" "PEM:key" "public") demo_draws takes_ticket (shop_in StQueue empty_mem)
    (demo_serve takes_ticket (shop_in StQueue empty_mem)).1 (demo_serve takes_ticket (shop_in StQueue empty_mem)).2 acme)
    as (_ & Hcfg & _ & _ & Hst).
  - intros [_ Ha]. vm_compute in Ha. discriminate Ha.
  - apply surjective_pairing.
  - split; reflexivity.
  - split; [apply Hcfg; left|]. apply Hst; [vm_compute; reflexivity|exact queue_held].
Defined.

End QueueDemo.
