(* ===== verification/Pg.v ===== *)
(** * The control plane's database

    The tables of [control/internal/db/migrations], one record per row, and
    the four ways the source uses [pgxpool]: [Query], [QueryRow], [Exec] and
    statements that return a row.  PostgreSQL is not part of the repository;
    what is modelled of it is its documented contract.  A statement is the
    Rocq function that says what its SQL text means, applied atomically to the
    database.  A schedule, over which the theorems quantify, says what the
    other sessions do before each statement and how the statement fares: it may
    be refused, be executed and its answer lost, stop after some rows, or give
    a row that cannot be scanned. *)
From S2P Require Import Prelude GoStr F64 Json.

Local Open Scope list_scope.
Local Open Scope Z_scope.

(** ** Tables *)

Record tenant_row : Type := MkTenant { t_id : string; t_slug : string; t_name : string; t_created : Z }.

Record domain_row : Type := MkDomain {
  d_id : string; d_tenant : string; d_fqdn : string; d_mode : string; d_tls : string; d_created : Z
}.

Record backend_row : Type := MkBackendRow {
  b_id : string; b_tenant : string; b_name : string; b_balance : string; b_check_path : string
}.

Record server_row : Type := MkServerRow {
  sv_backend : string; sv_name : string; sv_address : string;
  sv_port : Z; sv_weight : Z; sv_maxconn : Z
}.

(** [r_theme] is [None] for a [jsonb] that is not an object of strings. *)
Record room_row : Type := MkRoom {
  r_id : string; r_tenant : string; r_slug : string; r_title : string;
  r_domain : option string; r_backend : option string;
  r_state : string; r_effective : string;
  r_rate : f64; r_max_active : Z; r_wave_s : Z; r_pass_ttl_s : Z;
  r_opens_at : option Z; r_theme : gmap string string;
  r_auto_on : Z; r_auto_off : Z; r_updated : Z
}.

Record cert_row : Type := MkCert {
  c_domain : string; c_fqdn : string; c_status : string;
  c_pem_enc : option string; c_not_after : option Z;
  c_issuer : option string; c_not_before : option Z; c_error : option string; c_attempt : option Z
}.

Record key_row : Type := MkKey {
  k_kid : string; k_public : string; k_active : bool; k_created : Z; k_retired : option Z; k_private : string
}.

(** [inventory.Node]: the row as it is. *)
Record Node : Type := MkNode {
  Name : string; Roles : list string; MgmtIP : string; MgmtIP6 : string;
  NState : string; Note : string; EnrolledAt : option Z
}.

Record Neighbor : Type := MkNeighbor { IP : string; RemoteAS : Z; Family : string }.

(** A value of [map[string]any]; [AOther] is an array or an object. *)
Inductive any : Type :=
| AString (s : string)
| ABool (b : bool)
| AFloat (x : f64)
| AInt (z : Z)
| ANil
| AOther (v : json).

Record Settings : Type := MkSettings {
  SEnv : string; AnsibleUser : string; WaitHost : string; ControlHost : string;
  VIPAppV4 : string; VIPAppV6 : string; VIPWaitV4 : string; VIPWaitV6 : string;
  VIPGatewayV4 : string; VIPGatewayV6 : string;
  BGPEnabled : bool; BGPLocalAS : Z; BGPNeighbors : list Neighbor;
  ACMEEmail : string; ACMEDirectory : string; ControlPublicURL : string;
  CookieSecure : bool; ImageTag : string; Registry : string;
  QueuePort : Z; ControlPort : Z; DataplanePort : Z;
  ManageFirewall : bool; DeployFrom : string; RegistryCA : string;
  ExtraVars : list (string * any); SeededFromEnv : bool
}.

Record edge_row : Type := MkEdgeRow {
  e_name : string; e_url : string; e_config_hash : option string; e_desired_hash : option string;
  e_status : option string; e_error : option string; e_pushed : option Z
}.

Record queue_row : Type := MkQueueRow {
  q_name : string; q_address : string; q_port : Z; q_error : option string; q_seen : option Z
}.

(** [jobs.Request], kept in the [request] column of [jobs]. *)
Record Request : Type := MkRequest {
  RKind : string; Playbook : string; Argv : list string; Limit : string; Tags : string;
  Check_ : bool; ExtraVars_ : list (string * any); Inventory : string
}.

(** [jobs.Job]; [j_request] is [None] when the column does not decode. *)
Record job_row : Type := MkJob {
  j_id : string; j_kind : string; j_status : string; j_exit_code : option Z; j_detail : string;
  j_created_by : string; j_created : Z; j_started : option Z; j_finished : option Z;
  j_request : option Request
}.

Record audit_row : Type := MkAudit { a_tenant : option string; a_action : string; a_diff : string }.

(** Accounts: [u_hash] is the password's hash, [u_totp] the encrypted secret. *)
Record user_row : Type := MkUser {
  u_id : string; u_email : string; u_hash : option string; u_subject : option string;
  u_totp : option string; u_totp_on : bool; u_admin : bool; u_must_change : bool;
  u_display : string; u_created : Z; u_login : option Z
}.

Record member_row : Type := MkMember { m_tenant : string; m_user : string; m_role : string }.

(** A key without tenant is a key of the platform. *)
Record apikey_row : Type := MkApiKey {
  ak_id : string; ak_tenant : option string; ak_name : string; ak_hash : string;
  ak_created : Z; ak_used : option Z
}.

Record session_row : Type := MkSession {
  ss_id : string; ss_user : string; ss_expires : Z; ss_ip : string; ss_agent : string
}.

Record oidc_row : Type := MkOidc { oi_state : string; oi_nonce : string; oi_redirect : string; oi_created : Z }.

Record accounts : Type := MkAccounts {
  users : list user_row; memberships : list member_row; api_keys : list apikey_row;
  sessions : list session_row; oidc_states : list oidc_row
}.

Definition no_accounts : accounts := MkAccounts [] [] [] [] [].

(** Enrolment: [et_hash] is the hash of the token. *)
Record enroll_row : Type := MkEnroll {
  et_id : string; et_hash : string; et_roles : list string; et_by : string; et_created : Z; et_expires : Z;
  et_used : option Z; et_hostname : string; et_ip : string; et_ip6 : string
}.

(** ACME: the account of a directory, whose registration is a JSON value, and
    the challenges to answer. *)
Record acme_row : Type := MkAcme { am_directory : string; am_email : string; am_key : string; am_registration : string }.
Record challenge_row : Type := MkChallenge { ch_token : string; ch_auth : string; ch_fqdn : string }.

Record extras : Type := MkExtras {
  enroll_tokens : list enroll_row; acme_accounts : list acme_row; acme_challenges : list challenge_row
}.

Definition no_extras : extras := MkExtras [] [] [].

Record cdb : Type := MkCdb {
  tenants : list tenant_row; domains : list domain_row;
  backends : list backend_row; servers : list server_row; rooms : list room_row;
  certificates : list cert_row; signing_keys : list key_row;
  nodes : list Node; settings : Settings;
  edges : list edge_row; queue_hosts : list queue_row; jobs : list job_row;
  audit_log : list audit_row; version : Z; clock : Z; accounts_ : accounts; extras_ : extras
}.

(** The row [0006_inventory.sql] inserts, with the host names of an example. *)
Definition default_settings : Settings :=
  MkSettings "prod" "flyc-deploy" "wait.example" "control.example" EmptyString EmptyString EmptyString EmptyString
    EmptyString EmptyString true 0 [] EmptyString EmptyString EmptyString true "latest" "ghcr.io/flyc-io"
    8080 8090 5555 true EmptyString EmptyString [] false.

(** ** Writes: one table at a time; a write to the tables that carry the
    triggers of [0002_m3.sql] increments [config_version]. *)

Definition set_rooms (l : list room_row) (d : cdb) : cdb :=
  MkCdb (tenants d) (domains d) (backends d) (servers d) l (certificates d) (signing_keys d)
    (nodes d) (settings d) (edges d) (queue_hosts d) (jobs d) (audit_log d) (version d + 1) (clock d) (accounts_ d) (extras_ d).

Definition set_nodes (l : list Node) (d : cdb) : cdb :=
  MkCdb (tenants d) (domains d) (backends d) (servers d) (rooms d) (certificates d) (signing_keys d)
    l (settings d) (edges d) (queue_hosts d) (jobs d) (audit_log d) (version d) (clock d) (accounts_ d) (extras_ d).

Definition set_settings (s : Settings) (d : cdb) : cdb :=
  MkCdb (tenants d) (domains d) (backends d) (servers d) (rooms d) (certificates d) (signing_keys d)
    (nodes d) s (edges d) (queue_hosts d) (jobs d) (audit_log d) (version d) (clock d) (accounts_ d) (extras_ d).

Definition set_edges (l : list edge_row) (d : cdb) : cdb :=
  MkCdb (tenants d) (domains d) (backends d) (servers d) (rooms d) (certificates d) (signing_keys d)
    (nodes d) (settings d) l (queue_hosts d) (jobs d) (audit_log d) (version d) (clock d) (accounts_ d) (extras_ d).

Definition set_queue_hosts (l : list queue_row) (d : cdb) : cdb :=
  MkCdb (tenants d) (domains d) (backends d) (servers d) (rooms d) (certificates d) (signing_keys d)
    (nodes d) (settings d) (edges d) l (jobs d) (audit_log d) (version d) (clock d) (accounts_ d) (extras_ d).

Definition set_jobs (l : list job_row) (d : cdb) : cdb :=
  MkCdb (tenants d) (domains d) (backends d) (servers d) (rooms d) (certificates d) (signing_keys d)
    (nodes d) (settings d) (edges d) (queue_hosts d) l (audit_log d) (version d) (clock d) (accounts_ d) (extras_ d).

Definition add_audit (a : audit_row) (d : cdb) : cdb :=
  MkCdb (tenants d) (domains d) (backends d) (servers d) (rooms d) (certificates d) (signing_keys d)
    (nodes d) (settings d) (edges d) (queue_hosts d) (jobs d) (audit_log d ++ [a]) (version d) (clock d) (accounts_ d) (extras_ d).

Definition set_accounts (a : accounts) (d : cdb) : cdb :=
  MkCdb (tenants d) (domains d) (backends d) (servers d) (rooms d) (certificates d) (signing_keys d)
    (nodes d) (settings d) (edges d) (queue_hosts d) (jobs d) (audit_log d) (version d) (clock d) a (extras_ d).

Definition set_extras (x : extras) (d : cdb) : cdb :=
  MkCdb (tenants d) (domains d) (backends d) (servers d) (rooms d) (certificates d) (signing_keys d)
    (nodes d) (settings d) (edges d) (queue_hosts d) (jobs d) (audit_log d) (version d) (clock d) (accounts_ d) x.

Definition set_signing_keys (l : list key_row) (d : cdb) : cdb :=
  MkCdb (tenants d) (domains d) (backends d) (servers d) (rooms d) (certificates d) l
    (nodes d) (settings d) (edges d) (queue_hosts d) (jobs d) (audit_log d) (version d) (clock d) (accounts_ d) (extras_ d).

(** The tables with triggers, together, when [n] statement triggers fire. *)
Definition set_sites (n : Z) (dm : list domain_row) (bk : list backend_row) (sv : list server_row) (rm : list room_row)
    (ct : list cert_row) (d : cdb) : cdb :=
  MkCdb (tenants d) dm bk sv rm ct (signing_keys d) (nodes d) (settings d) (edges d) (queue_hosts d) (jobs d)
    (audit_log d) (version d + n) (clock d) (accounts_ d) (extras_ d).

Definition set_tenants (l : list tenant_row) (d : cdb) : cdb :=
  MkCdb l (domains d) (backends d) (servers d) (rooms d) (certificates d) (signing_keys d)
    (nodes d) (settings d) (edges d) (queue_hosts d) (jobs d) (audit_log d) (version d) (clock d) (accounts_ d) (extras_ d).

(** ** The order of [order by] on text columns

    It depends on the collation of the server, which the source does not fix. *)
Class Collation : Type := {
  text_le : relation string;
  #[global] text_le_dec :: RelDecision text_le;
  #[global] text_le_total :: Total text_le;
  #[global] text_le_trans :: Transitive text_le
}.

Section Order.
Context `{Collation}.

(** [order by f] and [order by f, g]. *)
Definition by1 {A} (f : A -> string) : relation A := fun x y => text_le (f x) (f y).
Definition by2 {A} (f g : A -> string) : relation A := fun x y =>
  text_le (f x) (f y) /\ (f x = f y -> text_le (g x) (g y)).

#[global] Instance by1_dec {A} (f : A -> string) : RelDecision (by1 f).
Proof. intros x y. unfold by1. apply _. Defined.
#[global] Instance by2_dec {A} (f g : A -> string) : RelDecision (by2 f g).
Proof. intros x y. unfold by2. apply _. Defined.

End Order.

(** Byte order, the order of the [C] collation. *)
#[global] Instance byte_order : Collation := {|
  text_le := String.le
|}.

(** ** Statements *)

Inductive outcome : Type :=
| Served
| Refused (e : goerr)
| Lost (e : goerr)
| Cut (n : nat) (e : goerr)
| BadRow (n : nat) (e : goerr).

Record pg : Type := MkPg { tables : cdb; sched : list ((cdb -> cdb) * outcome) }.

(** What the next statement finds: the database after the other sessions, its
    outcome, and the schedule that is left. *)
Definition turn (p : pg) : cdb * outcome * list ((cdb -> cdb) * outcome) :=
  match sched p with
  | (env, o) :: l => (env (tables p), o, l)
  | [] => (tables p, Served, [])
  end.

(** [pool.Query]: the rows, each scanned or with its error, and [rows.Err()]. *)
Definition Query {A} (q : cdb -> list A) : M pg (list (goerr + A) * option goerr) := fun p =>
  let '(d, o, l) := turn p in
  (match o with
   | Served => inr (inr <$> q d, None)
   | Refused e | Lost e => inl e
   | Cut n e => inr (inr <$> take n (q d), Some e)
   | BadRow n e => inr ((inr <$> take n (q d)) ++ [inl e], Some e)
   end, MkPg d l).

(** [pool.QueryRow(...).Scan(...)]. *)
Definition QueryRow {A} (q : cdb -> option A) : M pg A := fun p =>
  let '(d, o, l) := turn p in
  (match o with
   | Served => match q d with Some a => inr a | None => inl ErrNoRows end
   | Refused e | Lost e | Cut _ e | BadRow _ e => inl e
   end, MkPg d l).

(** [pool.Exec], and [QueryRow] of a statement that writes: [f] gives a
    constraint violation or a value and the new database. *)
Definition Exec {A} (f : cdb -> goerr + (A * cdb)) : M pg A := fun p =>
  let '(d, o, l) := turn p in
  match o with
  | Served => match f d with inl e => (inl e, MkPg d l) | inr (a, d') => (inr a, MkPg d' l) end
  | Lost e => (inl e, MkPg (match f d with inl _ => d | inr (_, d') => d' end) l)
  | Refused e | Cut _ e | BadRow _ e => (inl e, MkPg d l)
  end.

Definition Exec_ (f : cdb -> cdb) : M pg unit := Exec (fun d => inr (tt, f d)).

(** [pool.Begin], the statements of the transaction, [tx.Commit], and the
    deferred [tx.Rollback] when an error leaves before the commit.  The writes of
    the other sessions outlive a rollback; those they make during the
    transaction are taken to be on other rows than its own. *)
Definition in_tx {A} (m : M pg A) : M pg A := fun p =>
  let '(d0, o0, l0) := turn p in
  match o0 with
  | Served =>
      let undone p1 := MkPg (foldl (fun d e => e.1 d) d0 (take (length l0 - length (sched p1)) l0)) (sched p1) in
      match m (MkPg d0 l0) with
      | (inl e, p1) => (inl e, undone p1)
      | (inr a, p1) =>
          let '(d, o, l) := turn p1 in
          match o with
          | Served => (inr a, MkPg d l)
          | Lost e => (inl e, MkPg d l)
          | Refused e | Cut _ e | BadRow _ e => (inl e, undone (MkPg d l))
          end
      end
  | Refused e | Lost e | Cut _ e | BadRow _ e => (inl e, MkPg d0 l0)
  end.

(** [for rows.Next() { if err := rows.Scan(...); err != nil { return err } }]:
    the first row that does not scan stops the loop. *)
Fixpoint scan_all {A} (rows : list (goerr + A)) : goerr + list A :=
  match rows with
  | [] => inr []
  | inl e :: _ => inl e
  | inr a :: rows => match scan_all rows with inl e => inl e | inr l => inr (a :: l) end
  end.

(** [if rows.Scan(...) == nil { out = append(out, x) }]. *)
Definition scanned {A} (rows : list (goerr + A)) : list A :=
  omap (fun r => match r with inr a => Some a | inl _ => None end) rows.

(** The row of a key, and [insert ... on conflict (key) do update]. *)
Definition by_id {A} (key : A -> string) (i : string) (l : list A) : option A :=
  snd <$> list_find (fun x => key x = i) l.

Definition upsert {A} (key : A -> string) (k : string) (upd : A -> A) (new : A) (l : list A) : list A :=
  if existsb (fun r => String.eqb (key r) k) l
  then map (fun r => if String.eqb (key r) k then upd r else r) l
  else l ++ [new].

(** ** Lemmas *)

Section Keys.
Context {A : Type} (key : A -> string).

Lemma by_id_cons i x l : by_id key i (x :: l) = if decide (key x = i) then Some x else by_id key i l.
Proof.
  unfold by_id. simpl. case_decide; [done|]. by destruct (list_find _ l) as [[? ?]|].
Qed.

Lemma by_id_elem i l x : by_id key i l = Some x -> x ∈ l /\ key x = i.
Proof.
  induction l as [|y l IH]; [done|]. rewrite by_id_cons. case_decide; [intros [= ->]; set_solver|].
  intros [? ?]%IH. set_solver.
Qed.

Lemma by_id_app i l1 l2 : by_id key i (l1 ++ l2) = match by_id key i l1 with Some x => Some x | None => by_id key i l2 end.
Proof. induction l1 as [|x l IH]; [done|]. simpl. rewrite !by_id_cons. by case_decide. Qed.

Lemma by_id_None i l : by_id key i l = None <-> i ∉ key <$> l.
Proof.
  induction l as [|x l IH]; [by split; [set_solver|]|]. rewrite by_id_cons, fmap_cons, not_elem_of_cons, <- IH.
  case_decide; naive_solver.
Qed.

(** With distinct keys, the row of a key is the one that has it. *)
Lemma by_id_NoDup i l x : NoDup (key <$> l) -> by_id key i l = Some x <-> x ∈ l /\ key x = i.
Proof.
  intros Hn. split; [apply by_id_elem|]. induction l as [|y l IH]; [set_solver|].
  rewrite fmap_cons in Hn. apply NoDup_cons in Hn as [Hy Hn]. rewrite by_id_cons.
  intros [[->|Hx]%elem_of_cons Hk].
  - by rewrite decide_True.
  - rewrite decide_False; [by apply IH|]. intros He. apply Hy. apply list_elem_of_fmap. exists x. by rewrite Hk.
Qed.

Lemma by_id_perm i l1 l2 : NoDup (key <$> l1) -> l1 ≡ₚ l2 -> by_id key i l1 = by_id key i l2.
Proof.
  intros Hn Hp. apply option_eq. intros x. rewrite !by_id_NoDup; [by rewrite Hp| |done]. by rewrite <- Hp.
Qed.

Lemma by_id_filter (P : A -> Prop) `{forall x, Decision (P x)} (Q : string -> Prop) `{forall x, Decision (Q x)} i l :
  (forall x, P x <-> Q (key x)) ->
  by_id key i (base.filter P l) = if decide (Q i) then by_id key i l else None.
Proof.
  intros HP. induction l as [|x l IH]; [by case_decide|]. rewrite filter_cons, by_id_cons.
  destruct (decide (P x)) as [Hx|Hx]; rewrite ?by_id_cons, IH; apply HP in Hx || rewrite HP in Hx;
    repeat case_decide; congruence || done.
Qed.

Lemma by_id_map_other k upd i l :
  (forall r, key r = k -> key (upd r) = k) -> i <> k ->
  by_id key i (map (fun r => if String.eqb (key r) k then upd r else r) l) = by_id key i l.
Proof.
  intros Hu Hi. induction l as [|y l IH]; [done|]. simpl. rewrite !by_id_cons, IH.
  destruct (String.eqb_spec (key y) k) as [Hy|Hy]; [|done]. rewrite Hu by done.
  by rewrite !decide_False by congruence.
Qed.

Lemma by_id_upsert k upd new i l :
  (forall r, key r = k -> key (upd r) = k) -> key new = k ->
  by_id key i (upsert key k upd new l) =
  if decide (i = k) then Some (match by_id key k l with Some r => upd r | None => new end) else by_id key i l.
Proof.
  intros Hu Hn. unfold upsert. destruct (existsb _ l) eqn:He.
  - apply existsb_exists in He as (r0 & Hr0%list_elem_of_In & Hk0%String.eqb_eq).
    assert (Hin : by_id key k l <> None) by (rewrite by_id_None; intros Hx; apply Hx, list_elem_of_fmap; eauto).
    clear Hr0 Hk0 r0. induction l as [|r l IH]; [done|]. simpl. rewrite !by_id_cons. rewrite by_id_cons in Hin.
    destruct (String.eqb_spec (key r) k) as [Hr|Hr].
    + rewrite Hu by done. destruct (decide (i = k)) as [->|Hne].
      * by rewrite !decide_True.
      * rewrite !decide_False by congruence. by apply by_id_map_other.
    + rewrite (decide_False (P := key r = k)) in Hin |- * by done.
      case_decide as Hi; [rewrite decide_False by congruence; by apply IH|]. by rewrite IH.
  - assert (Hno : by_id key k l = None).
    { apply by_id_None. intros (r & Hr & Hin)%list_elem_of_fmap. apply not_true_iff_false in He.
      apply He, existsb_exists. exists r. split; [by apply list_elem_of_In|]. by apply String.eqb_eq. }
    rewrite by_id_app, by_id_cons, Hn, Hno. case_decide; subst; [by rewrite Hno, decide_True|].
    rewrite decide_False by done. by destruct (by_id key i l).
Qed.

(** A sequence of such inserts, for distinct keys. *)
Lemma by_id_upserts {X} (kx : X -> string) (upd : X -> A -> A) (new : X -> A) xs l i :
  (forall x r, key r = kx x -> key (upd x r) = kx x) -> (forall x, key (new x) = kx x) -> NoDup (kx <$> xs) ->
  by_id key i (foldl (fun l x => upsert key (kx x) (upd x) (new x) l) l xs) =
  match by_id kx i xs with
  | Some x => Some (match by_id key i l with Some r => upd x r | None => new x end)
  | None => by_id key i l
  end.
Proof.
  intros Hu Hn. revert l. induction xs as [|x xs IH]; intros l Hd; [done|].
  rewrite fmap_cons in Hd. apply NoDup_cons in Hd as [Hx Hd]. simpl.
  rewrite IH by done. rewrite by_id_upsert by auto.
  assert (Hc : by_id kx i (x :: xs) = if decide (kx x = i) then Some x else by_id kx i xs).
  { unfold by_id. simpl. case_decide; [done|]. by destruct (list_find _ xs) as [[? ?]|]. }
  rewrite Hc. destruct (decide (i = kx x)) as [->|Hne].
  - rewrite decide_True by done. destruct (by_id kx (kx x) xs) as [y|] eqn:Hy; [|done].
    exfalso. apply Hx. unfold by_id in Hy. apply fmap_Some in Hy as ([n z] & (Hl & Hk & _)%list_find_Some & ->).
    apply list_elem_of_fmap. exists z. split; [done|]. by eapply list_elem_of_lookup_2.
  - by rewrite decide_False by congruence.
Qed.

End Keys.

Lemma scan_all_inr {A} (l : list A) : scan_all (inr <$> l) = inr l.
Proof. induction l as [|a l IH]; csimpl; [done|]. by rewrite IH. Qed.

Lemma scan_all_inv {A} (rows : list (goerr + A)) l : scan_all rows = inr l -> rows = inr <$> l.
Proof.
  revert l. induction rows as [|[e|a] rows IH]; intros l; simpl; intros; simplify_eq; [done|].
  destruct (scan_all rows) as [e|l']; simplify_eq. csimpl. f_equal. by apply IH.
Qed.

Lemma scanned_inr {A} (l : list A) : scanned (inr <$> l) = l.
Proof. unfold scanned. induction l as [|a l IH]; csimpl; [done|]. by rewrite IH. Qed.

Lemma scanned_bad {A} (l : list A) e : scanned ((inr <$> l) ++ [inl e]) = l.
Proof. unfold scanned. rewrite omap_app. simpl. rewrite app_nil_r. apply scanned_inr. Qed.

(** No other session, and every statement served. *)
Definition quiet (p : pg) : Prop := sched p = [].

Lemma Query_quiet {A} (q : cdb -> list A) p : quiet p -> Query q p = (inr (inr <$> q (tables p), None), p).
Proof. unfold quiet, Query, turn. destruct p as [d l]; simpl. by intros ->. Qed.

Lemma QueryRow_quiet {A} (q : cdb -> option A) p a : quiet p -> q (tables p) = Some a -> QueryRow q p = (inr a, p).
Proof. unfold quiet, QueryRow, turn. destruct p as [d l]; simpl. by intros -> ->. Qed.

Lemma Exec_quiet {A} (f : cdb -> goerr + (A * cdb)) p a d' :
  quiet p -> f (tables p) = inr (a, d') -> Exec f p = (inr a, MkPg d' []).
Proof. unfold quiet, Exec, turn. destruct p as [d l]; simpl. by intros -> ->. Qed.

Lemma Exec_refused {A} (f : cdb -> goerr + (A * cdb)) p e :
  quiet p -> f (tables p) = inl e -> Exec f p = (inl e, p).
Proof. unfold quiet, Exec, turn. destruct p as [d l]; simpl. by intros -> ->. Qed.

Lemma in_tx_quiet {A} (m : M pg A) p : quiet p -> quiet (m p).2 ->
  in_tx m p = match m p with (inl e, _) => (inl e, p) | (inr a, p1) => (inr a, p1) end.
Proof.
  unfold quiet, in_tx, turn. destruct p as [d l]. cbn [sched tables]. intros ->.
  destruct (m (MkPg d [])) as [[e|a] [d1 l1]]; cbn [snd sched tables]; intros ->; done.
Qed.

(** What a statement that succeeds has found. *)
Lemma Query_inv {A} (q : cdb -> list A) p rows er p' :
  Query q p = (inr (rows, er), p') ->
  exists env l, p' = MkPg (env (tables p)) l /\ l = tail (sched p) /\
    exists n, scanned rows = take n (q (env (tables p))) /\ (er = None -> rows = inr <$> q (env (tables p))).
Proof.
  unfold Query, turn. destruct (sched p) as [|[env o] l]; intros H; simplify_eq.
  - exists id, []. split_and!; [done..|]. exists (length (q (tables p))).
    by rewrite scanned_inr, take_ge.
  - exists env, l. split; [destruct o; simplify_eq; done|]. split; [done|].
    destruct o; simplify_eq.
    + exists (length (q (env (tables p)))). by rewrite scanned_inr, take_ge.
    + exists n. by rewrite scanned_inr.
    + exists n. by rewrite scanned_bad.
Qed.
