(* ===== verification/Queueclient.v ===== *)
(** * Package [queueclient]: the configuration of the queues, pushed

    [control/internal/queueclient/queueclient.go].  The queue hosts are
    reached over HTTP: [qdo] is one exchange, a parameter of the model; its
    world is whatever the hosts hold.  The lock of the client and its time-out
    are left out. *)
From Stdlib Require Import Ascii.
From S2P Require Import Prelude GoStr F64 Json.

Local Open Scope list_scope.
Local Open Scope Z_scope.

Record Client : Type := MkClient { Token : string; hosts : list string }.

Definition New (hosts : list string) (token : string) : Client := MkClient token hosts.
Definition SetHosts (h : list string) (c : Client) : Client := MkClient (Token c) h.
Definition Hosts (c : Client) : list string := hosts c.

(** Reads [name=ip:port,name=ip:port]. *)
Definition host_of (part : string) : option string :=
  let part := TrimSpace part in
  if bool_decide (part = EmptyString) then None
  else
    let part := match Cut "="%char part with Some (_, addr) => addr | None => part end in
    Some (if HasPrefix part "http" then part else ("http://" +:+ part)%string).

Definition ParseHosts (s : string) : list string := omap host_of (Split ","%char s).

Record RoomConfig : Type := MkRoomConfig {
  State : string; Rate : f64; MaxActive : Z; WaveSec : Z; PassTTLS : Z;
  Domains : list string; OpensAt : Z; Title : string; Theme : gmap string string
}.

(** A nil slice is printed [null]; [theme] is omitted when it is empty. *)
Definition json_strings (l : list string) : json :=
  match l with [] => JNull | _ => JArr (map JStr l) end.

Definition room_json (c : RoomConfig) : json :=
  JObj ([("state", JStr (State c)); ("rate", JNum (json_float (Rate c)));
         ("max_active", JInt (MaxActive c)); ("wave_s", JInt (WaveSec c));
         ("pass_ttl_s", JInt (PassTTLS c)); ("domains", json_strings (Domains c));
         ("opens_at", JInt (OpensAt c)); ("title", JStr (Title c))]%string
        ++ if bool_decide (Theme c = ∅) then [] else [("theme"%string, JMap (Theme c))]).

(** One HTTP exchange: the error of [http.Client.Do], or status and body. *)
Class QueueHTTP (St : Type) : Type := {
  qdo : string -> string -> string -> string -> St -> (goerr + (Z * string)) * St
}.

Section Calls.
Context {St : Type} `{QueueHTTP St}.

Definition bearer (c : Client) : string := ("Bearer " +:+ Token c)%string.

Definition room_url (h id : string) : string := (h +:+ "/internal/rooms/" +:+ id)%string.

(** The loop of [PutRoom] over the hosts that are left; [last] is the error of
    the previous one. *)
Fixpoint put_on (c : Client) (id payload : string) (hs : list string) (last : option goerr) : M St unit :=
  fun s =>
  match hs with
  | [] => (inl (default (Err "aucun hôte queue configuré") last), s)
  | h :: hs =>
      match qdo "PUT" (room_url h id) (bearer c) payload s with
      | (inl e, s1) => put_on c id payload hs (Some e) s1
      | (inr (code, data), s1) =>
          if code =? 200 then (inr tt, s1)
          else put_on c id payload hs
                 (Some (Err (h +:+ ": " +:+ FormatInt code +:+ " " +:+ TrimSpace data)%string)) s1
      end
  end.

(** [json.Marshal] refuses a number that is not finite; the source drops the
    error and sends an empty body. *)
Definition room_payload (cfg : RoomConfig) : string :=
  if is_nan (Rate cfg) || is_inf (Rate cfg) then EmptyString else marshal (room_json cfg).

Definition PutRoom (c : Client) (id : string) (cfg : RoomConfig) : M St unit :=
  put_on c id (room_payload cfg) (Hosts c) None.

(** The first host that answers, whatever it answers; no host at all gives
    status 0 and no error. *)
Fixpoint call_on (c : Client) (method path : string) (hs : list string) (last : option goerr)
    : M St (Z * string) := fun s =>
  match hs with
  | [] => (match last with Some e => inl e | None => inr (0, EmptyString) end, s)
  | h :: hs =>
      match qdo method (h +:+ path) (bearer c) EmptyString s with
      | (inl e, s1) => call_on c method path hs (Some e) s1
      | (inr r, s1) => (inr r, s1)
      end
  end.

Definition Call (c : Client) (method path : string) : M St (Z * string) :=
  call_on c method path (Hosts c) None.

Definition Healthy (host : string) : M St unit := fun s =>
  match qdo "GET" (host +:+ "/healthz") EmptyString EmptyString s with
  | (inl e, s1) => (inl e, s1)
  | (inr (code, _), s1) =>
      (if code =? 200 then inr tt else inl (Err ("healthz " +:+ FormatInt code)%string), s1)
  end.

(** ** Properties *)

(** The exchanges of a loop over hosts, all refused. *)
Inductive refused (c : Client) (id payload : string) : list string -> St -> St -> Prop :=
| refused_nil s : refused c id payload [] s s
| refused_cons h hs s r s1 s2 :
    qdo "PUT" (room_url h id) (bearer c) payload s = (r, s1) ->
    (forall data, r <> inr (200, data)) ->
    refused c id payload hs s1 s2 ->
    refused c id payload (h :: hs) s s2.

Lemma put_on_ok c id payload hs last s s' :
  put_on c id payload hs last s = (inr tt, s') <->
  exists pre h post s1 data, hs = pre ++ h :: post /\ refused c id payload pre s s1 /\
    qdo "PUT" (room_url h id) (bearer c) payload s1 = (inr (200, data), s').
Proof.
  split.
  - revert last s. induction hs as [|h hs IH]; intros last s; simpl; [done|].
    destruct (qdo _ _ _ _ s) as [[e|[code data]] s1] eqn:E; intros H0.
    + apply IH in H0 as (pre & g & post & s2 & data & -> & Hr & Hg).
      exists (h :: pre), g, post, s2, data. split_and!; [done| |done].
      eapply refused_cons; [exact E|done|exact Hr].
    + destruct (Z.eqb_spec code 200) as [->|Hne]; simplify_eq.
      * exists [], h, hs, s, data. split_and!; [done|constructor|exact E].
      * apply IH in H0 as (pre & g & post & s2 & data' & -> & Hr & Hg).
        exists (h :: pre), g, post, s2, data'. split_and!; [done| |done].
        eapply refused_cons; [exact E|congruence|exact Hr].
  - intros (pre & h & post & s1 & data & -> & Hr & Hg). revert last.
    induction Hr as [s|g gs s r s1 s2 E Hne Hr IH]; intros last; simpl.
    + by rewrite Hg.
    + rewrite E. destruct r as [e|[code d]]; [by apply IH|].
      destruct (Z.eqb_spec code 200) as [->|?]; [by destruct (Hne d)|by apply IH].
Qed.

(** A configuration is pushed exactly when one host of the list
    answers 200 after all those before it have refused or failed; the hosts
    after it are not asked.  Without host there is always an error. *)
Theorem PutRoom_first c id cfg (s s' : St) :
  PutRoom c id cfg s = (inr tt, s') <->
  exists pre h post s1 data, Hosts c = pre ++ h :: post /\
    refused c id (room_payload cfg) pre s s1 /\
    qdo "PUT" (room_url h id) (bearer c) (room_payload cfg) s1 = (inr (200, data), s').
Proof. apply put_on_ok. Qed.

End Calls.
