(* ===== verification/Dataplane.v ===== *)
(** * Package [dataplane]: the client of the HAProxy Dataplane API

    [control/internal/dataplane/client.go].  A request is its method, its path
    under [/v3], its query and its body; an answer is its status and its bytes,
    a JSON text being held as the value it denotes.  The exchange itself (HTTP,
    authentication, the API behind it) is the parameter [exchange]; what the
    API is documented to do is in [Haproxy.v]. *)
From Stdlib Require Import Ascii.
From S2P Require Import Prelude GoStr Json Httpx.

Local Open Scope list_scope.
Local Open Scope Z_scope.

(** ** [json.Unmarshal] into the types of the client

    A missing or [null] field is the zero value, an unknown one is ignored, a
    name matches without regard to case, a value of another type is an error. *)

Definition field (name : string) (l : list (string * json)) : json :=
  foldl (fun acc p => if EqualFold p.1 name then match p.2 with JNull => acc | v => v end else acc) JNull l.

Definition dec_string (v : json) : option string :=
  match v with JNull => Some EmptyString | JStr s => Some s | _ => None end.

Definition dec_int (v : json) : option Z :=
  match v with JNull => Some 0 | JNum t => ParseInt t | _ => None end.

Definition dec_opt {A} (f : json -> option A) (v : json) : option (option A) :=
  match v with JNull => Some None | v => Some <$> f v end.

Definition dec_list {A} (f : json -> option A) (v : json) : option (list A) :=
  match v with JNull => Some [] | JArr l => mapM f l | _ => None end.

Definition dec_obj {A} (f : list (string * json) -> option A) (v : json) : option A :=
  match v with JNull => f [] | JObj l => f l | _ => None end.

(** ** Types *)

Record Transaction : Type := MkTx { TxID : string; TxStatus : string; TxVersion : Z }.

Record HTTPChkParams : Type := MkChk { ChkMethod : string; ChkURI : string }.
Record DefaultServer : Type := MkDefault { DCheck : string; DInter : Z; DRise : Z; DFall : Z }.

(** [Balance] is its only field, [algorithm]. *)
Record Backend : Type := MkBackend {
  BName : string; BMode : string; BBalance : option string; BAdvCheck : string;
  BChk : option HTTPChkParams; BDefault : option DefaultServer; BFrom : string
}.

Record Server : Type := MkServer {
  SName : string; SAddress : string; SPort : Z;
  SWeight : option Z; SMaxconn : option Z; SCheck : string
}.

Record MapEntry : Type := MkEntry { EKey : string; EValue : string }.

#[export] Instance backend_eq_dec : EqDecision Backend.
Proof.
  assert (EqDecision HTTPChkParams) by solve_decision.
  assert (EqDecision DefaultServer) by solve_decision.
  solve_decision.
Defined.
#[export] Instance server_eq_dec : EqDecision Server.
Proof. solve_decision. Defined.
#[export] Instance entry_eq_dec : EqDecision MapEntry.
Proof. solve_decision. Defined.

(** The [omitempty] fields. *)
Definition omit_str (k s : string) : list (string * json) :=
  if bool_decide (s = EmptyString) then [] else [(k, JStr s)].
Definition omit_int (k : string) (z : Z) : list (string * json) :=
  if z =? 0 then [] else [(k, JInt z)].
Definition omit_opt {A} (k : string) (f : A -> json) (o : option A) : list (string * json) :=
  match o with Some a => [(k, f a)] | None => [] end.

Definition chk_json (c : HTTPChkParams) : json :=
  JObj (omit_str "method" (ChkMethod c) ++ omit_str "uri" (ChkURI c)).
Definition default_json (s : DefaultServer) : json :=
  JObj (omit_str "check" (DCheck s) ++ omit_int "inter" (DInter s) ++ omit_int "rise" (DRise s)
        ++ omit_int "fall" (DFall s)).
Definition backend_json (b : Backend) : json :=
  JObj ([("name"%string, JStr (BName b))] ++ omit_str "mode" (BMode b)
        ++ omit_opt "balance" (fun a => JObj [("algorithm"%string, JStr a)]) (BBalance b)
        ++ omit_str "adv_check" (BAdvCheck b) ++ omit_opt "httpchk_params" chk_json (BChk b)
        ++ omit_opt "default_server" default_json (BDefault b) ++ omit_str "from" (BFrom b)).
Definition server_json (s : Server) : json :=
  JObj ([("name", JStr (SName s)); ("address", JStr (SAddress s)); ("port", JInt (SPort s))]%string
        ++ omit_opt "weight" JInt (SWeight s) ++ omit_opt "maxconn" JInt (SMaxconn s)
        ++ omit_str "check" (SCheck s)).
Definition entry_json (e : MapEntry) : json :=
  JObj [("key", JStr (EKey e)); ("value", JStr (EValue e))]%string.

Definition dec_tx : json -> option Transaction := dec_obj (fun l =>
  i ← dec_string (field "id" l); st ← dec_string (field "status" l); v ← dec_int (field "_version" l);
  Some (MkTx i st v)).
Definition dec_chk : json -> option HTTPChkParams := dec_obj (fun l =>
  m ← dec_string (field "method" l); u ← dec_string (field "uri" l); Some (MkChk m u)).
Definition dec_default : json -> option DefaultServer := dec_obj (fun l =>
  c ← dec_string (field "check" l); i ← dec_int (field "inter" l); r ← dec_int (field "rise" l);
  f ← dec_int (field "fall" l); Some (MkDefault c i r f)).
Definition dec_backend : json -> option Backend := dec_obj (fun l =>
  n ← dec_string (field "name" l); m ← dec_string (field "mode" l);
  b ← dec_opt (dec_obj (fun l => dec_string (field "algorithm" l))) (field "balance" l);
  a ← dec_string (field "adv_check" l); c ← dec_opt dec_chk (field "httpchk_params" l);
  s ← dec_opt dec_default (field "default_server" l); f ← dec_string (field "from" l);
  Some (MkBackend n m b a c s f)).
Definition dec_server : json -> option Server := dec_obj (fun l =>
  n ← dec_string (field "name" l); a ← dec_string (field "address" l); p ← dec_int (field "port" l);
  w ← dec_opt dec_int (field "weight" l); m ← dec_opt dec_int (field "maxconn" l);
  c ← dec_string (field "check" l); Some (MkServer n a p w m c)).
Definition dec_entry : json -> option MapEntry := dec_obj (fun l =>
  k ← dec_string (field "key" l); v ← dec_string (field "value" l); Some (MkEntry k v)).

(** ** Requests and answers *)

(** The kind of body decides the content type: [text/plain], JSON, or
    [multipart/form-data] with the file under [file_upload]. *)
Inductive rbody : Type :=
| RNone
| RText (s : string)
| RJson (v : json)
| RFile (filename content : string).

Record request : Type := MkReq {
  m_method : string; m_path : string; m_query : list (string * string); m_body : rbody
}.

Inductive answer : Type :=
| AEmpty
| AText (s : string)
| AJson (v : json).

Definition answer_text (a : answer) : string :=
  match a with AEmpty => EmptyString | AText s => s | AJson v => marshal v end.

Record Client : Type := MkDp { Base : string; User : string; Pass : string }.

Definition New (base user pass : string) : Client := MkDp (TrimRight1 "/"%char base) user pass.

(** One exchange: the client, the request; a transport error, or the status
    and the bytes of the answer. *)
Class DataplaneHTTP (St : Type) : Type := {
  exchange : Client -> request -> St -> (goerr + (Z * answer)) * St
}.

Definition IsStatus (e : goerr) (code : Z) : bool :=
  match e with ErrAPI st _ => st =? code | _ => false end.

(** The bytes [url.PathEscape] keeps. *)
Definition path_plain (a : ascii) : bool :=
  unreserved a || Ascii.eqb a "$"%char || Ascii.eqb a "&"%char || Ascii.eqb a "+"%char
  || Ascii.eqb a "="%char || Ascii.eqb a ":"%char || Ascii.eqb a "@"%char.

Fixpoint PathEscape (s : string) : string :=
  match s with
  | EmptyString => EmptyString
  | String a s' =>
      if path_plain a then String a (PathEscape s')
      else String "%"%char (String (hex_upper (nat_of_ascii a / 16)) (String (hex_upper (nat_of_ascii a mod 16))
             (PathEscape s')))
  end.

(** [StorageName]. *)
Definition TrimSuffix (s suf : string) : string :=
  let n := (String.length s - String.length suf)%nat in
  if (String.length suf <=? String.length s)%nat && bool_decide (String.substring n (String.length suf) s = suf)
  then String.substring 0 n s else s.

Definition StorageName (fqdn : string) : string :=
  (ReplaceAll1 "."%char "_"%char (TrimSuffix fqdn ".pem") +:+ ".pem")%string.

(** The order in which a [for range] visits a Go map is not specified; an
    instance gives one. *)
Class MapOrder : Type := {
  range : forall {A}, gmap string A -> list (string * A);
  range_perm {A} (m : gmap string A) : range m ≡ₚ map_to_list m
}.

#[global] Instance key_order : MapOrder := {|
  range A m := map_to_list m;
  range_perm A m := Permutation_refl _
|}.

Section Operations.
Context {St : Type} `{DataplaneHTTP St}.

(** [do]: an answer of status 300 and above is an error; the body is decoded
    into [out] unless it is empty, in which case [out] keeps [zero]. *)
Definition do {A} (c : Client) (r : request) (zero : A) (out : json -> option A) : M St A := fun s =>
  match exchange c r s with
  | (inl e, s1) => (inl e, s1)
  | (inr (code, a), s1) =>
      (if 300 <=? code then inl (ErrAPI code (TrimSpace (answer_text a)))
       else match a with
            | AEmpty => inr zero
            | AText s => if bool_decide (s = EmptyString) then inr zero
                         else inl (Err "invalid character looking for beginning of value"%string)
            | AJson v => match out v with
                         | Some x => inr x
                         | None => inl (Err "json: cannot unmarshal value"%string)
                         end
            end, s1)
  end.

(** [do] with [out = nil]: the body is not read. *)
Definition do_ (c : Client) (r : request) : M St unit := fun s =>
  match exchange c r s with
  | (inl e, s1) => (inl e, s1)
  | (inr (code, a), s1) =>
      (if 300 <=? code then inl (ErrAPI code (TrimSpace (answer_text a))) else inr tt, s1)
  end.

Definition get (path : string) : request := MkReq "GET" path [] RNone.

Definition upload (c : Client) (method path filename content : string) (q : list (string * string)) : M St unit :=
  do_ c (MkReq method path q (RFile filename content)).

(** [Info]: only its error is used. *)
Definition Info (c : Client) : M St unit :=
  do c (get "/info") tt (dec_obj (fun l =>
    dec_obj (fun a => _ ← dec_string (field "version" a); Some tt) (field "api" l))).

Definition Version (c : Client) : M St Z :=
  do c (get "/services/haproxy/configuration/version") 0 dec_int.

(** ** Transactions *)

Definition tx_path (id : string) : string := ("/services/haproxy/transactions/" +:+ id)%string.

Definition BeginTx (c : Client) : M St Transaction :=
  v ← Version c;
  do c (MkReq "POST" "/services/haproxy/transactions" [("version"%string, FormatInt v)] RNone)
    (MkTx EmptyString EmptyString 0) dec_tx.

Definition CommitTx (c : Client) (id : string) : M St unit := do_ c (MkReq "PUT" (tx_path id) [] RNone).

(** The error is dropped. *)
Definition AbortTx (c : Client) (id : string) : M St unit := fun s =>
  (inr tt, (do_ c (MkReq "DELETE" (tx_path id) [] RNone) s).2).

Definition tx (id : string) : list (string * string) := [("transaction_id"%string, id)].

(** ** Backends and servers *)

Definition backends_path : string := "/services/haproxy/configuration/backends".
Definition backend_path (name : string) : string := (backends_path +:+ "/" +:+ name)%string.
Definition servers_path (name : string) : string := (backend_path name +:+ "/servers")%string.
Definition server_path (backend name : string) : string := (servers_path backend +:+ "/" +:+ name)%string.

Definition Backends (c : Client) : M St (list Backend) := do c (get backends_path) [] (dec_list dec_backend).

Definition CreateBackend (c : Client) (txID : string) (b : Backend) : M St unit :=
  do_ c (MkReq "POST" backends_path (tx txID) (RJson (backend_json b))).
Definition ReplaceBackend (c : Client) (txID : string) (b : Backend) : M St unit :=
  do_ c (MkReq "PUT" (backend_path (BName b)) (tx txID) (RJson (backend_json b))).
Definition DeleteBackend (c : Client) (txID name : string) : M St unit :=
  do_ c (MkReq "DELETE" (backend_path name) (tx txID) RNone).

Definition Servers (c : Client) (backend : string) : M St (list Server) :=
  do c (get (servers_path backend)) [] (dec_list dec_server).
Definition CreateServer (c : Client) (txID backend : string) (s : Server) : M St unit :=
  do_ c (MkReq "POST" (servers_path backend) (tx txID) (RJson (server_json s))).
Definition ReplaceServer (c : Client) (txID backend : string) (s : Server) : M St unit :=
  do_ c (MkReq "PUT" (server_path backend (SName s)) (tx txID) (RJson (server_json s))).
Definition DeleteServer (c : Client) (txID backend name : string) : M St unit :=
  do_ c (MkReq "DELETE" (server_path backend name) (tx txID) RNone).

(** ** Maps *)

Definition map_path (name : string) : string := ("/services/haproxy/runtime/maps/" +:+ name)%string.
Definition entries_path (name : string) : string := (map_path name +:+ "/entries")%string.
Definition entry_path (name k : string) : string := (entries_path name +:+ "/" +:+ PathEscape k)%string.
Definition force_sync : list (string * string) := [("force_sync", "true")]%string.

Definition MapEntries (c : Client) (name : string) : M St (list MapEntry) :=
  do c (get (entries_path name)) [] (dec_list dec_entry).

Definition post_entry (c : Client) (name k v : string) : M St unit :=
  do_ c (MkReq "POST" (entries_path name) force_sync (RJson (entry_json (MkEntry k v)))).
Definition put_entry (c : Client) (name k v : string) : M St unit :=
  do_ c (MkReq "PUT" (entry_path name k) force_sync (RJson (JObj [("value"%string, JStr v)]))).
Definition delete_entry (c : Client) (name k : string) : M St unit :=
  do_ c (MkReq "DELETE" (entry_path name k) force_sync RNone).
Definition clear_map (c : Client) (name : string) : M St unit :=
  do_ c (MkReq "DELETE" (map_path name) [("force_delete", "true"); ("force_sync", "true")]%string RNone).

(** An error of the given status is no error. *)
Definition tolerate {A} (code : Z) (a : A) (m : M St A) : M St A := fun s =>
  match m s with
  | (inl e, s1) => (if IsStatus e code then inr a else inl e, s1)
  | r => r
  end.

(** [fmt.Errorf("p: %w", err)]. *)
Definition wrapping {A} (p : string) (m : M St A) : M St A := fun s =>
  match m s with
  | (inl e, s1) => (inl (wrap p e), s1)
  | r => r
  end.

Context `{MapOrder}.

(** [cur] and [dup]: the map of the entries read, and whether a key came twice. *)
Definition index_entries (l : list MapEntry) : gmap string string * bool :=
  foldl (fun acc e =>
           (<[EKey e := EValue e]> acc.1, acc.2 || bool_decide (is_Some (acc.1 !! EKey e)))) (∅, false) l.

Definition want_of (l : list MapEntry) : gmap string string :=
  foldl (fun (m : gmap string string) e => <[EKey e := EValue e]> m) ∅ l.

(** The loop that adds and updates. *)
Fixpoint sync_wanted (c : Client) (name : string) (cur : gmap string string) (l : list (string * string)) : M St unit :=
  match l with
  | [] => mret tt
  | (k, v) :: l =>
      match cur !! k with
      | None => wrapping (name +:+ ": ajout " +:+ k)%string (tolerate 409 tt (post_entry c name k v))
      | Some cv =>
          if bool_decide (cv = v) then mret tt
          else wrapping (name +:+ ": mise à jour " +:+ k)%string (put_entry c name k v)
      end ≫= fun _ => sync_wanted c name cur l
  end.

(** The loop that removes. *)
Fixpoint sync_unwanted (c : Client) (name : string) (want : gmap string string) (l : list (string * string)) : M St unit :=
  match l with
  | [] => mret tt
  | (k, _) :: l =>
      (if bool_decide (is_Some (want !! k)) then mret tt
       else wrapping (name +:+ ": suppression " +:+ k)%string (tolerate 404 tt (delete_entry c name k)))
      ≫= fun _ => sync_unwanted c name want l
  end.

Definition SyncMap (c : Client) (name : string) (desired : list MapEntry) : M St unit :=
  current ← tolerate 404 [] (MapEntries c name);
  let '(cur, dup) := index_entries current in
  (if dup : bool
   then wrapping ("vidage de " +:+ name)%string (tolerate 404 tt (clear_map c name))
   else mret tt) ≫= fun _ =>
  let cur := if dup then ∅ else cur in
  let want := want_of desired in
  sync_wanted c name cur (range want) ≫= fun _ =>
  sync_unwanted c name want (range cur).

(** ** Files: certificates, crt-lists, general storage *)

Definition certs_path : string := "/services/haproxy/storage/ssl_certificates".
Definition crt_lists_path (name : string) : string :=
  ("/services/haproxy/storage/ssl_crt_lists/" +:+ PathEscape name)%string.
Definition general_path (name : string) : string :=
  ("/services/haproxy/storage/general/" +:+ PathEscape name)%string.

(** [UpsertCert]: replaces the file, or creates it when there is none. *)
Definition UpsertCert (c : Client) (name pem : string) : M St bool := fun s =>
  match do_ c (MkReq "PUT" (certs_path +:+ "/" +:+ name)%string [] (RText pem)) s with
  | (inr _, s1) => (inr false, s1)
  | (inl e, s1) =>
      if IsStatus e 404
      then (upload c "POST" certs_path name pem [] ≫= fun _ => mret true) s1
      else (inl e, s1)
  end.

Definition CrtListGet (c : Client) (name : string) : M St string := fun s =>
  match exchange c (get (crt_lists_path name)) s with
  | (inl e, s1) => (inl e, s1)
  | (inr (code, a), s1) =>
      (if code =? 404 then inr EmptyString
       else if 300 <=? code then inl (ErrAPI code (TrimSpace (answer_text a)))
       else inr (answer_text a), s1)
  end.

Definition CrtListSync (c : Client) (name content : string) : M St bool :=
  cur ← CrtListGet c name;
  if bool_decide (TrimSpace cur = TrimSpace content) then mret false
  else do_ c (MkReq "PUT" (crt_lists_path name) [] (RText content)) ≫= fun _ => mret true.

(** A failed exchange is an error; any status other than 200 and 404 leads to
    a replacement. *)
Definition GeneralSync (c : Client) (name content : string) : M St bool := fun s =>
  match exchange c (get (general_path name)) s with
  | (inl e, s1) => (inl e, s1)
  | (inr (code, a), s1) =>
      if (code =? 200) && bool_decide (TrimSpace (answer_text a) = TrimSpace content) then (inr false, s1)
      else if code =? 404
      then (upload c "POST" "/services/haproxy/storage/general" name content [] ≫= fun _ => mret true) s1
      else (upload c "PUT" (general_path name) name content [("skip_reload", "true")]%string
              ≫= fun _ => mret true) s1
  end.

Definition Reload (c : Client) : M St unit := t ← BeginTx c; CommitTx c (TxID t).

(** ** Statistics *)

(** A line of native statistics: its name, its type, its current sessions. *)
Record stat : Type := MkStat { st_name : string; st_type : string; st_scur : Z }.

Definition dec_stat : json -> option stat := dec_obj (fun l =>
  n ← dec_string (field "name" l); t ← dec_string (field "type" l);
  sc ← dec_obj (fun l => dec_int (field "scur" l)) (field "stats" l);
  Some (MkStat n t sc)).

Definition dec_stats : json -> option (list stat) := dec_obj (fun l => dec_list dec_stat (field "stats" l)).

(** An object, or a list of such objects. *)
Definition dec_sessions (v : json) : option (list (list stat)) :=
  match v with
  | JArr l => mapM dec_stats l
  | v => (fun o => [o]) <$> dec_stats v
  end.

(** The sum wraps around as an [int64]. *)
Definition sessions_of (backend : string) (objs : list (list stat)) : Z :=
  foldl (fun total st =>
           if bool_decide (st_type st = "backend"%string /\ st_name st = backend)
           then wrap64 (total + st_scur st) else total) 0 (concat objs).

(** An empty body is not a JSON value. *)
Definition BackendSessions (c : Client) (backend : string) : M St Z := fun s =>
  match do c (MkReq "GET" "/services/haproxy/stats/native" [("type", "backend"); ("name", backend)]%string RNone)
          None (fun v => Some (Some v)) s with
  | (inl e, s1) => (inl e, s1)
  | (inr None, s1) => (inl (Err "unexpected end of JSON input"%string), s1)
  | (inr (Some v), s1) =>
      (match dec_sessions v with
       | Some objs => inr (sessions_of backend objs)
       | None => inl (Err "json: cannot unmarshal value"%string)
       end, s1)
  end.

End Operations.
