(* ===== verification/Haproxy.v ===== *)
(** * The load balancer behind the Dataplane API, and what the client makes of it

    HAProxy and its Dataplane API are not part of the repository.  [lb] is what
    the source relies on: the configuration with its transactions, the runtime
    maps, the stored files.  [endpoint] lists the calls of [Dataplane.v] with
    the request each one makes, [step] says what the API documents of a call
    that succeeds, and [HaproxyLaws] that an exchange does what its endpoint
    says, nothing when it is refused, and one or the other when it is lost, for
    a load balancer that has no other client.  [SiteHTTP] is a server in memory
    that satisfies these laws ([Site.v]).  The lemmas give each operation of the
    client its effect; the contract of [SyncMap] is stated in [Site.v]. *)
From Stdlib Require Import Ascii.
From S2P Require Import Prelude GoStr Json Httpx Dataplane.

Local Open Scope list_scope.
Local Open Scope Z_scope.

(** ** State *)

Record bconf : Type := MkBconf { bc_def : Backend; bc_servers : list Server }.
Abbreviation conf := (gmap string bconf).

Record lb : Type := MkLb {
  lb_conf : conf; lb_version : Z; lb_txs : gmap string conf;
  lb_maps : gmap string (list MapEntry);
  lb_certs : gmap string string; lb_crt_lists : gmap string string; lb_general : gmap string string;
  lb_sessions : gmap string Z
}.

Definition empty_lb : lb := MkLb ∅ 1 ∅ ∅ ∅ ∅ ∅ ∅.

Definition with_conf (v : Z) (c : conf) (d : lb) : lb :=
  MkLb c v (lb_txs d) (lb_maps d) (lb_certs d) (lb_crt_lists d) (lb_general d) (lb_sessions d).
Definition with_txs (t : gmap string conf) (d : lb) : lb :=
  MkLb (lb_conf d) (lb_version d) t (lb_maps d) (lb_certs d) (lb_crt_lists d) (lb_general d) (lb_sessions d).
Definition with_map (n : string) (l : list MapEntry) (d : lb) : lb :=
  MkLb (lb_conf d) (lb_version d) (lb_txs d) (<[n := l]> (lb_maps d)) (lb_certs d) (lb_crt_lists d)
    (lb_general d) (lb_sessions d).
Definition with_cert (n pem : string) (d : lb) : lb :=
  MkLb (lb_conf d) (lb_version d) (lb_txs d) (lb_maps d) (<[n := pem]> (lb_certs d)) (lb_crt_lists d)
    (lb_general d) (lb_sessions d).
Definition with_crt_list (n s : string) (d : lb) : lb :=
  MkLb (lb_conf d) (lb_version d) (lb_txs d) (lb_maps d) (lb_certs d) (<[n := s]> (lb_crt_lists d))
    (lb_general d) (lb_sessions d).
Definition with_general (n s : string) (d : lb) : lb :=
  MkLb (lb_conf d) (lb_version d) (lb_txs d) (lb_maps d) (lb_certs d) (lb_crt_lists d)
    (<[n := s]> (lb_general d)) (lb_sessions d).

(** ** Endpoints *)

Inductive endpoint : Type :=
| EInfo | EVersion
| EBegin (v : Z) | ECommit (id : string) | EAbort (id : string)
| EBackends | ECreateBackend (id : string) (b : Backend) | EDeleteBackend (id name : string)
| EServers (b : string) | ECreateServer (id b : string) (s : Server)
| EReplaceServer (id b : string) (s : Server) | EDeleteServer (id b name : string)
| EEntries (m : string) | EPostEntry (m k v : string) | EPutEntry (m k v : string)
| EDeleteEntry (m k : string) | EClearMap (m : string)
| EPutCert (n pem : string) | EPostCert (n pem : string)
| EGetCrtList (n : string) | EPutCrtList (n s : string)
| EGetGeneral (n : string) | EPostGeneral (n s : string) | EPutGeneral (n s : string)
| EStats (b : string).

Definition request_of (e : endpoint) : request :=
  match e with
  | EInfo => get "/info"
  | EVersion => get "/services/haproxy/configuration/version"
  | EBegin v => MkReq "POST" "/services/haproxy/transactions" [("version"%string, FormatInt v)] RNone
  | ECommit id => MkReq "PUT" (tx_path id) [] RNone
  | EAbort id => MkReq "DELETE" (tx_path id) [] RNone
  | EBackends => get backends_path
  | ECreateBackend id b => MkReq "POST" backends_path (tx id) (RJson (backend_json b))
  | EDeleteBackend id name => MkReq "DELETE" (backend_path name) (tx id) RNone
  | EServers b => get (servers_path b)
  | ECreateServer id b s => MkReq "POST" (servers_path b) (tx id) (RJson (server_json s))
  | EReplaceServer id b s => MkReq "PUT" (server_path b (SName s)) (tx id) (RJson (server_json s))
  | EDeleteServer id b n => MkReq "DELETE" (server_path b n) (tx id) RNone
  | EEntries m => get (entries_path m)
  | EPostEntry m k v => MkReq "POST" (entries_path m) force_sync (RJson (entry_json (MkEntry k v)))
  | EPutEntry m k v => MkReq "PUT" (entry_path m k) force_sync (RJson (JObj [("value"%string, JStr v)]))
  | EDeleteEntry m k => MkReq "DELETE" (entry_path m k) force_sync RNone
  | EClearMap m => MkReq "DELETE" (map_path m) [("force_delete", "true"); ("force_sync", "true")]%string RNone
  | EPutCert n pem => MkReq "PUT" (certs_path +:+ "/" +:+ n) [] (RText pem)
  | EPostCert n pem => MkReq "POST" certs_path [] (RFile n pem)
  | EGetCrtList n => get (crt_lists_path n)
  | EPutCrtList n s => MkReq "PUT" (crt_lists_path n) [] (RText s)
  | EGetGeneral n => get (general_path n)
  | EPostGeneral n s => MkReq "POST" "/services/haproxy/storage/general" [] (RFile n s)
  | EPutGeneral n s => MkReq "PUT" (general_path n) [("skip_reload", "true")]%string (RFile n s)
  | EStats b => MkReq "GET" "/services/haproxy/stats/native" [("type", "backend"); ("name", b)]%string RNone
  end%string.

(** A name that can be written in a path as it is. *)
Definition safe_char (a : ascii) : bool := negb (Ascii.eqb a "/"%char) && negb (Ascii.eqb a "%"%char).
Definition safe (s : string) : bool := string_forall safe_char s.

Definition wf_endpoint (e : endpoint) : bool :=
  match e with
  | ECommit id | EAbort id => safe id
  | EDeleteBackend _ n | EServers n | ECreateServer _ n _ => safe n
  | EReplaceServer _ b s => safe b && safe (SName s)
  | EDeleteServer _ b n => safe b && safe n
  | EEntries m | EPostEntry m _ _ | EPutEntry m _ _ | EDeleteEntry m _ | EClearMap m => safe m
  | EPutCert n _ => safe n
  | _ => true
  end.

(** ** What a call that succeeds does *)

(** An answer read by [do]. *)
Definition reads {A} (out : json -> option A) (zero : A) (a : answer) (x : A) : Prop :=
  match a with
  | AEmpty => x = zero
  | AText s => s = EmptyString /\ x = zero
  | AJson v => out v = Some x
  end.

(** The edits of a configuration, refused when they do not apply. *)
Definition create_backend (b : Backend) (c : conf) : option conf :=
  match c !! BName b with None => Some (<[BName b := MkBconf b []]> c) | Some _ => None end.
Definition delete_backend (n : string) (c : conf) : option conf :=
  match c !! n with Some _ => Some (delete n c) | None => None end.
Definition on_servers (b : string) (f : list Server -> option (list Server)) (c : conf) : option conf :=
  bc ← c !! b; l ← f (bc_servers bc); Some (<[b := MkBconf (bc_def bc) l]> c).
Definition has_server (n : string) (l : list Server) : bool := existsb (fun s => bool_decide (SName s = n)) l.
Definition create_server (s : Server) (l : list Server) : option (list Server) :=
  if has_server (SName s) l then None else Some (l ++ [s]).
Definition replace_server (s : Server) (l : list Server) : option (list Server) :=
  if has_server (SName s) l then Some ((fun t => if bool_decide (SName t = SName s) then s else t) <$> l) else None.
Definition delete_server (n : string) (l : list Server) : option (list Server) :=
  if has_server n l then Some (base.filter (fun t => SName t <> n) l) else None.

Definition edit (e : endpoint) : option (string * (conf -> option conf)) :=
  match e with
  | ECreateBackend id b => Some (id, create_backend b)
  | EDeleteBackend id n => Some (id, delete_backend n)
  | ECreateServer id b s => Some (id, on_servers b (create_server s))
  | EReplaceServer id b s => Some (id, on_servers b (replace_server s))
  | EDeleteServer id b n => Some (id, on_servers b (delete_server n))
  | _ => None
  end.

(** The entries of a map. *)
Definition has_key (k : string) (l : list MapEntry) : bool := existsb (fun e => bool_decide (EKey e = k)) l.
Definition set_key (k v : string) (l : list MapEntry) : list MapEntry :=
  (fun e => if bool_decide (EKey e = k) then MkEntry k v else e) <$> l.

Definition entries_edit (e : endpoint) : option (string * (list MapEntry -> option (list MapEntry))) :=
  match e with
  | EPostEntry m k v => Some (m, fun l => if has_key k l then None else Some (l ++ [MkEntry k v]))
  | EPutEntry m k v => Some (m, fun l => if has_key k l then Some (set_key k v l) else None)
  | EDeleteEntry m k => Some (m, fun l => if has_key k l then Some (base.filter (fun e => EKey e <> k) l) else None)
  | EClearMap m => Some (m, fun _ => Some [])
  | _ => None
  end.

Definition step (e : endpoint) (d : lb) (a : answer) (d' : lb) : Prop :=
  match e with
  | EInfo => d' = d
  | EVersion => d' = d /\ reads dec_int 0 a (lb_version d)
  | EBegin v => v = lb_version d /\ exists t, reads dec_tx (MkTx EmptyString EmptyString 0) a t /\
      safe (TxID t) = true /\ lb_txs d !! TxID t = None /\ d' = with_txs (<[TxID t := lb_conf d]> (lb_txs d)) d
  | ECommit id => exists c, lb_txs d !! id = Some c /\
      d' = with_conf (lb_version d + 1) c (with_txs (delete id (lb_txs d)) d)
  | EAbort id => d' = with_txs (delete id (lb_txs d)) d
  | EBackends => d' = d /\ exists l, reads (dec_list dec_backend) [] a l /\ BName <$> l ≡ₚ (map_to_list (lb_conf d)).*1
  | EServers b => d' = d /\ exists bc, lb_conf d !! b = Some bc /\ reads (dec_list dec_server) [] a (bc_servers bc)
  | EEntries m => d' = d /\ exists l, lb_maps d !! m = Some l /\ reads (dec_list dec_entry) [] a l
  | EPutCert n pem => is_Some (lb_certs d !! n) /\ d' = with_cert n pem d
  | EPostCert n pem => d' = with_cert n pem d
  | EGetCrtList n => d' = d /\ lb_crt_lists d !! n = Some (answer_text a)
  | EPutCrtList n s => d' = with_crt_list n s d
  | EGetGeneral n => d' = d /\ lb_general d !! n = Some (answer_text a)
  | EPostGeneral n s | EPutGeneral n s => d' = with_general n s d
  | EStats b => d' = d
  | e =>
      match edit e, entries_edit e with
      | Some (id, f), _ => exists c c', lb_txs d !! id = Some c /\ f c = Some c' /\
          d' = with_txs (<[id := c']> (lb_txs d)) d
      | _, Some (m, f) => exists l l', lb_maps d !! m = Some l /\ f l = Some l' /\ d' = with_map m l' d
      | _, _ => False
      end
  end.

(** What the statuses 404 and 409 tell. *)
Definition missing (e : endpoint) (d : lb) : Prop :=
  match e with
  | EEntries m | EClearMap m => lb_maps d !! m = None
  | EDeleteEntry m k => forall l, lb_maps d !! m = Some l -> has_key k l = false
  | EPutCert n _ => lb_certs d !! n = None
  | EGetCrtList n => lb_crt_lists d !! n = None
  | EGetGeneral n => lb_general d !! n = None
  | _ => True
  end.
Definition conflict (e : endpoint) (d : lb) : Prop :=
  match e with
  | EPostEntry m k _ => exists l, lb_maps d !! m = Some l /\ has_key k l = true
  | _ => True
  end.

(** A refused call leaves everything, but for the transaction it ends. *)
Definition unchanged (e : endpoint) (d d' : lb) : Prop :=
  match e with
  | ECommit _ | EAbort _ => exists t, d' = with_txs t d
  | _ => d' = d
  end.

Definition exchange_spec (e : endpoint) (d : lb) (r : goerr + (Z * answer)) (d' : lb) : Prop :=
  match r with
  | inl _ => unchanged e d d' \/ exists a, step e d a d'
  | inr (code, a) =>
      if 300 <=? code then unchanged e d d' /\ (code = 404 -> missing e d) /\ (code = 409 -> conflict e d)
      else step e d a d'
  end.

(** [view base] is the load balancer behind the address [base].  An exchange
    does what its request says, its errors of transport carry no status, and no
    request at all reaches another load balancer than the one it is sent to. *)
Class Haproxy (St : Type) : Type := { view : string -> St -> lb }.

Class HaproxyLaws (St : Type) `{DataplaneHTTP St, Haproxy St} : Prop := {
  exchange_law c e s r s' :
    wf_endpoint e = true -> exchange c (request_of e) s = (r, s') ->
    (forall b, b <> Base c -> view b s' = view b s) /\
    exchange_spec e (view (Base c) s) r (view (Base c) s');
  transport_law c r s e s' : exchange c r s = (inl e, s') -> forall code, IsStatus e code = false;
  frame_law c r s b : b <> Base c -> view b (exchange c r s).2 = view b s
}.

(** ** Effects of the operations *)

Lemma NoDup_fmap_filter {A B} (f : A -> B) (P : A -> Prop) `{forall x, Decision (P x)} (l : list A) :
  NoDup (f <$> l) -> NoDup (f <$> base.filter P l).
Proof.
  induction l as [|a l IH]; [done|]. rewrite fmap_cons, NoDup_cons, filter_cons. intros [Ha Hl].
  destruct (decide (P a)); [|by apply IH]. rewrite fmap_cons. apply NoDup_cons. split; [|by apply IH].
  intros (x & Hx & Hin)%list_elem_of_fmap. apply Ha. rewrite Hx. apply list_elem_of_fmap_2.
  by apply list_elem_of_filter in Hin as [_ Hin].
Qed.

Section Effects.
Context {St : Type} {Hx : DataplaneHTTP St} {Hview : Haproxy St} {HL : HaproxyLaws St}.

(** [acts c s s' P]: only the load balancer of [c] changes, as [P] says. *)
Definition acts (c : Client) (s s' : St) (P : lb -> lb -> Prop) : Prop :=
  (forall b, b <> Base c -> view b s' = view b s) /\ P (view (Base c) s) (view (Base c) s').

Lemma acts_impl c s s' (P Q : lb -> lb -> Prop) :
  acts c s s' P -> (forall d d', P d d' -> Q d d') -> acts c s s' Q.
Proof. intros [Hf HP] HPQ. split; auto. Qed.

Lemma acts_trans c s1 s2 s3 (P Q R : lb -> lb -> Prop) :
  acts c s1 s2 P -> acts c s2 s3 Q -> (forall a b d, P a b -> Q b d -> R a d) -> acts c s1 s3 R.
Proof. intros [Hf HP] [Hg HQ] HR. split; [intros b Hb; by rewrite Hg, Hf|by eapply HR]. Qed.

Lemma do_ok {A} c e (zero : A) out s x s' :
  wf_endpoint e = true -> do c (request_of e) zero out s = (inr x, s') ->
  acts c s s' (fun d d' => exists a, step e d a d' /\ reads out zero a x).
Proof.
  intros Hwf. unfold do. destruct (exchange c (request_of e) s) as [[er|[code a]] s1] eqn:E; [done|].
  apply exchange_law in E as [Hf Hs]; [|done]. simpl in Hs.
  destruct (300 <=? code); intros Hr; simplify_eq. split; [done|]. exists a. split; [done|].
  destruct a as [|t|v]; simpl; [by simplify_eq|..].
  - case_bool_decide; by simplify_eq.
  - destruct (out v); by simplify_eq.
Qed.

Lemma do__ok c e s x s' :
  wf_endpoint e = true -> do_ c (request_of e) s = (inr x, s') ->
  acts c s s' (fun d d' => exists a, step e d a d').
Proof.
  intros Hwf. unfold do_. destruct (exchange c (request_of e) s) as [[er|[code a]] s1] eqn:E; [done|].
  apply exchange_law in E as [Hf Hs]; [|done]. simpl in Hs.
  destruct (300 <=? code); intros Hr; simplify_eq. split; eauto.
Qed.

(** An error that carries a status comes from an answer. *)
Lemma status_cases c e s code s' (err : goerr) :
  wf_endpoint e = true -> (exists r, exchange c (request_of e) s = (r, s') /\
    match r with
    | inl er => err = er
    | inr (st, a) => 300 <= st -> err = ErrAPI st (TrimSpace (answer_text a))
    end /\ match r with inr (st, _) => 300 <= st | _ => True end) ->
  IsStatus err code = true ->
  acts c s s' (fun d d' => unchanged e d d' /\ (code = 404 -> missing e d) /\ (code = 409 -> conflict e d)).
Proof.
  intros Hwf (r & E & Herr & Hst) Hc. pose proof (exchange_law c e s r s' Hwf E) as [Hf Hs].
  split; [done|]. destruct r as [er|[st a]].
  - subst. apply (transport_law c _ s er s') with (code := code) in E. congruence.
  - rewrite Herr in Hc by done. simpl in Hc. apply Z.eqb_eq in Hc as ->. simpl in Hs.
    by rewrite (proj2 (Z.leb_le 300 code)) in Hs.
Qed.

Lemma do_status {A} c e (zero : A) out s err s' code :
  wf_endpoint e = true -> do c (request_of e) zero out s = (inl err, s') -> IsStatus err code = true ->
  acts c s s' (fun d d' => unchanged e d d' /\ (code = 404 -> missing e d) /\ (code = 409 -> conflict e d)).
Proof.
  intros Hwf Hd Hc. apply (status_cases c e s code s' err); [done| |done].
  unfold do in Hd. destruct (exchange c (request_of e) s) as [[er|[st a]] s1]; simplify_eq; [eauto|].
  destruct (Z.leb_spec 300 st); simplify_eq; [eauto 10|].
  destruct a as [|t|v]; simplify_eq.
  - case_bool_decide; by simplify_eq.
  - destruct (out v); by simplify_eq.
Qed.

Lemma do__status c e s err s' code :
  wf_endpoint e = true -> do_ c (request_of e) s = (inl err, s') -> IsStatus err code = true ->
  acts c s s' (fun d d' => unchanged e d d' /\ (code = 404 -> missing e d) /\ (code = 409 -> conflict e d)).
Proof.
  intros Hwf Hd Hc. apply (status_cases c e s code s' err); [done| |done].
  unfold do_ in Hd. destruct (exchange c (request_of e) s) as [[er|[st a]] s1]; simplify_eq; [eauto|].
  destruct (Z.leb_spec 300 st); simplify_eq; eauto 10.
Qed.

(** ** Maps *)

(** Only the map [n] may change. *)
Definition same_but_map (n : string) (d d' : lb) : Prop :=
  lb_conf d' = lb_conf d /\ lb_version d' = lb_version d /\ lb_txs d' = lb_txs d /\
  (forall m, m <> n -> lb_maps d' !! m = lb_maps d !! m) /\
  lb_certs d' = lb_certs d /\ lb_crt_lists d' = lb_crt_lists d /\ lb_general d' = lb_general d /\
  lb_sessions d' = lb_sessions d.

Lemma same_but_map_refl n d : same_but_map n d d.
Proof. by split_and!. Qed.

Lemma same_but_map_trans n a b d : same_but_map n a b -> same_but_map n b d -> same_but_map n a d.
Proof.
  intros (?&?&?&Hm1&?&?&?&?) (?&?&?&Hm2&?&?&?&?). split_and!; try congruence.
  intros m Hm. by rewrite Hm2, Hm1.
Qed.

Lemma with_map_same n l d : same_but_map n d (with_map n l d).
Proof. split_and!; try done. intros m Hm. simpl. by rewrite lookup_insert_ne. Qed.

(** The entries [l] are those of the map [m], each once. *)
Definition holds (l : list MapEntry) (m : gmap string string) : Prop :=
  NoDup (EKey <$> l) /\ forall k v, MkEntry k v ∈ l <-> m !! k = Some v.

Definition content (n : string) (d : lb) : list MapEntry := default [] (lb_maps d !! n).

Lemma has_key_spec k l : has_key k l = true <-> k ∈ EKey <$> l.
Proof.
  unfold has_key. rewrite existsb_exists, list_elem_of_fmap. setoid_rewrite <- list_elem_of_In.
  split; intros (e & He1 & He2).
  - apply bool_decide_eq_true in He2. eauto.
  - exists e. split; [done|]. by apply bool_decide_eq_true.
Qed.

Lemma holds_key l m k : holds l m -> k ∈ EKey <$> l <-> is_Some (m !! k).
Proof.
  intros [_ Hm]. rewrite list_elem_of_fmap. split.
  - intros ([k' v] & -> & He). exists v. by apply Hm.
  - intros [v Hv]. exists (MkEntry k v). split; [done|]. by apply Hm.
Qed.

Lemma holds_nil : holds [] ∅.
Proof. split; [constructor|]. intros k v. rewrite lookup_empty. set_solver. Qed.

Lemma holds_post k v l m : has_key k l = false -> holds l m -> holds (l ++ [MkEntry k v]) (<[k := v]> m).
Proof.
  intros Hk [Hnd Hm]. assert (Hn : k ∉ EKey <$> l) by (rewrite <- has_key_spec; congruence). split.
  - rewrite fmap_app. apply NoDup_app. split_and!; [done| |apply NoDup_singleton]. set_solver.
  - intros k' v'. rewrite elem_of_app, list_elem_of_singleton, Hm. rewrite lookup_insert_Some.
    split; [|intros [[-> ->]|[? ?]]; auto].
    intros [Hk'|[= -> ->]]; [|auto]. right. split; [|done]. intros ->.
    apply Hn. apply (holds_key l m); [by split|]. eauto.
Qed.

Lemma set_key_keys k v l : EKey <$> set_key k v l = EKey <$> l.
Proof.
  unfold set_key. rewrite <- list_fmap_compose. apply list_fmap_ext. intros i e _. simpl.
  case_bool_decide; done.
Qed.

Lemma holds_put k v l m : has_key k l = true -> holds l m -> holds (set_key k v l) (<[k := v]> m).
Proof.
  intros Hk [Hnd Hm]. apply has_key_spec in Hk. split; [by rewrite set_key_keys|].
  intros k' v'. unfold set_key. rewrite list_elem_of_fmap, lookup_insert_Some. split.
  - intros ([k1 v1] & Heq & He). simpl in Heq. case_bool_decide; simplify_eq; [by left|].
    right. split; [done|]. by apply Hm.
  - intros [[-> ->]|[Hne Hv]].
    + apply list_elem_of_fmap in Hk as ([k1 v1] & -> & He). exists (MkEntry k1 v1). simpl.
      by rewrite bool_decide_eq_true_2.
    + exists (MkEntry k' v'). simpl. rewrite bool_decide_eq_false_2 by done. split; [done|]. by apply Hm.
Qed.

Lemma holds_delete k l m : holds l m -> holds (base.filter (fun e => EKey e <> k) l) (delete k m).
Proof.
  intros [Hnd Hm]. split.
  - by apply NoDup_fmap_filter.
  - intros k' v'. rewrite list_elem_of_filter, Hm, lookup_delete_Some. simpl. naive_solver.
Qed.

Lemma holds_ext l m m' : holds l m -> (forall k, m' !! k = m !! k) -> holds l m'.
Proof. intros Hl He. by rewrite (map_eq m' m He). Qed.

Lemma want_of_snoc l e : want_of (l ++ [e]) = <[EKey e := EValue e]> (want_of l).
Proof. unfold want_of. by rewrite foldl_app. Qed.

Lemma index_entries_snoc l e :
  index_entries (l ++ [e]) =
  (<[EKey e := EValue e]> (index_entries l).1,
   (index_entries l).2 || bool_decide (is_Some ((index_entries l).1 !! EKey e))).
Proof. unfold index_entries. by rewrite foldl_app. Qed.

Lemma index_entries_holds l cur dup : index_entries l = (cur, dup) -> dup = false -> holds l cur.
Proof.
  revert cur dup. induction l as [|e l IH] using rev_ind; intros cur dup.
  - intros [= <- <-] _. apply holds_nil.
  - rewrite index_entries_snoc. destruct (index_entries l) as [m b]. simpl. intros [= <- <-].
    intros [-> Hn]%orb_false_iff. apply bool_decide_eq_false in Hn. destruct e as [k v]. simpl in *.
    specialize (IH m false eq_refl eq_refl). apply holds_post; [|done].
    apply not_true_iff_false. by rewrite has_key_spec, (holds_key l m k IH).
Qed.

(** A call on the entries of one map. *)
Lemma entries_edit_ok c e n f s x s' :
  entries_edit e = Some (n, f) -> wf_endpoint e = true -> do_ c (request_of e) s = (inr x, s') ->
  acts c s s' (fun d d' => same_but_map n d d' /\
    exists l l', lb_maps d !! n = Some l /\ f l = Some l' /\ lb_maps d' !! n = Some l').
Proof.
  intros He Hwf Hd. apply do__ok in Hd; [|done]. eapply acts_impl; [exact Hd|]. intros d d' [a Ha].
  destruct e; simpl in He; simplify_eq; simpl in Ha; destruct Ha as (l & l' & Hl & Hf & ->);
    (split; [apply with_map_same|]; exists l, l'; split_and!; [done|done|apply lookup_insert_eq]).
Qed.

(** An operation on the map [n] that turns contents satisfying [pre] by [upd]. *)
Definition updates (n : string) (pre : gmap string string -> Prop)
    (upd : gmap string string -> gmap string string) (d d' : lb) : Prop :=
  same_but_map n d d' /\ forall m, holds (content n d) m -> pre m -> holds (content n d') (upd m).

Lemma updates_refl n d : updates n (fun _ => True) id d d.
Proof. split; [apply same_but_map_refl|done]. Qed.

Lemma content_some n d l : lb_maps d !! n = Some l -> content n d = l.
Proof. unfold content. by intros ->. Qed.

Lemma post_updates c n k v s x s' :
  safe n = true -> tolerate 409 tt (post_entry c n k v) s = (inr x, s') ->
  acts c s s' (updates n (fun m => m !! k = None) (fun m => <[k := v]> m)).
Proof.
  intros Hn. unfold tolerate.
  destruct (post_entry c n k v s) as [[e|u] s1] eqn:E.
  - destruct (IsStatus e 409) eqn:Es; intros Hs; simplify_eq.
    apply (do__status c (EPostEntry n k v)) with (code := 409) in E; [|done..].
    eapply acts_impl; [exact E|]. intros d d' [Hu [_ Hc]]. simpl in Hu. subst d'.
    split; [apply same_but_map_refl|]. intros m Hm Hk. exfalso.
    destruct (Hc eq_refl) as (l & Hl & Hh). rewrite (content_some n d l Hl) in Hm.
    apply has_key_spec, (holds_key l m k Hm) in Hh. rewrite Hk in Hh. by destruct Hh.
  - intros Hs. simplify_eq. pose proof (entries_edit_ok c (EPostEntry n k v) n _ s _ _ eq_refl Hn E) as E'.
    eapply acts_impl; [exact E'|]. intros d d' [Hsame (l & l' & Hl & Hf & Hl')]. split; [done|].
    intros m Hm _. rewrite (content_some n d l Hl) in Hm. rewrite (content_some n d' l' Hl').
    destruct (has_key k l) eqn:Hk; simplify_eq. by apply holds_post.
Qed.

Lemma put_updates c n k v s x s' :
  safe n = true -> put_entry c n k v s = (inr x, s') ->
  acts c s s' (updates n (fun _ => True) (fun m => <[k := v]> m)).
Proof.
  intros Hn E. pose proof (entries_edit_ok c (EPutEntry n k v) n _ s _ _ eq_refl Hn E) as E'.
  eapply acts_impl; [exact E'|]. intros d d' [Hsame (l & l' & Hl & Hf & Hl')]. split; [done|].
  intros m Hm _. rewrite (content_some n d l Hl) in Hm. rewrite (content_some n d' l' Hl').
  destruct (has_key k l) eqn:Hk; simplify_eq. by apply holds_put.
Qed.

Lemma delete_updates c n k s x s' :
  safe n = true -> tolerate 404 tt (delete_entry c n k) s = (inr x, s') ->
  acts c s s' (updates n (fun m => is_Some (m !! k)) (fun m => delete k m)).
Proof.
  intros Hn. unfold tolerate.
  destruct (delete_entry c n k s) as [[e|u] s1] eqn:E.
  - destruct (IsStatus e 404) eqn:Es; intros Hs; simplify_eq.
    apply (do__status c (EDeleteEntry n k)) with (code := 404) in E; [|done..].
    eapply acts_impl; [exact E|]. intros d d' [Hu [Hc _]]. simpl in Hu. subst d'.
    split; [apply same_but_map_refl|]. intros m Hm Hk. exfalso.
    apply (holds_key _ m k Hm), has_key_spec in Hk. unfold content in Hk.
    destruct (lb_maps d !! n) as [l|] eqn:Hl; [|done]. specialize (Hc eq_refl l Hl).
    simpl in Hk. congruence.
  - intros Hs. simplify_eq. pose proof (entries_edit_ok c (EDeleteEntry n k) n _ s _ _ eq_refl Hn E) as E'.
    eapply acts_impl; [exact E'|]. intros d d' [Hsame (l & l' & Hl & Hf & Hl')]. split; [done|].
    intros m Hm _. rewrite (content_some n d l Hl) in Hm. rewrite (content_some n d' l' Hl').
    destruct (has_key k l) eqn:Hk; simplify_eq. by apply holds_delete.
Qed.

Lemma clear_updates c n s x s' :
  safe n = true -> tolerate 404 tt (clear_map c n) s = (inr x, s') ->
  acts c s s' (fun d d' => same_but_map n d d' /\ content n d' = []).
Proof.
  intros Hn. unfold tolerate.
  destruct (clear_map c n s) as [[e|u] s1] eqn:E.
  - destruct (IsStatus e 404) eqn:Es; intros Hs; simplify_eq.
    apply (do__status c (EClearMap n)) with (code := 404) in E; [|done..].
    eapply acts_impl; [exact E|]. intros d d' [Hu [Hc _]]. simpl in Hu. subst d'.
    split; [apply same_but_map_refl|]. unfold content. by rewrite (Hc eq_refl).
  - intros Hs. simplify_eq. pose proof (entries_edit_ok c (EClearMap n) n _ s _ _ eq_refl Hn E) as E'.
    eapply acts_impl; [exact E'|]. intros d d' [Hsame (l & l' & Hl & Hf & Hl')]. split; [done|].
    rewrite (content_some n d' l' Hl'). by simplify_eq.
Qed.

Lemma MapEntries_ok c n s l s' :
  safe n = true -> tolerate 404 [] (MapEntries c n) s = (inr l, s') ->
  acts c s s' (fun d d' => d' = d /\ l = content n d).
Proof.
  intros Hn. unfold tolerate, content.
  destruct (MapEntries c n s) as [[e|u] s1] eqn:E.
  - destruct (IsStatus e 404) eqn:Es; intros Hs; simplify_eq.
    apply (do_status c (EEntries n)) with (code := 404) in E; [|done..].
    eapply acts_impl; [exact E|]. intros d d' [Hu [Hc _]]. simpl in Hu. subst d'.
    split; [done|]. by rewrite (Hc eq_refl).
  - intros Hs. simplify_eq. apply (do_ok c (EEntries n)) in E; [|done].
    eapply acts_impl; [exact E|]. intros d d' (a & (-> & l' & Hl & Hr') & Hr). split; [done|].
    rewrite Hl. simpl. destruct a as [|t|v]; simpl in Hr, Hr'; naive_solver congruence.
Qed.

Lemma wrapping_inv {A} p (m : M St A) s x s' : wrapping p m s = (inr x, s') -> m s = (inr x, s').
Proof. unfold wrapping. destruct (m s) as [[e|y] s1]; naive_solver. Qed.

Lemma acts_ret c s (P : lb -> lb -> Prop) : (forall d, P d d) -> acts c s s P.
Proof. intros HP. split; done. Qed.

Lemma sync_wanted_ok c n cur L s x s' :
  safe n = true -> NoDup L.*1 -> sync_wanted c n cur L s = (inr x, s') ->
  acts c s s' (updates n (fun m => forall k, k ∈ L.*1 -> m !! k = cur !! k) (fun m => list_to_map L ∪ m)).
Proof.
  intros Hn. revert s. induction L as [|[k v] L IH]; intros s Hnd Hs.
  - simpl in Hs. M_inv. apply acts_ret. intros d. split; [apply same_but_map_refl|].
    intros m Hm _. simpl. by rewrite (left_id_L ∅ (∪)).
  - simpl in Hs. M_inv. apply NoDup_cons in Hnd as [Hk Hnd]. apply IH in Hs; [|done].
    assert (Hone : acts c s s0 (updates n (fun m => m !! k = cur !! k) (fun m => <[k := v]> m))).
    { destruct (cur !! k) as [cv|] eqn:Hcur.
      - case_bool_decide as Hv; [subst cv|].
        + unfold mret, M_ret in Hm. simplify_eq. apply acts_ret. intros d.
          split; [apply same_but_map_refl|]. intros m Hh Hk'. by rewrite insert_id.
        + apply wrapping_inv, put_updates in Hm; [|done]. eapply acts_impl; [exact Hm|].
          intros d d' [Hf Hu]. split; auto.
      - apply wrapping_inv, post_updates in Hm; [|done]. done. }
    eapply acts_trans; [exact Hone|exact Hs|]. intros d1 d2 d3 [Hf1 Hu1] [Hf2 Hu2].
    split; [by eapply same_but_map_trans|]. intros m Hh Hpre. simpl.
    rewrite <- insert_union_l. rewrite insert_union_r; [|].
    + apply Hu2; [|].
      * apply Hu1; [done|]. apply Hpre. set_solver.
      * intros k' Hk'. rewrite lookup_insert_ne by set_solver. apply Hpre. set_solver.
    + by apply not_elem_of_list_to_map.
Qed.

Lemma sync_unwanted_ok c n want (L : list (string * string)) s x s' :
  safe n = true -> NoDup L.*1 -> sync_unwanted c n want L s = (inr x, s') ->
  acts c s s' (fun d d' => same_but_map n d d' /\ forall m, holds (content n d) m ->
    (forall k, k ∈ L.*1 -> is_Some (m !! k)) ->
    exists m', holds (content n d') m' /\
      forall k, m' !! k = if decide (k ∈ L.*1 /\ want !! k = None) then None else m !! k).
Proof.
  intros Hn. revert s. induction L as [|[k v] L IH]; intros s Hnd Hs.
  - simpl in Hs. M_inv. apply acts_ret. intros d. split; [apply same_but_map_refl|].
    intros m Hm _. exists m. split; [done|]. intros k. case_decide; set_solver.
  - simpl in Hs. M_inv. apply NoDup_cons in Hnd as [Hk Hnd]. apply IH in Hs; [|done].
    assert (Hone : acts c s s0 (updates n (fun m => is_Some (m !! k))
                     (fun m => if decide (want !! k = None) then delete k m else m))).
    { case_bool_decide as Hw.
      - unfold mret, M_ret in Hm. simplify_eq. apply acts_ret. intros d.
        split; [apply same_but_map_refl|]. intros m Hh _.
        rewrite decide_False; [done|]. intros Hnone. rewrite Hnone in Hw. by destruct Hw.
      - apply wrapping_inv, delete_updates in Hm; [|done]. eapply acts_impl; [exact Hm|].
        intros d d' [Hf Hu]. split; [done|]. intros m Hh Hp.
        rewrite decide_True by (by apply eq_None_not_Some). by apply Hu. }
    eapply acts_trans; [exact Hone|exact Hs|]. intros d1 d2 d3 [Hf1 Hu1] [Hf2 Hu2].
    split; [by eapply same_but_map_trans|]. intros m Hh Hpre.
    destruct (Hu2 _ (Hu1 m Hh ltac:(apply Hpre; set_solver))) as (m' & Hm' & Hlk).
    { intros k' Hk'. assert (k <> k') by set_solver. case_decide; [rewrite lookup_delete_ne by done|];
        apply Hpre; set_solver. }
    exists m'. split; [done|]. intros k'. rewrite Hlk. clear -Hk.
    destruct (decide (k' = k)) as [->|Hne].
    + repeat case_decide; try done; try set_solver. by rewrite lookup_delete_eq.
    + repeat case_decide; rewrite ?lookup_delete_ne by done; try done; set_solver.
Qed.

Context `{HO : MapOrder}.

Lemma range_NoDup {A} (m : gmap string A) : NoDup (range m).*1.
Proof. rewrite range_perm. apply NoDup_fst_map_to_list. Qed.

Lemma range_keys {A} (m : gmap string A) k : k ∈ (range m).*1 <-> is_Some (m !! k).
Proof.
  rewrite range_perm, list_elem_of_fmap. split.
  - intros ([k' v] & -> & Hm). apply elem_of_map_to_list in Hm. eauto.
  - intros [v Hv]. exists (k, v). split; [done|]. by apply elem_of_map_to_list.
Qed.

Lemma range_map {A} (m : gmap string A) : list_to_map (range m) = m.
Proof.
  rewrite <- (list_to_map_to_list m) at 2. apply list_to_map_proper; [apply range_NoDup|apply range_perm].
Qed.

(** What [SyncMap] makes of the map it is given. *)
Definition synced (n : string) (desired : list MapEntry) (d d' : lb) : Prop :=
  same_but_map n d d' /\ holds (content n d') (want_of desired).

Lemma SyncMap_ok c n desired s x s' :
  safe n = true -> SyncMap c n desired s = (inr x, s') -> acts c s s' (synced n desired).
Proof.
  intros Hn Hs. unfold SyncMap in Hs. M_inv. destruct (index_entries a) as [cur dup] eqn:Hi. M_inv.
  apply MapEntries_ok in Hm; [|done].
  set (cur0 := if dup then ∅ else cur) in *.
  assert (Hclear : acts c s s1 (fun d d' => same_but_map n d d' /\ holds (content n d') cur0)).
  { destruct dup.
    - apply wrapping_inv, clear_updates in Hm0; [|done]. eapply acts_trans; [exact Hm|exact Hm0|].
      intros d1 d2 d3 [-> _] [Hf ->]. split; [done|apply holds_nil].
    - unfold mret, M_ret in Hm0. simplify_eq. eapply acts_impl; [exact Hm|]. intros d d' [-> ->].
      split; [apply same_but_map_refl|]. by eapply index_entries_holds. }
  apply sync_wanted_ok in Hm1; [|done|apply range_NoDup].
  apply sync_unwanted_ok in Hs; [|done|apply range_NoDup].
  eapply acts_trans; [eapply acts_trans; [exact Hclear|exact Hm1|]|exact Hs|].
  - intros d1 d2 d3 [Hf1 Hc] [Hf2 Hw].
    exact (conj (same_but_map_trans n d1 d2 d3 Hf1 Hf2) (Hw cur0 Hc (fun k _ => eq_refl))).
  - intros d1 d2 d3 [Hf1 Hc] [Hf2 Hw]. split; [by eapply same_but_map_trans|].
    rewrite range_map in Hc. destruct (Hw _ Hc) as (m' & Hm' & Hlk).
    { intros k [v Hv]%range_keys. apply lookup_union_is_Some. eauto. }
    eapply holds_ext; [exact Hm'|]. intros k. rewrite Hlk, lookup_union.
    destruct (want_of desired !! k) as [v|] eqn:Hw'.
    + rewrite decide_False by naive_solver. by destruct (cur0 !! k).
    + rewrite (left_id_L None (∪)). case_decide as Hd; [done|]. symmetry. apply eq_None_ne_Some_2.
      intros v Hv. apply Hd. split; [|done]. apply range_keys. eauto.
Qed.

End Effects.
