(* ===== verification/Site.v ===== *)
(** * A site of load balancers in memory

    [SiteHTTP] routes the requests of the client by method and path, as the
    Dataplane API does, and applies them to the load balancer of the address
    asked; a schedule of failures loses some exchanges.  [site_laws] shows that
    it satisfies [HaproxyLaws], so the hypotheses of the theorems about the
    client and the reconciler hold of a concrete function. *)
From Stdlib Require Import Ascii.
From S2P Require Import Prelude GoStr Json Httpx Dataplane Haproxy.

Local Open Scope list_scope.
Local Open Scope Z_scope.

(** ** Reading a path *)

Definition unhex (a : ascii) : nat :=
  let n := nat_of_ascii a in if in_range 65 70 a then n - 55 else n - 48.

Definition unhex2 (x y : ascii) : ascii := ascii_of_nat (16 * unhex x + unhex y).

Fixpoint PathUnescape (s : string) : string :=
  match s with
  | EmptyString => EmptyString
  | String a s' =>
      if Ascii.eqb a "%"%char then
        match s' with
        | String x (String y s'') => String (unhex2 x y) (PathUnescape s'')
        | _ => s
        end
      else String a (PathUnescape s')
  end.

(** The segments of a path under a prefix. *)
Definition under (p : string) (r : request) : option (list string) :=
  rest ← cut_prefix p (m_path r); Some (PathUnescape <$> Split "/"%char rest).

Definition param (k : string) (r : request) : option string :=
  snd <$> list_find (fun p => p.1 = k) (m_query r) ≫= fun x => Some x.2.

Definition meth (m : string) (r : request) : bool := bool_decide (m_method r = m).

Definition json_body (r : request) : option json := match m_body r with RJson v => Some v | _ => None end.
Definition text_body (r : request) : option string := match m_body r with RText s => Some s | _ => None end.
Definition file_body (r : request) : option (string * string) := match m_body r with RFile n s => Some (n, s) | _ => None end.

Definition route_fixed (r : request) : option endpoint :=
  if String.eqb (m_path r) "/info" then Some EInfo
  else if String.eqb (m_path r) "/services/haproxy/configuration/version" then Some EVersion
  else if String.eqb (m_path r) "/services/haproxy/stats/native" then EStats <$> param "name" r
  else None.

Definition route_tx (r : request) : option endpoint :=
  segs ← under "/services/haproxy/transactions" r;
  match segs with
  | [_] => v ← param "version" r; EBegin <$> parse_dec v
  | [_; id] => if meth "PUT" r then Some (ECommit id) else if meth "DELETE" r then Some (EAbort id) else None
  | _ => None
  end.

Definition route_backends (r : request) : option endpoint :=
  segs ← under backends_path r;
  match segs with
  | [_] => if meth "GET" r then Some EBackends
           else id ← param "transaction_id" r; v ← json_body r; ECreateBackend id <$> dec_backend v
  | [_; n] => id ← param "transaction_id" r; Some (EDeleteBackend id n)
  | [_; n; _] => if meth "GET" r then Some (EServers n)
                 else id ← param "transaction_id" r; v ← json_body r; ECreateServer id n <$> dec_server v
  | [_; n; _; m] => id ← param "transaction_id" r;
                    if meth "PUT" r then v ← json_body r; EReplaceServer id n <$> dec_server v
                    else Some (EDeleteServer id n m)
  | _ => None
  end.

Definition route_maps (r : request) : option endpoint :=
  segs ← under "/services/haproxy/runtime/maps" r;
  match segs with
  | [_; n] => Some (EClearMap n)
  | [_; n; _] => if meth "GET" r then Some (EEntries n)
                 else v ← json_body r; e ← dec_entry v; Some (EPostEntry n (EKey e) (EValue e))
  | [_; n; _; k] => if meth "PUT" r
                    then v ← json_body r; x ← dec_obj (fun l => dec_string (field "value" l)) v; Some (EPutEntry n k x)
                    else Some (EDeleteEntry n k)
  | _ => None
  end.

Definition route_files (r : request) : option endpoint :=
  match under "/services/haproxy/storage/ssl_certificates" r with
  | Some [_; n] => EPutCert n <$> text_body r
  | Some _ => f ← file_body r; Some (EPostCert f.1 f.2)
  | None =>
      match under "/services/haproxy/storage/ssl_crt_lists" r with
      | Some [_; n] => if meth "GET" r then Some (EGetCrtList n) else EPutCrtList n <$> text_body r
      | _ =>
          segs ← under "/services/haproxy/storage/general" r;
          match segs with
          | [_; n] => if meth "GET" r then Some (EGetGeneral n) else f ← file_body r; Some (EPutGeneral n f.2)
          | _ => f ← file_body r; Some (EPostGeneral f.1 f.2)
          end
      end
  end.

Definition route (r : request) : option endpoint :=
  match route_fixed r with
  | Some e => Some e
  | None =>
      match route_tx r with
      | Some e => Some e
      | None =>
          match route_backends r with
          | Some e => Some e
          | None => match route_maps r with Some e => Some e | None => route_files r end
          end
      end
  end.

(** ** Serving *)

(** The answer of a reading, when it is one the client decodes to [x]. *)
Definition read_answer {A} `{EqDecision A} (out : json -> option A) (v : json) (x : A) (d : lb) : Z * answer * lb :=
  if bool_decide (out v = Some x) then (200, AJson v, d) else (500, AEmpty, d).

Definition tx_json (t : Transaction) : json :=
  JObj [("_version", JInt (TxVersion t)); ("id", JStr (TxID t)); ("status", JStr (TxStatus t))]%string.

#[export] Instance tx_eq_dec : EqDecision Transaction.
Proof. solve_decision. Defined.

Definition named (n : string) (b : Backend) : Backend :=
  MkBackend n (BMode b) (BBalance b) (BAdvCheck b) (BChk b) (BDefault b) (BFrom b).

(** A transaction is named after the version it starts from. *)
Definition begin_tx (v : Z) (d : lb) : Z * answer * lb :=
  let t := MkTx ("tx" +:+ FormatInt (lb_version d))%string "in_progress" (lb_version d) in
  if bool_decide (v = lb_version d /\ safe (TxID t) = true /\ lb_txs d !! TxID t = None)
  then let '(code, a, _) := read_answer dec_tx (tx_json t) t d in
       if code =? 200 then (201, a, with_txs (<[TxID t := lb_conf d]> (lb_txs d)) d) else (500, AEmpty, d)
  else (406, AEmpty, d).

(** The edits of an open transaction and of a map. *)
Definition serve_edit (e : endpoint) (d : lb) : Z * answer * lb :=
  match edit e, entries_edit e with
  | Some (id, f), _ =>
      match lb_txs d !! id with
      | Some c => match f c with
                  | Some c' => (201, AEmpty, with_txs (<[id := c']> (lb_txs d)) d)
                  | None => (400, AEmpty, d)
                  end
      | None => (404, AEmpty, d)
      end
  | _, Some (m, f) =>
      match lb_maps d !! m with
      | Some l => match f l with
                  | Some l' => (201, AEmpty, with_map m l' d)
                  | None => (match e with EPostEntry _ _ _ => 409 | _ => 404 end, AEmpty, d)
                  end
      | None => (404, AEmpty, d)
      end
  | _, _ => (500, AEmpty, d)
  end.

Definition serve (e : endpoint) (d : lb) : Z * answer * lb :=
  match e with
  | EInfo => (200, AEmpty, d)
  | EVersion => read_answer dec_int (JInt (lb_version d)) (lb_version d) d
  | EBegin v => begin_tx v d
  | ECommit id =>
      match lb_txs d !! id with
      | Some c => (202, AEmpty, with_conf (lb_version d + 1) c (with_txs (delete id (lb_txs d)) d))
      | None => (404, AEmpty, d)
      end
  | EAbort id => (204, AEmpty, with_txs (delete id (lb_txs d)) d)
  | EBackends =>
      let l := (fun p => named p.1 (bc_def p.2)) <$> map_to_list (lb_conf d) in
      read_answer (dec_list dec_backend) (JArr (map backend_json l)) l d
  | EServers b =>
      match lb_conf d !! b with
      | Some bc => read_answer (dec_list dec_server) (JArr (map server_json (bc_servers bc))) (bc_servers bc) d
      | None => (404, AEmpty, d)
      end
  | EEntries m =>
      match lb_maps d !! m with
      | Some l => read_answer (dec_list dec_entry) (JArr (map entry_json l)) l d
      | None => (404, AEmpty, d)
      end
  | EPutCert n pem => if bool_decide (is_Some (lb_certs d !! n)) then (200, AEmpty, with_cert n pem d) else (404, AEmpty, d)
  | EPostCert n pem => (201, AEmpty, with_cert n pem d)
  | EGetCrtList n => match lb_crt_lists d !! n with Some s => (200, AText s, d) | None => (404, AEmpty, d) end
  | EPutCrtList n s => (200, AEmpty, with_crt_list n s d)
  | EGetGeneral n => match lb_general d !! n with Some s => (200, AText s, d) | None => (404, AEmpty, d) end
  | EPostGeneral n s | EPutGeneral n s => (201, AEmpty, with_general n s d)
  | EStats b =>
      (200, AJson (JObj [("stats"%string, JArr [JObj [("name", JStr b); ("type", JStr "backend");
              ("stats", JObj [("scur", JInt (default 0 (lb_sessions d !! b)))])]%string])]), d)
  | e => serve_edit e d
  end.

Record site : Type := MkSite { site_lbs : gmap string lb; site_faults : list bool }.

Definition lb_at (b : string) (s : site) : lb := default empty_lb (site_lbs s !! b).

#[export] Instance SiteHTTP : DataplaneHTTP site := {|
  exchange c r s :=
    match site_faults s with
    | true :: fs => (inl (Err "connection refused"%string), MkSite (site_lbs s) fs)
    | fs =>
        match route r with
        | Some e => let '(code, a, d) := serve e (lb_at (Base c) s) in
                    (inr (code, a), MkSite (<[Base c := d]> (site_lbs s)) (tail fs))
        | None => (inr (500, AEmpty), MkSite (site_lbs s) (tail fs))
        end
    end
|}.

#[export] Instance SiteView : Haproxy site := {| view := lb_at |}.

(** ** The laws *)

Lemma with_txs_id d : with_txs (lb_txs d) d = d.
Proof. by destruct d. Qed.

Lemma read_answer_cases {A} `{EqDecision A} (out : json -> option A) v x d :
  (read_answer out v x d = (200, AJson v, d) /\ out v = Some x) \/ read_answer out v x d = (500, AEmpty, d).
Proof. unfold read_answer. case_bool_decide; auto. Qed.

Lemma unchanged_refl e d : unchanged e d d.
Proof. destruct e; simpl; try done; exists (lb_txs d); by rewrite with_txs_id. Qed.

Lemma refused_spec e d code : 300 <= code -> code <> 404 -> code <> 409 -> exchange_spec e d (inr (code, AEmpty)) d.
Proof.
  intros Hc Hn Hm. simpl. rewrite (proj2 (Z.leb_le 300 code) Hc).
  split_and!; [apply unchanged_refl|done..].
Qed.

Lemma missing_spec e d : missing e d -> exchange_spec e d (inr (404, AEmpty)) d.
Proof. intros Hm. simpl. split_and!; [apply unchanged_refl|done..]. Qed.

Lemma begin_spec v d code a d' : begin_tx v d = (code, a, d') -> exchange_spec (EBegin v) d (inr (code, a)) d'.
Proof.
  unfold begin_tx. case_bool_decide as Hc; [|intros [= <- <- <-]; by apply refused_spec].
  destruct Hc as (-> & Hs & Hn).
  match goal with |- context [read_answer dec_tx ?v ?t d] =>
    destruct (read_answer_cases dec_tx v t d) as [[-> Ht]| ->]; simpl; intros [= <- <- <-] end.
  - simpl. split; [done|]. eexists. split_and!; [exact Ht|done..].
  - by split_and!.
Qed.

Lemma edit_spec e d id f code a d' :
  edit e = Some (id, f) ->
  match lb_txs d !! id with
  | Some c => match f c with
              | Some c' => (201, AEmpty, with_txs (<[id := c']> (lb_txs d)) d)
              | None => (400, AEmpty, d)
              end
  | None => (404, AEmpty, d)
  end = (code, a, d') -> exchange_spec e d (inr (code, a)) d'.
Proof.
  intros He. destruct (lb_txs d !! id) as [c|] eqn:Hc.
  - destruct (f c) as [c'|] eqn:Hf; intros [= <- <- <-]; [|by apply refused_spec].
    destruct e; simpl in *; simplify_eq; eauto.
  - intros [= <- <- <-]. apply missing_spec. by destruct e; simpl in *; simplify_eq.
Qed.

Lemma entries_spec e d m f code a d' :
  entries_edit e = Some (m, f) ->
  match lb_maps d !! m with
  | Some l => match f l with
              | Some l' => (201, AEmpty, with_map m l' d)
              | None => (match e with EPostEntry _ _ _ => 409 | _ => 404 end, AEmpty, d)
              end
  | None => (404, AEmpty, d)
  end = (code, a, d') -> exchange_spec e d (inr (code, a)) d'.
Proof.
  intros He. destruct (lb_maps d !! m) as [l|] eqn:Hl.
  - destruct (f l) as [l'|] eqn:Hf; intros [= <- <- <-].
    + destruct e; simpl in *; simplify_eq; eauto.
    + destruct e; simpl in *; simplify_eq; simpl; (split_and!; [done| |]); intros; try done.
      * exists l. split; [done|]. by destruct (has_key k l).
      * destruct (has_key k l) eqn:Hk; simplify_eq. congruence.
  - intros [= <- <- <-]. apply missing_spec. destruct e; simpl in *; simplify_eq; try done; intros; congruence.
Qed.

Lemma serve_edit_spec e d code a d' : serve_edit e d = (code, a, d') -> exchange_spec e d (inr (code, a)) d'.
Proof.
  unfold serve_edit. destruct (edit e) as [[id f]|] eqn:He; [by apply edit_spec|].
  destruct (entries_edit e) as [[m f]|] eqn:Hm; [by apply entries_spec|].
  intros [= <- <- <-]. by apply refused_spec.
Qed.

Lemma serve_spec e d code a d' : serve e d = (code, a, d') -> exchange_spec e d (inr (code, a)) d'.
Proof.
  destruct e; simpl serve; try apply serve_edit_spec;
    try (intros [= <- <- <-]; done).
  - destruct (read_answer_cases dec_int (JInt (lb_version d)) (lb_version d) d) as [[-> Ht]| ->];
      intros [= <- <- <-]; [done|by apply refused_spec].
  - apply begin_spec.
  - destruct (lb_txs d !! id) eqn:Hc; intros [= <- <- <-]; [simpl; eauto|by apply missing_spec].
  - match goal with |- context [read_answer _ ?v ?t d] =>
      destruct (read_answer_cases (dec_list dec_backend) v t d) as [[-> Ht]| ->]; intros [= <- <- <-] end.
    + simpl. split; [done|]. eexists. split; [exact Ht|]. rewrite <- !list_fmap_compose. done.
    + by apply refused_spec.
  - destruct (lb_conf d !! b) as [bc|] eqn:Hb; [|intros [= <- <- <-]; by apply missing_spec].
    match goal with |- context [read_answer _ ?v ?t d] =>
      destruct (read_answer_cases (dec_list dec_server) v t d) as [[-> Ht]| ->]; intros [= <- <- <-] end.
    + simpl. split; [done|]. eauto.
    + by apply refused_spec.
  - destruct (lb_maps d !! m) as [l|] eqn:Hm; [|intros [= <- <- <-]; by apply missing_spec].
    match goal with |- context [read_answer _ ?v ?t d] =>
      destruct (read_answer_cases (dec_list dec_entry) v t d) as [[-> Ht]| ->]; intros [= <- <- <-] end.
    + simpl. split; [done|]. eauto.
    + by apply refused_spec.
  - case_bool_decide as Hc; intros [= <- <- <-]; [done|].
    apply missing_spec. simpl. by apply eq_None_not_Some.
  - destruct (lb_crt_lists d !! n) eqn:Hn; intros [= <- <- <-]; [by simpl|by apply missing_spec].
  - destruct (lb_general d !! n) eqn:Hn; intros [= <- <- <-]; [by simpl|by apply missing_spec].
Qed.

(** *** The routes are read back *)

Lemma safe_free n : safe n = true -> free_of "/"%char n = true.
Proof.
  unfold safe, free_of. apply string_forall_impl. intros a. unfold safe_char.
  by intros [H _]%andb_true_iff.
Qed.

Lemma PathUnescape_safe n : safe n = true -> PathUnescape n = n.
Proof.
  unfold safe. induction n as [|a n IH]; simpl; [done|].
  intros [[_ Ha%negb_true_iff]%andb_true_iff Hn]%andb_true_iff. by rewrite Ha, IH.
Qed.

Lemma hex_upper_spec a :
  Ascii.eqb (unhex2 (hex_upper (nat_of_ascii a / 16)) (hex_upper (nat_of_ascii a mod 16))) a
  && safe_char (hex_upper (nat_of_ascii a / 16)) && safe_char (hex_upper (nat_of_ascii a mod 16)) = true.
Proof. revert a. apply all_ascii. vm_compute. reflexivity. Qed.

Lemma path_plain_safe a : implb (path_plain a) (safe_char a) = true.
Proof. revert a. apply all_ascii. vm_compute. reflexivity. Qed.

#[local] Arguments Nat.div : simpl never.
#[local] Arguments Nat.modulo : simpl never.
#[local] Arguments hex_upper : simpl never.
#[local] Arguments unhex2 : simpl never.

Lemma PathUnescape_PathEscape s : PathUnescape (PathEscape s) = s.
Proof.
  induction s as [|a s IH]; simpl; [done|]. destruct (path_plain a) eqn:Hp; simpl.
  - pose proof (path_plain_safe a) as Hs. rewrite Hp in Hs. simpl in Hs.
    apply andb_true_iff in Hs as [_ Ha%negb_true_iff]. by rewrite Ha, IH.
  - pose proof (hex_upper_spec a) as [[Ha _]%andb_true_iff _]%andb_true_iff.
    apply Ascii.eqb_eq in Ha. by rewrite Ha, IH.
Qed.

Lemma PathEscape_free s : free_of "/"%char (PathEscape s) = true.
Proof.
  unfold free_of. induction s as [|a s IH]; simpl; [done|]. destruct (path_plain a) eqn:Hp; simpl.
  - pose proof (path_plain_safe a) as Hs. rewrite Hp in Hs. simpl in Hs.
    apply andb_true_iff in Hs as [Ha _]. by rewrite Ha, IH.
  - pose proof (hex_upper_spec a) as [[_ H1]%andb_true_iff H2]%andb_true_iff.
    apply andb_true_iff in H1 as [-> _]. apply andb_true_iff in H2 as [-> _]. by rewrite IH.
Qed.

Section Under.
Variables (p m : string) (q : list (string * string)) (b : rbody).

Lemma under_0 : under p (MkReq m p q b) = Some [EmptyString].
Proof. unfold under. simpl. rewrite <- (string_app_nil_r p) at 2. by rewrite cut_prefix_app. Qed.

Lemma under_1 n : free_of "/"%char n = true ->
  under p (MkReq m (p +:+ "/" +:+ n) q b) = Some [EmptyString; PathUnescape n].
Proof.
  intros Hn. unfold under. simpl. rewrite cut_prefix_app. str_simpl. by rewrite Split_free.
Qed.

Lemma under_2 n x : free_of "/"%char n = true -> free_of "/"%char x = true ->
  under p (MkReq m (p +:+ "/" +:+ n +:+ "/" +:+ x) q b) = Some [EmptyString; PathUnescape n; PathUnescape x].
Proof.
  intros Hn Hx. unfold under. simpl. rewrite cut_prefix_app. str_simpl.
  by rewrite Split_app, Split_free.
Qed.

Lemma under_3 n x k :
  free_of "/"%char n = true -> free_of "/"%char x = true -> free_of "/"%char k = true ->
  under p (MkReq m (p +:+ "/" +:+ n +:+ "/" +:+ x +:+ "/" +:+ k) q b) =
  Some [EmptyString; PathUnescape n; PathUnescape x; PathUnescape k].
Proof.
  intros Hn Hx Hk. unfold under. simpl. rewrite cut_prefix_app. str_simpl.
  by rewrite Split_app, Split_app, Split_free.
Qed.
End Under.

(** The names of the fields decoded are literals. *)
Ltac fields :=
  unfold dec_obj, field; cbn [foldl fst snd app];
  repeat match goal with
  | |- context [EqualFold ?a ?b] => let v := eval vm_compute in (EqualFold a b) in change (EqualFold a b) with v
  end; cbn [dec_string dec_int dec_opt].

Lemma dec_entry_json e : dec_entry (entry_json e) = Some e.
Proof. destruct e as [k v]. unfold dec_entry, entry_json. by fields. Qed.

Lemma ParseInt_FormatInt_inv z z' : ParseInt (FormatInt z) = Some z' -> z' = z.
Proof. unfold ParseInt. rewrite parse_FormatInt. destruct (in_int64 z); congruence. Qed.

Lemma dec_server_json s s' : dec_server (server_json s) = Some s' -> s' = s.
Proof.
  destruct s as [n a p w m c]. unfold dec_server, server_json, omit_opt, omit_str. cbn [SName SAddress SPort SWeight SMaxconn SCheck].
  destruct w as [w|], m as [m|]; (case_bool_decide as Hc; [subst c|]); fields; unfold JInt; fields;
  intros H; repeat (apply bind_Some in H as (? & ? & H)); simplify_eq/=;
  repeat match goal with
  | H : ParseInt (FormatInt _) = Some _ |- _ => apply ParseInt_FormatInt_inv in H; subst
  | H : _ <$> ParseInt (FormatInt _) = Some _ |- _ => apply fmap_Some in H as (? & ? & ?); subst
  end; done.
Qed.

Definition pick (n : string) (acc : json) (p : string * json) : json :=
  if EqualFold p.1 n then match p.2 with JNull => acc | v => v end else acc.

Definition str_json (s : string) : json := if bool_decide (s = EmptyString) then JNull else JStr s.
Definition int_json (z : Z) : json := if z =? 0 then JNull else JInt z.

Lemma pick_str k s n : foldl (pick n) JNull (omit_str k s) = if EqualFold k n then str_json s else JNull.
Proof. unfold omit_str, str_json. case_bool_decide; simpl; [by destruct (EqualFold k n)|done]. Qed.

Lemma pick_str_skip k s n acc : EqualFold k n = false -> foldl (pick n) acc (omit_str k s) = acc.
Proof. intros Hk. unfold omit_str. case_bool_decide; [done|]. simpl. unfold pick. simpl. by rewrite Hk. Qed.

Lemma pick_int k z n : foldl (pick n) JNull (omit_int k z) = if EqualFold k n then int_json z else JNull.
Proof. unfold omit_int, int_json. destruct (z =? 0); simpl; [by destruct (EqualFold k n)|done]. Qed.

Lemma pick_int_skip k z n acc : EqualFold k n = false -> foldl (pick n) acc (omit_int k z) = acc.
Proof. intros Hk. unfold omit_int. destruct (z =? 0); [done|]. simpl. unfold pick. simpl. by rewrite Hk. Qed.

Lemma pick_opt {A} k (f : A -> json) o n :
  foldl (pick n) JNull (omit_opt k f o) =
  if EqualFold k n then match o with Some a => f a | None => JNull end else JNull.
Proof.
  destruct o as [a|]; simpl; [|by destruct (EqualFold k n)]. unfold pick. simpl.
  destruct (EqualFold k n); [|done]. by destruct (f a).
Qed.

Lemma pick_opt_skip {A} k (f : A -> json) o n acc : EqualFold k n = false -> foldl (pick n) acc (omit_opt k f o) = acc.
Proof. intros Hk. destruct o; [|done]. simpl. unfold pick. simpl. by rewrite Hk. Qed.

Lemma pick_one k v n acc : EqualFold k n = false -> foldl (pick n) acc [(k, v)] = acc.
Proof. intros Hk. simpl. unfold pick. simpl. by rewrite Hk. Qed.

Lemma field_pick n l : field n l = foldl (pick n) JNull l.
Proof. done. Qed.

Lemma dec_str_json s : dec_string (str_json s) = Some s.
Proof. unfold str_json. case_bool_decide; simpl; congruence. Qed.

Lemma dec_int_json z z' : dec_int (int_json z) = Some z' -> z' = z.
Proof.
  unfold int_json. destruct (Z.eqb_spec z 0); simpl; [congruence|]. apply ParseInt_FormatInt_inv.
Qed.

(** Reads a field off the concatenation of the fields of a record. *)
Ltac picks :=
  cbn [dec_obj]; rewrite !field_pick, ?foldl_app;
  repeat match goal with
  | |- context [foldl (pick ?n) ?acc (omit_str ?k ?s)] => rewrite (pick_str_skip k s n acc) by (vm_compute; reflexivity)
  | |- context [foldl (pick ?n) ?acc (omit_int ?k ?s)] => rewrite (pick_int_skip k s n acc) by (vm_compute; reflexivity)
  | |- context [foldl (pick ?n) ?acc (omit_opt ?k ?f ?o)] => rewrite (pick_opt_skip k f o n acc) by (vm_compute; reflexivity)
  | |- context [foldl (pick ?n) ?acc [(?k, ?v)]] => rewrite (pick_one k v n acc) by (vm_compute; reflexivity)
  end;
  rewrite ?pick_str, ?pick_int, ?pick_opt;
  repeat match goal with
  | |- context [EqualFold ?a ?b] => let v := eval vm_compute in (EqualFold a b) in change (EqualFold a b) with v
  end; cbv iota; rewrite ?dec_str_json.

Lemma dec_chk_json c : dec_chk (chk_json c) = Some c.
Proof. destruct c as [m u]. unfold dec_chk, chk_json. cbn [ChkMethod ChkURI]. by picks. Qed.

Lemma dec_default_json s s' : dec_default (default_json s) = Some s' -> s' = s.
Proof.
  destruct s as [c i r f]. unfold dec_default, default_json. cbn [DCheck DInter DRise DFall]. picks.
  intros H. simpl in H.
  repeat (apply bind_Some in H as (? & ?%dec_int_json & H); subst). by simplify_eq.
Qed.

Lemma dec_algorithm_json (b : string) :
  dec_obj (fun l => dec_string (field "algorithm" l)) (JObj [("algorithm"%string, JStr b)]) = Some b.
Proof. done. Qed.

Lemma dec_opt_inv {A} (enc : A -> json) (dec : json -> option A) o o' :
  (forall a a', dec (enc a) = Some a' -> a' = a) -> (forall a, enc a <> JNull) ->
  dec_opt dec (match o with Some a => enc a | None => JNull end) = Some o' -> o' = o.
Proof.
  intros Hd Hn. destruct o as [a|]; simpl; [|congruence]. specialize (Hn a). specialize (Hd a).
  unfold dec_opt. intros H.
  assert (Hf : dec (enc a) ≫= (fun x => Some (Some x)) = Some o') by (destruct (enc a); done).
  apply bind_Some in Hf as (x & ->%Hd & ?). congruence.
Qed.

Lemma dec_backend_json b b' : dec_backend (backend_json b) = Some b' -> b' = b.
Proof.
  destruct b as [n m bal a c d f]. unfold dec_backend, backend_json.
  cbn [BName BMode BBalance BAdvCheck BChk BDefault BFrom]. picks.
  change (dec_string (foldl (pick "name") JNull [("name"%string, JStr n)])) with (Some n). cbn [mbind option_bind].
  intros H.
  apply bind_Some in H as (b1 & Hb%(dec_opt_inv (fun a => JObj [("algorithm"%string, JStr a)])) & H);
    [subst|intros ? ?; rewrite dec_algorithm_json; congruence|done].
  cbn [mbind option_bind] in H.
  apply bind_Some in H as (c1 & Hc%(dec_opt_inv chk_json) & H);
    [subst|intros ? ?; rewrite dec_chk_json; congruence|done].
  apply bind_Some in H as (d1 & Hd%(dec_opt_inv default_json) & H); [subst|apply dec_default_json|done].
  simpl in H. congruence.
Qed.

(** *** The route of each request *)

Lemma route_tx_eq r e : route_fixed r = None -> route_tx r = Some e -> route r = Some e.
Proof. unfold route. by intros -> ->. Qed.

Definition routed (r : request) (o : option endpoint) : Prop := route r = o.

Lemma route_backends_eq r : route_fixed r = None -> route_tx r = None -> route_maps r = None ->
  route_files r = None -> route r = route_backends r.
Proof. unfold route. intros -> -> -> ->. by destruct (route_backends r). Qed.

Lemma route_maps_eq r : route_fixed r = None -> route_tx r = None -> route_backends r = None ->
  route_files r = None -> route r = route_maps r.
Proof. unfold route. intros -> -> -> ->. by destruct (route_maps r). Qed.

Lemma route_files_eq r : route_fixed r = None -> route_tx r = None -> route_backends r = None ->
  route_maps r = None -> route r = route_files r.
Proof. unfold route. by intros -> -> -> ->. Qed.

Section Paths.
Variables (m : string) (q : list (string * string)) (b : rbody).

Lemma under_tx id : safe id = true ->
  under "/services/haproxy/transactions" (MkReq m (tx_path id) q b) = Some [EmptyString; id].
Proof.
  intros Hs. rewrite <- (PathUnescape_safe id) at 2 by done.
  apply (under_1 "/services/haproxy/transactions"). by apply safe_free.
Qed.

Lemma under_backend n : safe n = true -> under backends_path (MkReq m (backend_path n) q b) = Some [EmptyString; n].
Proof.
  intros Hs. rewrite <- (PathUnescape_safe n) at 2 by done. apply (under_1 backends_path). by apply safe_free.
Qed.

Lemma under_servers n : safe n = true ->
  under backends_path (MkReq m (servers_path n) q b) = Some [EmptyString; n; "servers"%string].
Proof.
  intros Hs. rewrite <- (PathUnescape_safe n) at 2 by done. unfold servers_path, backend_path.
  rewrite !string_app_assoc. apply (under_2 backends_path); [by apply safe_free|done].
Qed.

Lemma under_server n x : safe n = true -> safe x = true ->
  under backends_path (MkReq m (server_path n x) q b) = Some [EmptyString; n; "servers"%string; x].
Proof.
  intros Hs Hx. rewrite <- (PathUnescape_safe n) at 2 by done. rewrite <- (PathUnescape_safe x) at 2 by done.
  unfold server_path, servers_path, backend_path. rewrite !string_app_assoc.
  apply (under_3 backends_path m q b n "servers" x); [by apply safe_free|done|by apply safe_free].
Qed.

Lemma under_map n : safe n = true ->
  under "/services/haproxy/runtime/maps" (MkReq m (map_path n) q b) = Some [EmptyString; n].
Proof.
  intros Hs. rewrite <- (PathUnescape_safe n) at 2 by done.
  apply (under_1 "/services/haproxy/runtime/maps"). by apply safe_free.
Qed.

Lemma under_entries n : safe n = true ->
  under "/services/haproxy/runtime/maps" (MkReq m (entries_path n) q b) = Some [EmptyString; n; "entries"%string].
Proof.
  intros Hs. rewrite <- (PathUnescape_safe n) at 2 by done. unfold entries_path, map_path.
  rewrite !string_app_assoc. apply (under_2 "/services/haproxy/runtime/maps"); [by apply safe_free|done].
Qed.

Lemma under_entry n k : safe n = true ->
  under "/services/haproxy/runtime/maps" (MkReq m (entry_path n k) q b) = Some [EmptyString; n; "entries"%string; k].
Proof.
  intros Hs. rewrite <- (PathUnescape_safe n) at 2 by done. rewrite <- (PathUnescape_PathEscape k) at 2.
  unfold entry_path, entries_path, map_path. rewrite !string_app_assoc.
  apply (under_3 "/services/haproxy/runtime/maps" m q b n "entries" (PathEscape k));
    [by apply safe_free|done|apply PathEscape_free].
Qed.

Lemma under_cert n : safe n = true ->
  under "/services/haproxy/storage/ssl_certificates" (MkReq m (certs_path +:+ "/" +:+ n) q b) = Some [EmptyString; n].
Proof.
  intros Hs. rewrite <- (PathUnescape_safe n) at 2 by done. apply (under_1 certs_path). by apply safe_free.
Qed.

Lemma under_crt_list n :
  under "/services/haproxy/storage/ssl_crt_lists" (MkReq m (crt_lists_path n) q b) = Some [EmptyString; n].
Proof.
  rewrite <- (PathUnescape_PathEscape n) at 2.
  apply (under_1 "/services/haproxy/storage/ssl_crt_lists"). apply PathEscape_free.
Qed.

Lemma under_general n :
  under "/services/haproxy/storage/general" (MkReq m (general_path n) q b) = Some [EmptyString; n].
Proof.
  rewrite <- (PathUnescape_PathEscape n) at 2.
  apply (under_1 "/services/haproxy/storage/general"). apply PathEscape_free.
Qed.
End Paths.

Lemma route_of_tx e e' : wf_endpoint e = true -> match e with ECommit _ | EAbort _ => True | _ => False end ->
  route (request_of e) = Some e' -> e' = e.
Proof.
  intros Hwf He. assert (Hr : route_tx (request_of e) = Some e).
  { destruct e; try done; unfold route_tx, request_of; by rewrite under_tx. }
  rewrite (route_tx_eq _ e); [congruence|by destruct e|done].
Qed.

Lemma route_of_backends e e' : wf_endpoint e = true ->
  match e with
  | EBackends | ECreateBackend _ _ | EDeleteBackend _ _ | EServers _ | ECreateServer _ _ _
  | EReplaceServer _ _ _ | EDeleteServer _ _ _ => True
  | _ => False
  end -> route (request_of e) = Some e' -> e' = e.
Proof.
  intros Hwf He. rewrite route_backends_eq by (destruct e; done). unfold route_backends.
  destruct e; try done; simpl in Hwf; unfold request_of, get;
    rewrite ?under_0, ?under_backend, ?under_servers by done.
  - simpl. congruence.
  - simpl. intros (b' & ->%dec_backend_json & ->)%fmap_Some. done.
  - simpl. congruence.
  - simpl. congruence.
  - simpl. intros (b' & ->%dec_server_json & ->)%fmap_Some. done.
  - apply andb_true_iff in Hwf as [? ?]. rewrite under_server by done. simpl.
    intros (b' & ->%dec_server_json & ->)%fmap_Some. done.
  - apply andb_true_iff in Hwf as [? ?]. rewrite under_server by done. simpl. congruence.
Qed.

Lemma route_of_maps e e' : wf_endpoint e = true ->
  match e with
  | EEntries _ | EPostEntry _ _ _ | EPutEntry _ _ _ | EDeleteEntry _ _ | EClearMap _ => True
  | _ => False
  end -> route (request_of e) = Some e' -> e' = e.
Proof.
  intros Hwf He. rewrite route_maps_eq by (destruct e; done). unfold route_maps.
  destruct e; try done; simpl in Hwf; unfold request_of, get;
    rewrite ?under_map, ?under_entries, ?under_entry by done; simpl; congruence.
Qed.

Lemma route_of_files e e' : wf_endpoint e = true ->
  match e with
  | EPutCert _ _ | EPostCert _ _ | EGetCrtList _ | EPutCrtList _ _ | EGetGeneral _ | EPostGeneral _ _
  | EPutGeneral _ _ => True
  | _ => False
  end -> route (request_of e) = Some e' -> e' = e.
Proof.
  intros Hwf He. rewrite route_files_eq by (destruct e; done).
  destruct e; try done; simpl in Hwf; unfold route_files, request_of, get.
  - rewrite under_cert by done. simpl. congruence.
  - unfold certs_path. rewrite under_0. simpl. congruence.
  - change (under "/services/haproxy/storage/ssl_certificates" _) with (@None (list string)).
    rewrite under_crt_list. simpl. congruence.
  - change (under "/services/haproxy/storage/ssl_certificates" _) with (@None (list string)).
    rewrite under_crt_list. simpl. congruence.
  - change (under "/services/haproxy/storage/ssl_certificates" _) with (@None (list string)).
    change (under "/services/haproxy/storage/ssl_crt_lists" _) with (@None (list string)).
    rewrite under_general. simpl. congruence.
  - vm_compute. congruence.
  - change (under "/services/haproxy/storage/ssl_certificates" _) with (@None (list string)).
    change (under "/services/haproxy/storage/ssl_crt_lists" _) with (@None (list string)).
    rewrite under_general. simpl. congruence.
Qed.

Lemma route_of e e' : wf_endpoint e = true -> route (request_of e) = Some e' -> e' = e.
Proof.
  intros Hwf. destruct e; first [by apply route_of_tx|by apply route_of_backends|by apply route_of_maps
    |by apply route_of_files|idtac].
  - vm_compute. congruence.
  - vm_compute. congruence.
  - unfold route. change (route_fixed (request_of (EBegin v))) with (@None endpoint).
    unfold route_tx, request_of. rewrite under_0. simpl. rewrite parse_FormatInt. simpl. congruence.
  - intros H. unfold route in H. simpl in H. congruence.
Qed.

Lemma lb_at_insert b b' d s fs : lb_at b' (MkSite (<[b := d]> (site_lbs s)) fs) = if decide (b = b') then d else lb_at b' s.
Proof.
  unfold lb_at. simpl. case_decide as Hb; [subst; by rewrite lookup_insert_eq|by rewrite lookup_insert_ne].
Qed.

#[export] Instance site_laws : HaproxyLaws site.
Proof.
  split.
  - intros c e s r s' Hwf. simpl.
    assert (Hserve : forall fs,
      match route (request_of e) with
      | Some e => let '(code, a, d) := serve e (lb_at (Base c) s) in
                  (inr (code, a), MkSite (<[Base c := d]> (site_lbs s)) (tail fs))
      | None => (inr (500, AEmpty), MkSite (site_lbs s) (tail fs))
      end = (r, s') ->
      (forall b, b <> Base c -> lb_at b s' = lb_at b s) /\ exchange_spec e (lb_at (Base c) s) r (lb_at (Base c) s')).
    { intros fs. destruct (route (request_of e)) as [e'|] eqn:Hr.
      - apply route_of in Hr as ->; [|done]. destruct (serve e (lb_at (Base c) s)) as [[code a] d] eqn:Hs.
        intros [= <- <-]. split; [intros b Hb; rewrite lb_at_insert; by rewrite decide_False|].
        rewrite lb_at_insert, decide_True by done. by apply serve_spec.
      - intros [= <- <-]. split; [done|]. by apply refused_spec. }
    destruct (site_faults s) as [|[] fs]; [by apply (Hserve [])| |by apply (Hserve (false :: fs))].
    intros [= <- <-]. split; [done|]. left. apply unchanged_refl.
  - intros c r s e s'. simpl. destruct (site_faults s) as [|[] fs]; [| |];
      try (destruct (route r) as [e'|]; [destruct (serve e' (lb_at (Base c) s)) as [[? ?] ?]|]; done).
    by intros [= <- <-].
  - intros c r s b Hb. simpl. assert (Hserve : forall fs,
      lb_at b (match route r with
               | Some e => let '(code, a, d) := serve e (lb_at (Base c) s) in
                           (@inr goerr (Z * answer) (code, a), MkSite (<[Base c := d]> (site_lbs s)) (tail fs))
               | None => (inr (500, AEmpty), MkSite (site_lbs s) (tail fs))
               end).2 = lb_at b s).
    { intros fs. destruct (route r) as [e'|]; [|done]. destruct (serve e' _) as [[code a] d]. simpl.
      rewrite lb_at_insert. by rewrite decide_False. }
    destruct (site_faults s) as [|[] fs]; [apply (Hserve [])|done|apply (Hserve (false :: fs))].
Qed.

(** ** The contract of [SyncMap] *)

Section Contract.
Context {St : Type} {Hx : DataplaneHTTP St} {Hview : Haproxy St} {HL : HaproxyLaws St} `{HO : MapOrder}.

(** Claim C14: when [SyncMap] gives no error, the map of the load balancer
    has exactly the wanted entries, each key once, whatever it held before,
    duplicated keys included, and in whatever order the Go maps are visited;
    no other map, no configuration and no file of it has changed, and no other
    load balancer. *)
Theorem SyncMap_converges c n desired (s s' : St) :
  safe n = true -> SyncMap c n desired s = (inr tt, s') ->
  (forall b, b <> Base c -> view b s' = view b s) /\
  same_but_map n (view (Base c) s) (view (Base c) s') /\
  holds (content n (view (Base c) s')) (want_of desired).
Proof. intros Hn Hs. by apply SyncMap_ok in Hs. Qed.

End Contract.

(** *** A run: a map with a duplicated key, a stale entry and an outdated one *)

Definition lb_url : string := "http://10.0.0.1:5555".
Definition lb_client : Client := New (lb_url +:+ "/") "admin" "secret".

Definition stale_map : list MapEntry :=
  [MkEntry "a.example" "acme.old"; MkEntry "b.example" "acme.b"; MkEntry "a.example" "acme.a"]%string.
Definition wanted_map : list MapEntry :=
  [MkEntry "a.example" "acme.sale"; MkEntry "c d.example" "acme.c"]%string.

Definition stale_site : site := MkSite {[ lb_url := with_map "rooms.map" stale_map empty_lb ]} [].
Definition clean_site : site := (SyncMap lb_client "rooms.map" wanted_map stale_site).2.

Lemma clean_site_eq : SyncMap lb_client "rooms.map" wanted_map stale_site = (inr tt, clean_site).
Proof. vm_compute. reflexivity. Defined.

Lemma SyncMap_converges_witness :
  holds (content "rooms.map" (view lb_url clean_site)) (want_of wanted_map).
Proof.
  exact (proj2 (proj2 (SyncMap_converges lb_client "rooms.map" wanted_map stale_site clean_site
    ltac:(vm_compute; reflexivity) clean_site_eq))).
Defined.
