(* ===== verification/Compile.v ===== *)
(** * Package [compile]: the desired state, from the database

    [control/internal/compile/compile.go].  [Build] reads the tables through
    [Pg.v], each query being its own statement, and gives what every load
    balancer and the queue service should hold.  AES decryption and SHA-256 are
    parameters. *)
From Stdlib Require Import Ascii.
From S2P Require Import Prelude GoStr F64 Json Dataplane Queueclient Pg.

Local Open Scope list_scope.
Local Open Scope Z_scope.

(** ** Types *)

Record BackendSpec : Type := MkSpec {
  SpecName : string; Balance : string; CheckPath : string; Servers_ : list Server
}.

Record CertSpec : Type := MkCertSpec { FQDN : string; Hash_ : string; PEM : string }.

Record Desired : Type := MkDesired {
  DBackends : list BackendSpec;
  DRooms : list MapEntry;
  DBackend : list MapEntry;
  DStates : list MapEntry;
  DCerts : list CertSpec;
  PassPub : string;
  PassPrevPub : string;
  DHash : string;
  Queue : gmap string RoomConfig
}.

Definition dashes (s : string) : string := ReplaceAll1 "-"%char "_"%char s.

Definition BackendName (tenant name : string) : string :=
  ("bk_" +:+ dashes tenant +:+ "__" +:+ dashes name)%string.

(** ** Queries *)

Section Queries.
Context `{Collation}.

(** Backends joined with their tenant, by tenant slug and name. *)
Record backend_join : Type := MkBj { bj_id : string; bj_tenant : string; bj_row : backend_row }.

Definition q_backends (d : cdb) : list backend_join :=
  merge_sort (by2 bj_tenant (fun j => b_name (bj_row j)))
    (omap (fun b => t ← by_id t_id (b_tenant b) (tenants d); Some (MkBj (b_id b) (t_slug t) b)) (backends d)).

Definition q_servers (id : string) (d : cdb) : list server_row :=
  merge_sort (by1 sv_name) (base.filter (fun s => sv_backend s = id) (servers d)).

(** A queue with, when it has them, its domain and its backend. *)
Record room_join : Type := MkRj {
  rj_tenant : string; rj_row : room_row;
  rj_fqdn : option string; rj_mode : string;
  rj_backend : option (string * string)
}.

Definition join_room (d : cdb) (r : room_row) : option room_join :=
  t ← by_id t_id (r_tenant r) (tenants d);
  let dm := i ← r_domain r; by_id d_id i (domains d) in
  let bk := i ← r_backend r; by_id b_id i (backends d) in
  let bt := b ← bk; by_id t_id (b_tenant b) (tenants d) in
  Some (MkRj (t_slug t) r (d_fqdn <$> dm) (default "dns"%string (d_mode <$> dm))
          (b ← bk; t' ← bt; Some (t_slug t', b_name b))).

Definition q_rooms (d : cdb) : list room_join :=
  merge_sort (by2 rj_tenant (fun j => r_slug (rj_row j))) (omap (join_room d) (rooms d)).

Definition q_certs (d : cdb) : list (string * string) :=
  merge_sort (by1 fst)
    (omap (fun c => if bool_decide (c_status c = "issued"%string) then p ← c_pem_enc c; Some (c_fqdn c, p) else None)
       (certificates d)).

Definition day : Z := 86400.

(** The keys that are active or retired for less than a day, the active ones
    first, the most recent first, two of them. *)
Definition key_order (x y : key_row) : Prop :=
  (k_active x = true /\ k_active y = false) \/ (k_active x = k_active y /\ k_created y <= k_created x).
#[global] Instance key_order_dec : RelDecision key_order.
Proof. intros x y. unfold key_order. apply _. Defined.

Definition key_current (now : Z) (k : key_row) : bool :=
  k_active k || match k_retired k with Some t => now - day <? t | None => false end.

Definition q_keys (d : cdb) : list key_row :=
  take 2 (merge_sort key_order (base.filter (fun k => key_current (clock d) k = true) (signing_keys d))).

End Queries.

(** ** The loops of [Build] *)

Definition server_of (r : server_row) : Server :=
  MkServer (sv_name r) (sv_address r) (sv_port r) (Some (sv_weight r))
    (if 0 <? sv_maxconn r then Some (sv_maxconn r) else None) "enabled".

Definition room_config (j : room_join) : RoomConfig :=
  let r := rj_row j in
  MkRoomConfig (r_effective r) (r_rate r) (r_max_active r) (r_wave_s r) (r_pass_ttl_s r)
    (option_list (rj_fqdn j)) (default 0 (r_opens_at r)) (r_title r) (r_theme r).

Definition room_id (j : room_join) : string := (rj_tenant j +:+ "." +:+ r_slug (rj_row j))%string.

(** A queue whose domain the load balancers route. *)
Definition routed_fqdn (j : room_join) : option string :=
  if bool_decide (rj_mode j = "dns"%string) then rj_fqdn j else None.

(** The body of the loop over the queues: the entries it adds. *)
Definition room_entries (j : room_join) : list MapEntry * list MapEntry * list MapEntry :=
  match routed_fqdn j with
  | Some f => ([MkEntry f (room_id j)],
               [MkEntry (room_id j) (r_effective (rj_row j))],
               match rj_backend j with Some (t, n) => [MkEntry f (BackendName t n)] | None => [] end)
  | None => ([], [], [])
  end.

Definition rooms_of (l : list room_join) : list MapEntry := mjoin ((fun j => (room_entries j).1.1) <$> l).
Definition states_of (l : list room_join) : list MapEntry := mjoin ((fun j => (room_entries j).1.2) <$> l).
Definition backend_of (l : list room_join) : list MapEntry := mjoin ((fun j => (room_entries j).2) <$> l).
Definition queue_of (l : list room_join) : gmap string RoomConfig :=
  foldl (fun (m : gmap string RoomConfig) j => <[room_id j := room_config j]> m) ∅ l.

(** The two keys the loop over the signing keys keeps, and the default of the
    previous one. *)
Definition pick_key (acc : string * string) (k : key_row) : string * string :=
  let '(pub, prev) := acc in
  if k_active k && bool_decide (pub = EmptyString) then (k_public k, prev)
  else if negb (k_active k) && bool_decide (prev = EmptyString) then (pub, k_public k)
  else acc.

Definition pass_keys (l : list key_row) : string * string :=
  let '(pub, prev) := foldl pick_key (EmptyString, EmptyString) l in
  (pub, if bool_decide (prev = EmptyString) then pub else prev).

(** Keys are unique in the maps built from the tables; the order [sort.Slice]
    gives to equal keys would not be specified. *)
Definition entry_le (x y : MapEntry) : Prop := String.le (EKey x) (EKey y).
#[global] Instance entry_le_dec : RelDecision entry_le.
Proof. intros x y. unfold entry_le. apply _. Defined.

Definition sortEntries (l : list MapEntry) : list MapEntry := merge_sort entry_le l.

(** ** The hash of the part the load balancers hold *)

Definition json_list {A} (f : A -> json) (l : list A) : json :=
  match l with [] => JNull | _ => JArr (map f l) end.

Definition spec_json (b : BackendSpec) : json :=
  JObj [("Name", JStr (SpecName b)); ("Balance", JStr (Balance b)); ("CheckPath", JStr (CheckPath b));
        ("Servers", json_list server_json (Servers_ b))]%string.

Definition light_json (d : Desired) : json :=
  JObj [("B", json_list spec_json (DBackends d));
        ("R", json_list entry_json (DRooms d)); ("K", json_list entry_json (DBackend d));
        ("S", json_list entry_json (DStates d));
        ("C", JArr (map JStr (map (fun c => FQDN c +:+ ":" +:+ Hash_ c) (DCerts d)
                              ++ ["key:" +:+ PassPub d; "prev:" +:+ PassPrevPub d])))]%string.

Section Build.
Context `{Collation} (decrypt : string -> option string) (sha256 : string -> string).

Definition hashOf (d : Desired) : string := hex_encode (sha256 (marshal (light_json d))).

(** The servers of each backend, one query per backend. *)
Fixpoint build_backends (bks : list backend_join) : M pg (list BackendSpec) :=
  match bks with
  | [] => mret []
  | b :: bks =>
      srows ← Query (q_servers (bj_id b));
      l ← lift_err (scan_all srows.1);
      rest ← build_backends bks;
      mret (MkSpec (BackendName (bj_tenant b) (b_name (bj_row b))) (b_balance (bj_row b))
              (b_check_path (bj_row b)) (map server_of l) :: rest)
  end.

(** A certificate that does not decrypt is left out. *)
Definition cert_spec (c : string * string) : option CertSpec :=
  pem ← decrypt c.2; Some (MkCertSpec c.1 (hex_encode (sha256 pem)) pem).

(** [rows.Err()] is never read: a result that breaks off counts as complete. *)
Definition Build : M pg Desired :=
  rows ← Query q_backends;
  bks ← lift_err (scan_all rows.1);
  specs ← build_backends bks;
  rrows ← Query q_rooms;
  js ← lift_err (scan_all rrows.1);
  crows ← Query q_certs;
  certs ← lift_err (scan_all crows.1);
  krows ← Query q_keys;
  let '(pub, prev) := pass_keys (scanned krows.1) in
  let d := MkDesired specs (sortEntries (rooms_of js)) (sortEntries (backend_of js)) (sortEntries (states_of js))
             (omap cert_spec certs) pub prev EmptyString (queue_of js) in
  mret (MkDesired (DBackends d) (DRooms d) (DBackend d) (DStates d) (DCerts d) pub prev (hashOf d) (Queue d)).

End Build.

(** ** The names of the backends *)

Definition dash (a : ascii) : ascii := if Ascii.eqb a "-"%char then "_"%char else a.

Lemma dash_inj a b : slug_tail a = true -> slug_tail b = true -> dash a = dash b -> a = b.
Proof.
  assert (Hu : slug_tail "_"%char = false) by reflexivity. unfold dash. intros Ha Hb.
  destruct (Ascii.eqb_spec a "-"%char) as [->|], (Ascii.eqb_spec b "-"%char) as [->|]; congruence.
Qed.

Lemma dash_under a : slug_tail a = true -> dash a = "_"%char -> a = "-"%char.
Proof.
  assert (Hu : slug_tail "_"%char = false) by reflexivity. unfold dash. intros Ha.
  destruct (Ascii.eqb_spec a "-"%char) as [->|]; congruence.
Qed.

Lemma dashes_cons a s : dashes (String a s) = String (dash a) (dashes s).
Proof. done. Qed.

Lemma dashes_inj s t :
  string_forall slug_tail s = true -> string_forall slug_tail t = true -> dashes s = dashes t -> s = t.
Proof.
  revert t. induction s as [|a s IH]; intros [|b t]; rewrite ?dashes_cons; try done.
  simpl. intros [Ha Hs]%andb_true_iff [Hb Ht]%andb_true_iff [= He H].
  by rewrite (dash_inj a b Ha Hb He), (IH t Hs Ht H).
Qed.

Lemma Contains_tail a s sub : Contains (String a s) sub = false -> Contains s sub = false.
Proof. simpl. by intros [_ H]%orb_false_iff. Qed.

(** A name starts with a letter or a digit. *)
Definition starts_well (n : string) : bool :=
  match n with EmptyString => false | String a _ => slug_head a end.

Lemma under_not_head n s : starts_well n = true -> dashes n <> String "_"%char s.
Proof.
  destruct n as [|a n]; [done|]. rewrite dashes_cons. simpl. intros Ha [= He _]. revert Ha He.
  unfold dash. destruct (Ascii.eqb_spec a "-"%char) as [->|]; [done|]. by intros H ->.
Qed.

(** The part of a name before its first double underscore is the tenant's. *)
Lemma tenant_end t n n' :
  string_forall slug_tail t = true -> Contains t "--" = false -> starts_well n = true ->
  ("__" +:+ dashes n = dashes t +:+ "__" +:+ dashes n')%string -> t = EmptyString.
Proof.
  intros Ht Hd Hn. destruct t as [|a t]; [done|]. rewrite dashes_cons.
  simpl in Ht. apply andb_true_iff in Ht as [Ha Ht]. rewrite !append_cons. intros [= He H].
  symmetry in He. apply dash_under in He as ->; [|done]. destruct t as [|b t].
  - change (dashes EmptyString) with EmptyString in H. autorewrite with flyc_str in H.
    injection H as H. by destruct (under_not_head n (dashes n') Hn).
  - rewrite dashes_cons in H. autorewrite with flyc_str in H. injection H as He _. symmetry in He.
    simpl in Ht. apply andb_true_iff in Ht as [Hb _]. apply dash_under in He as ->; [|done].
    by destruct t.
Qed.

Lemma names_inj t t' n n' :
  string_forall slug_tail t = true -> string_forall slug_tail t' = true ->
  string_forall slug_tail n = true -> string_forall slug_tail n' = true ->
  Contains t "--" = false -> Contains t' "--" = false -> starts_well n = true -> starts_well n' = true ->
  (dashes t +:+ "__" +:+ dashes n = dashes t' +:+ "__" +:+ dashes n')%string -> t = t' /\ n = n'.
Proof.
  intros Ht Ht' Hn Hn' Hd Hd' Hs Hs'. revert t' Ht' Hd'. induction t as [|a t IH]; intros t' Ht' Hd' H.
  - pose proof (tenant_end t' n n' Ht' Hd' Hs H) as ->. split; [done|].
    apply (string_app_inv_l "__") in H. by apply dashes_inj.
  - destruct t' as [|b t'].
    + symmetry in H. by apply tenant_end in H.
    + rewrite !dashes_cons, !append_cons in H. injection H as He H. simpl in Ht, Ht'.
      apply andb_true_iff in Ht as [Ha Ht]. apply andb_true_iff in Ht' as [Hb Ht'].
      destruct (IH Ht (Contains_tail _ _ _ Hd) t' Ht' (Contains_tail _ _ _ Hd') H) as [-> ->].
      by rewrite (dash_inj a b Ha Hb He).
Qed.

Lemma slug_starts s : slug_match s = true -> starts_well s = true.
Proof. destruct s; simpl; [done|]. by intros [[H _]%andb_true_iff _]%andb_true_iff || by intros [H _]%andb_true_iff. Qed.

(** Two backends never share their HAProxy name as long as no
    tenant's slug has two dashes in a row. *)
Theorem BackendName_injective t n t' n' :
  slug_match t = true -> slug_match t' = true -> slug_match n = true -> slug_match n' = true ->
  Contains t "--" = false -> Contains t' "--" = false ->
  BackendName t n = BackendName t' n' -> t = t' /\ n = n'.
Proof.
  intros Ht Ht' Hn Hn' Hd Hd' H. apply (string_app_inv_l "bk_") in H.
  apply names_inj; auto using slug_match_forall, slug_starts.
Qed.

Lemma BackendName_injective_witness :
  BackendName "a-b" "c" <> BackendName "a" "b-c".
Proof.
  intros H. by destruct (BackendName_injective "a-b" "c" "a" "b-c" eq_refl eq_refl eq_refl eq_refl eq_refl eq_refl H).
Defined.

(** With such a slug, which the database accepts, two tenants do
    share one: their backends are the same section of the load balancer. *)
Theorem BackendName_collision :
  slug_match "aa" = true /\ slug_match "aa--b" = true /\ slug_match "b--c" = true /\ slug_match "c" = true /\
  BackendName "aa" "b--c" = BackendName "aa--b" "c".
Proof. by vm_compute. Qed.

(** ** What [Build] gives *)

Section Facts.
Context `{Collation} (decrypt : string -> option string) (sha256 : string -> string).

Definition spec_of (d : cdb) (b : backend_join) : BackendSpec :=
  MkSpec (BackendName (bj_tenant b) (b_name (bj_row b))) (b_balance (bj_row b)) (b_check_path (bj_row b))
    (map server_of (q_servers (bj_id b) d)).

(** The desired state of a database nobody writes meanwhile. *)
Definition desired_of (d : cdb) : Desired :=
  let keys := pass_keys (q_keys d) in
  let x := MkDesired (map (spec_of d) (q_backends d)) (sortEntries (rooms_of (q_rooms d)))
             (sortEntries (backend_of (q_rooms d))) (sortEntries (states_of (q_rooms d)))
             (omap (cert_spec decrypt sha256) (q_certs d)) keys.1 keys.2 EmptyString (queue_of (q_rooms d)) in
  MkDesired (DBackends x) (DRooms x) (DBackend x) (DStates x) (DCerts x) keys.1 keys.2 (hashOf sha256 x) (Queue x).

Lemma build_backends_quiet bks p :
  quiet p -> build_backends bks p = (inr (map (spec_of (tables p)) bks), p).
Proof.
  intros Hq. induction bks as [|b bks IH]; [done|]. simpl.
  erewrite M_bind_ok by (by apply Query_quiet). simpl. rewrite scan_all_inr.
  erewrite M_bind_ok by done. by erewrite M_bind_ok by exact IH.
Qed.

Lemma Build_quiet p : quiet p -> Build decrypt sha256 p = (inr (desired_of (tables p)), p).
Proof.
  intros Hq. unfold Build.
  erewrite M_bind_ok by (by apply Query_quiet). simpl. rewrite scan_all_inr. erewrite M_bind_ok by done.
  erewrite M_bind_ok by (by apply build_backends_quiet).
  erewrite M_bind_ok by (by apply Query_quiet). simpl. rewrite scan_all_inr. erewrite M_bind_ok by done.
  erewrite M_bind_ok by (by apply Query_quiet). simpl. rewrite scan_all_inr. erewrite M_bind_ok by done.
  erewrite M_bind_ok by (by apply Query_quiet). simpl. rewrite scanned_inr.
  unfold desired_of. by destruct (pass_keys (q_keys (tables p))).
Qed.

Lemma sortEntries_elem e l : e ∈ sortEntries l <-> e ∈ l.
Proof. unfold sortEntries. by rewrite merge_sort_Permutation. Qed.

Lemma q_rooms_elem j d : j ∈ q_rooms d <-> exists r, r ∈ rooms d /\ join_room d r = Some j.
Proof. unfold q_rooms. by rewrite merge_sort_Permutation, list_elem_of_omap. Qed.

Lemma q_backends_elem d b t :
  b ∈ backends d -> by_id t_id (b_tenant b) (tenants d) = Some t ->
  MkBj (b_id b) (t_slug t) b ∈ q_backends d.
Proof.
  intros Hb Ht. unfold q_backends. rewrite merge_sort_Permutation. apply list_elem_of_omap.
  exists b. by rewrite Ht.
Qed.

Lemma rooms_of_elem f i l :
  MkEntry f i ∈ rooms_of l <-> exists j, j ∈ l /\ routed_fqdn j = Some f /\ room_id j = i.
Proof.
  unfold rooms_of. rewrite list_elem_of_join. setoid_rewrite list_elem_of_fmap. unfold room_entries. split.
  - intros (es & He & j & -> & Hj). exists j. destruct (routed_fqdn j) as [f'|]; simpl in He; set_solver.
  - intros (j & Hj & Hf & <-). eexists. split; [|by exists j]. rewrite Hf. simpl. set_solver.
Qed.

Lemma backend_of_elem f n l :
  MkEntry f n ∈ backend_of l <->
  exists j t b, j ∈ l /\ routed_fqdn j = Some f /\ rj_backend j = Some (t, b) /\ n = BackendName t b.
Proof.
  unfold backend_of. rewrite list_elem_of_join. setoid_rewrite list_elem_of_fmap. unfold room_entries. split.
  - intros (es & He & j & -> & Hj). destruct (routed_fqdn j) as [f'|] eqn:Hf; [|set_solver].
    simpl in He. destruct (rj_backend j) as [[t b]|] eqn:Hb; [|set_solver].
    apply list_elem_of_singleton in He. simplify_eq. by exists j, t, b.
  - intros (j & t & b & Hj & Hf & Hb & ->). eexists. split; [|by exists j]. rewrite Hf, Hb. simpl. set_solver.
Qed.

Lemma states_of_elem i s l :
  MkEntry i s ∈ states_of l <-> exists j f, j ∈ l /\ routed_fqdn j = Some f /\ room_id j = i /\ r_effective (rj_row j) = s.
Proof.
  unfold states_of. rewrite list_elem_of_join. setoid_rewrite list_elem_of_fmap. unfold room_entries. split.
  - intros (es & He & j & -> & Hj). destruct (routed_fqdn j) as [f|] eqn:Hf; simpl in He; [|set_solver].
    apply list_elem_of_singleton in He. simplify_eq. by exists j, f.
  - intros (j & f & Hj & Hf & <- & <-). eexists. split; [|by exists j]. rewrite Hf. simpl. set_solver.
Qed.

Lemma join_room_inv d r j :
  join_room d r = Some j ->
  exists t, by_id t_id (r_tenant r) (tenants d) = Some t /\ rj_tenant j = t_slug t /\ rj_row j = r /\
    rj_fqdn j = d_fqdn <$> (i ← r_domain r; by_id d_id i (domains d)) /\
    rj_mode j = default "dns"%string (d_mode <$> (i ← r_domain r; by_id d_id i (domains d))) /\
    (forall tb nb, rj_backend j = Some (tb, nb) <-> exists i b t', r_backend r = Some i /\
       by_id b_id i (backends d) = Some b /\ by_id t_id (b_tenant b) (tenants d) = Some t' /\
       tb = t_slug t' /\ nb = b_name b).
Proof.
  unfold join_room. intros (t & Ht & Hj)%bind_Some. apply (inj Some) in Hj as <-.
  exists t. split_and!; try done. simpl. intros tb nb. split.
  - intros (b & Hb & Hx)%bind_Some. apply bind_Some in Hx as (t' & Ht' & [= <- <-]).
    rewrite Hb in Ht'. simpl in Ht'. apply bind_Some in Hb as (i & Hi & Hb). by exists i, b, t'.
  - intros (i & b & t' & Hi & Hb & Ht' & -> & ->). rewrite Hi. simpl. rewrite Hb. simpl. by rewrite Ht'.
Qed.

(** The constraints of the schema the keys of the maps rely on: a domain
    belongs to one queue, a name to one domain. *)
Definition domains_unique (d : cdb) : Prop :=
  NoDup (omap r_domain (rooms d)) /\
  (forall x y, x ∈ domains d -> y ∈ domains d -> d_fqdn x = d_fqdn y -> d_id x = d_id y).

Lemma NoDup_omap {A B C} (f : A -> option B) (g : A -> option C) (l : list A) :
  NoDup (omap f l) ->
  (forall x y c, x ∈ l -> y ∈ l -> g x = Some c -> g y = Some c -> exists b, f x = Some b /\ f y = Some b) ->
  NoDup (omap g l).
Proof.
  induction l as [|x l IH]; [constructor|]. intros Hf Hg. simpl in Hf.
  assert (Hl : NoDup (omap g l)).
  { apply IH; [by destruct (f x); [apply NoDup_cons in Hf as [_ Hf]|]|]. intros; eapply Hg; set_solver. }
  simpl. destruct (g x) as [c|] eqn:Hx; [|done]. apply NoDup_cons. split; [|done].
  rewrite list_elem_of_omap. intros (y & Hy & Hgy).
  destruct (Hg x y c) as (b & Hb & Hb'); [set_solver..|done|done|]. rewrite Hb in Hf.
  apply NoDup_cons in Hf as [Hn _]. apply Hn, list_elem_of_omap. by exists y.
Qed.

Lemma rooms_keys (l : list room_join) : EKey <$> rooms_of l = omap routed_fqdn l.
Proof.
  unfold rooms_of. induction l as [|j l IH]; [done|]. csimpl. rewrite fmap_app, IH. unfold room_entries.
  by destruct (routed_fqdn j).
Qed.

Lemma omap_omap {A B C} (f : A -> option B) (g : B -> option C) (l : list A) : omap g (omap f l) = omap (fun x => f x ≫= g) l.
Proof. induction l as [|x l IH]; [done|]. csimpl. rewrite <- IH. by destruct (f x). Qed.

Lemma routed_join d r f :
  join_room d r ≫= routed_fqdn = Some f ->
  exists i dm, r_domain r = Some i /\ by_id d_id i (domains d) = Some dm /\ f = d_fqdn dm.
Proof.
  intros (j & (t & Ht & _ & _ & Hf & Hm & _)%join_room_inv & Hr)%bind_Some. unfold routed_fqdn in Hr.
  case_bool_decide; [|done]. rewrite Hf in Hr. apply fmap_Some in Hr as (dm & Hd & ->).
  apply bind_Some in Hd as (i & Hi & Hd). by exists i, dm.
Qed.

Lemma rooms_unique d : domains_unique d -> NoDup (EKey <$> sortEntries (rooms_of (q_rooms d))).
Proof.
  intros [Hn Hu]. unfold sortEntries. rewrite merge_sort_Permutation, rooms_keys. unfold q_rooms.
  rewrite merge_sort_Permutation, omap_omap. apply (NoDup_omap r_domain); [done|].
  intros x y f _ _ (i & dm & Hi & Hd & ->)%routed_join (k & dn & Hk & Hd' & Hf)%routed_join.
  apply by_id_elem in Hd as [Hd <-]. apply by_id_elem in Hd' as [Hd' <-].
  exists (d_id dm). split; [done|]. rewrite Hk. f_equal. by apply Hu.
Qed.

(** A queue [r] of the tenant [t] that the load balancers route, at the domain
    [dm]: it has a domain, in DNS mode. *)
Definition routed (d : cdb) (r : room_row) (t : tenant_row) (dm : domain_row) : Prop :=
  r ∈ rooms d /\ by_id t_id (r_tenant r) (tenants d) = Some t /\
  (exists k, r_domain r = Some k /\ by_id d_id k (domains d) = Some dm) /\ d_mode dm = "dns"%string.

(** The identifier of a queue of a tenant, and the backend [b] of the tenant
    [bt] it sends the admitted visitors to. *)
Definition room_key (t : tenant_row) (r : room_row) : string := (t_slug t +:+ "." +:+ r_slug r)%string.
Definition sends_to (d : cdb) (r : room_row) (bt : tenant_row) (b : backend_row) : Prop :=
  exists k, r_backend r = Some k /\ by_id b_id k (backends d) = Some b /\ by_id t_id (b_tenant b) (tenants d) = Some bt.

(** The lines of the queues, as the loop of [Build] sees them. *)
Lemma routed_joined d r t dm : routed d r t dm <->
  exists j, j ∈ q_rooms d /\ join_room d r = Some j /\ r ∈ rooms d /\ by_id t_id (r_tenant r) (tenants d) = Some t /\
    (exists k, r_domain r = Some k /\ by_id d_id k (domains d) = Some dm) /\
    routed_fqdn j = Some (d_fqdn dm) /\ room_id j = room_key t r /\ rj_row j = r.
Proof.
  split.
  - intros (Hr & Ht & (k & Hk & Hdm) & Hd). destruct (join_room d r) as [j|] eqn:Hj; [|unfold join_room in Hj; by rewrite Ht in Hj].
    exists j. pose proof Hj as (t' & Ht' & Hs & Hrow & Hq & Hm & _)%join_room_inv. rewrite Ht in Ht'. injection Ht' as <-.
    rewrite Hk in Hq, Hm. simpl in Hq, Hm. rewrite Hdm in Hq, Hm. simpl in Hq, Hm.
    split_and!; [apply q_rooms_elem; by exists r|done..|by exists k| | |done].
    + unfold routed_fqdn. by rewrite Hm, Hq, Hd, bool_decide_true.
    + unfold room_id, room_key. by rewrite Hs, Hrow.
  - intros (j & _ & Hj & Hr & Ht & (k & Hk & Hdm) & Hf & _). split_and!; [done|done|by exists k|].
    apply join_room_inv in Hj as (_ & _ & _ & _ & Hq & Hm & _). unfold routed_fqdn in Hf. case_bool_decide as Hd; [|done].
    rewrite Hk in Hm. simpl in Hm. rewrite Hdm in Hm. simpl in Hm. congruence.
Qed.

Lemma joined_routed d j f : j ∈ q_rooms d -> routed_fqdn j = Some f ->
  exists r t dm, routed d r t dm /\ f = d_fqdn dm /\ room_id j = room_key t r /\ rj_row j = r /\ join_room d r = Some j.
Proof.
  intros (r & Hr & Hj)%q_rooms_elem Hf. pose proof Hj as (t & Ht & Hs & Hrow & Hq & Hm & _)%join_room_inv.
  unfold routed_fqdn in Hf. case_bool_decide as Hd; [|done]. rewrite Hq in Hf. apply fmap_Some in Hf as (dm & Hdm & ->).
  rewrite Hdm in Hm. apply bind_Some in Hdm as (k & Hk & Hdm). exists r, t, dm. split; [|split; [done|]].
  - split_and!; [done|done|by exists k|]. simpl in Hm. congruence.
  - split_and!; [|done|done]. unfold room_id, room_key. by rewrite Hs, Hrow.
Qed.

Lemma rooms_routed d f i : MkEntry f i ∈ rooms_of (q_rooms d) <->
  exists r t dm, routed d r t dm /\ f = d_fqdn dm /\ i = room_key t r.
Proof.
  rewrite rooms_of_elem. split.
  - intros (j & Hj & Hf & <-). destruct (joined_routed d j f Hj Hf) as (r & t & dm & H1 & H2 & H3 & _). by exists r, t, dm.
  - intros (r & t & dm & (j & Hj & _ & _ & _ & _ & Hf & Hi & _)%routed_joined & -> & ->). by exists j.
Qed.

Lemma states_routed d i s : MkEntry i s ∈ states_of (q_rooms d) <->
  exists r t dm, routed d r t dm /\ i = room_key t r /\ s = r_effective r.
Proof.
  rewrite states_of_elem. split.
  - intros (j & f & Hj & Hf & <- & <-). destruct (joined_routed d j f Hj Hf) as (r & t & dm & H1 & _ & H3 & H4 & _).
    exists r, t, dm. by rewrite H4.
  - intros (r & t & dm & (j & Hj & _ & _ & _ & _ & Hf & Hi & Hr)%routed_joined & -> & ->). exists j, (d_fqdn dm). by rewrite Hr.
Qed.

Lemma backend_routed d f n : MkEntry f n ∈ backend_of (q_rooms d) <->
  exists r t dm bt b, routed d r t dm /\ sends_to d r bt b /\ f = d_fqdn dm /\ n = BackendName (t_slug bt) (b_name b).
Proof.
  rewrite backend_of_elem. split.
  - intros (j & tb & nb & Hj & Hf & Hb & ->). destruct (joined_routed d j f Hj Hf) as (r & t & dm & H1 & H2 & _ & _ & Hjr).
    apply join_room_inv in Hjr as (_ & _ & _ & _ & _ & _ & Hbk).
    apply (Hbk tb nb) in Hb. destruct Hb as (k & b & bt & Hk & Hkb & Ht & -> & ->).
    exists r, t, dm, bt, b. split_and!; [done|by exists k|done|done].
  - intros (r & t & dm & bt & b & (j & Hj & Hjr & _ & _ & _ & Hf & _)%routed_joined & (k & Hk & Hb & Ht) & -> & ->).
    exists j, (t_slug bt), (b_name b). split_and!; [done|done| |done].
    apply join_room_inv in Hjr as (_ & _ & _ & _ & _ & _ & Hbk). apply Hbk. by exists k, b, bt.
Qed.

Lemma backends_declared d x : x ∈ map (spec_of d) (q_backends d) <->
  exists b bt, b ∈ backends d /\ by_id t_id (b_tenant b) (tenants d) = Some bt /\
    x = MkSpec (BackendName (t_slug bt) (b_name b)) (b_balance b) (b_check_path b) (map server_of (q_servers (b_id b) d)).
Proof.
  change (map (spec_of d) (q_backends d)) with (spec_of d <$> q_backends d). rewrite list_elem_of_fmap. split.
  - intros (bj & -> & Hb). unfold q_backends in Hb. rewrite merge_sort_Permutation in Hb.
    apply list_elem_of_omap in Hb as (b & Hb & Hbj). apply bind_Some in Hbj as (bt & Ht & [= <-]). by exists b, bt.
  - intros (b & bt & Hb & Ht & ->). eexists. split; [|by apply q_backends_elem]. done.
Qed.

(** Claim C39: with no concurrent writer, [Build] succeeds and changes nothing.
    The map of the domains has exactly the queues with a domain in DNS mode,
    each at its domain, once when the domains are unique; the map of the states
    has exactly the effective state of each of these queues; the map of the
    backends has exactly, for the domain of each of them that has a backend, the
    name of that queue's backend.  The backends declared are exactly those of
    the table, with their servers, so that every backend a domain is sent to is
    declared. *)
Theorem Build_routes p :
  quiet p -> let db := tables p in exists d, Build decrypt sha256 p = (inr d, p) /\
    (forall f i, MkEntry f i ∈ DRooms d <-> exists r t dm, routed db r t dm /\ f = d_fqdn dm /\ i = room_key t r) /\
    (forall i s, MkEntry i s ∈ DStates d <-> exists r t dm, routed db r t dm /\ i = room_key t r /\ s = r_effective r) /\
    (forall f n, MkEntry f n ∈ DBackend d <->
       exists r t dm bt b, routed db r t dm /\ sends_to db r bt b /\ f = d_fqdn dm /\ n = BackendName (t_slug bt) (b_name b)) /\
    (forall x, x ∈ DBackends d <-> exists b bt, b ∈ backends db /\ by_id t_id (b_tenant b) (tenants db) = Some bt /\
       x = MkSpec (BackendName (t_slug bt) (b_name b)) (b_balance b) (b_check_path b) (map server_of (q_servers (b_id b) db))) /\
    (domains_unique db -> NoDup (EKey <$> DRooms d)) /\
    (forall f n, MkEntry f n ∈ DBackend d -> f ∈ EKey <$> DRooms d /\ n ∈ SpecName <$> DBackends d).
Proof.
  intros Hq db. exists (desired_of db). split; [by apply Build_quiet|]. simpl. split_and!.
  - intros f i. by rewrite sortEntries_elem, rooms_routed.
  - intros i s. by rewrite sortEntries_elem, states_routed.
  - intros f n. by rewrite sortEntries_elem, backend_routed.
  - intros x. apply backends_declared.
  - apply rooms_unique.
  - intros f n Hn. apply sortEntries_elem, backend_routed in Hn as (r & t & dm & bt & b & Hr & (k & Hk & Hb & Ht) & -> & ->).
    apply by_id_elem in Hb as [Hb _]. split.
    + apply list_elem_of_fmap. exists (MkEntry (d_fqdn dm) (room_key t r)). split; [done|].
      apply sortEntries_elem, rooms_routed. by exists r, t, dm.
    + apply list_elem_of_fmap. eexists. split; [|apply backends_declared; exists b, bt; split_and!; reflexivity || done]. done.
Qed.

(** When the connection breaks while the backends are being read,
    [Build] does not notice: it gives a desired state without backends, as if
    there were none. *)
Theorem Build_truncated p env e l :
  sched p = (env, Cut 0 e) :: l -> Forall (fun t => t.2 = Served) l ->
  exists d p', Build decrypt sha256 p = (inr d, p') /\ DBackends d = [].
Proof.
  intros Hs Hl. unfold Build. erewrite M_bind_ok by (unfold Query, turn; rewrite Hs; reflexivity). simpl.
  erewrite M_bind_ok by done. erewrite M_bind_ok by done.
  assert (Hserve : forall A (q : cdb -> list A) q0, Forall (fun t => t.2 = Served) (sched q0) ->
    exists rows q1, Query q q0 = (inr (inr <$> rows, None), q1) /\ Forall (fun t => t.2 = Served) (sched q1)).
  { intros A q [d [|[f o] k]]; unfold Query, turn; simpl; intros Hf; [eauto|].
    apply Forall_cons in Hf as [Ho Hk]. simpl in Ho. subst o. eauto. }
  destruct (Hserve _ q_rooms (MkPg (env (tables p)) l) Hl) as (r1 & p1 & E1 & H1).
  destruct (Hserve _ q_certs p1 H1) as (r2 & p2 & E2 & H2).
  destruct (Hserve _ q_keys p2 H2) as (r3 & p3 & E3 & H3).
  erewrite M_bind_ok by exact E1. simpl. rewrite scan_all_inr. erewrite M_bind_ok by done.
  erewrite M_bind_ok by exact E2. simpl. rewrite scan_all_inr. erewrite M_bind_ok by done.
  erewrite M_bind_ok by exact E3. destruct (pass_keys (scanned _)) as [pub prev].
  eexists _, _. split; [reflexivity|done].
Qed.

End Facts.

(** ** A small platform *)

Definition sale_room : room_row :=
  MkRoom "r1" "t1" "sale" "Sale" (Some "d1"%string) (Some "b1"%string) "queue" "queue" (of_int 10) 500 30 1200
    None ∅ 0 0 0.

Definition demo_db : cdb :=
  MkCdb [MkTenant "t1" "acme" "Acme" 0] [MkDomain "d1" "t1" "shop.example" "dns" "auto" 0]
    [MkBackendRow "b1" "t1" "web" "roundrobin" "/"]
    [MkServerRow "b1" "srv1" "10.0.0.10" 80 100 0; MkServerRow "b1" "srv2" "10.0.0.11" 80 50 200]
    [sale_room] [MkCert "d1" "shop.example" "issued" (Some "PEM"%string) (Some 2000) None None None None]
    [MkKey "k2" "PUB2" true 900 None "SEC2"; MkKey "k1" "PUB1" false 100 (Some 900) "SEC1"]
    [MkNode "lb1" ["edge"%string] "10.0.0.1" EmptyString "ready" EmptyString None;
     MkNode "data1" ["queue"; "data"]%string "10.0.0.3" EmptyString "ready" EmptyString None]
    default_settings [] [] [] [] 7 1000 no_accounts no_extras.

Definition demo_pg : pg := MkPg demo_db [].
Definition toy_sha (s : string) : string := s.

Lemma Build_routes_witness : exists d, Build Some toy_sha demo_pg = (inr d, demo_pg) /\
  MkEntry "shop.example" "acme.sale" ∈ DRooms d /\ MkEntry "acme.sale" "queue" ∈ DStates d /\
  MkEntry "shop.example" "bk_acme__web" ∈ DBackend d /\ "bk_acme__web"%string ∈ SpecName <$> DBackends d.
Proof.
  destruct (Build_routes Some toy_sha demo_pg eq_refl) as (d & Hd & Hr & Hs & Hb & _ & _ & Hn).
  exists d. split; [exact Hd|].
  assert (H1 : routed demo_db sale_room (MkTenant "t1" "acme" "Acme" 0) (MkDomain "d1" "t1" "shop.example" "dns" "auto" 0)).
  { split_and!; [by apply list_elem_of_singleton|reflexivity|exists "d1"%string; by split|reflexivity]. }
  assert (H2 : MkEntry "shop.example" "bk_acme__web" ∈ DBackend d).
  { apply Hb. do 4 eexists. exists (MkBackendRow "b1" "t1" "web" "roundrobin" "/").
    split_and!; [exact H1|exists "b1"%string; by split_and!|reflexivity..]. }
  split_and!; [apply Hr; by do 3 eexists|apply Hs; by do 3 eexists|exact H2|by apply (Hn "shop.example"%string)].
Defined.

Lemma Build_truncated_witness :
  exists d p', Build Some toy_sha (MkPg demo_db [(id, Cut 0 (Err "broken pipe"))]) = (inr d, p') /\ DBackends d = [].
Proof. exact (Build_truncated Some toy_sha (MkPg demo_db [(id, Cut 0 (Err "broken pipe"))]) id _ [] eq_refl (List.Forall_nil _)). Defined.
