(* ===== verification/Inventory.v ===== *)
(** * Package [inventory]: the inventory lives in the database

    [control/internal/inventory/inventory.go] and [seed.go].  The YAML file is
    rendered byte by byte; the [jsonb] columns of the settings hold what
    [SaveSettings] has written, so they decode.  The decoding of the seed and
    the files it may be read from are parameters; the comparison of the seed's
    settings with the base's, which only feeds a log line, is left out. *)
From Stdlib Require Import Ascii.
From S2P Require Import Prelude GoStr F64 Json Pg.

Local Open Scope list_scope.
Local Open Scope Z_scope.

Definition RoleEdge : string := "edge".
Definition RoleQueue : string := "queue".
Definition RoleData : string := "data".

(** ** Reading *)

Definition LoadSettings : M pg Settings := QueryRow (fun d => Some (settings d)).

Section Reading.
Context `{Collation}.

(** [defer rows.Close(); for rows.Next() ...; return out, rows.Err()]. *)
Definition all_rows {A} (q : cdb -> list A) : M pg (list A) :=
  rows ← Query q;
  l ← lift_err (scan_all rows.1);
  match rows.2 with Some e => mfail e | None => mret l end.

Definition LoadNodes : M pg (list Node) := all_rows (fun d => merge_sort (by1 Name) (nodes d)).

Definition has_role (role : string) (n : Node) : bool := existsb (String.eqb role) (Roles n).

(** The nodes in service in a role, by name. *)
Definition ready_nodes (role : string) (d : cdb) : list Node :=
  merge_sort (by1 Name) (base.filter (fun n => has_role role n = true /\ NState n = "ready"%string) (nodes d)).

Definition hostPort (ip : string) : string :=
  if Contains ip ":" && negb (HasPrefix ip "[") then ("[" +:+ ip +:+ "]")%string else ip.

Definition node_url (ip : string) (port : Z) : string :=
  ("http://" +:+ hostPort ip +:+ ":" +:+ FormatInt port)%string.

Record Edge : Type := MkEdge { EName : string; EURL : string }.

Definition Edges : M pg (list Edge) :=
  port ← QueryRow (fun d => Some (DataplanePort (settings d)));
  l ← all_rows (ready_nodes RoleEdge);
  mret (map (fun n => MkEdge (Name n) (node_url (MgmtIP n) port)) l).

Definition QueueHosts : M pg (list string) :=
  port ← QueryRow (fun d => Some (QueuePort (settings d)));
  l ← all_rows (ready_nodes RoleQueue);
  mret (map (fun n => node_url (MgmtIP n) port) l).

(** ** Synchronising the registers [edges] and [queue_hosts] *)

(** [insert ... on conflict (name) do update]. *)
Definition upsert_edge (e : Edge) : list edge_row -> list edge_row :=
  upsert e_name (EName e)
    (fun r => MkEdgeRow (EName e) (EURL e) (e_config_hash r) (e_desired_hash r) (e_status r) (e_error r) (e_pushed r))
    (MkEdgeRow (EName e) (EURL e) None None None None None).

Definition upsert_queue (port : Z) (n : Node) : list queue_row -> list queue_row :=
  upsert q_name (Name n) (fun r => MkQueueRow (Name n) (MgmtIP n) port (q_error r) (q_seen r))
    (MkQueueRow (Name n) (MgmtIP n) port None None).

Fixpoint sync_edges (es : list Edge) : M pg unit :=
  match es with
  | [] => mret tt
  | e :: es => Exec_ (fun d => set_edges (upsert_edge e (edges d)) d) ≫= fun _ => sync_edges es
  end.

Definition queue_nodes (d : cdb) : list Node :=
  base.filter (fun n => has_role RoleQueue n = true /\ NState n = "ready"%string) (nodes d).

Definition sync_queue_hosts (port : Z) (d : cdb) : cdb :=
  set_queue_hosts (foldl (fun l n => upsert_queue port n l) (queue_hosts d) (queue_nodes d)) d.

Definition Sync : M pg unit :=
  n ← QueryRow (fun d => Some (length (nodes d)));
  if bool_decide (n = 0%nat)
  then mfail (ErrIncomplete "aucun nœud déclaré : la topologie n'est pas modifiée")
  else
    es ← Edges;
    sync_edges es ≫= fun _ =>
    let noms := map EName es in
    Exec_ (fun d => set_edges (base.filter (fun r => e_name r ∈ noms) (edges d)) d) ≫= fun _ =>
    qport ← QueryRow (fun d => Some (QueuePort (settings d)));
    Exec_ (sync_queue_hosts qport) ≫= fun _ =>
    Exec_ (fun d => set_queue_hosts
             (base.filter (fun r => q_name r ∈ map Name (queue_nodes d)) (queue_hosts d)) d).

(** ** Writing *)

(** The constraints of [nodes]: a check on the state and the roles, one node per
    address.  The column also refuses null roles, which a nil slice would be: the
    list here stands for a slice that is not nil. *)
Definition states_allowed : list string := ["planned"; "installing"; "ready"; "draining"].
Definition roles_allowed : list string := [RoleEdge; RoleQueue; RoleData].

Definition node_violation (n : Node) (l : list Node) : option goerr :=
  if negb (existsb (String.eqb (NState n)) states_allowed)
     || negb (forallb (fun r => existsb (String.eqb r) roles_allowed) (Roles n))
  then Some (ErrPg "23514" "new row for relation nodes violates check constraint")
  else if existsb (fun m => negb (String.eqb (Name m) (Name n)) && String.eqb (MgmtIP m) (MgmtIP n)) l
  then Some (ErrPg "23505" "nodes_mgmt_ip")
  else None.

Definition upsert_node (n : Node) : list Node -> list Node :=
  upsert Name (Name n)
    (fun m => MkNode (Name n) (Roles n) (MgmtIP n) (MgmtIP6 n) (NState n) (Note n) (EnrolledAt m))
    (MkNode (Name n) (Roles n) (MgmtIP n) (MgmtIP6 n) (NState n) (Note n) None).

Definition with_state (st : string) (n : Node) : Node :=
  MkNode (Name n) (Roles n) (MgmtIP n) (MgmtIP6 n) st (Note n) (EnrolledAt n).

Definition SaveNode (n : Node) : M pg unit :=
  let n := if bool_decide (NState n = EmptyString) then with_state "planned" n else n in
  Exec (fun d => match node_violation n (nodes d) with
                 | Some e => inl e
                 | None => inr (tt, set_nodes (upsert_node n (nodes d)) d)
                 end).

Definition or_default (z def : Z) : Z := if z =? 0 then def else z.

(** The defaults [SaveSettings] gives, and the row it writes over [old]. *)
Definition settings_defaults (s : Settings) : Settings :=
  MkSettings (SEnv s) (if bool_decide (AnsibleUser s = EmptyString) then "flyc-deploy"%string else AnsibleUser s)
    (WaitHost s) (ControlHost s) (VIPAppV4 s) (VIPAppV6 s) (VIPWaitV4 s) (VIPWaitV6 s)
    (VIPGatewayV4 s) (VIPGatewayV6 s) (BGPEnabled s) (BGPLocalAS s) (BGPNeighbors s)
    (ACMEEmail s) (ACMEDirectory s) (ControlPublicURL s) (CookieSecure s) (ImageTag s) (Registry s)
    (or_default (QueuePort s) 8080) (or_default (ControlPort s) 8090) (or_default (DataplanePort s) 5555)
    (ManageFirewall s) (DeployFrom s) (RegistryCA s) (ExtraVars s) (SeededFromEnv s).

Definition settings_row (s old : Settings) (seeded : bool) : Settings :=
  MkSettings (SEnv s) (AnsibleUser s) (WaitHost s) (ControlHost s) (VIPAppV4 s) (VIPAppV6 s) (VIPWaitV4 s)
    (VIPWaitV6 s) (VIPGatewayV4 s) (VIPGatewayV6 s) (BGPEnabled s) (BGPLocalAS s) (BGPNeighbors s)
    (ACMEEmail s) (ACMEDirectory s) (ControlPublicURL s) (CookieSecure s) (ImageTag s)
    (if bool_decide (Registry s = EmptyString) then Registry old else Registry s)
    (QueuePort s) (ControlPort s) (DataplanePort s) (ManageFirewall s) (DeployFrom s) (RegistryCA s)
    (ExtraVars s) seeded.

(** What a column of type [int] holds. *)
Definition int4 (z : Z) : bool := (- 2 ^ 31 <=? z) && (z <? 2 ^ 31).
Definition settings_fit (s : Settings) : bool := forallb int4 [BGPLocalAS s; QueuePort s; ControlPort s; DataplanePort s].

(** The caller's settings are completed in place: they are returned.  A number
    that does not fit its column is not sent. *)
Definition SaveSettings (s : Settings) (seeded : bool) : M pg Settings :=
  let s := settings_defaults s in
  if settings_fit s
  then Exec_ (fun d => set_settings (settings_row s (settings d) seeded) d) ≫= fun _ => mret s
  else mfail (Err "value is greater than maximum value for int4").

(** ** The seed *)

Record Seed : Type := MkSeed { SSettings : Settings; SNodes : list Node }.

(** [Lire]: the file when it can be read, the variable otherwise. *)
Definition Lire (read_file : string -> option string) (fichier inline : string) : string :=
  if bool_decide (fichier = EmptyString) then inline else default inline (read_file fichier).

Fixpoint seed_nodes (ns : list Node) : M pg unit :=
  match ns with
  | [] => mret tt
  | n :: ns =>
      let n := if bool_decide (NState n = EmptyString) then with_state "ready" n else n in
      (fun p => match SaveNode n p with
                | (inl e, p1) => (inl (Err ("amorçage du nœud " +:+ Name n +:+ " : " +:+ error_text e)%string), p1)
                | (inr _, p1) => seed_nodes ns p1
                end)
  end.

(** The divergences of the nodes, for the log: the base is read, never
    written. *)
Definition node_text (n : Node) : string := (Join (Roles n) "+" +:+ " " +:+ MgmtIP n)%string.
Definition node_texts (l : list Node) : gmap string string :=
  foldl (fun (m : gmap string string) n => <[Name n := node_text n]> m) ∅ l.
Definition clesUnion (a b : gmap string string) : list string := merge_sort String.le (elements (dom a ∪ dom b)).

Definition ecart_noeud (base env : gmap string string) (nom : string) : list string :=
  let x := default EmptyString (base !! nom) in
  let y := default EmptyString (env !! nom) in
  if bool_decide (x = y) then []
  else if bool_decide (x = EmptyString) then [(nom +:+ " absent de la base")%string]
  else if bool_decide (y = EmptyString) then [(nom +:+ " absent du fichier")%string]
  else [(nom +:+ " : base " +:+ json_string x +:+ ", fichier " +:+ json_string y)%string].

Definition ecarts_noeuds (base env : list Node) : list string :=
  mjoin (ecart_noeud (node_texts base) (node_texts env) <$> clesUnion (node_texts base) (node_texts env)).

Definition Apply (unmarshal : string -> goerr + Seed) (raw : string) : M pg unit :=
  let raw := TrimSpace raw in
  if bool_decide (raw = EmptyString) then mret tt
  else
    match unmarshal raw with
    | inl e => mfail (Err ("FLYC_INVENTORY_SEED illisible : " +:+ error_text e)%string)
    | inr s =>
        n ← QueryRow (fun d => Some (length (nodes d)));
        if bool_decide (0 < n)%nat then
          (* [signalerEcart]: reads the nodes and logs [ecarts_noeuds] *)
          mtry LoadNodes ≫= fun _ => mret tt
        else if bool_decide (SNodes s = []) then mret tt
        else SaveSettings (SSettings s) true ≫= fun _ => seed_nodes (SNodes s) ≫= fun _ => Sync
    end.

End Reading.

(** ** Rendering *)

Definition yamlStr (s : string) : string := json_string s.

Definition FormatBool (b : bool) : string := if b then "true" else "false".

(** A number that is an integer is printed as one. *)
Definition yamlScalar (v : any) : goerr + string :=
  match v with
  | AString s => inr (yamlStr s)
  | ABool b => inr (FormatBool b)
  | AFloat x => inr (if feqb x (of_int (trunc x)) then FormatInt (trunc x) else FormatFloat x)
  | AInt z => inr (FormatInt z)
  | ANil => inr (dquote +:+ dquote)%string
  | AOther v => inl (Err ("type non supporté (" +:+ match v with JArr _ => "[]interface {}" | _ => "map[string]interface {}" end
                          +:+ ") : seuls les scalaires sont acceptés")%string)
  end.

(** [clesTriees]: the free settings in the order of their keys. *)
Definition key_sorted (l : list (string * any)) : list (string * any) :=
  merge_sort (fun x y => String.le x.1 y.1) l.

Definition line (s : string) : string := s +:+ newline.

Definition concat_str (l : list string) : string := foldr String.append EmptyString l.

Definition pair_line (name v4 v6 : string) : string :=
  line ("    " +:+ name +:+ " { v4: " +:+ yamlStr v4 +:+ ", v6: " +:+ yamlStr v6 +:+ " }")%string.

Definition str_line (name v : string) : string := line ("    " +:+ name +:+ ": " +:+ yamlStr v)%string.

Definition neighbor_line (n : Neighbor) : string :=
  line ("        - { ip: " +:+ yamlStr (IP n) +:+ ", remote_as: " +:+ FormatInt (RemoteAS n) +:+ ", family: "
        +:+ yamlStr (Family n) +:+ " }")%string.

(** The image lines: the registry is written between quotes, not escaped. *)
Definition image_line (name image registry : string) : string :=
  line ("    " +:+ name +:+ ": " +:+ dquote +:+ registry +:+ "/" +:+ image +:+ ":{{ flyc_image_tag }}" +:+ dquote)%string.

Definition render_vars (s : Settings) : string := concat_str
  [line "all:"; line "  vars:";
   str_line "flyc_env" (SEnv s); str_line "ansible_user" (AnsibleUser s);
   line "    ansible_become: true";
   str_line "flyc_wait_host" (WaitHost s); str_line "flyc_control_host" (ControlHost s);
   pair_line "flyc_vip_app: " (VIPAppV4 s) (VIPAppV6 s); pair_line "flyc_vip_wait:" (VIPWaitV4 s) (VIPWaitV6 s);
   line "    flyc_bgp:";
   line ("      enabled: " +:+ FormatBool (BGPEnabled s));
   line ("      local_as: " +:+ FormatInt (BGPLocalAS s));
   match BGPNeighbors s with
   | [] => line "      neighbors: []"
   | l => line "      neighbors:" +:+ concat_str (map neighbor_line l)
   end;
   pair_line "flyc_vip_gateway:" (VIPGatewayV4 s) (VIPGatewayV6 s);
   str_line "flyc_acme_email" (ACMEEmail s); str_line "flyc_acme_directory" (ACMEDirectory s);
   str_line "flyc_control_public_url" (ControlPublicURL s);
   line ("    flyc_cookie_secure: " +:+ FormatBool (CookieSecure s));
   str_line "flyc_image_tag" (ImageTag s);
   image_line "flyc_image_queue" "flyc-queue" (Registry s);
   image_line "flyc_image_control" "flyc-control" (Registry s);
   image_line "flyc_image_runner" "flyc-runner" (Registry s);
   line ("    flyc_queue_port: " +:+ FormatInt (QueuePort s));
   line ("    flyc_control_port: " +:+ FormatInt (ControlPort s));
   line ("    flyc_dataplane_port: " +:+ FormatInt (DataplanePort s));
   line ("    flyc_manage_firewall: " +:+ FormatBool (ManageFirewall s));
   str_line "flyc_deploy_from" (DeployFrom s)]%string.

Definition render_ca (ca : string) : string :=
  if bool_decide (ca = EmptyString) then EmptyString
  else concat_str
    ([line "    # Certificat racine du registre, téléversé depuis l'interface (contenu, pas un chemin :";
      line "    # le fichier d'origine était sur le poste de l'opérateur).";
      line "    flyc_registry_ca: |-"]
     ++ map (fun l => line ("      " +:+ l)) (Split (chr 10) (TrimRight1 (chr 10) ca)))%list%string.

(** [%q] of a key without special character is its JSON form. *)
Fixpoint render_extra (l : list (string * any)) : goerr + string :=
  match l with
  | [] => inr EmptyString
  | (k, v) :: l =>
      match yamlScalar v with
      | inl e => inl (Err ("réglage libre " +:+ json_string k +:+ " : " +:+ error_text e)%string)
      | inr t => match render_extra l with
                 | inl e => inl e
                 | inr rest => inr (line ("    " +:+ k +:+ ": " +:+ t) +:+ rest)%string
                 end
      end
  end.

(** The members of a group, in the order of the nodes; a node listed twice in
    a role appears twice. *)
Definition groupe (role : string) (ns : list Node) : list Node :=
  mjoin ((fun n => (fun _ => n) <$> base.filter (fun r => r = role) (Roles n)) <$> ns).

Definition host_line (n : Node) : string :=
  line ("        " +:+ Name n +:+ ": { ansible_host: " +:+ yamlStr (MgmtIP n) +:+ ", mgmt_ip: " +:+ yamlStr (MgmtIP n)
        +:+ (if bool_decide (MgmtIP6 n = EmptyString) then EmptyString else ", mgmt_ip6: " +:+ yamlStr (MgmtIP6 n))
        +:+ " }")%string.

Definition render_group (ns : list Node) (role : string) : string :=
  (line ("    " +:+ role +:+ ":") +:+
   match groupe role ns with
   | [] => line "      hosts: {}"
   | l => line "      hosts:" +:+ concat_str (map host_line l)
   end)%string.

Definition render_draining (ns : list Node) : string :=
  (line "    draining:" +:+ "      hosts:" +:+
   match base.filter (fun n => NState n = "draining"%string) ns with
   | [] => line " {}"
   | l => newline +:+ concat_str (map (fun n => line ("        " +:+ Name n +:+ ": {}")) l)
   end)%string.

(** [now] is the date of the header. *)
Definition Render (now : string) (s : Settings) (ns : list Node) : goerr + string :=
  match groupe RoleData ns with
  | [] => inl (ErrIncomplete "aucun hôte data : control ne saurait pas où poser la base")
  | _ :: _ :: _ => inl (ErrIncomplete "plusieurs hôtes data : control suppose une instance unique")
  | [_] =>
      match render_extra (key_sorted (ExtraVars s)) with
      | inl e => inl e
      | inr extra => inr
          (line ("# Généré par flyc-control le " +:+ now +:+ " depuis la base. Ne pas modifier : toute retouche serait")
           +:+ line "# perdue à la génération suivante. La vérité est dans les tables nodes et platform_settings."
           +:+ render_vars s +:+ render_ca (RegistryCA s) +:+ extra
           +:+ line "  children:"
           +:+ concat_str (map (render_group ns) [RoleEdge; RoleQueue; RoleData])
           +:+ render_draining ns)%string
      end
  end.

Definition Generate `{Collation} (now : string) : M pg string :=
  s ← LoadSettings;
  ns ← LoadNodes;
  lift_err (Render now s ns).

(** ** Properties *)

Section Properties.
Context `{Collation}.

Lemma all_rows_quiet {A} (q : cdb -> list A) p : quiet p -> all_rows q p = (inr (q (tables p)), p).
Proof.
  intros Hq. unfold all_rows. erewrite M_bind_ok by (by apply Query_quiet). simpl. rewrite scan_all_inr.
  by erewrite M_bind_ok.
Qed.

Lemma Exec__quiet f p : quiet p -> Exec_ f p = (inr tt, MkPg (f (tables p)) []).
Proof. intros Hq. unfold Exec_. by apply Exec_quiet. Qed.

Definition edges_of (d : cdb) : list Edge :=
  map (fun n => MkEdge (Name n) (node_url (MgmtIP n) (DataplanePort (settings d)))) (ready_nodes RoleEdge d).

Lemma Edges_quiet p : quiet p -> Edges p = (inr (edges_of (tables p)), p).
Proof.
  intros Hq. unfold Edges. erewrite M_bind_ok by (by apply QueryRow_quiet).
  by erewrite M_bind_ok by (by apply all_rows_quiet).
Qed.

Lemma sync_edges_quiet es p :
  quiet p ->
  sync_edges es p = (inr tt, MkPg (set_edges (foldl (fun l e => upsert_edge e l) (edges (tables p)) es) (tables p)) []).
Proof.
  revert p. induction es as [|e es IH]; intros p Hq.
  - destruct p as [d l]. unfold quiet in Hq. simpl in *. subst l. by destruct d.
  - simpl. erewrite M_bind_ok by (by apply Exec__quiet). by rewrite IH.
Qed.

(** The database after a synchronisation. *)
Definition synced_edges (d : cdb) : list edge_row :=
  base.filter (fun r => e_name r ∈ map EName (edges_of d))
    (foldl (fun l e => upsert_edge e l) (edges d) (edges_of d)).
Definition synced_queue (d : cdb) : list queue_row :=
  base.filter (fun r => q_name r ∈ map Name (queue_nodes d))
    (foldl (fun l n => upsert_queue (QueuePort (settings d)) n l) (queue_hosts d) (queue_nodes d)).
Definition synced_db (d : cdb) : cdb := set_queue_hosts (synced_queue d) (set_edges (synced_edges d) d).

Lemma Sync_quiet p : quiet p -> nodes (tables p) <> [] -> Sync p = (inr tt, MkPg (synced_db (tables p)) []).
Proof.
  intros Hq Hn. unfold Sync. erewrite M_bind_ok by (by apply QueryRow_quiet).
  rewrite bool_decide_eq_false_2 by (by destruct (nodes (tables p))).
  erewrite M_bind_ok by (by apply Edges_quiet). erewrite M_bind_ok by (by apply sync_edges_quiet).
  erewrite M_bind_ok by (by apply Exec__quiet). erewrite M_bind_ok by (by apply QueryRow_quiet).
  erewrite M_bind_ok by (by apply Exec__quiet). rewrite Exec__quiet by done. done.
Qed.

Lemma Sync_empty p : quiet p -> nodes (tables p) = [] ->
  Sync p = (inl (ErrIncomplete "aucun nœud déclaré : la topologie n'est pas modifiée"), p).
Proof. intros Hq Hn. unfold Sync. erewrite M_bind_ok by (by apply QueryRow_quiet). by rewrite Hn. Qed.

Definition is_ready (role : string) (n : Node) : Prop := has_role role n = true /\ NState n = "ready"%string.

(** The node of a name, when it is in service in a role. *)
Definition ready_node (role name : string) (d : cdb) : option Node :=
  n ← by_id Name name (nodes d); if decide (is_ready role n) then Some n else None.

Lemma by_id_ready role i (l : list Node) :
  NoDup (Name <$> l) ->
  by_id Name i (base.filter (is_ready role) l) =
  (n ← by_id Name i l; if decide (is_ready role n) then Some n else None).
Proof.
  induction l as [|x l IH]; [done|]. rewrite fmap_cons. intros [Hx Hn]%NoDup_cons.
  rewrite filter_cons, by_id_cons. specialize (IH Hn).
  destruct (decide (is_ready role x)) as [Hr|Hr]; rewrite ?by_id_cons, IH;
    (destruct (decide (Name x = i)) as [<-|]; [|done]); simpl; [by rewrite decide_True|].
  rewrite decide_False by done. by rewrite (proj2 (by_id_None Name (Name x) l) Hx).
Qed.

Lemma NoDup_ready role (l : list Node) : NoDup (Name <$> l) -> NoDup (Name <$> base.filter (is_ready role) l).
Proof.
  induction l as [|a l IH]; [done|]. rewrite fmap_cons, filter_cons. intros [Ha Hl]%NoDup_cons.
  case_decide; [|by apply IH]. rewrite fmap_cons. apply NoDup_cons. split; [|by apply IH].
  intros (x & Hx & Hin)%list_elem_of_fmap. apply Ha. rewrite Hx. apply list_elem_of_fmap_2.
  by apply list_elem_of_filter in Hin as [_ Hin].
Qed.

Lemma ready_nodes_spec role d i :
  NoDup (Name <$> nodes d) -> by_id Name i (ready_nodes role d) = ready_node role i d.
Proof.
  intros Hn. unfold ready_nodes, ready_node. rewrite <- by_id_ready by done. symmetry.
  apply by_id_perm; [by apply NoDup_ready|]. by rewrite merge_sort_Permutation.
Qed.

Lemma by_id_map {A B} (f : A -> B) (ka : A -> string) (kb : B -> string) i (l : list A) :
  (forall x, kb (f x) = ka x) -> by_id kb i (map f l) = f <$> by_id ka i l.
Proof.
  intros Hk. induction l as [|x l IH]; [done|]. simpl. rewrite !by_id_cons, Hk, IH. by case_decide.
Qed.

Lemma by_id_elem_of {A} (key : A -> string) i (l : list A) : i ∈ map key l <-> is_Some (by_id key i l).
Proof.
  destruct (by_id key i l) as [x|] eqn:Hx.
  - split; [by eauto|]. intros _. apply by_id_elem in Hx as [Hx <-]. by apply list_elem_of_fmap_2.
  - apply by_id_None in Hx. split; [done|]. by intros [? ?].
Qed.

Lemma by_id_synced_edges d i : NoDup (Name <$> nodes d) ->
  by_id e_name i (synced_edges d) =
    n ← ready_node RoleEdge i d;
    let old := by_id e_name i (edges d) in
    Some (MkEdgeRow i (node_url (MgmtIP n) (DataplanePort (settings d)))
            (old ≫= e_config_hash) (old ≫= e_desired_hash) (old ≫= e_status) (old ≫= e_error) (old ≫= e_pushed)).
Proof.
  intros Hn.
  unfold synced_edges.
  rewrite (by_id_filter e_name _ (fun x => x ∈ map EName (edges_of d))) by done.
  assert (Hnd : NoDup (EName <$> edges_of d)).
  { unfold edges_of. change (map ?f ?l) with (f <$> l). rewrite <- list_fmap_compose.
    change (NoDup (Name <$> ready_nodes RoleEdge d)). unfold ready_nodes.
    rewrite merge_sort_Permutation. by apply NoDup_ready. }
  unfold upsert_edge. rewrite (by_id_upserts e_name EName) by done.
  assert (Hb : by_id EName i (edges_of d) =
    (fun n => MkEdge (Name n) (node_url (MgmtIP n) (DataplanePort (settings d)))) <$> ready_node RoleEdge i d).
  { unfold edges_of. rewrite (by_id_map _ Name) by done. by rewrite ready_nodes_spec. }
  pose proof (by_id_elem_of EName i (edges_of d)) as Hin. rewrite Hb in Hin |- *.
  destruct (ready_node RoleEdge i d) as [n|] eqn:Hr; simpl in *.
  + rewrite decide_True by (apply Hin; eauto). unfold ready_node in Hr.
    apply bind_Some in Hr as (n' & (_ & <-)%by_id_elem & Hr). case_decide; simplify_eq.
    by destruct (by_id e_name (Name n) (edges d)).
  + rewrite decide_False; [done|]. rewrite Hin. by intros [? ?].
Qed.

Lemma by_id_synced_queue d i : NoDup (Name <$> nodes d) ->
  by_id q_name i (synced_queue d) =
    n ← ready_node RoleQueue i d;
    Some (MkQueueRow i (MgmtIP n) (QueuePort (settings d)) (by_id q_name i (queue_hosts d) ≫= q_error) (by_id q_name i (queue_hosts d) ≫= q_seen)).
Proof.
  intros Hn.
  unfold synced_queue.
  rewrite (by_id_filter q_name _ (fun x => x ∈ map Name (queue_nodes d))) by done.
  assert (Hnd : NoDup (Name <$> queue_nodes d)) by (by apply NoDup_ready).
  unfold upsert_queue. rewrite (by_id_upserts q_name Name) by done.
  assert (Hb : by_id Name i (queue_nodes d) = ready_node RoleQueue i d) by (by apply by_id_ready).
  pose proof (by_id_elem_of Name i (queue_nodes d)) as Hin. rewrite Hb in Hin |- *.
  destruct (ready_node RoleQueue i d) as [n|] eqn:Hr; simpl in *.
  + rewrite decide_True by (apply Hin; eauto). unfold ready_node in Hr.
    apply bind_Some in Hr as (n' & (_ & <-)%by_id_elem & Hr). case_decide; simplify_eq.
    by destruct (by_id q_name (Name n) (queue_hosts d)).
  + rewrite decide_False; [done|]. rewrite Hin. by intros [? ?].
Qed.

(** Claim C32: after a synchronisation with no concurrent writer, the registers
    [edges] and [queue_hosts] have one row for each node in service in the
    role, with its current address, the push state of a node already known
    being kept, and no other row; nothing else changes.  Without any node the
    registers are left as they are and the error says so. *)
Theorem Sync_mirror p :
  quiet p -> NoDup (Name <$> nodes (tables p)) ->
  match Sync p with
  | (inl e, p') => nodes (tables p) = [] /\ p' = p /\
      e = ErrIncomplete "aucun nœud déclaré : la topologie n'est pas modifiée"
  | (inr _, p') => exists es qs, tables p' = set_queue_hosts qs (set_edges es (tables p)) /\ quiet p' /\
      (forall i, by_id e_name i es =
         n ← ready_node RoleEdge i (tables p);
         let old := by_id e_name i (edges (tables p)) in
         Some (MkEdgeRow i (node_url (MgmtIP n) (DataplanePort (settings (tables p))))
                 (old ≫= e_config_hash) (old ≫= e_desired_hash) (old ≫= e_status) (old ≫= e_error) (old ≫= e_pushed))) /\
      (forall i, by_id q_name i qs =
         n ← ready_node RoleQueue i (tables p);
         Some (MkQueueRow i (MgmtIP n) (QueuePort (settings (tables p)))
                 (by_id q_name i (queue_hosts (tables p)) ≫= q_error) (by_id q_name i (queue_hosts (tables p)) ≫= q_seen)))
  end.
Proof.
  intros Hq Hn. destruct (decide (nodes (tables p) = [])) as [He|He]; [by rewrite Sync_empty|].
  rewrite Sync_quiet by done. set (d := tables p) in *. exists (synced_edges d), (synced_queue d).
  split_and!; [done|done| |].
  - intros i. by apply by_id_synced_edges.
  - intros i. by apply by_id_synced_queue.
Qed.

Lemma upsert_some {A} (key : A -> string) k upd new l : upsert key k upd new l <> [].
Proof.
  unfold upsert. destruct (existsb _ l) eqn:He; [|by destruct l].
  by destruct l.
Qed.

Lemma SaveNode_quiet n p r p' :
  quiet p -> SaveNode n p = (r, p') -> quiet p' /\ (r = inr tt -> nodes (tables p') <> []) /\
    (nodes (tables p) <> [] -> nodes (tables p') <> []).
Proof.
  unfold quiet, SaveNode, Exec, turn. intros ->. set (m := if bool_decide _ then _ else _).
  destruct (node_violation m (nodes (tables p))); intros [= <- <-]; simpl; [done|].
  split_and!; [done|..]; intros _; apply upsert_some.
Qed.

Lemma seed_nodes_quiet ns p r p' :
  quiet p -> seed_nodes ns p = (r, p') -> quiet p' /\
    (r = inr tt -> ns <> [] \/ nodes (tables p) <> [] -> nodes (tables p') <> []).
Proof.
  revert p. induction ns as [|n ns IH]; intros p Hq; simpl.
  - intros [= <- <-]. split; [done|]. by intros _ [?|?].
  - set (m := if bool_decide _ then _ else _). destruct (SaveNode m p) as [[e|[]] p1] eqn:Hs.
    + intros [= <- <-]. apply SaveNode_quiet in Hs as [? _]; [|done]. by split.
    + intros Hr. apply SaveNode_quiet in Hs as (Hq1 & Hn1 & _); [|done].
      apply IH in Hr as [Hq' Hn]; [|done]. split; [done|]. intros He _. apply Hn; [done|]. right. by apply Hn1.
Qed.

Variable unmarshal : string -> goerr + Seed.

Lemma Apply_full raw p : quiet p -> nodes (tables p) <> [] -> (Apply unmarshal raw p).2 = p.
Proof.
  intros Hq Hn. unfold Apply. case_bool_decide; [done|]. destruct (unmarshal _) as [e|sd]; [done|].
  erewrite M_bind_ok by (by apply QueryRow_quiet).
  rewrite bool_decide_eq_true_2 by (destruct (nodes (tables p)); simpl; [done|lia]).
  unfold mtry, mbind, M_bind, LoadNodes. by rewrite all_rows_quiet.
Qed.

Lemma Apply_seeds raw p p' :
  quiet p -> Apply unmarshal raw p = (inr tt, p') -> quiet p' /\ (p' = p \/ nodes (tables p') <> []).
Proof.
  intros Hq. destruct (decide (nodes (tables p) = [])) as [He|He].
  2:{ intros Ha. pose proof (Apply_full raw p Hq He) as Hp. rewrite Ha in Hp. simpl in Hp. subst. auto. }
  unfold Apply. case_bool_decide; [intros [= <-]; auto|]. destruct (unmarshal _) as [e|sd]; [done|].
  erewrite M_bind_ok by (by apply QueryRow_quiet). rewrite He. simpl.
  case_bool_decide as Hs; [intros [= <-]; auto|]. unfold SaveSettings. destruct (settings_fit _); intros Ha; M_inv.
  rewrite Exec__quiet in Hm1 by done. injection Hm1 as _ <-.
  apply seed_nodes_quiet in Hm0 as [Hq1 Hn1]; [|done]. destruct a0.
  assert (Hne : nodes (tables s0) <> []) by (apply Hn1; auto).
  rewrite Sync_quiet in Ha by done. injection Ha as <-. split; [done|by right].
Qed.

(** The seed fills the base once: a base that has nodes is never
    changed by a seed, whatever it says, and applying a seed again after a
    success changes nothing. *)
Theorem Apply_once raw raw' p p' :
  quiet p ->
  (nodes (tables p) <> [] -> (Apply unmarshal raw' p).2 = p) /\
  (Apply unmarshal raw p = (inr tt, p') -> (Apply unmarshal raw p').2 = p').
Proof.
  intros Hq. split; [by apply Apply_full|]. intros Ha. pose proof (Apply_seeds raw p p' Hq Ha) as [Hq' [->|Hn]].
  - by rewrite Ha.
  - by apply Apply_full.
Qed.

End Properties.

(** *** Runs *)

Definition demo_nodes : list Node :=
  [MkNode "lb1" ["edge"%string] "10.0.0.1" EmptyString "ready" EmptyString None;
   MkNode "lb2" ["edge"%string] "fd00::2" EmptyString "ready" EmptyString None;
   MkNode "lb3" ["edge"%string] "10.0.0.4" EmptyString "draining" EmptyString None;
   MkNode "data1" ["queue"; "data"]%string "10.0.0.3" EmptyString "ready" EmptyString None].

Definition registers : cdb :=
  MkCdb [] [] [] [] [] [] [] demo_nodes default_settings
    [MkEdgeRow "lb1" "http://10.0.0.9:5555" (Some "h"%string) (Some "h"%string) (Some "ok"%string) None (Some 5);
     MkEdgeRow "lb3" "http://10.0.0.4:5555" None None None None None] [] [] [] 1 0 no_accounts no_extras.

Lemma Sync_mirror_witness : exists es qs p', Sync (MkPg registers []) = (inr tt, p') /\
  tables p' = set_queue_hosts qs (set_edges es registers) /\
  by_id e_name "lb1" es = Some (MkEdgeRow "lb1" "http://10.0.0.1:5555" (Some "h"%string) (Some "h"%string) (Some "ok"%string) None (Some 5)) /\
  by_id e_name "lb2" es = Some (MkEdgeRow "lb2" "http://[fd00::2]:5555" None None None None None) /\
  by_id e_name "lb3" es = None.
Proof.
  assert (Hn : NoDup (Name <$> nodes registers)) by (apply (bool_decide_unpack _); vm_compute; exact I).
  pose proof (Sync_mirror (MkPg registers []) eq_refl Hn) as Hs.
  destruct (Sync (MkPg registers [])) as [[e|[]] p'] eqn:Hp; [vm_compute in Hp; discriminate|].
  destruct Hs as (es & qs & Hd & _ & He & _). exists es, qs, p'. split_and!; [done|exact Hd|by rewrite He..].
Defined.

Definition demo_seed (raw : string) : goerr + Seed := inr (MkSeed default_settings demo_nodes).
Definition no_nodes : pg := MkPg (set_nodes [] registers) [].

Lemma Apply_once_witness :
  (Apply demo_seed "again" (MkPg registers [])).2 = MkPg registers [] /\
  exists p', Apply demo_seed "{}" no_nodes = (inr tt, p') /\ (Apply demo_seed "{}" p').2 = p' /\
    length (edges (tables p')) = 2%nat.
Proof.
  split; [by apply (Apply_once demo_seed "{}" "again" (MkPg registers []) (MkPg registers []))|].
  eexists. split; [vm_compute; reflexivity|]. split; [|reflexivity].
  eapply (Apply_once demo_seed "{}" "{}" no_nodes); [reflexivity|]. vm_compute. reflexivity.
Defined.
