(* ===== verification/Reconcile.v ===== *)
(** * Package [reconcile]: the desired state, applied

    [control/internal/reconcile/reconcile.go].  The world of the reconciler is
    its own memory, the database, the load balancers and the queue hosts.  A
    pass ([Once]) and a turn of the automatic mode ([auto_turn]) are functions
    of this world; the tickers, the channel [kick] and the mutex only decide
    when a pass runs, one at a time.  The Prometheus gauges are left out. *)
From Stdlib Require Import Ascii.
From S2P Require Import Prelude GoStr Json Dataplane Haproxy Site Pg Compile Inventory.
From S2P Require Import Queueclient.

Local Open Scope list_scope.
Local Open Scope Z_scope.

(** ** [pushEdge] *)

Section Push.
Context {St : Type} `{DataplaneHTTP St, MapOrder}.

(** [c.AbortTx] before an error is returned. *)
Definition aborting {A} (c : Dataplane.Client) (id : string) (m : M St A) : M St A := fun s =>
  match m s with
  | (inl e, s1) => (inl e, (AbortTx c id s1).2)
  | r => r
  end.

(** The certificates already pushed to the load balancer, and the load
    balancers. *)
Abbreviation pushing := (gmap string string * St)%type.

Definition on_lb {A} (m : M St A) : M pushing A := zoom snd (fun t s => (s.1, t)) m.

Definition sslDir : string := "/etc/haproxy/ssl".

(** The loop over the certificates: the files, and the lines of the two
    lists. *)
Fixpoint push_certs (c : Dataplane.Client) (waitHost : string) (certs : list CertSpec)
    (app wait : list string) : M pushing (list string * list string) :=
  match certs with
  | [] => mret (app, wait)
  | cert :: certs =>
      let name := StorageName (FQDN cert) in
      let line := (sslDir +:+ "/" +:+ name +:+ " " +:+ FQDN cert)%string in
      (fun s =>
         if bool_decide (default EmptyString (s.1 !! FQDN cert) = Hash_ cert) then (inr tt, s)
         else match on_lb (UpsertCert c name (PEM cert)) s with
              | (inl e, s1) => (inl (wrap ("cert " +:+ FQDN cert) e), s1)
              | (inr _, s1) => (inr tt, (<[FQDN cert := Hash_ cert]> s1.1, s1.2))
              end) ≫= fun _ =>
      if bool_decide (FQDN cert = waitHost) then push_certs c waitHost certs app (wait ++ [line])
      else push_certs c waitHost certs (app ++ [line]) wait
  end.

Definition crt_list (lines : list string) : string := Join (lines ++ [(sslDir +:+ "/bootstrap.pem")%string]) newline +:+ newline.

Definition push_lists (c : Dataplane.Client) (app wait : list string) : M St unit :=
  wrapping "app.crt-list" (CrtListSync c "app.crt-list" (crt_list app)) ≫= fun _ =>
  wrapping "wait.crt-list" (CrtListSync c "wait.crt-list" (crt_list wait)) ≫= fun _ => mret tt.

Definition push_key (c : Dataplane.Client) (name pem : string) : M St bool :=
  if bool_decide (pem = EmptyString) then mret false else wrapping name (GeneralSync c name pem).

Definition push_keys (c : Dataplane.Client) (d : Desired) : M St unit :=
  k1 ← push_key c "pass.pub" (PassPub d);
  k2 ← push_key c "pass-prev.pub" (PassPrevPub d);
  if k1 || k2 then wrapping "reload après rotation de clé" (Reload c) else mret tt.

(** The backends the reconciler manages, by their name. *)
Definition managed (name : string) : bool := HasPrefix name "bk_" && Contains name "__".

Definition have_of (l : list Backend) : gmap string bool :=
  foldl (fun (m : gmap string bool) b => if managed (BName b) then <[BName b := true]> m else m) ∅ l.
Definition want_backends (l : list BackendSpec) : gmap string BackendSpec :=
  foldl (fun (m : gmap string BackendSpec) b => <[SpecName b := b]> m) ∅ l.

Definition backend_def (spec : BackendSpec) : Backend :=
  MkBackend (SpecName spec) "http" (Some (Balance spec)) "httpchk" (Some (MkChk "GET" (CheckPath spec)))
    (Some (MkDefault "enabled" 5000 2 3)) EmptyString.

(** Deletes the managed backends that are no longer wanted; tells whether
    there was one. *)
Fixpoint delete_backends (c : Dataplane.Client) (id : string) (want : gmap string BackendSpec)
    (l : list (string * bool)) : M St bool :=
  match l with
  | [] => mret false
  | (name, _) :: l =>
      if bool_decide (is_Some (want !! name)) then delete_backends c id want l
      else aborting c id (DeleteBackend c id name) ≫= fun _ => delete_backends c id want l ≫= fun _ => mret true
  end.

Fixpoint create_servers (c : Dataplane.Client) (id name : string) (l : list Server) : M St unit :=
  match l with
  | [] => mret tt
  | s :: l => aborting c id (CreateServer c id name s) ≫= fun _ => create_servers c id name l
  end.

(** A server is replaced when its address, its port or its weight differs;
    its [maxconn] is not looked at. *)
Definition differs (old s : Server) : bool :=
  negb (bool_decide (SAddress old = SAddress s)) || negb (SPort old =? SPort s)
  || match SWeight s with
     | Some w => match SWeight old with None => true | Some w' => negb (w' =? w) end
     | None => false
     end.

(** The loop over the wanted servers: whether something changed, and the
    current servers that are left. *)
Fixpoint diff_servers (c : Dataplane.Client) (id name : string) (cur : gmap string Server) (l : list Server)
    : M St (bool * gmap string Server) :=
  match l with
  | [] => mret (false, cur)
  | s :: l =>
      ch ← match cur !! SName s with
           | None => aborting c id (CreateServer c id name s) ≫= fun _ => mret true
           | Some old => if differs old s then aborting c id (ReplaceServer c id name s) ≫= fun _ => mret true
                         else mret false
           end;
      r ← diff_servers c id name (delete (SName s) cur) l;
      mret ((ch : bool) || r.1, r.2)
  end.

Fixpoint delete_servers (c : Dataplane.Client) (id name : string) (l : list (string * Server)) : M St bool :=
  match l with
  | [] => mret false
  | (sname, _) :: l => aborting c id (DeleteServer c id name sname) ≫= fun _ =>
                       delete_servers c id name l ≫= fun _ => mret true
  end.

Definition cur_map (l : list Server) : gmap string Server :=
  foldl (fun (m : gmap string Server) s => <[SName s := s]> m) ∅ l.

Definition put_backend (c : Dataplane.Client) (id : string) (have : gmap string bool) (spec : BackendSpec) : M St bool :=
  let name := SpecName spec in
  match have !! name with
  | None => aborting c id (CreateBackend c id (backend_def spec)) ≫= fun _ =>
            create_servers c id name (Servers_ spec) ≫= fun _ => mret true
  | Some _ =>
      cur ← aborting c id (Servers c name);
      r ← diff_servers c id name (cur_map cur) (Servers_ spec);
      del ← delete_servers c id name (range r.2);
      mret (r.1 || del)
  end.

Fixpoint put_backends (c : Dataplane.Client) (id : string) (have : gmap string bool)
    (l : list (string * BackendSpec)) : M St bool :=
  match l with
  | [] => mret false
  | (_, spec) :: l => ch ← put_backend c id have spec; r ← put_backends c id have l; mret (ch || r)
  end.

Definition push_backends (c : Dataplane.Client) (d : Desired) : M St unit :=
  existing ← Backends c;
  let have := have_of existing in
  let want := want_backends (DBackends d) in
  t ← BeginTx c;
  c1 ← delete_backends c (TxID t) want (range have);
  c2 ← put_backends c (TxID t) have (range want);
  if c1 || c2 then wrapping "commit" (CommitTx c (TxID t)) else AbortTx c (TxID t).

Definition push_maps (c : Dataplane.Client) (d : Desired) : M St unit :=
  wrapping "backends.map" (SyncMap c "backends.map" (DBackend d)) ≫= fun _ =>
  wrapping "rooms.map" (SyncMap c "rooms.map" (DRooms d)) ≫= fun _ =>
  wrapping "states.map" (SyncMap c "states.map" (DStates d)).

Definition pushEdge (c : Dataplane.Client) (waitHost : string) (d : Desired) : M pushing unit :=
  on_lb (wrapping "injoignable" (Info c)) ≫= fun _ =>
  lists ← push_certs c waitHost (DCerts d) [] [];
  on_lb (push_lists c lists.1 lists.2) ≫= fun _ =>
  on_lb (push_keys c d) ≫= fun _ =>
  on_lb (push_backends c d) ≫= fun _ =>
  on_lb (push_maps c d).

End Push.

(** ** A pass *)

(** The memory of the reconciler. *)
Record Reconciler : Type := MkRec {
  rc_edges : list Edge; rc_user : string; rc_pass : string; rc_queue : Client;
  rc_waitHost : string; rc_lastVer : Z; rc_pushed : gmap string (gmap string string)
}.

Definition SetWaitHost (h : string) (r : Reconciler) : Reconciler :=
  MkRec (rc_edges r) (rc_user r) (rc_pass r) (rc_queue r) (ToLower h) (rc_lastVer r) (rc_pushed r).
Definition with_edges (es : list Edge) (r : Reconciler) : Reconciler :=
  MkRec es (rc_user r) (rc_pass r) (rc_queue r) (rc_waitHost r) (rc_lastVer r) (rc_pushed r).
Definition with_queue (q : Client) (r : Reconciler) : Reconciler :=
  MkRec (rc_edges r) (rc_user r) (rc_pass r) q (rc_waitHost r) (rc_lastVer r) (rc_pushed r).
Definition with_ver (v : Z) (r : Reconciler) : Reconciler :=
  MkRec (rc_edges r) (rc_user r) (rc_pass r) (rc_queue r) (rc_waitHost r) v (rc_pushed r).
Definition with_pushed (e : string) (m : gmap string string) (r : Reconciler) : Reconciler :=
  MkRec (rc_edges r) (rc_user r) (rc_pass r) (rc_queue r) (rc_waitHost r) (rc_lastVer r) (<[e := m]> (rc_pushed r)).

Definition EdgeNames (r : Reconciler) : list string := map EName (rc_edges r).

Section Pass.
Context {St Q : Type} `{DataplaneHTTP St, QueueHTTP Q, MapOrder, Collation}.
Context (decrypt : string -> option string) (sha256 : string -> string).

Record world : Type := MkWorld { w_rec : Reconciler; w_pg : pg; w_lbs : St; w_queues : Q }.

Definition set_rec (r : Reconciler) (w : world) : world := MkWorld r (w_pg w) (w_lbs w) (w_queues w).
Definition set_pg (p : pg) (w : world) : world := MkWorld (w_rec w) p (w_lbs w) (w_queues w).
Definition set_lbs (s : St) (w : world) : world := MkWorld (w_rec w) (w_pg w) s (w_queues w).
Definition set_queues (q : Q) (w : world) : world := MkWorld (w_rec w) (w_pg w) (w_lbs w) q.

Definition in_pg {A} (m : M pg A) : M world A := zoom w_pg set_pg m.
Definition change (f : Reconciler -> Reconciler) : M world unit := fun w => (inr tt, set_rec (f (w_rec w)) w).

(** An error of the synchronisation other than an empty inventory is logged
    and the reading goes on; each reading that fails leaves what is known. *)
Definition reloadTopology : M world unit := fun w =>
  match in_pg Sync w with
  | (inl (ErrIncomplete _), w1) => (inr tt, w1)
  | (_, w1) =>
      match in_pg Edges w1 with
      | (inl _, w2) => (inr tt, w2)
      | (inr es, w2) =>
          let w3 := set_rec (with_edges es (w_rec w2)) w2 in
          match in_pg QueueHosts w3 with
          | (inl _, w4) => (inr tt, w4)
          | (inr hs, w4) => (inr tt, set_rec (with_queue (SetHosts hs (rc_queue (w_rec w4))) (w_rec w4)) w4)
          end
      end
  end.

(** [_, _ = r.pool.Exec(...)]. *)
Definition exec_quietly (f : cdb -> cdb) : M world unit := fun w => (inr tt, (in_pg (Exec_ f) w).2).

(** The update of every row of [queue_hosts]. *)
Definition queue_error (er : option string) (d : cdb) : cdb :=
  set_queue_hosts (map (fun r => MkQueueRow (q_name r) (q_address r) (q_port r) er
                                (match er with Some _ => q_seen r | None => Some (clock d) end)) (queue_hosts d)) d.

Fixpoint push_queues (l : list (string * RoomConfig)) : M world unit :=
  match l with
  | [] => mret tt
  | (id, cfg) :: l => (fun w =>
      match PutRoom (rc_queue (w_rec w)) id cfg (w_queues w) with
      | (inl e, q) => exec_quietly (queue_error (Some (error_text e))) (set_queues q w)
      | (inr _, q) => exec_quietly (queue_error None) (set_queues q w)
      end) ≫= fun _ => push_queues l
  end.

(** The outcome of a push, recorded on the row of the load balancer. *)
Definition edge_outcome (name hash : string) (er : option goerr) (d : cdb) : cdb :=
  set_edges (map (fun r =>
    if String.eqb (e_name r) name then
      match er with
      | Some e => MkEdgeRow (e_name r) (e_url r) (e_config_hash r) (Some hash) (Some "error"%string) (Some (error_text e)) (Some (clock d))
      | None => MkEdgeRow (e_name r) (e_url r) (Some hash) (Some hash) (Some "ok"%string) None (Some (clock d))
      end
    else r) (edges d)) d.

Definition push_one (e : Edge) (d : Desired) : M world (option goerr) := fun w =>
  let r := w_rec w in
  let c := Dataplane.New (EURL e) (rc_user r) (rc_pass r) in
  let '(res, (pushed, lbs)) := pushEdge c (rc_waitHost r) d (default ∅ (rc_pushed r !! EName e), w_lbs w) in
  let er := match res with inl er => Some er | inr _ => None end in
  let w1 := set_lbs lbs (set_rec (with_pushed (EName e) pushed r) w) in
  (inr er, (exec_quietly (edge_outcome (EName e) (DHash d) er) w1).2).

Fixpoint push_all (es : list Edge) (d : Desired) : M world (list (Edge * option goerr)) :=
  match es with
  | [] => mret []
  | e :: es => er ← push_one e d; rest ← push_all es d; mret ((e, er) :: rest)
  end.

(** What a pass that compiles pushes: the load balancers it has, the desired
    state, and the error of each push, which the code logs. *)
Record round : Type := MkRound { rd_edges : list Edge; rd_desired : Desired; rd_log : list (Edge * option goerr) }.

(** The loop over [r.Edges()]. *)
Definition push_edges (d : Desired) : M world round := fun w =>
  (log ← push_all (rc_edges (w_rec w)) d; mret (MkRound (rc_edges (w_rec w)) d log)) w.

(** The body of [Once], up to the metrics. *)
Definition passed : M world (option round) := fun w =>
  let w1 := (reloadTopology w).2 in
  let '(v, w2) := in_pg (QueryRow (fun d => Some (version d))) w1 in
  let ver := match v with inr x => x | inl _ => 0 end in
  match in_pg (Build decrypt sha256) w2 with
  | (inl _, w3) => (inr None, w3)
  | (inr d, w3) =>
      (push_queues (range (Queue d)) ≫= fun _ => rd ← push_edges d; change (with_ver ver) ≫= fun _ => mret (Some rd)) w3
  end.

(** [Once]: its argument [force] is not used. *)
Definition Once (force : bool) : M world unit := passed ≫= fun _ => mret tt.

(** ** The automatic mode *)

Record auto_row : Type := MkAuto {
  au_id : string; au_eff : string; au_on : Z; au_off : Z; au_backend : string
}.

Definition q_auto (d : cdb) : list auto_row :=
  omap (fun r =>
    if bool_decide (r_state r = "auto"%string) then
      _ ← by_id t_id (r_tenant r) (tenants d);
      i ← r_backend r; b ← by_id b_id i (backends d); bt ← by_id t_id (b_tenant b) (tenants d);
      Some (MkAuto (r_id r) (r_effective r) (r_auto_on r) (r_auto_off r) (BackendName (t_slug bt) (b_name b)))
    else None) (rooms d).

(** The sessions of a backend summed over the load balancers that answer, and
    how many did. *)
Fixpoint measure (bk : string) (es : list Edge) (total : Z) (ok : nat) : M world (Z * nat) :=
  match es with
  | [] => mret (total, ok)
  | e :: es => fun w =>
      let r := w_rec w in
      match BackendSessions (Dataplane.New (EURL e) (rc_user r) (rc_pass r)) bk (w_lbs w) with
      | (inl _, s) => measure bk es total ok (set_lbs s w)
      | (inr n, s) => measure bk es (wrap64 (total + n)) (S ok) (set_lbs s w)
      end
  end.

(** The effective state a measure leads to. *)
Definition next_state (x : auto_row) (total : Z) : string :=
  if negb (String.eqb (au_eff x) "queue") && (0 <? au_on x) && (au_on x <? total) then "queue"
  else if String.eqb (au_eff x) "queue" && (total <? au_off x) then "open"
  else au_eff x.

Definition set_effective (id st : string) (d : cdb) : cdb :=
  set_rooms (map (fun r =>
    if String.eqb (r_id r) id
    then MkRoom (r_id r) (r_tenant r) (r_slug r) (r_title r) (r_domain r) (r_backend r) (r_state r) st
           (r_rate r) (r_max_active r) (r_wave_s r) (r_pass_ttl_s r) (r_opens_at r) (r_theme r) (r_auto_on r) (r_auto_off r) (clock d)
    else r) (rooms d)) d.

Definition auto_audit (id st : string) (total : Z) (d : cdb) : cdb :=
  foldl (fun d r =>
    if String.eqb (r_id r) id
    then add_audit (MkAudit (Some (r_tenant r)) "room.auto"
           ("{" +:+ dquote +:+ "sessions" +:+ dquote +:+ ":" +:+ FormatInt total +:+ "," +:+ dquote +:+ "state" +:+ dquote
            +:+ ":" +:+ dquote +:+ st +:+ dquote +:+ "}")) d
    else d) d (rooms d).

(** One queue: whether a reconciliation is asked for. *)
Definition auto_one (x : auto_row) : M world bool := fun w =>
  match measure (au_backend x) (rc_edges (w_rec w)) 0 0 w with
  | (inl e, w1) => (inl e, w1)
  | (inr (total, ok), w1) =>
      let next := next_state x total in
      if bool_decide (ok = 0%nat) || String.eqb next (au_eff x) then (inr false, w1)
      else match in_pg (Exec_ (set_effective (au_id x) next)) w1 with
           | (inl _, w2) => (inr false, w2)
           | (inr _, w2) => (inr true, (exec_quietly (auto_audit (au_id x) next total) w2).2)
           end
  end.

Fixpoint auto_all (l : list auto_row) : M world bool :=
  match l with
  | [] => mret false
  | x :: l => k ← auto_one x; r ← auto_all l; mret (k || r)
  end.

(** One turn of [RunAuto]; the rows that do not scan are skipped. *)
Definition auto_turn : M world bool := fun w =>
  match in_pg (Query q_auto) w with
  | (inl _, w1) => (inr false, w1)
  | (inr rows, w1) => auto_all (scanned rows.1) w1
  end.

End Pass.
