(* ===== verification/Converge.v ===== *)
(** * What a push leaves on a load balancer

    The theorems about [pushEdge] of [Reconcile.v], for any load balancer that
    satisfies [HaproxyLaws].  Each loop of the push gets the relation between
    the configuration staged before it and after it; [pushEdge_converges] puts
    them together. *)
From Stdlib Require Import Ascii.
From S2P Require Import Prelude GoStr Json Dataplane Haproxy Site Pg Compile Inventory Reconcile.

Local Open Scope list_scope.
Local Open Scope Z_scope.

(** A server of the load balancer that is at the wanted address, port and
    weight. *)
Definition serves (t s : Server) : Prop :=
  SAddress t = SAddress s /\ SPort t = SPort s /\ forall w, SWeight s = Some w -> SWeight t = Some w.

(** The servers [l] are those of [spec], by name: each is at the wanted address,
    port and weight, and it is the wanted one in all, its [maxconn] included,
    unless it is one of the servers [l0] that were there, left as it was. *)
Definition realizes (spec : BackendSpec) (l0 l : list Server) : Prop := forall k,
  match by_id SName k (Servers_ spec), by_id SName k l with
  | Some s, Some t => serves t s /\ (t = s \/ by_id SName k l0 = Some t)
  | None, None => True
  | _, _ => False
  end.

Lemma differs_refl s : differs s s = false.
Proof.
  unfold differs. rewrite !bool_decide_eq_true_2, Z.eqb_refl by done. simpl.
  destruct (SWeight s); [by rewrite Z.eqb_refl|done].
Qed.

(** What the reconciler leaves as it is is as wanted. *)
Lemma differs_serves t s : differs t s = false -> serves t s.
Proof.
  unfold differs, serves. intros [[H1 H2]%orb_false_iff H3]%orb_false_iff.
  apply negb_false_iff, bool_decide_eq_true in H1. apply negb_false_iff, Z.eqb_eq in H2.
  split_and!; [done..|]. intros w Hw. rewrite Hw in H3. destruct (SWeight t) as [v|]; [|done].
  apply negb_false_iff, Z.eqb_eq in H3. by subst.
Qed.

(** What the load balancer must be like: names that fit in a path, servers
    with distinct names. *)
Definition conf_ok (c : conf) : Prop := forall n bc, c !! n = Some bc ->
  safe n = true /\ NoDup (SName <$> bc_servers bc) /\ Forall (fun t => safe (SName t) = true) (bc_servers bc).

Definition spec_ok (spec : BackendSpec) : Prop :=
  safe (SpecName spec) = true /\ NoDup (SName <$> Servers_ spec) /\
  Forall (fun t => safe (SName t) = true) (Servers_ spec).

Definition desired_ok (d : Desired) : Prop :=
  Forall spec_ok (DBackends d) /\ Forall (fun c => safe (StorageName (FQDN c)) = true) (DCerts d).

(** ** Servers by name *)

Lemma has_server_spec n l : has_server n l = true <-> is_Some (by_id SName n l).
Proof.
  rewrite <- by_id_elem_of. unfold has_server. rewrite existsb_exists, list_elem_of_fmap.
  setoid_rewrite <- list_elem_of_In. split; intros (t & H1 & H2).
  - apply bool_decide_eq_true in H2. eauto.
  - exists t. split; [done|]. by apply bool_decide_eq_true.
Qed.

Lemma by_id_create s l l' k :
  create_server s l = Some l' -> by_id SName k l' = if decide (k = SName s) then Some s else by_id SName k l.
Proof.
  unfold create_server. destruct (has_server (SName s) l) eqn:Hs; [done|]. intros [= <-].
  assert (Hn : by_id SName (SName s) l = None).
  { apply eq_None_not_Some. intros Hx. apply has_server_spec in Hx. congruence. }
  rewrite by_id_app, by_id_cons. case_decide as Hk.
  - subst. by rewrite Hn, decide_True.
  - rewrite decide_False by congruence. by destruct (by_id SName k l).
Qed.

Lemma by_id_replace s l l' k :
  replace_server s l = Some l' -> by_id SName k l' = if decide (k = SName s) then Some s else by_id SName k l.
Proof.
  unfold replace_server. destruct (has_server (SName s) l) eqn:Hs; [|done]. intros [= <-].
  assert (Hu : ((fun t => if bool_decide (SName t = SName s) then s else t) <$> l) =
               upsert SName (SName s) (fun _ => s) s l).
  { unfold upsert. replace (existsb (fun r => String.eqb (SName r) (SName s)) l) with true.
    - apply list_fmap_ext. intros i t _. case_bool_decide as Ht; [by rewrite Ht, String.eqb_refl|].
      by rewrite (proj2 (String.eqb_neq _ _) Ht).
    - symmetry. unfold has_server in Hs. rewrite existsb_exists in Hs |- *. destruct Hs as (t & Ht & He).
      exists t. split; [done|]. apply String.eqb_eq. by apply bool_decide_eq_true in He. }
  rewrite Hu, by_id_upsert by done. by destruct (by_id SName (SName s) l).
Qed.

Lemma by_id_delete n l l' k :
  delete_server n l = Some l' -> by_id SName k l' = if decide (k = n) then None else by_id SName k l.
Proof.
  unfold delete_server. destruct (has_server n l); [|done]. intros [= <-].
  rewrite (by_id_filter SName _ (fun x => x <> n)) by done. repeat case_decide; congruence.
Qed.

Lemma cur_map_spec l k : NoDup (SName <$> l) -> cur_map l !! k = by_id SName k l.
Proof.
  unfold cur_map. revert k. induction l as [|s l IH] using rev_ind; intros k; [done|].
  rewrite fmap_app, foldl_app. intros (Hn & Hs & _)%NoDup_app. simpl. rewrite by_id_app, by_id_cons.
  rewrite lookup_insert. case_decide as Hk.
  - subst. assert (Hx : by_id SName (SName s) l = None).
    { apply by_id_None. intros Hin. apply (Hs _ Hin). set_solver. }
    by rewrite Hx.
  - rewrite IH by done. by destruct (by_id SName k l).
Qed.

(** ** Effects on the committed and on the staged configuration *)

Section Converge.
Context {St : Type} {Hx : DataplaneHTTP St} {Hview : Haproxy St} {HL : HaproxyLaws St} {HO : MapOrder}.

(** The files a load balancer stores. *)
Record files : Type := MkFiles {
  f_certs : gmap string string; f_lists : gmap string string; f_general : gmap string string
}.
Definition files_of (d : lb) : files := MkFiles (lb_certs d) (lb_crt_lists d) (lb_general d).
Definition held (d : lb) : gmap string (list MapEntry) * files := (lb_maps d, files_of d).

Definition same_core (d d' : lb) : Prop := lb_conf d' = lb_conf d /\ held d' = held d.

Lemma same_core_trans a b d : same_core a b -> same_core b d -> same_core a d.
Proof. intros [H1 H2] [H3 H4]. split; congruence. Qed.

(** The calls that change the configuration in force, a map or a file. *)
Definition touches (e : endpoint) : bool :=
  match e with
  | ECommit _ | EPostEntry _ _ _ | EPutEntry _ _ _ | EDeleteEntry _ _ | EClearMap _
  | EPutCert _ _ | EPostCert _ _ | EPutCrtList _ _ | EPostGeneral _ _ | EPutGeneral _ _ => true
  | _ => false
  end.

Lemma step_core e d a d' : touches e = false -> step e d a d' -> same_core d d'.
Proof.
  intros Ht Hs. destruct e; try done; simpl in Hs;
    repeat match goal with
    | H : _ /\ _ |- _ => destruct H
    | H : exists _, _ |- _ => destruct H
    end; subst; done.
Qed.

Lemma unchanged_core e d d' : touches e = false -> unchanged e d d' -> same_core d d'.
Proof. intros Ht. destruct e; try done; simpl; first [by intros ->|by intros [t ->]]. Qed.

Lemma exchange_core c e s r s' :
  wf_endpoint e = true -> touches e = false -> exchange c (request_of e) s = (r, s') -> acts c s s' same_core.
Proof.
  intros Hwf Ht [Hf Hs]%exchange_law; [|done]. split; [done|]. destruct r as [er|[code a]]; simpl in Hs.
  - destruct Hs as [Hu|[a Ha]]; [by eapply unchanged_core|by eapply step_core].
  - destruct (300 <=? code); [destruct Hs as [Hu _]; by eapply unchanged_core|by eapply step_core].
Qed.

Lemma do_core {A} c e (zero : A) out s r s' :
  wf_endpoint e = true -> touches e = false -> do c (request_of e) zero out s = (r, s') -> acts c s s' same_core.
Proof.
  intros Hwf Ht. unfold do. destruct (exchange c (request_of e) s) as [[er|[code a]] s1] eqn:E;
    intros [= _ <-]; by eapply exchange_core.
Qed.

Lemma do__core c e s r s' :
  wf_endpoint e = true -> touches e = false -> do_ c (request_of e) s = (r, s') -> acts c s s' same_core.
Proof.
  intros Hwf Ht. unfold do_. destruct (exchange c (request_of e) s) as [[er|[code a]] s1] eqn:E;
    intros [= _ <-]; by eapply exchange_core.
Qed.

Lemma acts_refl c s : acts c s s same_core.
Proof. by apply acts_ret. Qed.

Lemma acts_core_trans c s1 s2 s3 (P : lb -> lb -> Prop) :
  acts c s1 s2 same_core -> acts c s2 s3 P ->
  (forall a b d, same_core a b -> P b d -> P a d) -> acts c s1 s3 P.
Proof. intros H1 H2 H3. eapply acts_trans; [exact H1|exact H2|exact H3]. Qed.

Lemma core_core c s1 s2 s3 : acts c s1 s2 same_core -> acts c s2 s3 same_core -> acts c s1 s3 same_core.
Proof. intros H1 H2. eapply acts_trans; [exact H1|exact H2|]. apply same_core_trans. Qed.

(** The staged configuration of a transaction moves as [R] says, the one in
    force does not. *)
Definition moves (id : string) (R : conf -> conf -> Prop) (d d' : lb) : Prop :=
  same_core d d' /\ forall C, lb_txs d !! id = Some C -> exists C', lb_txs d' !! id = Some C' /\ R C C'.

Lemma moves_trans c id s1 s2 s3 (P Q R : conf -> conf -> Prop) :
  acts c s1 s2 (moves id P) -> acts c s2 s3 (moves id Q) -> (forall a b d, P a b -> Q b d -> R a d) ->
  acts c s1 s3 (moves id R).
Proof.
  intros H1 H2 HR. eapply acts_trans; [exact H1|exact H2|]. intros d1 d2 d3 [Hc1 Hm1] [Hc2 Hm2].
  split; [by eapply same_core_trans|]. intros C (C' & HC' & HP)%Hm1. apply Hm2 in HC' as (C'' & HC'' & HQ). eauto.
Qed.

Lemma moves_impl c id s s' (P R : conf -> conf -> Prop) :
  acts c s s' (moves id P) -> (forall a b, P a b -> R a b) -> acts c s s' (moves id R).
Proof.
  intros H1 HR. eapply acts_impl; [exact H1|]. intros d d' [Hc Hm]. split; [done|].
  intros C (C' & ? & ?)%Hm. eauto.
Qed.

Lemma moves_ret c id s (R : conf -> conf -> Prop) : (forall C, R C C) -> acts c s s (moves id R).
Proof. intros HR. apply acts_ret. intros d. split; [done|]. eauto. Qed.

Lemma aborting_inv {A} c id (m : M St A) s x s' : aborting c id m s = (inr x, s') -> m s = (inr x, s').
Proof. unfold aborting. destruct (m s) as [[e|y] s1]; naive_solver. Qed.

Lemma edit_ok c e id f s x s' :
  edit e = Some (id, f) -> wf_endpoint e = true -> aborting c id (do_ c (request_of e)) s = (inr x, s') ->
  acts c s s' (moves id (fun C C' => f C = Some C')).
Proof.
  intros He Hwf Hd%aborting_inv. pose proof Hd as Hd'. apply do__ok in Hd; [|done].
  eapply acts_impl; [exact Hd|]. intros d d' [a Ha].
  assert (Ht : touches e = false) by (by destruct e).
  split; [by eapply step_core|]. intros C HC.
  destruct e; simpl in He; simplify_eq; simpl in Ha; destruct Ha as (C0 & C' & HC0 & Hf & ->);
    (exists C'; split; [apply lookup_insert_eq|congruence]).
Qed.

(** Changes of the servers of one backend. *)
Definition on_backend (name : string) (P : list Server -> list Server -> Prop) (C C' : conf) : Prop :=
  forall bc, C !! name = Some bc -> exists l, C' = <[name := MkBconf (bc_def bc) l]> C /\ P (bc_servers bc) l.

Lemma on_backend_trans name (P Q R : list Server -> list Server -> Prop) C1 C2 C3 :
  on_backend name P C1 C2 -> on_backend name Q C2 C3 -> (forall a b d, P a b -> Q b d -> R a d) ->
  on_backend name R C1 C3.
Proof.
  intros H1 H2 HR bc Hbc. apply H1 in Hbc as (l & -> & HP).
  destruct (H2 (MkBconf (bc_def bc) l)) as (l' & -> & HQ); [apply lookup_insert_eq|].
  exists l'. simpl. rewrite insert_insert_eq. split; [done|]. by eapply HR.
Qed.

Lemma on_backend_refl name (P : list Server -> list Server -> Prop) C : (forall l, P l l) -> on_backend name P C C.
Proof. intros HP [def l] Hbc. exists l. split; [by rewrite insert_id|done]. Qed.

Lemma on_servers_backend name f C C' :
  on_servers name f C = Some C' -> on_backend name (fun l l' => f l = Some l') C C'.
Proof.
  unfold on_servers. intros (bc & Hbc & (l & Hl & [= <-])%bind_Some)%bind_Some bc' Hbc'.
  simplify_eq. eauto.
Qed.

Lemma server_edit_ok c e id name f s x s' :
  edit e = Some (id, on_servers name f) -> wf_endpoint e = true ->
  aborting c id (do_ c (request_of e)) s = (inr x, s') ->
  acts c s s' (moves id (on_backend name (fun l l' => f l = Some l'))).
Proof.
  intros He Hwf Hd. eapply moves_impl; [by eapply edit_ok|]. intros C C'. apply on_servers_backend.
Qed.

(** *** The loops over servers *)

Lemma create_servers_ok c id name l s x s' :
  safe name = true -> create_servers c id name l s = (inr x, s') ->
  acts c s s' (moves id (on_backend name (fun l0 l1 => forall k,
    by_id SName k l1 = match by_id SName k l0 with Some t => Some t | None => by_id SName k l end))).
Proof.
  intros Hn. revert s. induction l as [|t l IH]; intros s Hs; simpl in Hs; M_inv.
  - apply moves_ret. intros C. apply on_backend_refl. intros l k. by destruct (by_id SName k l).
  - apply (server_edit_ok c (ECreateServer id name t) id name (create_server t)) in Hm; [|done..].
    eapply moves_trans; [exact Hm|by apply IH|]. intros C1 C2 C3 H1 H2.
    eapply on_backend_trans; [exact H1|exact H2|]. intros l0 l1 l2 Hc Hk k. rewrite Hk, by_id_cons.
    rewrite (by_id_create t l0 l1 k Hc). unfold create_server in Hc.
    destruct (has_server (SName t) l0) eqn:Hh; [done|].
    destruct (decide (k = SName t)) as [->|].
    + rewrite decide_True by done. destruct (by_id SName (SName t) l0) eqn:Hb; [|done].
      exfalso. assert (has_server (SName t) l0 = true) by (apply has_server_spec; eauto). congruence.
    + by rewrite decide_False by congruence.
Qed.

Lemma delete_servers_ok c id name (L : list (string * Server)) s ch s' :
  safe name = true -> Forall (fun p => safe p.1 = true) L -> delete_servers c id name L s = (inr ch, s') ->
  acts c s s' (moves id (fun C C' => on_backend name (fun l0 l1 => forall k,
    by_id SName k l1 = if decide (k ∈ L.*1) then None else by_id SName k l0) C C' /\ (ch = false -> C' = C))).
Proof.
  intros Hn HL0. revert s ch. induction L as [|[n t] L IH]; intros s ch Hs; simpl in Hs; M_inv.
  - apply moves_ret. intros C. split; [|done]. apply on_backend_refl. intros l k. by rewrite decide_False by set_solver.
  - apply Forall_cons in HL0 as [Hsn HL0]. simpl in Hsn.
    apply (server_edit_ok c (EDeleteServer id name n) id name (delete_server n)) in Hm;
      [|done|by simpl; rewrite Hn, Hsn].
    eapply moves_trans; [exact Hm|by eapply IH|]. intros C1 C2 C3 H1 [H2 _]. split; [|done].
    eapply on_backend_trans; [exact H1|exact H2|]. intros l0 l1 l2 Hd Hk k. rewrite Hk.
    rewrite (by_id_delete n l0 l1 k Hd). repeat case_decide; set_solver.
Qed.

(** What the loop puts for the wanted server [s], given the one there was. *)
Definition put_server (old : option Server) (s t : Server) : Prop :=
  differs t s = false /\ (t = s \/ old = Some t).

(** After the loop over the wanted servers each of them is there, close enough
    to what is wanted, and the others are untouched; the current servers that
    are left are those that are not wanted. *)
Definition diffed (l : list Server) (cur : gmap string Server) (l0 l1 : list Server) : Prop :=
  (forall s, s ∈ l -> by_id SName (SName s) l0 = cur !! SName s) ->
  (forall s, s ∈ l -> exists t, by_id SName (SName s) l1 = Some t /\ put_server (cur !! SName s) s t) /\
  (forall k, k ∉ SName <$> l -> by_id SName k l1 = by_id SName k l0).

Lemma diff_servers_rest c id name (cur : gmap string Server) l s r s' :
  diff_servers c id name cur l s = (inr r, s') ->
  forall k, r.2 !! k = if decide (k ∈ SName <$> l) then None else cur !! k.
Proof.
  revert cur s r. induction l as [|t l IH]; intros cur s r Hs k; simpl in Hs; M_inv.
  - by rewrite decide_False by set_solver.
  - cbn [snd]. rewrite (IH _ _ _ Hm0 k), lookup_delete. repeat case_decide; subst; set_solver.
Qed.

Lemma diff_one_ok c id name (cur : gmap string Server) t s ch s' :
  safe name = true -> safe (SName t) = true ->
  match cur !! SName t with
  | None => aborting c id (CreateServer c id name t) ≫= fun _ => mret true
  | Some old => if differs old t then aborting c id (ReplaceServer c id name t) ≫= fun _ => mret true
                else mret false
  end s = (inr ch, s') ->
  acts c s s' (moves id (fun C C' => on_backend name (fun l0 l1 =>
    by_id SName (SName t) l0 = cur !! SName t ->
    (exists u, by_id SName (SName t) l1 = Some u /\ put_server (cur !! SName t) t u) /\
    (forall k, k <> SName t -> by_id SName k l1 = by_id SName k l0)) C C' /\ (ch = false -> C' = C))).
Proof.
  intros Hn Ht Hs. destruct (cur !! SName t) as [old|] eqn:Hcur; [destruct (differs old t) eqn:Hd|]; M_inv.
  - apply (server_edit_ok c (EReplaceServer id name t) id name (replace_server t)) in Hm;
      [|done|by simpl; rewrite Hn, Ht].
    eapply moves_impl; [exact Hm|]. intros C C' Hb. split; [|done].
    intros bc Hbc. apply Hb in Hbc as (l & -> & Hr). exists l. split; [done|]. intros _. split.
    + exists t. rewrite (by_id_replace t _ _ _ Hr), decide_True by done. split; [done|]. split; [apply differs_refl|by left].
    + intros k Hk. by rewrite (by_id_replace t _ _ _ Hr), decide_False.
  - apply moves_ret. intros C. split; [|done]. apply on_backend_refl. intros l Hb. split; [|done].
    exists old. rewrite Hb. split; [done|]. split; [done|by right].
  - apply (server_edit_ok c (ECreateServer id name t) id name (create_server t)) in Hm; [|done..].
    eapply moves_impl; [exact Hm|]. intros C C' Hb. split; [|done].
    intros bc Hbc. apply Hb in Hbc as (l & -> & Hr). exists l. split; [done|]. intros _. split.
    + exists t. rewrite (by_id_create t _ _ _ Hr), decide_True by done. split; [done|]. split; [apply differs_refl|by left].
    + intros k Hk. by rewrite (by_id_create t _ _ _ Hr), decide_False.
Qed.

Lemma diff_servers_ok c id name l cur s r s' :
  safe name = true -> NoDup (SName <$> l) -> Forall (fun t => safe (SName t) = true) l ->
  diff_servers c id name cur l s = (inr r, s') ->
  acts c s s' (moves id (fun C C' => on_backend name (diffed l cur) C C' /\ (r.1 = false -> C' = C))).
Proof.
  intros Hn. revert cur s r. induction l as [|t l IH]; intros cur s r Hnd Hsafe Hs; simpl in Hs; M_inv.
  - apply moves_ret. intros C. split; [|done]. apply on_backend_refl. intros l _. split_and!; [set_solver|done].
  - rewrite fmap_cons in Hnd. apply NoDup_cons in Hnd as [Ht Hnd]. apply Forall_cons in Hsafe as [Hst Hsafe].
    apply diff_one_ok in Hm; [|done..]. apply IH in Hm0; [|done..].
    eapply moves_trans; [exact Hm|exact Hm0|]. intros C1 C2 C3 [H1 Hch1] [H2 Hch2]. split.
    2:{ simpl. intros [-> Hr]%orb_false_iff. rewrite Hch2, Hch1; done. }
    eapply on_backend_trans; [exact H1|exact H2|]. clear -Ht. intros l0 l1 l2 Hone Hrest Hpre. cbn [snd].
    destruct (Hone (Hpre t ltac:(set_solver))) as [(u & Hu & Hdu) Hoth].
    assert (Hne : forall s0, s0 ∈ l -> SName t <> SName s0) by (intros s0 Hs0 He; apply Ht; rewrite He; by apply list_elem_of_fmap_2).
    destruct Hrest as (Hin & Hout).
    { intros s0 Hs0. rewrite lookup_delete_ne by (by apply Hne). rewrite Hoth by (apply not_eq_sym; by apply Hne). apply Hpre. by right. }
    split_and!.
    + intros s0 [->|Hs0]%elem_of_cons; [|rewrite <- (lookup_delete_ne cur _ _ (Hne _ Hs0)); by apply Hin].
      exists u. rewrite Hout by done. done.
    + intros k Hk. rewrite fmap_cons, not_elem_of_cons in Hk. rewrite Hout, Hoth; tauto.
Qed.

(** *** One backend, then all of them *)

Lemma Servers_ok c id name s l s' :
  safe name = true -> aborting c id (Servers c name) s = (inr l, s') ->
  acts c s s' (fun d d' => d' = d /\ exists bc, lb_conf d !! name = Some bc /\ l = bc_servers bc).
Proof.
  intros Hn Hs%aborting_inv. apply (do_ok c (EServers name)) in Hs; [|done].
  eapply acts_impl; [exact Hs|]. intros d d' (a & (-> & bc & Hbc & Hr') & Hr). split; [done|].
  exists bc. split; [done|]. destruct a as [|t|v]; simpl in Hr, Hr'; naive_solver congruence.
Qed.

(** The backend a push makes of the one in force. *)
Definition pushed_backend (spec : BackendSpec) (old : option bconf) (bc : bconf) : Prop :=
  realizes spec (match old with Some b => bc_servers b | None => [] end) (bc_servers bc) /\
  bc_def bc = match old with Some b => bc_def b | None => backend_def spec end.

Lemma realizes_created spec l0 l :
  (forall k, by_id SName k l = by_id SName k (Servers_ spec)) -> realizes spec l0 l.
Proof.
  intros Hl k. rewrite Hl. destruct (by_id SName k (Servers_ spec)); [|done].
  split; [apply differs_serves, differs_refl|by left].
Qed.

Lemma realizes_diffed spec l0 l1 l2 (rest : gmap string Server) :
  NoDup (SName <$> Servers_ spec) -> NoDup (SName <$> l0) ->
  diffed (Servers_ spec) (cur_map l0) l0 l1 ->
  (forall k, rest !! k = if decide (k ∈ SName <$> Servers_ spec) then None else cur_map l0 !! k) ->
  (forall k, by_id SName k l2 = if decide (k ∈ (range rest).*1) then None else by_id SName k l1) ->
  realizes spec l0 l2.
Proof.
  intros Hnd Hnd0 Hd Hrest Hk k. destruct Hd as (Hin & Hout); [intros; by rewrite cur_map_spec|].
  rewrite Hk. destruct (by_id SName k (Servers_ spec)) as [s|] eqn:Hs.
  - apply by_id_elem in Hs as [Hs <-].
    assert (Hks : SName s ∈ SName <$> Servers_ spec) by (by apply list_elem_of_fmap_2).
    rewrite decide_False.
    + destruct (Hin s Hs) as (t & -> & Ht & Ho). rewrite cur_map_spec in Ho by done. split; [by apply differs_serves|done].
    + rewrite range_keys, Hrest, decide_True by done. by intros [? ?].
  - apply by_id_None in Hs. case_decide as Hr; [done|].
    rewrite Hout by done. rewrite range_keys, Hrest, decide_False, cur_map_spec in Hr by done.
    by rewrite (proj2 (eq_None_not_Some (by_id SName k l0)) Hr).
Qed.

Definition put_one (spec : BackendSpec) (ch : bool) (B : conf) (C C' : conf) : Prop :=
  C !! SpecName spec = B !! SpecName spec ->
  exists bc, C' = <[SpecName spec := bc]> C /\ pushed_backend spec (B !! SpecName spec) bc /\
    (ch = false -> C' = C).

Lemma create_backend_ok c id spec s x s' :
  spec_ok spec ->
  (aborting c id (CreateBackend c id (backend_def spec)) ≫= fun _ =>
   create_servers c id (SpecName spec) (Servers_ spec)) s = (inr x, s') ->
  acts c s s' (moves id (fun C C' => C !! SpecName spec = None /\
    exists bc, C' = <[SpecName spec := bc]> C /\ pushed_backend spec None bc)).
Proof.
  intros (Hn & Hnd & Hsafe) Hs. M_inv.
  apply (edit_ok c (ECreateBackend id (backend_def spec)) id (create_backend (backend_def spec))) in Hm; [|done..].
  apply create_servers_ok in Hs; [|done]. eapply moves_trans; [exact Hm|exact Hs|].
  intros C1 C2 C3 Hc Hb. unfold create_backend in Hc. simpl in Hc.
  destruct (C1 !! SpecName spec) eqn:HC; simplify_eq. split; [done|].
  destruct (Hb (MkBconf (backend_def spec) [])) as (l & -> & Hl); [apply lookup_insert_eq|].
  exists (MkBconf (backend_def spec) l). rewrite insert_insert_eq. split; [done|]. split; [|done].
  by apply realizes_created.
Qed.

Lemma diff_backend_ok c id spec bc s ch s' l :
  spec_ok spec -> NoDup (SName <$> bc_servers bc) -> Forall (fun t => safe (SName t) = true) (bc_servers bc) ->
  l = bc_servers bc ->
  (r ← diff_servers c id (SpecName spec) (cur_map l) (Servers_ spec);
   del ← delete_servers c id (SpecName spec) (range r.2); mret (r.1 || del)) s = (inr ch, s') ->
  acts c s s' (moves id (fun C C' => C !! SpecName spec = Some bc ->
    exists bc', C' = <[SpecName spec := bc']> C /\ pushed_backend spec (Some bc) bc' /\ (ch = false -> C' = C))).
Proof.
  intros (Hn & Hnd & Hsafe) Hnd0 Hsafe0 -> Hs. M_inv.
  pose proof (diff_servers_rest _ _ _ _ _ _ _ _ Hm) as Hrest. apply diff_servers_ok in Hm; [|done..].
  apply delete_servers_ok in Hm0; [|done|].
  2:{ apply Forall_forall. intros [k t] Hk.
      assert (Hkk : k ∈ (range a.2).*1) by (apply list_elem_of_fmap; by exists (k, t)).
      apply range_keys in Hkk. rewrite Hrest in Hkk. case_decide; [by destruct Hkk|].
      rewrite cur_map_spec in Hkk by done. destruct Hkk as [u [Hu <-]%by_id_elem].
      rewrite Forall_forall in Hsafe0. by apply Hsafe0. }
  eapply moves_trans; [exact Hm|exact Hm0|]. intros C1 C2 C3 [H1 Hch1] [H2 Hch2] HC.
  assert (Hch : a.1 || a0 = false -> C3 = C1) by (intros [Ha Ha0]%orb_false_iff; by rewrite Hch2, Hch1).
  clear Hch1 Hch2. destruct (H1 bc HC) as (l1 & -> & Hd).
  destruct (H2 (MkBconf (bc_def bc) l1)) as (l2 & -> & Hk); [apply lookup_insert_eq|].
  cbn [bc_def] in *. rewrite insert_insert_eq in Hch.
  exists (MkBconf (bc_def bc) l2). rewrite insert_insert_eq. split_and!; [done| |done].
  split; [|done]. simpl in Hk. by eapply realizes_diffed.
Qed.

Lemma put_backend_ok c id have spec s ch s' :
  spec_ok spec -> put_backend c id have spec s = (inr ch, s') ->
  conf_ok (lb_conf (view (Base c) s)) ->
  acts c s s' (fun d d' => moves id (put_one spec ch (lb_conf d)) d d').
Proof.
  intros Hok Hs Hconf. unfold put_backend in Hs. destruct (have !! SpecName spec) as [b|] eqn:Hh.
  - apply M_bind_inv in Hs as (l & s1 & Hget & Hs). apply Servers_ok in Hget; [|by apply Hok].
    destruct Hget as [Hf (Hv & bc & Hbc & Hl)]. destruct (Hconf _ _ Hbc) as (_ & Hnd & Hsafe).
    apply (diff_backend_ok c id spec bc) in Hs; [|done..]. rewrite <- Hv in *.
    destruct Hs as [Hf' Hm]. rewrite Hv in Hm. split; [intros b' Hb'; by rewrite Hf', Hf|].
    destruct Hm as [Hcore Hm]. split; [done|]. intros C (C' & HC' & HR)%Hm. exists C'. split; [done|].
    intros Hsame. rewrite Hv in Hbc. rewrite Hbc in Hsame |- *. by apply HR.
  - apply (M_bind_inv (aborting c id (CreateBackend c id (backend_def spec)))) in Hs as (u & s1 & Hc & Hs).
    apply M_bind_inv in Hs as (u2 & s2 & Hcs & Hs). M_inv.
    pose proof (create_backend_ok c id spec s u2 s' Hok) as Hx'.
    rewrite (M_bind_ok _ _ _ _ _ Hc) in Hx'. specialize (Hx' Hcs).
    eapply acts_impl; [exact Hx'|]. intros d d' [Hcore Hm]. split; [done|].
    intros C (C' & HC' & Hnone & HR)%Hm. exists C'. split; [done|]. intros Hsame.
    destruct HR as (bc & -> & Hp). exists bc. rewrite <- Hsame, Hnone. done.
Qed.

Definition put_all (l : list (string * BackendSpec)) (ch : bool) (B : conf) (C C' : conf) : Prop :=
  (forall n, n ∈ l.*1 -> C !! n = B !! n) ->
  (forall n spec, (n, spec) ∈ l -> exists bc, C' !! n = Some bc /\ pushed_backend spec (B !! n) bc) /\
  (forall n, n ∉ l.*1 -> C' !! n = C !! n) /\ (ch = false -> C' = C).

Lemma put_backends_ok c id have l s ch s' :
  NoDup l.*1 -> Forall (fun p => p.1 = SpecName p.2 /\ spec_ok p.2) l ->
  put_backends c id have l s = (inr ch, s') -> conf_ok (lb_conf (view (Base c) s)) ->
  acts c s s' (fun d d' => moves id (put_all l ch (lb_conf d)) d d').
Proof.
  intros Hnd Hl. revert s ch. induction l as [|[n spec] l IH]; intros s ch Hs Hconf; simpl in Hs; M_inv.
  - apply acts_ret. intros d. split; [done|]. intros C HC. exists C. split; [done|]. intros _. split_and!; set_solver.
  - apply NoDup_cons in Hnd as [Hn Hnd]. apply Forall_cons in Hl as [[Hname Hok] Hl]. simpl in Hname.
    apply put_backend_ok in Hm; [|done..]. destruct Hm as [Hf [[Hc1 Hmap1] Hm]].
    apply IH in Hm0; [|done..|by rewrite Hc1]. destruct Hm0 as [Hf' [[Hc2 Hmap2] Hm']].
    split; [intros b Hb; by rewrite Hf', Hf|]. split; [by eapply same_core_trans|].
    intros C (C1 & HC1 & H1)%Hm. apply Hm' in HC1 as (C2 & HC2 & H2). exists C2. split; [done|].
    intros Hpre. rewrite Hc1 in H2. subst n.
    destruct (H1 (Hpre (SpecName spec) ltac:(set_solver))) as (bc & -> & Hp & Hch1).
    destruct H2 as (Hin & Hout & Hch2).
    { intros k Hk. rewrite lookup_insert_ne by (intros <-; by apply Hn). apply Hpre. set_solver. }
    split_and!.
    + intros k sp [[= -> ->]|Hk]%elem_of_cons; [|by apply Hin].
      exists bc. rewrite Hout by done. by rewrite lookup_insert_eq.
    + intros k Hk. rewrite Hout by set_solver. apply lookup_insert_ne. set_solver.
    + intros [Ha Ha0]%orb_false_iff. by rewrite Hch2, Hch1.
Qed.

Lemma delete_backends_ok c id want (L : list (string * bool)) s ch s' :
  Forall (fun p => safe p.1 = true) L -> delete_backends c id want L s = (inr ch, s') ->
  acts c s s' (moves id (fun C C' => (forall n,
    C' !! n = if decide (n ∈ L.*1 /\ want !! n = None) then None else C !! n) /\ (ch = false -> C' = C))).
Proof.
  revert s ch. induction L as [|[n b] L IH]; intros s ch HL0 Hs; simpl in Hs; M_inv.
  - apply moves_ret. intros C. split; [|done]. intros n. by rewrite decide_False by set_solver.
  - apply Forall_cons in HL0 as [Hn HL0]. simpl in Hn. case_bool_decide as Hw; M_inv.
    + eapply moves_impl; [by eapply IH|]. intros C C' [HC Hch]. split; [|done]. intros k. rewrite HC.
      destruct Hw as [spec Hw]. repeat case_decide; try done; set_solver.
    + apply (edit_ok c (EDeleteBackend id n) id (delete_backend n)) in Hm; [|done..].
      eapply moves_trans; [exact Hm|by eapply IH|]. intros C1 C2 C3 Hd [HC _]. split; [|done].
      unfold delete_backend in Hd. destruct (C1 !! n); simplify_eq. intros k. rewrite HC.
      apply eq_None_not_Some in Hw. destruct (decide (k = n)) as [->|Hk].
      * rewrite lookup_delete_eq. repeat case_decide; try done; set_solver.
      * rewrite lookup_delete_ne by done. repeat case_decide; try done; set_solver.
Qed.

(** ** The transaction *)

Lemma BeginTx_ok c s t s' : BeginTx c s = (inr t, s') ->
  acts c s s' (fun d d' => same_core d d' /\ lb_txs d' !! TxID t = Some (lb_conf d)) /\ safe (TxID t) = true.
Proof.
  intros Hs. unfold BeginTx in Hs. M_inv. apply (do_ok c EVersion) in Hm; [|done].
  apply (do_ok c (EBegin a)) in Hs; [|done]. destruct Hm as [Hf1 (a1 & [Hd1 _] & _)].
  destruct Hs as [Hf2 (a2 & (_ & t' & Hr & Hsafe & Hnone & Hd2) & Ht)]. rewrite Hd1 in Hd2.
  assert (t' = t) as ->.
  { destruct a2 as [|x|v]; simpl in Hr, Ht; [by subst|by destruct Hr, Ht; subst|congruence]. }
  split; [|done]. split; [intros b Hb; by rewrite Hf2, Hf1|]. rewrite Hd2. split; [done|]. apply lookup_insert_eq.
Qed.

Lemma CommitTx_ok c id s x s' : safe id = true -> CommitTx c id s = (inr x, s') ->
  acts c s s' (fun d d' => held d' = held d /\ lb_txs d !! id = Some (lb_conf d')).
Proof.
  intros Hid Hs. apply (do__ok c (ECommit id)) in Hs; [|done]. eapply acts_impl; [exact Hs|].
  by intros d d' (a & C & HC & ->).
Qed.

Lemma AbortTx_core c id s r s' : safe id = true -> AbortTx c id s = (r, s') -> acts c s s' same_core.
Proof.
  intros Hid [= _ Hs]. destruct (do_ c (MkReq "DELETE" (tx_path id) [] RNone) s) as [r0 s0] eqn:E.
  simpl in Hs. subst. by apply (do__core c (EAbort id)) in E.
Qed.

(** A reload commits a transaction nothing was staged in. *)
Lemma Reload_core c s x s' : Reload c s = (inr x, s') -> acts c s s' same_core.
Proof.
  intros Hs. unfold Reload in Hs. M_inv. apply BeginTx_ok in Hm as [Hm Hid]. apply CommitTx_ok in Hs; [|done].
  eapply acts_trans; [exact Hm|exact Hs|]. intros d1 d2 d3 [[Hc Hmp] Ht] [Hmp' Hc']. split; congruence.
Qed.

Lemma Backends_ok c s l s' : Backends c s = (inr l, s') ->
  acts c s s' (fun d d' => d' = d /\ BName <$> l ≡ₚ (map_to_list (lb_conf d)).*1).
Proof.
  intros Hs. apply (do_ok c EBackends) in Hs; [|done]. eapply acts_impl; [exact Hs|].
  intros d d' (a & (-> & l' & Hr' & Hp) & Hr). split; [done|].
  destruct a as [|t|v]; simpl in Hr, Hr'; [by subst|by destruct Hr, Hr'; subst|by simplify_eq].
Qed.

Lemma have_of_spec l n : have_of l !! n = if managed n && bool_decide (n ∈ BName <$> l) then Some true else None.
Proof.
  unfold have_of. induction l as [|b l IH] using rev_ind.
  - by rewrite andb_false_r.
  - rewrite foldl_app, fmap_app. simpl. destruct (managed (BName b)) eqn:Hm.
    + rewrite lookup_insert. destruct (decide (BName b = n)) as [<-|Hn].
      * by rewrite Hm, bool_decide_eq_true_2 by set_solver.
      * by rewrite IH, (bool_decide_ext (n ∈ _ ++ _) (n ∈ BName <$> l)) by set_solver.
    + rewrite IH. destruct (decide (BName b = n)) as [<-|Hn]; [by rewrite Hm|].
      by rewrite (bool_decide_ext (n ∈ _ ++ _) (n ∈ BName <$> l)) by set_solver.
Qed.

Lemma want_backends_spec l n spec : want_backends l !! n = Some spec -> SpecName spec = n /\ spec ∈ l.
Proof.
  unfold want_backends. induction l as [|b l IH] using rev_ind; [done|].
  rewrite foldl_app. simpl. rewrite lookup_insert. case_decide; [intros [= <-]|]; set_solver.
Qed.

(** What a push makes of the configuration: the wanted backends are those of
    the database, the managed ones that are not wanted are gone, the others
    are as they were. *)
Definition pushed (want : gmap string BackendSpec) (C C' : conf) : Prop := forall n,
  match want !! n with
  | Some spec => exists bc, C' !! n = Some bc /\ pushed_backend spec (C !! n) bc
  | None => C' !! n = if managed n then None else C !! n
  end.

Lemma pushed_staged want C C1 C2 have ch :
  (forall n, have !! n = if managed n && bool_decide (is_Some (C !! n)) then Some true else None) ->
  (forall n, C1 !! n = if decide (n ∈ (range have).*1 /\ want !! n = None) then None else C !! n) ->
  put_all (range want) ch C C1 C2 -> pushed want C C2 /\ (ch = false -> C2 = C1).
Proof.
  intros Hh H1 H2. destruct H2 as (Hin & Hout & Hch).
  { intros n [spec Hn]%range_keys. rewrite H1, decide_False; [done|]. intros [_ Hn']. congruence. }
  split; [|done]. intros n. destruct (want !! n) as [spec|] eqn:Hw.
  - apply Hin. pose proof (range_perm want) as Hp. rewrite Hp. by apply elem_of_map_to_list.
  - rewrite Hout, H1; [|rewrite range_keys; intros [? ?]; congruence].
    pose proof (range_keys have n) as Hk. rewrite Hh in Hk. destruct (managed n) eqn:Hm; simpl.
    + destruct (C !! n) eqn:HC.
      * rewrite decide_True; [done|]. split; [|done]. apply Hk. by rewrite bool_decide_eq_true_2.
      * by case_decide.
    + rewrite decide_False; [done|]. intros [[? ?]%Hk _]. done.
Qed.

Lemma push_backends_ok c des s x s' :
  Forall spec_ok (DBackends des) -> push_backends c des s = (inr x, s') -> conf_ok (lb_conf (view (Base c) s)) ->
  acts c s s' (fun d d' => held d' = held d /\ pushed (want_backends (DBackends des)) (lb_conf d) (lb_conf d')).
Proof.
  intros Hok Hs Hconf. unfold push_backends in Hs. M_inv.
  rename Hm2 into Hput. apply Backends_ok in Hm as [Hf0 [Hv0 Hl]]. apply BeginTx_ok in Hm0 as [[Hf1 [Hc1 Ht1]] Hid]. rewrite Hv0 in Hc1, Ht1.
  set (have := have_of a) in *. set (want := want_backends (DBackends des)) in *.
  assert (Hhave : forall n, have !! n =
    if managed n && bool_decide (is_Some (lb_conf (view (Base c) s) !! n)) then Some true else None).
  { intros n. unfold have. rewrite have_of_spec. erewrite bool_decide_ext; [done|].
    rewrite Hl, list_elem_of_fmap. split; [intros ([k v] & -> & Hk%elem_of_map_to_list); eauto|].
    intros [v Hv]. exists (n, v). split; [done|]. by apply elem_of_map_to_list. }
  apply delete_backends_ok in Hm1 as [Hf2 [Hc2 Hm2]].
  2:{ apply Forall_forall. intros [n b] Hn. apply (list_elem_of_fmap_2 fst) in Hn.
      apply range_keys in Hn. simpl in Hn. rewrite Hhave in Hn. destruct (managed n); [|by destruct Hn]. simpl in Hn.
      case_bool_decide as Hd; [|by destruct Hn]. destruct Hd as [bc Hbc]. by apply (Hconf n bc). }
  apply put_backends_ok in Hput as [Hf3 [Hc3 Hm3]].
  2:{ apply range_NoDup. }
  2:{ apply Forall_forall. intros [n spec] Hn. pose proof (range_perm want) as Hp. rewrite Hp in Hn.
      apply elem_of_map_to_list, want_backends_spec in Hn as [<- Hn]. split; [done|].
      rewrite Forall_forall in Hok. by apply Hok. }
  2:{ destruct Hc2 as [-> _], Hc1 as [-> _]. done. }
  destruct (Hm2 _ Ht1) as (C1 & HC1 & Hdel & Hch1). destruct (Hm3 _ HC1) as (C2 & HC2 & Hput).
  assert (Hcore : same_core (view (Base c) s) (view (Base c) s3)).
  { by eapply same_core_trans; [exact Hc1|eapply same_core_trans; [exact Hc2|exact Hc3]]. }
  destruct Hc2 as [Hc2 _], Hc1 as [Hc1 _]. rewrite Hc2, Hc1 in Hput.
  destruct (pushed_staged _ _ _ _ _ _ Hhave Hdel Hput) as [Hpushed Hch2].
  destruct (a1 || a2) eqn:Hch.
  - apply wrapping_inv in Hs. apply CommitTx_ok in Hs as [Hf4 [Hmp Hst]]; [|done].
    split; [intros b Hb; by rewrite Hf4, Hf3, Hf2, Hf1, Hf0|]. destruct Hcore as [_ Hcm].
    split; [congruence|]. rewrite HC2 in Hst. by injection Hst as <-.
  - apply AbortTx_core in Hs as [Hf4 Hc4]; [|done].
    split; [intros b Hb; by rewrite Hf4, Hf3, Hf2, Hf1, Hf0|].
    destruct (same_core_trans _ _ _ Hcore Hc4) as [Hce ->]. split; [done|]. rewrite Hce.
    apply orb_false_iff in Hch as [Ha1 Ha2].
    by rewrite (Hch2 Ha2), (Hch1 Ha1) in Hpushed.
Qed.

(** ** What precedes the transaction *)

Lemma zoom_inv {A B T} (get : T -> B) (set : B -> T -> T) (m : M B A) t x t' :
  zoom get set m t = (inr x, t') -> exists b, m (get t) = (inr x, b) /\ t' = set b t.
Proof. unfold zoom. destruct (m (get t)) as [r b]. intros [= -> <-]. eauto. Qed.

Lemma on_lb_inv {A} (m : M St A) (s : gmap string string * St) x s' :
  on_lb m s = (inr x, s') -> m s.2 = (inr x, s'.2).
Proof. by intros (b & Hm & ->)%zoom_inv. Qed.

(** Only the files may change. *)
Definition stored (R : files -> files -> Prop) (d d' : lb) : Prop :=
  lb_conf d' = lb_conf d /\ lb_maps d' = lb_maps d /\ R (files_of d) (files_of d').

Lemma stored_trans c s1 s2 s3 (P Q R : files -> files -> Prop) :
  acts c s1 s2 (stored P) -> acts c s2 s3 (stored Q) -> (forall a b d, P a b -> Q b d -> R a d) -> acts c s1 s3 (stored R).
Proof.
  intros H1 H2 HR. eapply acts_trans; [exact H1|exact H2|]. intros a b d (Hc1 & Hm1 & HP) (Hc2 & Hm2 & HQ).
  split_and!; [congruence..|by eapply HR].
Qed.
Lemma core_stored c s s' (R : files -> files -> Prop) : acts c s s' same_core -> (forall F, R F F) -> acts c s s' (stored R).
Proof. intros H1 HR. eapply acts_impl; [exact H1|]. intros d d' [Hc [= Hm H3 H4 H5]]. split_and!; [done..|]. unfold files_of. by rewrite H3, H4, H5. Qed.
Lemma stored_ret c s (R : files -> files -> Prop) : (forall F, R F F) -> acts c s s (stored R).
Proof. intros HR. apply acts_ret. intros d. by split_and!. Qed.

Definition certs_set (C : gmap string string) (F : files) : files := MkFiles C (f_lists F) (f_general F).
Definition lists_set (L : gmap string string) (F : files) : files := MkFiles (f_certs F) L (f_general F).
Definition generals_set (G : gmap string string) (F : files) : files := MkFiles (f_certs F) (f_lists F) G.

Lemma UpsertCert_ok c name pem s x s' :
  safe name = true -> UpsertCert c name pem s = (inr x, s') ->
  acts c s s' (stored (fun F F' => F' = certs_set (<[name := pem]> (f_certs F)) F)).
Proof.
  intros Hn. unfold UpsertCert, upload.
  destruct (do_ c (MkReq "PUT" (certs_path +:+ "/" +:+ name)%string [] (RText pem)) s) as [[e|u] s1] eqn:E.
  - destruct (IsStatus e 404) eqn:Es; [|done]. apply (do__status c (EPutCert name pem)) with (code := 404) in E; [|done..].
    intros Hs. M_inv. apply (do__ok c (EPostCert name pem)) in Hm; [|done].
    eapply acts_trans; [exact E|exact Hm|]. intros d1 d2 d3 [-> _] [y ->]. by split_and!.
  - apply (do__ok c (EPutCert name pem)) in E; [|done]. intros [= _ <-].
    eapply acts_impl; [exact E|]. intros d d' (y & _ & ->). by split_and!.
Qed.

(** The file [name] of [m] has the text [content], blanks around it apart. *)
Definition has_text (name content : string) (m : gmap string string) : Prop :=
  TrimSpace (default EmptyString (m !! name)) = TrimSpace content.

(** [m'] is [m] with the text of [name]. *)
Definition with_text (name content : string) (m m' : gmap string string) : Prop :=
  has_text name content m' /\ forall k, k <> name -> m' !! k = m !! k.

Lemma with_text_insert name content m : with_text name content m (<[name := content]> m).
Proof. split; [unfold has_text; by rewrite lookup_insert_eq|]. intros k Hk. by apply lookup_insert_ne. Qed.
Lemma with_text_same name content m : has_text name content m -> with_text name content m m.
Proof. by split. Qed.
Lemma with_text_other name content k text m m' : with_text name content m m' -> k <> name -> has_text k text m -> has_text k text m'.
Proof. intros [_ Ho] Hk Ht. unfold has_text. by rewrite Ho. Qed.

Lemma CrtListSync_ok c name content s x s' : CrtListSync c name content s = (inr x, s') ->
  acts c s s' (stored (fun F F' => exists L, F' = lists_set L F /\ with_text name content (f_lists F) L)).
Proof.
  intros Hs. unfold CrtListSync in Hs. M_inv. unfold CrtListGet in Hm.
  destruct (exchange c (get (crt_lists_path name)) s) as [[e|[code b]] s1] eqn:E; [done|].
  apply (exchange_law c (EGetCrtList name)) in E as [Hf Hx']; [|done]. cbn [exchange_spec] in Hx'.
  assert (Hg : acts c s s0 (fun d d' => d' = d /\ a = default EmptyString (lb_crt_lists d !! name))).
  { destruct (Z.eqb_spec code 404) as [->|].
    - simplify_eq. split; [done|]. destruct Hx' as (Hu & Hmiss & _). by rewrite (Hmiss eq_refl).
    - destruct (300 <=? code); simplify_eq. split; [done|]. destruct Hx' as [Hu Hl]. by rewrite Hl. }
  clear Hf Hx' Hm. case_bool_decide as Ht; M_inv.
  - eapply acts_impl; [exact Hg|]. intros d d' [-> ->]. split_and!; [done..|].
    exists (lb_crt_lists d). split; [done|]. by apply with_text_same.
  - apply (do__ok c (EPutCrtList name content)) in Hm; [|done..]. eapply acts_trans; [exact Hg|exact Hm|].
    intros d1 d2 d3 [-> _] [y ->]. split_and!; [done..|]. eexists. split; [reflexivity|]. apply with_text_insert.
Qed.

Lemma GeneralSync_ok c name content s x s' : GeneralSync c name content s = (inr x, s') ->
  acts c s s' (stored (fun F F' => exists G, F' = generals_set G F /\ with_text name content (f_general F) G)).
Proof.
  intros Hs. unfold GeneralSync in Hs.
  destruct (exchange c (get (general_path name)) s) as [[e|[code b]] s1] eqn:E; [done|].
  destruct ((code =? 200) && _) eqn:Hc.
  - apply (exchange_law c (EGetGeneral name)) in E as [Hf Hx']; [|done]. simplify_eq.
    apply andb_true_iff in Hc as [->%Z.eqb_eq Ht%bool_decide_eq_true]. destruct Hx' as [Hu Hl]. split; [done|].
    rewrite Hu. split_and!; [done..|]. exists (lb_general (view (Base c) s)). split; [done|]. apply with_text_same.
    unfold has_text. cbn [f_general files_of]. by rewrite Hl.
  - apply (exchange_core c (EGetGeneral name)) in E; [|done..].
    assert (Hup : forall e y s2, e = EPostGeneral name content \/ e = EPutGeneral name content ->
      do_ c (request_of e) s1 = (inr y, s2) ->
      acts c s s2 (stored (fun F F' => exists G, F' = generals_set G F /\ with_text name content (f_general F) G))).
    { intros e y s2 He Hd. apply do__ok in Hd; [|by destruct He as [-> | ->]].
      eapply (stored_trans c s s1 s2 eq); [by apply core_stored| |intros F1 F2 F3 ->; exact id].
      eapply acts_impl; [exact Hd|]. intros d d' [z Hz]. assert (d' = with_general name content d) as -> by (by destruct He as [-> | ->]).
      split_and!; [done..|]. eexists. split; [reflexivity|]. apply with_text_insert. }
    destruct (code =? 404); M_inv; eapply Hup; [by left|exact Hm|by right|exact Hm].
Qed.

(** *** The certificates *)

Definition cert_name (cert : CertSpec) : string := StorageName (FQDN cert).
Definition cert_line (cert : CertSpec) : string := (sslDir +:+ "/" +:+ cert_name cert +:+ " " +:+ FQDN cert)%string.

(** Whether the reconciler remembers it has pushed the certificate as it is. *)
Definition remembered (pu : gmap string string) (cert : CertSpec) : Prop := default EmptyString (pu !! FQDN cert) = Hash_ cert.
#[global] Instance remembered_dec pu cert : Decision (remembered pu cert).
Proof. unfold remembered. apply _. Defined.

(** Each certificate is in its file, but for those remembered, whose files are
    left as they are, and so are the files of no certificate. *)
Definition placed (pu : gmap string string) (certs : list CertSpec) (C C' : gmap string string) : Prop :=
  (forall cert, cert ∈ certs ->
     C' !! cert_name cert = if decide (remembered pu cert) then C !! cert_name cert else Some (PEM cert)) /\
  (forall n, n ∉ cert_name <$> certs -> C' !! n = C !! n).

(** The lines of the list of the waiting room, and of the other one. *)
Definition wait_lines (wh : string) (certs : list CertSpec) : list string := cert_line <$> base.filter (fun x => FQDN x = wh) certs.
Definition app_lines (wh : string) (certs : list CertSpec) : list string := cert_line <$> base.filter (fun x => FQDN x <> wh) certs.

(** Both, as the loop adds to them. *)
Lemma lines_snoc wh cert certs app wait :
  (if bool_decide (FQDN cert = wh) then (app ++ app_lines wh certs, (wait ++ [cert_line cert]) ++ wait_lines wh certs)
   else ((app ++ [cert_line cert]) ++ app_lines wh certs, wait ++ wait_lines wh certs)) =
  (app ++ app_lines wh (cert :: certs), wait ++ wait_lines wh (cert :: certs)).
Proof.
  unfold app_lines, wait_lines. rewrite !filter_cons. case_bool_decide as Hc.
  - rewrite decide_False, decide_True by tauto. by rewrite <- app_assoc.
  - rewrite decide_True, decide_False by tauto. by rewrite <- app_assoc.
Qed.

Definition certs_step (pu : gmap string string) (certs : list CertSpec) (F F' : files) : Prop :=
  exists C, F' = certs_set C F /\ (NoDup (cert_name <$> certs) -> placed pu certs (f_certs F) C).

Lemma placed_cons pu pu' cert certs C C1 C2 : NoDup (cert_name <$> (cert :: certs)) ->
  C1 = (if decide (remembered pu cert) then C else <[cert_name cert := PEM cert]> C) ->
  (forall f, f <> FQDN cert -> pu' !! f = pu !! f) -> placed pu' certs C1 C2 -> placed pu (cert :: certs) C C2.
Proof.
  rewrite fmap_cons. intros [Hn Hnd]%NoDup_cons HC Hpu [Hin Hout].
  assert (Hne : forall x, x ∈ certs -> cert_name cert <> cert_name x) by (intros y Hy He; apply Hn; rewrite He; by apply list_elem_of_fmap_2).
  assert (HC1 : forall n, cert_name cert <> n -> C1 !! n = C !! n) by (intros n Hc; subst C1; case_decide; [done|by apply lookup_insert_ne]).
  split.
  - intros y [->|Hy]%elem_of_cons.
    + rewrite Hout, HC by done. case_decide; [done|apply lookup_insert_eq].
    + rewrite Hin, HC1 by auto. assert (Hf : FQDN y <> FQDN cert) by (intros He; apply (Hne y Hy); unfold cert_name; by rewrite He).
      apply decide_ext. unfold remembered. by rewrite (Hpu _ Hf).
  - intros n Hc. rewrite fmap_cons in Hc. apply not_elem_of_cons in Hc as [Hc Hc']. rewrite Hout by done. by apply HC1, not_eq_sym.
Qed.

Lemma push_certs_ok c wh certs app wait s x s' :
  Forall (fun cert => safe (StorageName (FQDN cert)) = true) certs ->
  push_certs c wh certs app wait s = (inr x, s') ->
  x = (app ++ app_lines wh certs, wait ++ wait_lines wh certs) /\ acts c s.2 s'.2 (stored (certs_step s.1 certs)).
Proof.
  revert app wait s. induction certs as [|cert certs IH]; intros app wait s Hsafe Hs; simpl in Hs; M_inv.
  - unfold app_lines, wait_lines. rewrite !app_nil_r. split; [done|]. apply stored_ret. intros F.
    exists (f_certs F). split; [by destruct F|]. intros _. split; [by intros ? ?%not_elem_of_nil|done].
  - apply Forall_cons in Hsafe as [Hc Hsafe]. rewrite <- lines_snoc.
    assert (Hone : (forall f, f <> FQDN cert -> s0.1 !! f = s.1 !! f) /\ acts c s.2 s0.2 (stored (fun F F' => F' =
      certs_set (if decide (remembered s.1 cert) then f_certs F else <[cert_name cert := PEM cert]> (f_certs F)) F))).
    { clear Hs IH. case_bool_decide as Hr.
      - simplify_eq. split; [done|]. apply stored_ret. intros F. rewrite decide_True by done. by destruct F.
      - destruct (on_lb (UpsertCert c (StorageName (FQDN cert)) (PEM cert)) s) as [[e|b] s1] eqn:E; [done|].
        apply zoom_inv in E as (t & E & ->). simplify_eq. apply UpsertCert_ok in E; [|done]. cbn [fst snd]. split.
        + intros f Hf. by apply lookup_insert_ne, not_eq_sym.
        + eapply acts_impl; [exact E|]. intros d d' (Hc' & Hm' & HF). split_and!; [done..|]. by rewrite decide_False. }
    destruct Hone as [Hpu Hone].
    assert (Hrest : x = (if bool_decide (FQDN cert = wh) then (app ++ app_lines wh certs, (wait ++ [cert_line cert]) ++ wait_lines wh certs)
        else ((app ++ [cert_line cert]) ++ app_lines wh certs, wait ++ wait_lines wh certs)) /\
      acts c s0.2 s'.2 (stored (certs_step s0.1 certs))) by (case_bool_decide; by apply IH).
    destruct Hrest as [Hx' Hrest]. split; [done|]. eapply stored_trans; [exact Hone|exact Hrest|].
    intros F1 F2 F3 -> (C & -> & HC). exists C. split; [done|]. intros Hnd. eapply placed_cons; [done|reflexivity|exact Hpu|].
    apply HC. rewrite fmap_cons in Hnd. by apply NoDup_cons in Hnd as [_ Hnd].
Qed.

(** *** The lists and the keys *)

Definition two_texts (n1 c1 n2 c2 : string) (m m' : gmap string string) : Prop :=
  (has_text n1 c1 m' /\ has_text n2 c2 m') /\ forall k, k <> n1 -> k <> n2 -> m' !! k = m !! k.

Lemma with_texts n1 c1 n2 c2 m m1 m2 : n1 <> n2 -> with_text n1 c1 m m1 -> with_text n2 c2 m1 m2 -> two_texts n1 c1 n2 c2 m m2.
Proof.
  intros Hne H1 H2. split; [split|].
  - eapply with_text_other; [exact H2|done|apply H1].
  - apply H2.
  - intros k Hk1 Hk2. rewrite (proj2 H2), (proj2 H1); done.
Qed.

Definition lists_step (app wait : list string) (F F' : files) : Prop :=
  exists L, F' = lists_set L F /\ two_texts "app.crt-list" (crt_list app) "wait.crt-list" (crt_list wait) (f_lists F) L.

Lemma push_lists_ok c app wait s x s' : push_lists c app wait s = (inr x, s') -> acts c s s' (stored (lists_step app wait)).
Proof.
  intros Hs. unfold push_lists in Hs. M_inv. apply wrapping_inv, CrtListSync_ok in Hm. apply wrapping_inv, CrtListSync_ok in Hm0.
  eapply stored_trans; [exact Hm|exact Hm0|]. intros F1 F2 F3 (L1 & -> & H1) (L2 & -> & H2). exists L2. split; [done|].
  by eapply with_texts.
Qed.

(** A key the database has is in its file; there is no telling of one it has not. *)
Definition key_file (name pem : string) (m m' : gmap string string) : Prop :=
  (pem <> EmptyString -> has_text name pem m') /\ forall k, k <> name \/ pem = EmptyString -> m' !! k = m !! k.

Lemma push_key_ok c name pem s x s' : push_key c name pem s = (inr x, s') ->
  acts c s s' (stored (fun F F' => exists G, F' = generals_set G F /\ key_file name pem (f_general F) G)).
Proof.
  unfold push_key. case_bool_decide as Hp; intros Hs; M_inv.
  - apply stored_ret. intros F. exists (f_general F). split; [by destruct F|]. by split.
  - apply wrapping_inv, GeneralSync_ok in Hs. eapply acts_impl; [exact Hs|]. intros d d' (Hc & Hm & G & HF & Ht & Ho).
    split_and!; [done..|]. exists G. split; [done|]. split; [done|]. intros k [Hk|Hk]; [by apply Ho|done].
Qed.

Definition keys_hold (des : Desired) (G : gmap string string) : Prop :=
  (PassPub des <> EmptyString -> has_text "pass.pub" (PassPub des) G) /\
  (PassPrevPub des <> EmptyString -> has_text "pass-prev.pub" (PassPrevPub des) G).
Definition keys_step (des : Desired) (F F' : files) : Prop := exists G, F' = generals_set G F /\ keys_hold des G.

Lemma push_keys_ok c des s x s' : push_keys c des s = (inr x, s') -> acts c s s' (stored (keys_step des)).
Proof.
  intros Hs. unfold push_keys in Hs. M_inv. apply push_key_ok in Hm, Hm0.
  assert (Hr : acts c s1 s' same_core) by (destruct (_ || _); M_inv; [by apply wrapping_inv, Reload_core in Hs|apply acts_refl]).
  apply (core_stored _ _ _ eq) in Hr; [|done]. eapply stored_trans; [eapply stored_trans; [exact Hm|exact Hm0|]|exact Hr|].
  - intros F1 F2 F3 (G1 & -> & H1 & _) (G2 & -> & H2 & Ho).
    refine (ex_intro _ G2 (conj eq_refl (conj (fun Hp => _) H2)) : keys_step des F1 _).
    specialize (H1 Hp). unfold has_text in *. by rewrite (Ho "pass.pub"%string) by (by left).
  - by intros F1 F2 F3 H12 <-.
Qed.

(** ** The whole push *)

Definition map_holds (n : string) (l : list MapEntry) (d : lb) : Prop := holds (content n d) (want_of l).

Lemma content_but n d d' m : same_but_map n d d' -> m <> n -> content m d' = content m d.
Proof. intros (_ & _ & _ & Hm & _) Hn. unfold content. by rewrite Hm. Qed.

Lemma same_but_files n d d' : same_but_map n d d' -> lb_conf d' = lb_conf d /\ files_of d' = files_of d.
Proof. intros (Hc & _ & _ & _ & H1 & H2 & H3 & _). split; [done|]. unfold files_of. congruence. Qed.

Lemma push_maps_ok c des s x s' : push_maps c des s = (inr x, s') ->
  acts c s s' (fun d d' => lb_conf d' = lb_conf d /\ files_of d' = files_of d /\ map_holds "backends.map" (DBackend des) d' /\
    map_holds "rooms.map" (DRooms des) d' /\ map_holds "states.map" (DStates des) d').
Proof.
  intros Hs. unfold push_maps in Hs. M_inv. apply wrapping_inv, SyncMap_ok in Hm, Hm0, Hs; try done.
  destruct Hm as [Hf1 [Hs1 Hh1]], Hm0 as [Hf2 [Hs2 Hh2]], Hs as [Hf3 [Hs3 Hh3]].
  split; [intros b Hb; by rewrite Hf3, Hf2, Hf1|].
  rewrite <- (content_but _ _ _ "backends.map" Hs2), <- (content_but _ _ _ "backends.map" Hs3) in Hh1 by done.
  rewrite <- (content_but _ _ _ "rooms.map" Hs3) in Hh2 by done.
  apply same_but_files in Hs1 as [Hc1 Hg1], Hs2 as [Hc2 Hg2], Hs3 as [Hc3 Hg3]. split; [congruence|]. split; [congruence|done].
Qed.

(** The three maps hold the desired entries. *)
Definition mapped (des : Desired) (d : lb) : Prop :=
  map_holds "backends.map" (DBackend des) d /\ map_holds "rooms.map" (DRooms des) d /\ map_holds "states.map" (DStates des) d.

(** That much of a push needs nothing of the names. *)
Lemma pushEdge_maps c wh des (pu pu' : gmap string string) (s s' : St) :
  pushEdge c wh des (pu, s) = (inr tt, (pu', s')) -> mapped des (view (Base c) s').
Proof. intros Hs. unfold pushEdge in Hs. M_inv. apply on_lb_inv, push_maps_ok in Hs as [_ (_ & _ & Hm')]. exact Hm'. Qed.

(** The load balancer [d'] is what a push of [des] makes of [d], as far as a push
    goes: the backends ([pushed]), the three maps, the certificates ([placed]),
    the lists that name them and the keys passes are checked with. *)
Record settled (wh : string) (pu : gmap string string) (des : Desired) (d d' : lb) : Prop := {
  st_backends : pushed (want_backends (DBackends des)) (lb_conf d) (lb_conf d');
  st_backend_map : map_holds "backends.map" (DBackend des) d';
  st_rooms_map : map_holds "rooms.map" (DRooms des) d';
  st_states_map : map_holds "states.map" (DStates des) d';
  st_certs : placed pu (DCerts des) (lb_certs d) (lb_certs d');
  st_lists : two_texts "app.crt-list" (crt_list (app_lines wh (DCerts des)))
    "wait.crt-list" (crt_list (wait_lines wh (DCerts des))) (lb_crt_lists d) (lb_crt_lists d');
  st_keys : keys_hold des (lb_general d')
}.

(** The files after the three steps that precede the transaction. *)
Definition files_step (wh : string) (pu : gmap string string) (des : Desired) (F F' : files) : Prop :=
  (NoDup (cert_name <$> DCerts des) -> placed pu (DCerts des) (f_certs F) (f_certs F')) /\
  two_texts "app.crt-list" (crt_list (app_lines wh (DCerts des))) "wait.crt-list" (crt_list (wait_lines wh (DCerts des))) (f_lists F) (f_lists F') /\
  keys_hold des (f_general F').

Lemma files_steps wh pu des F1 F2 F3 F4 : certs_step pu (DCerts des) F1 F2 ->
  lists_step (app_lines wh (DCerts des)) (wait_lines wh (DCerts des)) F2 F3 -> keys_step des F3 F4 -> files_step wh pu des F1 F4.
Proof. intros (C & -> & HC) (L & -> & HL') (G & -> & HG). by split. Qed.

Lemma pushEdge_stages c wh des (pu pu' : gmap string string) (s s' : St) :
  desired_ok des -> conf_ok (lb_conf (view (Base c) s)) -> pushEdge c wh des (pu, s) = (inr tt, (pu', s')) ->
  acts c s s' (fun d d' => pushed (want_backends (DBackends des)) (lb_conf d) (lb_conf d') /\
    map_holds "backends.map" (DBackend des) d' /\ map_holds "rooms.map" (DRooms des) d' /\
    map_holds "states.map" (DStates des) d' /\ files_step wh pu des (files_of d) (files_of d')).
Proof.
  intros [Hspec Hcerts] Hconf Hs. unfold pushEdge in Hs. M_inv.
  assert (Hpu : s0.1 = pu) by (apply zoom_inv in Hm as (? & _ & ->); done).
  apply on_lb_inv, wrapping_inv, (do_core c EInfo) in Hm; [|done..]. rename Hm into Hi.
  apply push_certs_ok in Hm0 as [-> Hm0]; [|done]. apply on_lb_inv, push_lists_ok in Hm1.
  apply on_lb_inv, push_keys_ok in Hm2. apply on_lb_inv in Hm3, Hs. rewrite Hpu in Hm0.
  apply (core_stored _ _ _ eq) in Hi; [|done].
  assert (Hfiles : acts c s s3.2 (stored (files_step wh pu des))).
  { eapply stored_trans; [exact Hi|eapply stored_trans; [exact Hm0|eapply stored_trans; [exact Hm1|exact Hm2|]|]|by intros F1 F2 F3 -> ].
    - intros F1 F2 F3 H1 H2. exact (ex_intro _ F2 (conj H1 H2)).
    - intros F1 F2 F4 H1 (F3 & H2 & H3). by eapply files_steps. }
  destruct Hfiles as [Hf (Hc & _ & Hfl)]. cbn [snd] in *.
  apply push_backends_ok in Hm3 as [Hf1 [Hh Hp]]; [|done|by rewrite Hc]. injection Hh as _ H1 H2 H3.
  apply push_maps_ok in Hs as [Hf2 (Hc2 & Hfl2 & Hmaps)]. cbn [snd] in *. rewrite Hc, <- Hc2 in Hp.
  split; [intros b Hb; by rewrite Hf2, Hf1, Hf|]. split_and!; [done|apply Hmaps..|]. rewrite Hfl2.
  unfold files_of at 2. by rewrite H1, H2, H3.
Qed.

Lemma pushEdge_ok c wh des (pu pu' : gmap string string) (s s' : St) :
  desired_ok des -> NoDup (cert_name <$> DCerts des) -> conf_ok (lb_conf (view (Base c) s)) ->
  pushEdge c wh des (pu, s) = (inr tt, (pu', s')) -> acts c s s' (settled wh pu des).
Proof.
  intros Hd Hn Hconf Hs. eapply acts_impl; [by eapply pushEdge_stages|].
  intros d d' (Hp & H1 & H2 & H3 & Hc & Hl & Hk). split; try done. by apply Hc.
Qed.

(** Claim C3: a push that gives no error leaves the load balancer as the
    database wants it: the three maps hold exactly the desired entries, each
    wanted backend has the desired servers, at the desired address, port and
    weight, and no other; a managed backend that is not wanted is gone; a
    backend the control plane does not manage is as it was, and so is every
    other load balancer.  A backend that was there keeps its definition: its
    balance and its health check are those of the push that created it. *)
Theorem pushEdge_converges c wh des (pu pu' : gmap string string) (s s' : St) :
  desired_ok des -> conf_ok (lb_conf (view (Base c) s)) ->
  pushEdge c wh des (pu, s) = (inr tt, (pu', s')) ->
  (forall b, b <> Base c -> view b s' = view b s) /\
  pushed (want_backends (DBackends des)) (lb_conf (view (Base c) s)) (lb_conf (view (Base c) s')) /\
  map_holds "backends.map" (DBackend des) (view (Base c) s') /\
  map_holds "rooms.map" (DRooms des) (view (Base c) s') /\
  map_holds "states.map" (DStates des) (view (Base c) s').
Proof.
  intros Hd Hc Hs. destruct (pushEdge_stages c wh des pu pu' s s' Hd Hc Hs) as [Hf Hp]. split; [done|]. tauto.
Qed.

End Converge.

(** ** A push on a load balancer in memory *)

Lemma conf_ok_list c :
  Forall (fun p => safe p.1 = true /\ NoDup (SName <$> bc_servers p.2) /\
            Forall (fun t => safe (SName t) = true) (bc_servers p.2)) (map_to_list c) -> conf_ok c.
Proof. intros Hl n bc Hn. rewrite Forall_forall in Hl. by apply (Hl (n, bc)), elem_of_map_to_list. Qed.

Definition web_server (n addr : string) : Server := MkServer n addr 8080 (Some 100) (Some 200) "enabled".

(** In force: a managed backend whose servers are out of date, one that is no
    longer wanted, and one the control plane does not know. *)
Definition stale_conf : conf := {[
  "bk_acme__web"%string := MkBconf (backend_def (MkSpec "bk_acme__web" "roundrobin" "/" []))
    [web_server "s1" "10.1.0.1"; web_server "s9" "10.1.0.9"];
  "bk_gone__web"%string := MkBconf (backend_def (MkSpec "bk_gone__web" "roundrobin" "/" [])) [web_server "s1" "10.2.0.1"];
  "stats"%string := MkBconf (backend_def (MkSpec "stats" "roundrobin" "/" [])) []
]}.

Definition demo_desired : Desired := MkDesired
  [MkSpec "bk_acme__web" "leastconn" "/health" [web_server "s1" "10.1.0.2"; web_server "s2" "10.1.0.3"];
   MkSpec "bk_acme__api" "roundrobin" "/" [web_server "s1" "10.3.0.1"]]
  [MkEntry "shop.example" "tid"] [MkEntry "shop.example" "bk_acme__web"] [MkEntry "tid" "open"]
  [MkCertSpec "shop.example" "h1" "PEM"] "PUB" EmptyString "hash" ∅.

Definition demo_maps : gmap string (list MapEntry) := {[
  "backends.map"%string := stale_map; "rooms.map"%string := []; "states.map"%string := [MkEntry "tid" "queue"]
]}.
Definition demo_site : site := MkSite {[ lb_url := MkLb stale_conf 7 ∅ demo_maps ∅ ∅ ∅ ∅ ]} [].
Definition pushed_site : site := (pushEdge lb_client EmptyString demo_desired (∅, demo_site)).2.2.

Lemma pushed_site_eq :
  pushEdge lb_client EmptyString demo_desired (∅, demo_site) = (inr tt, ({[ "shop.example"%string := "h1"%string ]}, pushed_site)).
Proof. vm_compute. reflexivity. Defined.

Lemma demo_desired_ok : desired_ok demo_desired.
Proof. split; repeat constructor; apply (bool_decide_unpack _); vm_compute; exact I. Qed.

Lemma stale_conf_ok : conf_ok stale_conf.
Proof. apply conf_ok_list, (bool_decide_unpack _). vm_compute. exact I. Qed.

Lemma demo_site_conf : lb_conf (view (Base lb_client) demo_site) = stale_conf.
Proof. vm_compute. reflexivity. Defined.

Lemma pushEdge_converges_witness :
  pushed (want_backends (DBackends demo_desired)) stale_conf (lb_conf (view (Base lb_client) pushed_site)) /\
  lb_conf (view (Base lb_client) pushed_site) !! "bk_gone__web"%string = None.
Proof.
  destruct (pushEdge_converges lb_client EmptyString demo_desired ∅ {[ "shop.example"%string := "h1"%string ]}
              demo_site pushed_site demo_desired_ok
              (eq_ind_r conf_ok stale_conf_ok demo_site_conf) pushed_site_eq) as (_ & Hp & _).
  rewrite demo_site_conf in Hp. split; [exact Hp|vm_compute; reflexivity].
Defined.
