(* ===== verification/Settle.v ===== *)
(** * What a pass of the reconciler leaves behind

    The whole of [Once] over a database nobody else writes meanwhile: it
    changes none of the tables of the sites, refreshes the list of load
    balancers, and the outcome it records for each of them is so: a success means
    that the load balancer is what a push of the desired state makes of it. *)
From Stdlib Require Import Ascii.
From S2P Require Import Prelude GoStr Json Dataplane Haproxy Site Pg Compile Inventory Queueclient Reconcile Converge.

Local Open Scope list_scope.
Local Open Scope Z_scope.

(** ** A push reaches one load balancer, whatever comes of it *)

Section Framed.
Context {St : Type} {Hx : DataplaneHTTP St} {Hview : Haproxy St} {HL : HaproxyLaws St} {HO : MapOrder}.
Context (c : Dataplane.Client).

Definition framed {A} (m : M St A) : Prop := forall s b, b <> Base c -> view b (m s).2 = view b s.

Lemma framed_ret {A} (a : A) : framed (mret a).
Proof. done. Qed.

Lemma framed_bind {A B} (m : M St A) (f : A -> M St B) : framed m -> (forall a, framed (f a)) -> framed (m ≫= f).
Proof.
  intros Hm Hf s b Hb. unfold mbind, M_bind. specialize (Hm s b Hb).
  destruct (m s) as [[e|a] s1]; [done|]. simpl in Hm. by rewrite (Hf a s1 b Hb).
Qed.

Lemma framed_do {A} r (zero : A) out : framed (do c r zero out).
Proof.
  intros s b Hb. pose proof (frame_law c r s b Hb) as Hf. unfold do.
  destruct (exchange c r s) as [[e|[code a]] s1]; [done|]. destruct (300 <=? code); [done|].
  destruct a; [done|..]; [case_bool_decide|case_match]; done.
Qed.

Lemma framed_do_ r : framed (do_ c r).
Proof.
  intros s b Hb. pose proof (frame_law c r s b Hb) as Hf. unfold do_.
  destruct (exchange c r s) as [[e|[code a]] s1]; [done|]. by destruct (300 <=? code).
Qed.

Lemma framed_wrapping {A} p (m : M St A) : framed m -> framed (wrapping p m).
Proof. intros Hm s b Hb. specialize (Hm s b Hb). unfold wrapping. by destruct (m s) as [[e|a] s1]. Qed.

Lemma framed_tolerate {A} code (a : A) (m : M St A) : framed m -> framed (tolerate code a m).
Proof. intros Hm s b Hb. specialize (Hm s b Hb). unfold tolerate. by destruct (m s) as [[e|x] s1]. Qed.

Lemma framed_AbortTx id : framed (AbortTx c id).
Proof. intros s b Hb. unfold AbortTx. by apply framed_do_. Qed.

Lemma framed_aborting {A} id (m : M St A) : framed m -> framed (aborting c id m).
Proof.
  intros Hm s b Hb. specialize (Hm s b Hb). unfold aborting. destruct (m s) as [[e|a] s1]; [|done].
  cbn [snd] in *. rewrite <- Hm. by apply framed_AbortTx.
Qed.

Lemma framed_if {A} (x : bool) (m1 m2 : M St A) : framed m1 -> framed m2 -> framed (if x then m1 else m2).
Proof. by destruct x. Qed.

End Framed.

Create HintDb framed.
#[export] Hint Resolve framed_ret framed_bind framed_do framed_do_ framed_wrapping framed_tolerate framed_AbortTx
  framed_aborting framed_if : framed.

Section Push.
Context {St : Type} {Hx : DataplaneHTTP St} {Hview : Haproxy St} {HL : HaproxyLaws St} {HO : MapOrder}.
Context (c : Dataplane.Client).
Abbreviation framed_c := (framed c).

Lemma framed_BeginTx : framed_c (BeginTx c).
Proof. unfold BeginTx, Version. auto with framed. Qed.
Lemma framed_CommitTx id : framed_c (CommitTx c id).
Proof. unfold CommitTx. auto with framed. Qed.
Lemma framed_Reload : framed_c (Reload c).
Proof. unfold Reload. auto using framed_BeginTx, framed_CommitTx with framed. Qed.

Lemma framed_UpsertCert name pem : framed_c (UpsertCert c name pem).
Proof.
  intros s b Hb. unfold UpsertCert. pose proof (framed_do_ c (MkReq "PUT" (certs_path +:+ "/" +:+ name)%string [] (RText pem)) s b Hb) as Hf.
  destruct (do_ c _ s) as [[e|x] s1]; [|done]. destruct (IsStatus e 404); [|done]. simpl in Hf. rewrite <- Hf.
  refine (framed_bind c _ _ _ _ s1 b Hb); unfold upload; auto with framed.
Qed.

Lemma framed_CrtListSync name content : framed_c (CrtListSync c name content).
Proof.
  apply framed_bind; [|auto with framed]. intros s b Hb. unfold CrtListGet.
  pose proof (frame_law c (get (crt_lists_path name)) s b Hb) as Hf. by destruct (exchange c _ s) as [[e|[code a]] s1].
Qed.

Lemma framed_GeneralSync name content : framed_c (GeneralSync c name content).
Proof.
  intros s b Hb. unfold GeneralSync. pose proof (frame_law c (get (general_path name)) s b Hb) as Hf.
  destruct (exchange c _ s) as [[e|[code a]] s1]; [done|]. simpl in Hf. rewrite <- Hf.
  destruct (_ && _); [done|]. destruct (code =? 404); refine (framed_bind c _ _ _ _ s1 b Hb); unfold upload; auto with framed.
Qed.

Lemma framed_sync_wanted name cur l : framed_c (sync_wanted c name cur l).
Proof.
  induction l as [|[k v] l IH]; simpl; auto with framed. apply framed_bind; [|done].
  unfold post_entry, put_entry. destruct (cur !! k); auto with framed.
Qed.
Lemma framed_sync_unwanted name want l : framed_c (sync_unwanted c name want l).
Proof.
  induction l as [|[k v] l IH]; simpl; auto with framed. apply framed_bind; [|done].
  unfold delete_entry. auto with framed.
Qed.
Lemma framed_SyncMap name desired : framed_c (SyncMap c name desired).
Proof.
  unfold SyncMap, MapEntries, clear_map. apply framed_bind; [auto with framed|]. intros l.
  destruct (index_entries l) as [cur dup].
  apply framed_bind; [auto with framed|]. intros _. apply framed_bind; [apply framed_sync_wanted|].
  intros _. apply framed_sync_unwanted.
Qed.

Lemma framed_delete_backends id want l : framed_c (delete_backends c id want l).
Proof. induction l as [|[n x] l IH]; simpl; unfold DeleteBackend; auto 6 with framed. Qed.
Lemma framed_create_servers id n l : framed_c (create_servers c id n l).
Proof. induction l as [|s l IH]; simpl; unfold CreateServer; auto with framed. Qed.
Lemma framed_diff_servers id n l : forall cur, framed_c (diff_servers c id n cur l).
Proof.
  induction l as [|s l IH]; intros cur; simpl; auto with framed.
  apply framed_bind; [|auto with framed]. unfold CreateServer, ReplaceServer. destruct (cur !! _); auto with framed.
Qed.
Lemma framed_delete_servers id n l : framed_c (delete_servers c id n l).
Proof. induction l as [|[s x] l IH]; simpl; unfold DeleteServer; auto 6 with framed. Qed.
Lemma framed_put_backend id have spec : framed_c (put_backend c id have spec).
Proof.
  unfold put_backend, CreateBackend, Servers.
  destruct (have !! _); auto 7 using framed_create_servers, framed_diff_servers, framed_delete_servers with framed.
Qed.
Lemma framed_put_backends id have l : framed_c (put_backends c id have l).
Proof. induction l as [|[n x] l IH]; simpl; auto using framed_put_backend with framed. Qed.

Lemma framed_push_backends d : framed_c (push_backends c d).
Proof.
  unfold push_backends, Backends. apply framed_bind; [auto with framed|]. intros l.
  auto 8 using framed_BeginTx, framed_CommitTx, framed_delete_backends, framed_put_backends with framed.
Qed.

Lemma framed_on_lb {A} (m : M St A) s b : framed_c m -> b <> Base c -> view b (on_lb m s).2.2 = view b s.2.
Proof. intros Hm Hb. specialize (Hm s.2 b Hb). unfold on_lb, zoom. by destruct (m s.2) as [r t]. Qed.

(** The same of a computation that also keeps the certificates pushed. *)
Definition framed2 {A} (m : M (gmap string string * St) A) : Prop :=
  forall s b, b <> Base c -> view b (m s).2.2 = view b s.2.

Lemma framed2_bind {A B} (m : M (gmap string string * St) A) (f : A -> M (gmap string string * St) B) :
  framed2 m -> (forall a, framed2 (f a)) -> framed2 (m ≫= f).
Proof.
  intros Hm Hf s b Hb. unfold mbind, M_bind. specialize (Hm s b Hb).
  destruct (m s) as [[e|a] s1]; [done|]. simpl in Hm. by rewrite (Hf a s1 b Hb).
Qed.

Lemma framed2_on_lb {A} (m : M St A) : framed_c m -> framed2 (on_lb m).
Proof. intros Hm s b Hb. by apply framed_on_lb. Qed.

Lemma framed_push_certs wh certs : forall app wait, framed2 (push_certs c wh certs app wait).
Proof.
  induction certs as [|cert certs IH]; intros app wait; [done|]. cbn [push_certs]. apply framed2_bind.
  - intros s b Hb. case_bool_decide; [done|].
    pose proof (framed_on_lb _ s b (framed_UpsertCert (StorageName (FQDN cert)) (PEM cert)) Hb) as Hf.
    by destruct (on_lb _ s) as [[e|x] s1].
  - intros _. by destruct (bool_decide _).
Qed.

Lemma framed_pushEdge wh d : framed2 (pushEdge c wh d).
Proof.
  unfold pushEdge, Info. apply framed2_bind; [apply framed2_on_lb; auto with framed|]. intros _.
  apply framed2_bind; [apply framed_push_certs|]. intros lists.
  apply framed2_bind; [apply framed2_on_lb; unfold push_lists; auto using framed_CrtListSync with framed|]. intros _.
  apply framed2_bind; [apply framed2_on_lb|].
  { unfold push_keys, push_key. auto 7 using framed_GeneralSync, framed_Reload with framed. }
  intros _. apply framed2_bind; [apply framed2_on_lb, framed_push_backends|]. intros _.
  apply framed2_on_lb. unfold push_maps. auto using framed_SyncMap with framed.
Qed.

End Push.

(** ** The tables of the sites *)

Definition same_sites (d d' : cdb) : Prop :=
  tenants d' = tenants d /\ domains d' = domains d /\ backends d' = backends d /\ servers d' = servers d /\
  rooms d' = rooms d /\ certificates d' = certificates d.

Lemma same_sites_refl d : same_sites d d.
Proof. by split_and!. Qed.
Lemma same_sites_trans a b c : same_sites a b -> same_sites b c -> same_sites a c.
Proof. unfold same_sites. intros (-> & -> & -> & -> & -> & ->). done. Qed.
Lemma same_sites_audit a d : same_sites d (add_audit a d).
Proof. by split_and!. Qed.
#[export] Hint Resolve same_sites_refl same_sites_audit : flyc.

(** What the columns' constraints give: names that fit in a path, and servers
    with distinct names in a backend.  That no two certificates have the same file
    comes from the form of the names: a label has no underscore, and no name of
    the web ends in [.pem]. *)
Record tables_ok (d : cdb) : Prop := {
  ok_tenants : Forall (fun t => slug_match (t_slug t) = true) (tenants d);
  ok_backends : Forall (fun b => slug_match (b_name b) = true) (backends d);
  ok_servers : Forall (fun s => slug_match (sv_name s) = true) (servers d);
  ok_server_names i : NoDup (sv_name <$> base.filter (fun s => sv_backend s = i) (servers d));
  ok_certs : Forall (fun c => safe (StorageName (c_fqdn c)) = true) (certificates d);
  ok_cert_names : NoDup ((fun c => StorageName (c_fqdn c)) <$> certificates d)
}.

Section Desired.
Context {HO : Collation} (decrypt : string -> option string) (sha : string -> string).

Lemma slug_safe s : slug_match s = true -> safe s = true.
Proof.
  intros Hs%slug_match_forall. eapply string_forall_impl; [|exact Hs].
  intros a Ha. revert a Ha. assert (H : forall a, implb (slug_tail a) (safe_char a) = true) by (apply all_ascii; vm_compute; reflexivity).
  intros a Ha. specialize (H a). by rewrite Ha in H.
Qed.

Lemma dashes_safe s : safe s = true -> safe (dashes s) = true.
Proof.
  unfold safe, dashes, ReplaceAll1. induction s as [|a s IH]; [done|]. simpl. intros [Ha Hs]%andb_true_iff.
  rewrite IH by done. by destruct (Ascii.eqb a "-"%char); [|rewrite Ha].
Qed.

Lemma BackendName_safe t n : slug_match t = true -> slug_match n = true -> safe (BackendName t n) = true.
Proof.
  intros Ht%slug_safe%dashes_safe Hn%slug_safe%dashes_safe. unfold BackendName, safe in *.
  rewrite !string_forall_app. by rewrite Ht, Hn.
Qed.

Lemma spec_of_ok d j : tables_ok d -> j ∈ q_backends d -> spec_ok (spec_of d j).
Proof.
  intros Hd Hj. unfold q_backends in Hj. rewrite merge_sort_Permutation in Hj.
  apply list_elem_of_omap in Hj as (b & Hb & Hj). destruct (by_id t_id (b_tenant b) (tenants d)) as [t|] eqn:Ht; [|done].
  injection Hj as <-. apply by_id_elem in Ht as [Ht _]. destruct Hd as [H1 H2 H3 H4 _ _]. rewrite Forall_forall in H1. rewrite Forall_forall in H2. rewrite Forall_forall in H3.
  assert (Hperm : SName <$> map server_of (q_servers (b_id b) d) ≡ₚ
    sv_name <$> base.filter (fun s => sv_backend s = b_id b) (servers d)).
  { change (map server_of ?l) with (server_of <$> l). rewrite <- list_fmap_compose. unfold q_servers.
    by rewrite merge_sort_Permutation. }
  split_and!; simpl.
  - apply BackendName_safe; auto.
  - rewrite Hperm. apply H4.
  - apply Forall_forall. intros s (x & -> & Hx)%list_elem_of_fmap. simpl. apply slug_safe, H3.
    unfold q_servers in Hx. rewrite merge_sort_Permutation in Hx. by apply list_elem_of_filter in Hx as [_ Hx].
Qed.

Lemma NoDup_fmap_omap {A B C} (f : A -> C) (h : B -> C) (g : A -> option B) (l : list A) :
  (forall a b, g a = Some b -> h b = f a) -> NoDup (f <$> l) -> NoDup (h <$> omap g l).
Proof.
  intros Hg. induction l as [|a l IH]; [by intros|]. rewrite fmap_cons. intros [Ha Hl]%NoDup_cons. cbn [omap list_omap].
  destruct (g a) as [b|] eqn:E; [|by apply IH]. rewrite fmap_cons. apply NoDup_cons. split; [|by apply IH].
  intros (y & Hy & (x & Hx' & Hgx)%list_elem_of_omap)%list_elem_of_fmap. apply Ha. rewrite <- (Hg _ _ E), Hy, (Hg _ _ Hgx).
  by apply list_elem_of_fmap_2.
Qed.

(** The files of the certificates have distinct names. *)
Lemma desired_names d : tables_ok d -> NoDup (cert_name <$> DCerts (desired_of decrypt sha d)).
Proof.
  intros Hd. cbn [DCerts desired_of]. apply (NoDup_fmap_omap (fun x => StorageName x.1)).
  { intros [f enc] cert. unfold cert_spec. destruct (decrypt _); [|done]. by intros [= <-]. }
  unfold q_certs. rewrite merge_sort_Permutation. apply (NoDup_fmap_omap (fun c => StorageName (c_fqdn c))); [|apply Hd].
  intros r x. case_bool_decide; [|done]. destruct (c_pem_enc r); [|done]. by intros [= <-].
Qed.

Lemma desired_of_ok d : tables_ok d -> desired_ok (desired_of decrypt sha d).
Proof.
  intros Hd. split; cbn [DBackends DCerts desired_of].
  - apply Forall_forall. intros s (j & -> & Hj)%list_elem_of_fmap. by apply spec_of_ok.
  - apply Forall_forall. intros x (c & Hc & Hx)%list_elem_of_omap. unfold q_certs in Hc.
    rewrite merge_sort_Permutation in Hc. apply list_elem_of_omap in Hc as (r & Hr & Hc).
    case_bool_decide; [|done]. destruct (c_pem_enc r); [|done]. injection Hc as <-.
    unfold cert_spec in Hx. destruct (decrypt _); [|done]. injection Hx as <-. simpl.
    pose proof (ok_certs _ Hd) as Hk. rewrite Forall_forall in Hk. by apply Hk.
Qed.

End Desired.

(** ** The pass *)

Section Once_.
Context {St Q : Type} {Hx : DataplaneHTTP St} {Hview : Haproxy St} {HL : HaproxyLaws St} {HQ : QueueHTTP Q}.
Context {HM : MapOrder} {HO : Collation} (decrypt : string -> option string) (sha : string -> string).
Abbreviation world := (@Reconcile.world St Q).

Definition tab (w : world) : cdb := tables (w_pg w).
Definition calm (w : world) : Prop := quiet (w_pg w).

(** The address the client of a load balancer talks to. *)
Definition addr (e : Edge) : string := TrimRight1 "/"%char (EURL e).

Lemma QueueHosts_quiet p : quiet p -> exists l, QueueHosts p = (inr l, p).
Proof.
  intros Hq. unfold QueueHosts. erewrite M_bind_ok by (by apply QueryRow_quiet).
  erewrite M_bind_ok by (by apply all_rows_quiet). by eexists.
Qed.

(** After the topology has been read again. *)
Definition with_topology (hosts : list string) (w : world) : world :=
  MkWorld (with_queue (SetHosts hosts (rc_queue (w_rec w))) (with_edges (edges_of (tab w)) (w_rec w)))
    (MkPg (synced_db (tab w)) []) (w_lbs w) (w_queues w).

Lemma reloadTopology_ok w : calm w -> nodes (tab w) <> [] ->
  exists hosts, reloadTopology w = (inr tt, with_topology hosts w).
Proof.
  intros Hq Hn. unfold reloadTopology, in_pg, zoom. rewrite Sync_quiet by done. cbn [w_pg set_pg].
  rewrite Edges_quiet by done. cbn [w_pg set_pg w_rec set_rec].
  destruct (QueueHosts_quiet (MkPg (synced_db (tables (w_pg w))) []) eq_refl) as [hosts ->].
  exists hosts. done.
Qed.

Lemma exec_quietly_ok f w : calm w -> exec_quietly f w = (inr tt, set_pg (MkPg (f (tab w)) []) w).
Proof. intros Hq. unfold exec_quietly, in_pg, zoom. by rewrite Exec__quiet. Qed.

Lemma push_queues_ok l : forall w, calm w -> exists h q,
  push_queues l w = (inr tt, MkWorld (w_rec w) (MkPg (set_queue_hosts h (tab w)) []) (w_lbs w) q).
Proof.
  induction l as [|[id cfg] l IH]; intros w Hq.
  - exists (queue_hosts (tab w)), (w_queues w). destruct w as [r [d s] lbs q]. unfold calm, quiet, tab in *. simpl in *. subst s.
    by destruct d.
  - cbn [push_queues]. unfold mbind, M_bind.
    destruct (PutRoom _ id cfg (w_queues w)) as [[e|x] q]; rewrite exec_quietly_ok by done;
      match goal with |- context [push_queues l ?w1] => destruct (IH w1) as (h & q' & ->); [done|] end;
      by exists h, q'.
Qed.

(** The row of a load balancer after the outcome of a push. *)
Definition marked (now : Z) (hash : string) (er : option goerr) (r : edge_row) : edge_row :=
  match er with
  | Some e => MkEdgeRow (e_name r) (e_url r) (e_config_hash r) (Some hash) (Some "error"%string) (Some (error_text e)) (Some now)
  | None => MkEdgeRow (e_name r) (e_url r) (Some hash) (Some hash) (Some "ok"%string) None (Some now)
  end.

Lemma by_id_outcome name hash er d i :
  by_id e_name i (edges (edge_outcome name hash er d)) =
  (fun r => if String.eqb i name then marked (clock d) hash er r else r) <$> by_id e_name i (edges d).
Proof.
  cbn [edges edge_outcome set_edges]. induction (edges d) as [|r l IH]; [done|]. simpl.
  rewrite !by_id_cons, IH.
  assert (Hr : forall x, e_name (if String.eqb (e_name r) name then marked (clock d) hash er x else x) = e_name x)
    by (intros x; destruct (String.eqb (e_name r) name); [destruct er|]; done).
  specialize (Hr r). unfold marked in Hr at 1.
  rewrite Hr. case_decide as He; [|done]. by rewrite <- He.
Qed.

(** The certificates it is remembered that the load balancer [e] was given. *)
Definition given (w : world) (e : Edge) : gmap string string := default ∅ (rc_pushed (w_rec w) !! EName e).

(** The load balancer [e] is, in [w'], what a push of [des] makes of what it was in [w]. *)
Definition holds_desired (des : Desired) (w w' : world) (e : Edge) : Prop :=
  settled (rc_waitHost (w_rec w)) (given w e) des (view (addr e) (w_lbs w)) (view (addr e) (w_lbs w')).

Lemma push_one_ok e des w : calm w -> desired_ok des -> NoDup (cert_name <$> DCerts des) -> conf_ok (lb_conf (view (addr e) (w_lbs w))) ->
  exists er w', push_one e des w = (inr er, w') /\ calm w' /\
    (rc_edges (w_rec w') = rc_edges (w_rec w) /\ rc_waitHost (w_rec w') = rc_waitHost (w_rec w) /\
     forall e', EName e' <> EName e -> given w' e' = given w e') /\
    tab w' = edge_outcome (EName e) (DHash des) er (tab w) /\
    (forall b, b <> addr e -> view b (w_lbs w') = view b (w_lbs w)) /\
    (er = None -> holds_desired des w w' e).
Proof.
  intros Hq Hd Hcn Hc. unfold push_one.
  set (c := Dataplane.New _ _ _). set (s := (default ∅ _, w_lbs w)).
  pose proof (framed_pushEdge c (rc_waitHost (w_rec w)) des s) as Hf.
  destruct (pushEdge c (rc_waitHost (w_rec w)) des s) as [[er|[]] [pu lbs]] eqn:Hp; rewrite exec_quietly_ok by done.
  - eexists (Some er), _. split; [reflexivity|]. split_and!; [done..| |done| |done].
    + intros e' He. unfold given. cbn. by rewrite lookup_insert_ne.
    + intros b Hb. exact (Hf b Hb).
  - apply pushEdge_ok in Hp as [Hf' Hs]; [|done..]. eexists None, _. split; [reflexivity|]. split_and!; [done..| |done|exact Hf'|].
    + intros e' He. unfold given. cbn. by rewrite lookup_insert_ne.
    + intros _. exact Hs.
Qed.

(** What is recorded of a load balancer, from [w] to [w'], and true of it. *)
Definition recorded (des : Desired) (w w' : world) (e : Edge) : Prop :=
  exists now er, by_id e_name (EName e) (edges (tab w')) = marked now (DHash des) er <$> by_id e_name (EName e) (edges (tab w)) /\
    (er = None -> holds_desired des w w' e).

Lemma same_sites_outcome n h er d : same_sites d (edge_outcome n h er d).
Proof. by split_and!. Qed.

Lemma push_all_ok es des : desired_ok des -> NoDup (cert_name <$> DCerts des) -> forall w, calm w -> NoDup (EName <$> es) -> NoDup (addr <$> es) ->
  (forall e, e ∈ es -> conf_ok (lb_conf (view (addr e) (w_lbs w)))) ->
  exists log w', push_all es des w = (inr log, w') /\ calm w' /\ same_sites (tab w) (tab w') /\
    rc_edges (w_rec w') = rc_edges (w_rec w) /\ version (tab w') = version (tab w) /\
    (forall i, i ∉ EName <$> es -> by_id e_name i (edges (tab w')) = by_id e_name i (edges (tab w))) /\
    (forall b, b ∉ addr <$> es -> view b (w_lbs w') = view b (w_lbs w)) /\
    Forall (recorded des w w') es.
Proof.
  intros Hd Hcn. induction es as [|e es IH]; intros w Hq Hn Ha Hc.
  { exists [], w. split_and!; [done|done|apply same_sites_refl|done..|constructor]. }
  rewrite !fmap_cons in *. apply NoDup_cons in Hn as [Hn Hns]. apply NoDup_cons in Ha as [Ha Has].
  destruct (push_one_ok e des w Hq Hd Hcn (Hc e (list_elem_of_here _ _))) as (er & w1 & Hp & Hq1 & (Hrc & Hwh & Hgv) & Ht & Hf & Hs).
  destruct (IH w1 Hq1 Hns Has) as (log & w2 & Hp2 & Hq2 & Hss & Hrc2 & Hv2 & Hi2 & Hb2 & Hr2).
  { intros e' He'. rewrite Hf; [apply Hc; by right|]. intros He. apply Ha. rewrite <- He. by apply list_elem_of_fmap_2. }
  exists ((e, er) :: log), w2. cbn [push_all]. unfold mbind, M_bind. rewrite Hp, Hp2. split_and!; [done|done| | | | | |].
  - eapply same_sites_trans; [|exact Hss]. rewrite Ht. apply same_sites_outcome.
  - congruence.
  - by rewrite Hv2, Ht.
  - intros i Hi. rewrite Hi2 by set_solver. rewrite Ht, by_id_outcome.
    destruct (by_id e_name i _) as [r|]; [|done]. simpl. rewrite (proj2 (String.eqb_neq _ _)); [done|]. set_solver.
  - intros b Hb. rewrite Hb2, Hf by set_solver. done.
  - constructor.
    + exists (clock (tab w)), er. rewrite Hi2, Ht, by_id_outcome by done. rewrite String.eqb_refl. split; [done|].
      intros He. unfold holds_desired. rewrite Hb2 by done. by apply Hs.
    + apply Forall_forall. intros e' He'. rewrite Forall_forall in Hr2.
      destruct (Hr2 e' He') as (now' & er' & Hrow & Hset). exists now', er'.
      assert (Hne : EName e' <> EName e) by (intros He; apply Hn; rewrite <- He; by apply list_elem_of_fmap_2).
      assert (Hne' : addr e' <> addr e) by (intros He; apply Ha; rewrite <- He; by apply list_elem_of_fmap_2).
      rewrite Hrow, Ht, by_id_outcome. rewrite (proj2 (String.eqb_neq _ _) Hne).
      split; [by destruct (by_id e_name (EName e') (edges (tab w)))|]. intros Her. specialize (Hset Her).
      unfold holds_desired in *. by rewrite Hwh, (Hgv _ Hne), (Hf _ Hne') in Hset.
Qed.

(** Whatever comes of the pushes, the tables of the sites are left alone. *)
Lemma push_all_sites es des : forall w, calm w ->
  exists log w', push_all es des w = (inr log, w') /\ calm w' /\ same_sites (tab w) (tab w').
Proof.
  induction es as [|e es IH]; intros w Hq; [by exists [], w|]. cbn [push_all]. unfold mbind, M_bind, push_one.
  destruct (pushEdge _ _ _ _) as [res [pu lbs]]. rewrite exec_quietly_ok by done.
  match goal with |- context [push_all es des ?w1] => destruct (IH w1 eq_refl) as (log & w' & -> & Hq' & Hs) end.
  eexists _, w'. split_and!; [done|done|]. eapply same_sites_trans; [|exact Hs]. apply same_sites_outcome.
Qed.

Lemma reloadTopology_sites w : calm w -> calm (reloadTopology w).2 /\ same_sites (tab w) (tab (reloadTopology w).2).
Proof.
  intros Hq. destruct (decide (nodes (tab w) = [])) as [Hn|Hn].
  - assert (E : reloadTopology w = (inr tt, set_pg (w_pg w) w))
      by (unfold reloadTopology, in_pg at 1, zoom; by rewrite Sync_empty).
    rewrite E. split; [done|apply same_sites_refl].
  - destruct (reloadTopology_ok w Hq Hn) as [hosts ->]. split; [done|]. by split_and!.
Qed.

Lemma Once_sites force w : calm w ->
  exists w', Once decrypt sha force w = (inr tt, w') /\ calm w' /\ same_sites (tab w) (tab w').
Proof.
  intros Hq. destruct (reloadTopology_sites w Hq) as [Hq1 Hs1]. unfold Once, passed, mbind at 1, M_bind at 1. set (w1 := (reloadTopology w).2) in *.
  unfold in_pg at 1, zoom. rewrite (QueryRow_quiet _ _ (version (tab w1))) by done.
  unfold in_pg, zoom. rewrite Build_quiet by done. unfold mbind, M_bind.
  match goal with |- context [push_queues ?l ?w2] => destruct (push_queues_ok l w2 Hq1) as (h & q & ->) end.
  unfold push_edges, mbind, M_bind. match goal with |- context [push_all ?es ?d ?w2] => destruct (push_all_sites es d w2 eq_refl) as (log & w3 & -> & Hq3 & Hs3) end.
  eexists. split; [done|]. split; [done|]. eapply same_sites_trans; [exact Hs1|]. eapply same_sites_trans; [|exact Hs3]. by split_and!.
Qed.

(** ** The theorem *)

Lemma NoDup_edges_of d : NoDup (Name <$> nodes d) -> NoDup (EName <$> edges_of d).
Proof.
  intros Hn. unfold edges_of. change (map ?f ?l) with (f <$> l). rewrite <- list_fmap_compose.
  change (NoDup (Name <$> ready_nodes RoleEdge d)). unfold ready_nodes. rewrite merge_sort_Permutation. by apply NoDup_ready.
Qed.

(** A pass, over a database that has nodes. *)
Lemma Once_ok force w : calm w -> nodes (tab w) <> [] -> NoDup (Name <$> nodes (tab w)) -> tables_ok (tab w) ->
  NoDup (addr <$> edges_of (tab w)) ->
  (forall e, e ∈ edges_of (tab w) -> conf_ok (lb_conf (view (addr e) (w_lbs w)))) ->
  let des := desired_of decrypt sha (tab w) in
  exists w1 w', Once decrypt sha force w = (inr tt, w') /\ calm w' /\ same_sites (tab w) (tab w') /\
    rc_edges (w_rec w') = edges_of (tab w) /\ rc_lastVer (w_rec w') = version (tab w) /\
    edges (tab w1) = synced_edges (tab w) /\ (forall e, holds_desired des w1 w' e -> holds_desired des w w' e) /\
    Forall (recorded des w1 w') (edges_of (tab w)).
Proof.
  intros Hq Hn Hnd Hok Ha Hc des.
  destruct (reloadTopology_ok w Hq Hn) as [hosts Htop].
  set (w1 := with_topology hosts w) in *.
  destruct (push_queues_ok (range (Queue des)) w1 eq_refl) as (h & q & Hpq).
  set (w2 := MkWorld (w_rec w1) (MkPg (set_queue_hosts h (tab w1)) []) (w_lbs w1) q) in *.
  destruct (push_all_ok (edges_of (tab w)) des (desired_of_ok decrypt sha _ Hok) (desired_names decrypt sha _ Hok) w2 eq_refl)
    as (log & w3 & Hp & Hq3 & Hss & Hrc & _ & _ & _ & Hrec); [by apply NoDup_edges_of|done|exact Hc|].
  exists w2, (set_rec (with_ver (version (tab w)) (w_rec w3)) w3).
  split; [|split_and!; try done].
  - unfold Once, passed, mbind at 1, M_bind at 1. rewrite Htop. cbn [snd]. unfold in_pg at 1, zoom. rewrite (QueryRow_quiet _ _ (version (tab w))) by done.
    unfold in_pg, zoom. rewrite Build_quiet by done. cbn [w_pg set_pg tables].
    change (desired_of decrypt sha (tables (w_pg w1))) with des. unfold mbind, M_bind.
    change (set_pg _ (set_pg _ w1)) with w1. rewrite Hpq. unfold push_edges, mbind, M_bind.
    change (rc_edges (w_rec w2)) with (edges_of (tab w)). by rewrite Hp.
Qed.

Lemma Once_report force w : calm w -> nodes (tab w) <> [] -> NoDup (Name <$> nodes (tab w)) -> tables_ok (tab w) ->
  NoDup (addr <$> edges_of (tab w)) ->
  (forall e, e ∈ edges_of (tab w) -> conf_ok (lb_conf (view (addr e) (w_lbs w)))) ->
  let des := desired_of decrypt sha (tab w) in
  exists w', Once decrypt sha force w = (inr tt, w') /\ calm w' /\ same_sites (tab w) (tab w') /\
    rc_edges (w_rec w') = edges_of (tab w) /\ rc_lastVer (w_rec w') = version (tab w) /\
    forall e, e ∈ edges_of (tab w) -> exists row, by_id e_name (EName e) (edges (tab w')) = Some row /\
      e_url row = EURL e /\ e_desired_hash row = Some (DHash des) /\
      ((e_status row = Some "error"%string /\ e_error row <> None) \/
       (e_status row = Some "ok"%string /\ e_error row = None /\ e_config_hash row = Some (DHash des) /\
        holds_desired des w w' e)).
Proof.
  intros Hq Hn Hnd Hok Ha Hc des.
  destruct (Once_ok force w Hq Hn Hnd Hok Ha Hc) as (w1 & w' & Hw & Hq' & Hss & Hrc & Hv & He1 & Hhd & Hrec).
  exists w'. split_and!; try done. intros e He. rewrite Forall_forall in Hrec.
  destruct (Hrec e He) as (now & er & Hrow & Hset). rewrite He1, by_id_synced_edges in * by done.
  unfold edges_of in He. apply list_elem_of_fmap in He as (n & -> & Hin). cbn [EName EURL] in *.
  unfold ready_nodes in Hin. rewrite merge_sort_Permutation in Hin. apply list_elem_of_filter in Hin as [Hr Hin].
  assert (Hrn : ready_node RoleEdge (Name n) (tab w) = Some n).
  { unfold ready_node. rewrite (proj2 (by_id_NoDup Name (Name n) (nodes (tab w)) n Hnd) (conj Hin eq_refl)). simpl.
    by rewrite decide_True. }
  rewrite Hrn in Hrow. cbn [mbind option_bind] in Hrow. eexists. split; [exact Hrow|].
  destruct er as [err|]; cbn [marked e_url e_desired_hash e_status e_error e_config_hash]; split_and!; try done; [by left|right].
  split_and!; try done. by apply Hhd, Hset.
Qed.

(** Claim C1: a pass of the reconciler over a database nobody else writes
    meanwhile changes no table of the sites and takes the load balancers from
    the nodes in service; afterwards the register has, for each of them, a row
    with its address and the hash of the desired state, and what the row says is
    so: either the push is recorded as an error, or it is recorded as a success
    and the load balancer then is what a push of that state makes of it
    ([holds_desired]).  This is, in full: its three maps hold exactly the desired
    entries; its lists name exactly the desired certificates and it has the keys
    passes are checked with; its managed backends are exactly the desired ones,
    each with the desired servers and no other, at the desired address, port and
    weight, the rest of the configuration being as it was.  A success does not
    vouch for what a push never writes again: the balance and the check path of a
    backend that was there stay, and so does the [maxconn] of a server already at
    the desired address, port and weight, and the file of a certificate remembered
    as given at its present hash; all of them are as desired for what is new. *)
Theorem Once_truthful force w : calm w -> nodes (tab w) <> [] -> NoDup (Name <$> nodes (tab w)) -> tables_ok (tab w) ->
  NoDup (addr <$> edges_of (tab w)) ->
  (forall e, e ∈ edges_of (tab w) -> conf_ok (lb_conf (view (addr e) (w_lbs w)))) ->
  let des := desired_of decrypt sha (tab w) in
  exists w', Once decrypt sha force w = (inr tt, w') /\ calm w' /\ same_sites (tab w) (tab w') /\
    rc_edges (w_rec w') = edges_of (tab w) /\ rc_lastVer (w_rec w') = version (tab w) /\
    forall e, e ∈ edges_of (tab w) -> exists row, by_id e_name (EName e) (edges (tab w')) = Some row /\
      e_url row = EURL e /\ e_desired_hash row = Some (DHash des) /\
      ((e_status row = Some "error"%string /\ e_error row <> None) \/
       (e_status row = Some "ok"%string /\ e_error row = None /\ e_config_hash row = Some (DHash des) /\
        holds_desired des w w' e)).
Proof. exact (Once_report force w). Qed.

End Once_.

(** ** An example *)

Definition no_queue : QueueHTTP unit := {| qdo := fun _ _ _ _ s => (inl (Err "connection refused"), s) |}.

Definition lb_nodes : list Node := [MkNode "lb1" ["edge"%string] "10.0.0.1" EmptyString "ready" EmptyString None].
Definition lb1_url : string := "http://10.0.0.1:5555".
Definition bare_maps : gmap string (list MapEntry) := {[
  "backends.map"%string := []; "rooms.map"%string := []; "states.map"%string := []
]}.
Definition bare_site : site := MkSite {[ lb1_url := MkLb ∅ 7 ∅ bare_maps ∅ ∅ ∅ ∅ ]} [].
Definition first_world : @Reconcile.world site unit :=
  MkWorld (MkRec [] "admin" "secret" (Queueclient.MkClient EmptyString []) EmptyString 0 ∅)
    (MkPg (set_nodes lb_nodes demo_db) []) bare_site tt.
Definition one_pass : @Reconcile.world site unit := (@Once _ _ _ no_queue _ _ Some toy_sha true first_world).2.

Lemma first_tables_ok : tables_ok (tab first_world).
Proof.
  split; try (apply (bool_decide_unpack _); vm_compute; exact I).
  intros i. change (servers (tab first_world)) with (servers demo_db).
  apply (NoDup_fmap_filter sv_name). apply (bool_decide_unpack _). vm_compute. exact I.
Qed.

Lemma Once_truthful_witness :
  (exists row, by_id e_name "lb1" (edges (tab one_pass)) = Some row /\ e_status row = Some "ok"%string) /\
  exists w', @Once _ _ _ no_queue _ _ Some toy_sha true first_world = (inr tt, w') /\
    forall e, e ∈ edges_of (tab first_world) -> exists row, by_id e_name (EName e) (edges (tab w')) = Some row /\
      e_url row = EURL e /\ e_desired_hash row = Some (DHash (desired_of Some toy_sha (tab first_world))) /\
      ((e_status row = Some "error"%string /\ e_error row <> None) \/
       (e_status row = Some "ok"%string /\ e_error row = None /\
        e_config_hash row = Some (DHash (desired_of Some toy_sha (tab first_world))) /\
        holds_desired (desired_of Some toy_sha (tab first_world)) first_world w' e)).
Proof.
  split; [eexists; split; vm_compute; reflexivity|].
  destruct (@Once_truthful _ _ _ _ _ no_queue _ _ Some toy_sha true first_world eq_refl) as (w' & Hw & _ & _ & _ & _ & He).
  - discriminate.
  - apply (bool_decide_unpack _). vm_compute. exact I.
  - exact first_tables_ok.
  - apply (bool_decide_unpack _). vm_compute. exact I.
  - intros e He. assert (Hl : lb_conf (view (addr e) (w_lbs first_world)) = ∅).
    { assert (Hf : Forall (fun e => lb_conf (view (addr e) (w_lbs first_world)) = ∅) (edges_of (tab first_world))).
      { apply (bool_decide_unpack _). vm_compute. exact I. }
      rewrite Forall_forall in Hf. by apply Hf. }
    rewrite Hl. intros n bc Hn. by rewrite lookup_empty in Hn.
  - exists w'. split; [exact Hw|exact He].
Defined.
