(* ===== verification/Watch.v ===== *)
(** * The loop of the reconciler

    [Run], [Kick] and [updateMetrics] of [reconcile/reconcile.go]: what wakes the
    reconciler up, and what it exposes of each pass.  A pass runs while other
    sessions write.  What is proved: as long as a write of the others that changes
    what the compilation reads increments [config_version], which is what the
    triggers of [0002_m3.sql] are for, and no answer of the database is cut off
    midway, the poll misses no change, whatever calls fail and whenever the writes
    happen, and the load balancers whose push gave no error hold what was last
    pushed; and the gauges say what the registers hold, but for the load balancers
    that have left them. *)
From Stdlib Require Import Ascii.
From S2P Require Import Prelude GoStr F64 Json Dataplane Queueclient Pg Compile Inventory Haproxy Site Reconcile Converge Settle.

Local Open Scope list_scope.
Local Open Scope Z_scope.

(** ** The metrics *)

(** The four gauge vectors, by their labels. *)
Record Metrics : Type := MkMetrics {
  EdgeInSync : gmap string f64; CertExpiry : gmap string f64;
  CertStatus : gmap (string * string) f64; Rooms : gmap string f64
}.

Definition NewMetrics : Metrics := MkMetrics ∅ ∅ ∅ ∅.

Definition fone : f64 := of_int 1.

Definition in_sync (r : edge_row) : bool :=
  bool_decide (default EmptyString (e_config_hash r) = default EmptyString (e_desired_hash r)) &&
  bool_decide (e_config_hash r <> None).

Definition q_sync (d : cdb) : list (string * bool) := map (fun r => (e_name r, in_sync r)) (edges d).

Definition set_sync (m : Metrics) (x : string * bool) : Metrics :=
  MkMetrics (<[x.1 := if x.2 then fone else fzero]> (EdgeInSync m)) (CertExpiry m) (CertStatus m) (Rooms m).

(** [CertStatus.Reset()]; the other vectors are never reset. *)
Definition reset_status (m : Metrics) : Metrics := MkMetrics (EdgeInSync m) (CertExpiry m) ∅ (Rooms m).

Definition q_status (d : cdb) : list (string * string * option Z) :=
  map (fun c => (c_fqdn c, c_status c, c_not_after c)) (certificates d).

Definition set_cert (m : Metrics) (x : string * string * option Z) : Metrics :=
  MkMetrics (EdgeInSync m)
    (match x.2 with Some t => <[x.1.1 := of_int t]> (CertExpiry m) | None => CertExpiry m end)
    (<[x.1 := fone]> (CertStatus m)) (Rooms m).

(** [counts[e.Value]++]. *)
Definition count_state (c : gmap string f64) (e : MapEntry) : gmap string f64 :=
  <[EValue e := fadd (default fzero (c !! EValue e)) fone]> c.

Definition no_rooms : gmap string f64 :=
  {[ "open"%string := fzero; "queue"%string := fzero; "closed"%string := fzero ]}.

(** The loop sets the gauge of every state counted. *)
Definition set_rooms_gauge (counts : gmap string f64) (m : Metrics) : Metrics :=
  MkMetrics (EdgeInSync m) (CertExpiry m) (CertStatus m) (counts ∪ Rooms m).

(** [rows, err := pool.Query(...); if err == nil { for rows.Next() { if
    rows.Scan(...) == nil { ... } } }]. *)
Definition each {A B} (q : cdb -> list A) (f : B -> A -> B) (b : B) : M pg B := fun p =>
  match Query q p with
  | (inl _, p) => (inr b, p)
  | (inr rows, p) => (inr (foldl f b (scanned rows.1)), p)
  end.

(** [r.m == nil]: no metrics are exposed. *)
Definition updateMetrics (m : option Metrics) (d : Desired) : M pg (option Metrics) :=
  match m with
  | None => mret None
  | Some m =>
      m ← each q_sync set_sync m;
      m ← each q_status set_cert (reset_status m);
      mret (Some (set_rooms_gauge (foldl count_state no_rooms (DStates d)) m))
  end.

(** ** The loop *)

Section Loop.
Context {St Q : Type} `{DataplaneHTTP St, QueueHTTP Q, MapOrder, Collation}.
Context (decrypt : string -> option string) (sha256 : string -> string).
Abbreviation world := (@Reconcile.world St Q).

(** The reconciler with its metrics.  [wt_last] is in no variable of the code: it
    is what the last pass that compiled pushed, and what became of each push. *)
Record watch : Type := MkWatch { wt_world : world; wt_metrics : option Metrics; wt_last : option round }.

(** A pass: the body of [Once], and the update of the metrics it ends with. *)
Definition pass (s : watch) : watch :=
  match passed decrypt sha256 (wt_world s) with
  | (inr (Some rd), w) =>
      let '(r, p) := updateMetrics (wt_metrics s) (rd_desired rd) (w_pg w) in
      MkWatch (set_pg p w) (match r with inr m => m | inl _ => wt_metrics s end) (Some rd)
  | (_, w) => MkWatch w (wt_metrics s) (wt_last s)
  end.

(** The ticker of three seconds: a pass when the version has changed. *)
Definition poll (s : watch) : watch :=
  match in_pg (QueryRow (fun d => Some (version d))) (wt_world s) with
  | (inr v, w) => if v =? rc_lastVer (w_rec w) then MkWatch w (wt_metrics s) (wt_last s)
                  else pass (MkWatch w (wt_metrics s) (wt_last s))
  | (inl _, w) => MkWatch w (wt_metrics s) (wt_last s)
  end.

(** What the [select] of [Run] receives: from the channel of [Kick], from the
    ticker of a minute, from the ticker of three seconds. *)
Inductive event : Type := Kicked | Ticked | Polled.

Definition react (e : event) (s : watch) : watch :=
  match e with Kicked | Ticked => pass s | Polled => poll s end.

(** What the others do and which calls fail, from now on. *)
Definition meanwhile (sc : list ((cdb -> cdb) * outcome)) (s : watch) : watch :=
  MkWatch (set_pg (MkPg (tables (w_pg (wt_world s))) sc) (wt_world s)) (wt_metrics s) (wt_last s).

Fixpoint loop (l : list (event * list ((cdb -> cdb) * outcome))) (s : watch) : watch :=
  match l with
  | [] => s
  | (e, sc) :: l => loop l (react e (meanwhile sc s))
  end.

(** [Run], up to the end of its context: a pass, then the events. *)
Definition Run (first : list ((cdb -> cdb) * outcome)) (l : list (event * list ((cdb -> cdb) * outcome))) (s : watch) : watch :=
  loop l (pass (meanwhile first s)).

End Loop.

(** ** What a computation leaves, whatever the others do *)

(** The writes of the others stay within [R], a preorder, and the outcomes
    within [P]; then what [m] leaves stays within [R]. *)
Section Frames.
Context `{Collation} (R : relation cdb) `{!PreOrder R} (P : outcome -> Prop).

Definition allowed (sc : list ((cdb -> cdb) * outcome)) : Prop :=
  Forall (fun t => (forall d, R d (t.1 d)) /\ P t.2) sc.

(** No others, no failure. *)
Lemma allowed_nil : allowed [].
Proof. by apply Forall_nil. Qed.
Lemma allowed_never sc : allowed sc -> (forall o, ~ P o) -> sc = [].
Proof. intros Ha HP. destruct sc as [|t sc]; [done|]. inversion_clear Ha as [|? ? [_ Hp] _]. by destruct (HP (t.2)). Qed.

Definition frames {A} (m : M pg A) : Prop := forall p, allowed (sched p) ->
  R (tables p) (tables (m p).2) /\ allowed (sched (m p).2).

Lemma frames_turn p d o l : allowed (sched p) -> turn p = (d, o, l) ->
  R (tables p) d /\ allowed l /\ (sched p = [] /\ o = Served \/ P o).
Proof.
  unfold turn. destruct (sched p) as [|[env o'] l'] eqn:E; intros Ha [= <- <- <-]; [split_and!; [done|done|by left]|].
  inversion_clear Ha as [|? ? [He Ho] Hl]. split_and!; [apply He|done|by right].
Qed.

Lemma frames_Query {A} (q : cdb -> list A) : frames (Query q).
Proof.
  intros p Ha. unfold Query. destruct (turn p) as [[d o] l] eqn:E. by destruct (frames_turn p d o l Ha E) as (Hr & Hl & _).
Qed.
Lemma frames_QueryRow {A} (q : cdb -> option A) : frames (QueryRow q).
Proof.
  intros p Ha. unfold QueryRow. destruct (turn p) as [[d o] l] eqn:E. by destruct (frames_turn p d o l Ha E) as (Hr & Hl & _).
Qed.
Lemma frames_Exec {A} (f : cdb -> goerr + (A * cdb)) : (forall d a d', f d = inr (a, d') -> R d d') -> frames (Exec f).
Proof.
  intros Hf p Ha. unfold Exec. destruct (turn p) as [[d o] l] eqn:E. destruct (frames_turn p d o l Ha E) as (Hr & Hl & _).
  destruct (f d) as [e|[a d']] eqn:Ef; destruct o; cbn [snd tables sched]; (split; [first [done|etrans; [exact Hr|exact (Hf _ _ _ Ef)]]|done]).
Qed.
Lemma frames_Exec_ (f : cdb -> cdb) : (forall d, R d (f d)) -> frames (Exec_ f).
Proof. intros Hf. apply frames_Exec. by intros d a d' [= _ <-]. Qed.
Lemma frames_ret {A} (a : A) : frames (mret a).
Proof. by intros p Ha. Qed.
Lemma frames_fail {A} e : frames (mfail e : M pg A).
Proof. by intros p Ha. Qed.
Lemma frames_lift {A} (r : goerr + A) : frames (lift_err r).
Proof. by intros p Ha. Qed.
Lemma frames_bind {A B} (m : M pg A) (f : A -> M pg B) : frames m -> (forall a, frames (f a)) -> frames (m ≫= f).
Proof.
  intros Hm Hf p Ha. unfold mbind, M_bind. destruct (Hm p Ha) as [Hr Hl]. destruct (m p) as [[e|a] p1]; [done|].
  cbn [snd] in *. destruct (Hf a p1 Hl) as [Hr' Hl']. split; [by etrans|done].
Qed.
(** A transaction undone leaves what the others have written. *)
Lemma allowed_foldl l d : allowed l -> R d (foldl (fun d e => e.1 d) d l).
Proof. revert d. induction l as [|t l IH]; intros d Ha; [done|]. inversion_clear Ha as [|? ? [He _] Hl]. cbn [foldl]. etrans; [apply He|by apply IH]. Qed.
Lemma frames_in_tx {A} (m : M pg A) : frames m -> frames (in_tx m).
Proof.
  intros Hm p Ha. unfold in_tx. destruct (turn p) as [[d0 o0] l0] eqn:E. destruct (frames_turn p d0 o0 l0 Ha E) as (Hr & Hl & _).
  assert (Hu : forall k, R (tables p) (foldl (fun d e => e.1 d) d0 (take k l0))).
  { intros k. etrans; [exact Hr|]. apply allowed_foldl. by apply Forall_take. }
  destruct o0; [|done..]. destruct (Hm (MkPg d0 l0) Hl) as [Hr1 Hl1]. cbv zeta. destruct (m (MkPg d0 l0)) as [[e|a] p1]; [split; [apply Hu|done]|].
  cbn [tables snd] in *. destruct (turn p1) as [[d o] l] eqn:E1. destruct (frames_turn p1 d o l Hl1 E1) as (Hr2 & Hl2 & _).
  destruct o; (split; [first [apply Hu|etrans; [exact Hr|etrans; [exact Hr1|exact Hr2]]]|done]).
Qed.
Lemma frames_each {A B} (q : cdb -> list A) (f : B -> A -> B) b : frames (each q f b).
Proof. intros p Ha. pose proof (frames_Query q p Ha) as Hq. unfold each. by destruct (Query q p) as [[e|r] p1]. Qed.

(** What a pass writes: the registers. *)
Hypothesis R_edges : forall l d, R d (set_edges l d).
Hypothesis R_hosts : forall l d, R d (set_queue_hosts l d).

Lemma frames_all_rows {A} (q : cdb -> list A) : frames (all_rows q).
Proof.
  unfold all_rows. apply frames_bind; [apply frames_Query|]. intros rows. apply frames_bind; [apply frames_lift|].
  intros l. destruct (rows.2); [apply frames_fail|apply frames_ret].
Qed.
Lemma frames_Edges : frames Edges.
Proof. repeat (apply frames_bind; [first [apply frames_QueryRow|apply frames_all_rows]|intros ?]). apply frames_ret. Qed.
Lemma frames_QueueHosts : frames QueueHosts.
Proof. repeat (apply frames_bind; [first [apply frames_QueryRow|apply frames_all_rows]|intros ?]). apply frames_ret. Qed.
Lemma frames_sync_edges es : frames (sync_edges es).
Proof.
  induction es as [|e es IH]; [apply frames_ret|]. apply frames_bind; [apply frames_Exec_; intros; apply R_edges|by intros _].
Qed.
Lemma frames_Sync : frames Sync.
Proof.
  apply frames_bind; [apply frames_QueryRow|]. intros n. case_bool_decide; [apply frames_fail|].
  apply frames_bind; [apply frames_Edges|]. intros es. apply frames_bind; [apply frames_sync_edges|]. intros _.
  apply frames_bind; [apply frames_Exec_; intros; apply R_edges|]. intros _.
  apply frames_bind; [apply frames_QueryRow|]. intros port.
  apply frames_bind; [apply frames_Exec_; intros; apply R_hosts|]. intros _. apply frames_Exec_. intros. apply R_hosts.
Qed.
Lemma frames_updateMetrics m d : frames (updateMetrics m d).
Proof.
  destruct m as [m|]; [|apply frames_ret]. repeat (apply frames_bind; [apply frames_each|intros ?]). apply frames_ret.
Qed.

Section Build.
Context (decrypt : string -> option string) (sha256 : string -> string).
Lemma frames_build_backends bks : frames (build_backends bks).
Proof.
  induction bks as [|b bks IH]; [apply frames_ret|]. apply frames_bind; [apply frames_Query|]. intros rows.
  apply frames_bind; [apply frames_lift|]. intros l. apply frames_bind; [apply IH|]. intros rest. apply frames_ret.
Qed.
Lemma frames_Build : frames (Build decrypt sha256).
Proof.
  repeat (apply frames_bind; [first [apply frames_Query|apply frames_lift|apply frames_build_backends]|intros ?]).
  destruct (pass_keys _). apply frames_ret.
Qed.
End Build.

(** The same over the world of the reconciler. *)
Section World.
Context {St Q : Type} `{DataplaneHTTP St, QueueHTTP Q, MapOrder}.
Context (decrypt : string -> option string) (sha256 : string -> string).
Abbreviation world := (@Reconcile.world St Q).

Definition carries {A} (m : M world A) : Prop := forall w, allowed (sched (w_pg w)) ->
  R (tables (w_pg w)) (tables (w_pg (m w).2)) /\ allowed (sched (w_pg (m w).2)).

Lemma carries_in_pg {A} (m : M pg A) : frames m -> carries (in_pg m).
Proof. intros Hm w Ha. specialize (Hm (w_pg w) Ha). unfold in_pg, zoom. by destruct (m (w_pg w)). Qed.
Lemma carries_bind {A B} (m : M world A) (f : A -> M world B) : carries m -> (forall a, carries (f a)) -> carries (m ≫= f).
Proof.
  intros Hm Hf p Ha. unfold mbind, M_bind. destruct (Hm p Ha) as [Hr Hl]. destruct (m p) as [[e|a] p1]; [done|].
  cbn [snd] in *. destruct (Hf a p1 Hl) as [Hr' Hl']. split; [by etrans|done].
Qed.
Lemma carries_exec f : (forall d, R d (f d)) -> carries (exec_quietly f).
Proof. intros Hf w Ha. exact (carries_in_pg _ (frames_Exec_ f Hf) w Ha). Qed.

(** A computation whose first steps do not touch the database. *)
Lemma carries_from {A} (m : M world A) (w w1 : world) : w_pg w1 = w_pg w -> carries m -> allowed (sched (w_pg w)) ->
  R (tables (w_pg w)) (tables (w_pg (m w1).2)) /\ allowed (sched (w_pg (m w1).2)).
Proof. intros E Hm. rewrite <- E. apply Hm. Qed.

Lemma carries_reloadTopology : carries reloadTopology.
Proof.
  intros w Ha. unfold reloadTopology. pose proof (carries_in_pg Sync frames_Sync w Ha) as [Hr1 Ha1].
  destruct (in_pg Sync w) as [r w1]. cbn [snd] in *. pose proof (carries_in_pg Edges frames_Edges w1 Ha1) as [Hr2 Ha2].
  destruct (in_pg Edges w1) as [[e|es] w2]; cbn [snd] in *.
  - destruct r as [[]|[]]; (split; [first [done|exact Hr1|etrans; [exact Hr1|exact Hr2]]|done]).
  - pose proof (carries_from (in_pg QueueHosts) w2 (set_rec (with_edges es (w_rec w2)) w2) eq_refl
                  (carries_in_pg _ frames_QueueHosts) Ha2) as [Hr3 Ha3].
    cbv zeta. destruct (in_pg QueueHosts _) as [[e|hs] w4]; cbn [snd] in *;
      destruct r as [[]|[]]; (split; [first [done|exact Hr1|etrans; [exact Hr1|etrans; [exact Hr2|exact Hr3]]]|done]).
Qed.

Lemma carries_push_queues l : carries (push_queues l).
Proof.
  induction l as [|[id cfg] l IH]; [by intros w Ha|]. apply carries_bind; [|by intros _].
  intros w Ha. destruct (PutRoom _ id cfg (w_queues w)) as [[e|x] q];
    (apply (carries_from _ w (set_queues q w)); [done| |done]; apply carries_exec; intros d; apply R_hosts).
Qed.

Lemma carries_push_all es d : carries (push_all es d).
Proof.
  induction es as [|e es IH]; [by intros w Ha|]. apply carries_bind.
  - intros w Ha. unfold push_one. destruct (pushEdge _ _ _ _) as [res [pushed lbs]]. cbn [snd].
    match goal with |- context [exec_quietly ?f ?w1] => apply (carries_from (exec_quietly f) w w1); [done| |done] end.
    apply carries_exec. intros d'. apply R_edges.
  - intros er. apply carries_bind; [done|]. intros rest. by intros w Ha.
Qed.

Lemma push_all_ver es d (w : world) : exists log w1, push_all es d w = (inr log, w1) /\ rc_lastVer (w_rec w1) = rc_lastVer (w_rec w) /\
  rc_edges (w_rec w1) = rc_edges (w_rec w).
Proof.
  revert w. induction es as [|e es IH]; intros w; [by exists [], w|]. cbn [push_all]. unfold mbind, M_bind, push_one, exec_quietly.
  destruct (pushEdge _ _ _ _) as [res [pushed lbs]]. match goal with |- context [push_all es d ?w1] => destruct (IH w1) as (log & w2 & -> & E & E') end.
  eexists _, w2. split; [done|]. rewrite E, E'. unfold in_pg, zoom. by destruct (Exec_ _ _).
Qed.

Lemma push_queues_ver l (w : world) : exists w1, push_queues l w = (inr tt, w1) /\ w_rec w1 = w_rec w.
Proof.
  revert w. induction l as [|[id cfg] l IH]; intros w; [by exists w|]. cbn [push_queues]. unfold mbind, M_bind, exec_quietly.
  destruct (PutRoom _ id cfg (w_queues w)) as [[e|x] q];
    (match goal with |- context [push_queues l ?w1] => destruct (IH w1) as (w2 & -> & E) end; exists w2; split; [done|];
     rewrite E; unfold in_pg, zoom; by destruct (Exec_ _ _)).
Qed.

Lemma reloadTopology_ver (w : world) : rc_lastVer (w_rec (reloadTopology w).2) = rc_lastVer (w_rec w).
Proof. unfold reloadTopology, in_pg, zoom. repeat (case_match; simplify_eq/=); done. Qed.

(** The stages of a pass, as the database goes: the topology, the version, the
    compilation, what is pushed. *)
Definition at_version (w : world) : (goerr + Z) * pg := QueryRow (fun d => Some (version d)) (w_pg (reloadTopology w).2).
Definition at_build (w : world) : (goerr + Desired) * pg := Build decrypt sha256 (at_version w).2.

Lemma Once_passed force (w : world) : (Once decrypt sha256 force w).2 = (passed decrypt sha256 w).2.
Proof. unfold Once, mbind, M_bind. by destruct (passed _ _ w) as [[e|rd] w1]. Qed.

Lemma passed_stages (w : world) : allowed (sched (w_pg w)) ->
  let w' := (passed decrypt sha256 w).2 in
  R (tables (w_pg w)) (tables (at_version w).2) /\ allowed (sched (at_version w).2) /\
  R (tables (at_version w).2) (tables (at_build w).2) /\ R (tables (at_build w).2) (tables (w_pg w')) /\
  allowed (sched (w_pg w')) /\
  match (at_build w).1 with
  | inl _ => (passed decrypt sha256 w).1 = inr None /\ rc_lastVer (w_rec w') = rc_lastVer (w_rec w)
  | inr d => (exists rd, (passed decrypt sha256 w).1 = inr (Some rd) /\ rd_desired rd = d /\ rd_edges rd = rc_edges (w_rec w')) /\
             rc_lastVer (w_rec w') = match (at_version w).1 with inr v => v | inl _ => 0 end
  end.
Proof.
  intros Ha w'. destruct (carries_reloadTopology w Ha) as [Hr1 Ha1].
  pose proof (frames_QueryRow (fun d => Some (version d)) _ Ha1) as [Hr2 Ha2]. fold (at_version w) in Hr2, Ha2.
  pose proof (frames_Build decrypt sha256 _ Ha2) as [Hr3 Ha3]. fold (at_build w) in Hr3, Ha3.
  split; [by etrans|]. split; [done|]. split; [done|].
  subst w'. unfold passed, in_pg, zoom. cbv zeta. unfold at_build, at_version in *.
  pose proof (reloadTopology_ver w) as Hv.
  destruct (QueryRow _ _) as [v p2]. cbn [fst snd] in *. cbn [w_pg set_pg]. destruct (Build decrypt sha256 p2) as [[e|d] p3]; cbn [fst snd] in *.
  - by split_and!.
  - unfold push_edges, mbind, M_bind.
    match goal with |- context [push_queues ?l ?w2] =>
      pose proof (carries_push_queues l w2 Ha3) as [Hr4 Ha4]; destruct (push_queues_ver l w2) as (w4 & E4 & Er4) end.
    rewrite E4 in *. cbn [snd] in *.
    pose proof (carries_push_all (rc_edges (w_rec w4)) d w4 Ha4) as [Hr5 Ha5].
    destruct (push_all_ver (rc_edges (w_rec w4)) d w4) as (log & w5 & E5 & Er5 & Ee5). rewrite E5 in *. cbn [fst snd] in *.
    split_and!; [by etrans|done| |done]. eexists. split; [reflexivity|]. by split.
Qed.

Lemma Once_stages force (w : world) : allowed (sched (w_pg w)) ->
  R (tables (w_pg w)) (tables (w_pg (Once decrypt sha256 force w).2)) /\ allowed (sched (w_pg (Once decrypt sha256 force w).2)).
Proof.
  intros Ha. rewrite Once_passed. destruct (passed_stages w Ha) as (T1 & _ & T2 & T3 & Hl & _). split; [|done]. by etrans; [|etrans].
Qed.

End World.
End Frames.

(** ** What the compilation reads *)

Section Reads.
Context `{Collation}.

(** The two databases give the same rows to the queries of [Build]. *)
Definition alike (d d' : cdb) : Prop :=
  q_backends d' = q_backends d /\ (forall i, q_servers i d' = q_servers i d) /\ q_rooms d' = q_rooms d /\
  q_certs d' = q_certs d /\ q_keys d' = q_keys d.

#[export] Instance alike_equiv : Equivalence alike.
Proof.
  split; [by intros d|intros d d' Ha|intros d1 d2 d3 H12 H23]; unfold alike in *; destruct_and!; split_and!; intros; try done; etrans; eauto.
Qed.

(** A write after which the version is the same leaves what [Build] reads; the
    version never goes back. *)
Definition tracked (d d' : cdb) : Prop := version d <= version d' /\ (version d' = version d -> alike d d').

#[export] Instance tracked_preorder : PreOrder tracked.
Proof.
  split; [intros d; by split; [lia|]|]. intros d1 d2 d3 [H12 A12] [H23 A23]. split; [lia|]. intros E.
  etrans; [apply A12|apply A23]; lia.
Qed.

Lemma tracked_edges l d : tracked d (set_edges l d).
Proof. split; [done|]. by intros _. Qed.
Lemma tracked_hosts l d : tracked d (set_queue_hosts l d).
Proof. split; [done|]. by intros _. Qed.

Context (decrypt : string -> option string) (sha256 : string -> string).

Lemma specs_alike d d' bks : alike d d' -> map (spec_of d') bks = map (spec_of d) bks.
Proof. intros (_ & Hs & _). apply map_ext. intros b. unfold spec_of. by rewrite Hs. Qed.

#[export] Instance desired_of_proper : Proper (alike ==> eq) (desired_of decrypt sha256).
Proof.
  intros d d' Ha. unfold desired_of. rewrite (specs_alike d d') by done. by destruct Ha as (-> & _ & -> & -> & ->).
Qed.

(** An answer that is given is given whole. *)
Definition unbroken (o : outcome) : Prop := match o with Cut _ _ | BadRow _ _ => False | _ => True end.
Abbreviation orderly := (allowed tracked unbroken).

Lemma Query_whole {A} (q : cdb -> list A) p r p1 : orderly (sched p) -> Query q p = (inr r, p1) ->
  r = (inr <$> q (tables p1), None) /\ tracked (tables p) (tables p1) /\ orderly (sched p1).
Proof.
  intros Ha. unfold Query. destruct (turn p) as [[d o] l] eqn:E.
  destruct (frames_turn tracked unbroken p d o l Ha E) as (Hr & Hl & Ho).
  assert (Hu : unbroken o) by (destruct Ho as [[_ ->]|Ho]; done). by destruct o; intros [= <- <-].
Qed.

Lemma build_backends_steady bks p specs p1 : orderly (sched p) -> build_backends bks p = (inr specs, p1) ->
  version (tables p1) = version (tables p) -> specs = map (spec_of (tables p1)) bks.
Proof.
  revert p specs. induction bks as [|b bks IH]; intros p specs Ha Hb Hv; cbn [build_backends] in Hb; M_inv; [done|].
  destruct (Query_whole _ _ _ _ Ha Hm) as (-> & [Hle1 Hr1] & Ha1). cbn [fst] in *. rewrite scan_all_inr in *. simplify_eq.
  pose proof (frames_build_backends tracked unbroken bks _ Ha1) as [[Hle2 Hr2] _]. rewrite Hm1 in *. cbn [snd] in *.
  cbn [map]. f_equal; [|eapply IH; [done..|lia]]. unfold spec_of. f_equal. f_equal.
  destruct Hr2 as (_ & Hs & _); [lia|]. by rewrite Hs.
Qed.

(** A compilation during which the version does not move is that of the database
    it leaves. *)
Lemma Build_steady p d p1 : orderly (sched p) -> Build decrypt sha256 p = (inr d, p1) ->
  version (tables p1) = version (tables p) -> d = desired_of decrypt sha256 (tables p1).
Proof.
  intros Ha Hb Hv. unfold Build in Hb. M_inv.
  apply Query_whole in Hm as (-> & T1 & Ha1); [|done].
  pose proof (frames_build_backends tracked unbroken a0 _ Ha1) as [T2 Ha2]. rewrite Hm1 in T2, Ha2. cbn [snd] in T2, Ha2.
  apply Query_whole in Hm2 as (-> & T3 & Ha3); [|done]. apply Query_whole in Hm4 as (-> & T4 & Ha4); [|done].
  apply Query_whole in Hm6 as (-> & T5 & Ha5); [|done].
  cbn [fst] in *. rewrite scanned_inr in Hb.
  repeat match goal with Hs : scan_all (inr <$> _) = inr _ |- _ => rewrite scan_all_inr in Hs; injection Hs as <- end.
  assert (E : p1 = s6 /\ version (tables s6) = version (tables p)) by (destruct (pass_keys _); by injection Hb as <- <-).
  destruct E as [-> Hv6]. destruct T1 as [V1 A1], T2 as [V2 A2], T3 as [V3 A3], T4 as [V4 A4], T5 as [V5 A5].
  pose proof (A5 ltac:(lia)) as E5. assert (E4 : alike (tables s3) (tables s6)) by (etrans; [apply A4; lia|done]).
  assert (E3 : alike (tables s1) (tables s6)) by (etrans; [apply A3; lia|done]).
  assert (E2 : alike (tables s0) (tables s6)) by (etrans; [apply A2; lia|done]).
  apply build_backends_steady in Hm1; [|done|lia]. subst a1. rewrite <- (specs_alike _ _ _ E3) in Hb. unfold desired_of.
  destruct E2 as (-> & _), E4 as (_ & _ & -> & _), E5 as (_ & _ & _ & -> & _). destruct (pass_keys _). by injection Hb as <-.
Qed.
End Reads.

(** ** The theorem *)

Section Fresh.
Context {St Q : Type} `{DataplaneHTTP St, QueueHTTP Q, MapOrder, Collation}.
Context (decrypt : string -> option string) (sha256 : string -> string).
Abbreviation world := (@Reconcile.world St Q).
Abbreviation watch := (@watch St Q).
Abbreviation orderly := (allowed tracked unbroken).
Abbreviation desired_of := (desired_of decrypt sha256).
Abbreviation pass := (pass decrypt sha256).
Abbreviation poll := (poll decrypt sha256).

Definition seen (s : watch) : cdb := tables (w_pg (wt_world s)).
Definition lastVer (s : watch) : Z := rc_lastVer (w_rec (wt_world s)).
Definition waiting (s : watch) : list ((cdb -> cdb) * outcome) := sched (w_pg (wt_world s)).

(** The version kept is not ahead; when it is the one of the database, what was
    last pushed is its desired state. *)
Definition abreast (s : watch) : Prop :=
  1 <= version (seen s) /\ lastVer s <= version (seen s) /\
  (version (seen s) = lastVer s -> rd_desired <$> wt_last s = Some (desired_of (seen s))).

(** What the others do leaves what was read alone, unless it is noticed. *)
Lemma abreast_moved s s1 : tracked (seen s) (seen s1) -> lastVer s1 = lastVer s -> wt_last s1 = wt_last s ->
  abreast s -> abreast s1.
Proof.
  intros [Hv Ha] El Ew (Hp & Hl & Hw). split_and!; [lia|lia|]. intros E. rewrite Ew, Hw by lia.
  f_equal. rewrite Ha by lia. done.
Qed.

(** The version a pass keeps, when it is the version it leaves. *)
Lemma pass_inv s : orderly (waiting s) ->
  tracked (seen s) (seen (pass s)) /\ orderly (waiting (pass s)) /\
  ((lastVer (pass s) = lastVer s /\ wt_last (pass s) = wt_last s) \/
   (lastVer (pass s) = 0 \/ lastVer (pass s) <= version (seen (pass s)) /\
      (version (seen (pass s)) = lastVer (pass s) -> rd_desired <$> wt_last (pass s) = Some (desired_of (seen (pass s)))))).
Proof.
  intros Ha. destruct s as [w m last]. unfold seen, waiting, lastVer in *. cbn [wt_world] in Ha. cbn [wt_world wt_last].
  destruct (passed_stages tracked unbroken tracked_edges tracked_hosts decrypt sha256 w Ha) as (T1 & Ha1 & T2 & T3 & Ha3 & Hb).
  unfold Watch.pass. cbn [wt_world wt_metrics wt_last]. destruct (passed decrypt sha256 w) as [x w1].
  destruct (at_build decrypt sha256 w) as [[e|d] pb] eqn:Eb; cbn [fst snd] in *.
  - destruct Hb as [-> Hl]. cbn [wt_world wt_last]. split_and!; [by etrans; [|etrans]|done|by left].
  - destruct Hb as [(rd & -> & Hd & _) Hl]. pose proof (frames_updateMetrics tracked unbroken m (rd_desired rd) _ Ha3) as [T4 Ha4].
    destruct (updateMetrics m (rd_desired rd) (w_pg w1)) as [r p]. cbn [snd] in *. cbn [wt_world wt_last set_pg w_pg w_rec].
    assert (T34 : tracked (tables pb) (tables p)) by (by etrans).
    split_and!; [by etrans; [|etrans]|done|right]. rewrite Hl. unfold at_build in Eb. unfold at_version, QueryRow in *.
    destruct (turn _) as [[d0 o] l0]. cbn [fst snd tables] in *. destruct o; [right|by left..].
    split; [destruct T2, T34; lia|]. intros E. f_equal.
    assert (Hvb : version (tables pb) = version d0) by (destruct T2, T34; lia).
    cbn [fmap option_fmap option_map]. rewrite Hd, (Build_steady decrypt sha256 _ _ _ Ha1 Eb Hvb). destruct T34 as [_ A]. by rewrite A by lia.
Qed.

Lemma pass_abreast s : orderly (waiting s) -> abreast s -> abreast (pass s) /\ orderly (waiting (pass s)).
Proof.
  intros Ha Hs. destruct (pass_inv s Ha) as (T & Hw & Hc). split; [|done]. destruct Hc as [[El Ew]|Hc]; [by eapply abreast_moved|].
  destruct Hs as (Hp & _ & _), T as [Hv _]. destruct Hc as [El|[Hl Hc]]; (split_and!; [lia|lia|]); [lia|done].
Qed.

Lemma poll_abreast s : orderly (waiting s) -> abreast s -> abreast (poll s) /\ orderly (waiting (poll s)).
Proof.
  intros Ha Hs. unfold Watch.poll, in_pg, zoom.
  pose proof (frames_QueryRow tracked unbroken (fun d => Some (version d)) _ Ha) as [T Ha1].
  destruct (QueryRow _ _) as [[e|v] p]; cbn [snd] in *.
  - split; [|done]. by eapply abreast_moved.
  - cbn [set_pg w_rec]. case_match; [split; [by eapply abreast_moved|done]|]. apply pass_abreast; [done|]. by eapply abreast_moved.
Qed.

Lemma loop_abreast l s : Forall (fun x => orderly x.2) l -> abreast s -> abreast (loop decrypt sha256 l s).
Proof.
  revert s. induction l as [|[e sc] l IH]; intros s Hl Hs; [done|]. inversion_clear Hl as [|? ? He Hl'].
  cbn [loop]. apply IH; [done|]. destruct e; [apply pass_abreast|apply pass_abreast|apply poll_abreast]; done.
Qed.

(** A pass nobody disturbs compiles. *)
Definition still (d d' : cdb) : Prop := version d' = version d /\ alike d d'.
#[local] Instance still_preorder : PreOrder still.
Proof.
  split; [intros d; by split|]. intros d1 d2 d3 [E12 A12] [E23 A23]. split; [lia|by etrans].
Qed.

Lemma still_edges l d : still d (set_edges l d).
Proof. by split_and!. Qed.
Lemma still_hosts l d : still d (set_queue_hosts l d).
Proof. by split_and!. Qed.

Lemma pass_quiet s : waiting s = [] ->
  still (seen s) (seen (pass s)) /\ waiting (pass s) = [] /\ lastVer (pass s) = version (seen (pass s)) /\
  rd_desired <$> wt_last (pass s) = Some (desired_of (seen (pass s))) /\
  rd_edges <$> wt_last (pass s) = Some (rc_edges (w_rec (wt_world (pass s)))).
Proof.
  intros Hq. destruct s as [w m last]. unfold seen, waiting, lastVer in *. cbn [wt_world] in Hq. cbn [wt_world wt_last].
  assert (Ha : allowed still (fun _ => False) (sched (w_pg w))) by (rewrite Hq; apply allowed_nil).
  assert (Hnil : forall sc, allowed still (fun _ => False) sc -> sc = []) by (intros sc Hsc; exact (allowed_never _ _ _ Hsc (fun _ x => x))).
  destruct (passed_stages still (fun _ => False) still_edges still_hosts
              decrypt sha256 w Ha) as (T1 & Ha1 & T2 & T3 & Ha3 & Hb).
  apply Hnil in Ha1. unfold Watch.pass. cbn [wt_world wt_metrics wt_last].
  destruct (passed decrypt sha256 w) as [x w1].
  unfold at_build in *. rewrite Build_quiet in Hb, T3 by done. cbn [fst snd] in *. destruct Hb as [(rd & -> & Hd & He) Hl].
  pose proof (frames_updateMetrics still (fun _ => False) m (rd_desired rd) _ Ha3) as [T4 Ha4].
  destruct (updateMetrics m _ _) as [r p]. cbn [snd] in *. cbn [wt_world wt_last set_pg w_pg w_rec].
  assert (T34 : still (tables (at_version w).2) (tables p)) by (by etrans).
  split_and!; [by etrans|by apply Hnil| |cbn [fmap option_fmap option_map]; rewrite Hd; f_equal; destruct T34 as [_ A]; by rewrite A|cbn; by rewrite He].
  rewrite Hl. destruct T34 as [-> _]. destruct (carries_reloadTopology still (fun _ => False) still_edges still_hosts w Ha) as [_ Hq1%Hnil].
  unfold at_version. by rewrite (QueryRow_quiet _ _ (version (tables (w_pg (reloadTopology w).2)))).
Qed.

Lemma meanwhile_quiet s : waiting s = [] -> meanwhile [] s = s.
Proof. destruct s as [[r [d l] lb q] m last]. unfold waiting, meanwhile. simpl. by intros ->. Qed.

Lemma Run_abreast first l s :
  1 <= version (seen s) -> lastVer s = 0 -> orderly first -> Forall (fun x => orderly x.2) l ->
  let s1 := Run decrypt sha256 first l s in
  let s2 := poll (meanwhile [] s1) in
  (version (seen s1) = lastVer s1 -> rd_desired <$> wt_last s1 = Some (desired_of (seen s1))) /\
  alike (seen s1) (seen s2) /\ rd_desired <$> wt_last s2 = Some (desired_of (seen s2)) /\
  (version (seen s1) <> lastVer s1 -> rd_edges <$> wt_last s2 = Some (rc_edges (w_rec (wt_world s2)))) /\
  poll (meanwhile [] s2) = s2.
Proof.
  intros Hv Hl Hf Hall s1 s2.
  assert (Hs1 : abreast s1).
  { apply loop_abreast; [done|]. apply pass_abreast; [done|]. split_and!; [done|..]; change (lastVer (meanwhile first s)) with (lastVer s); intros; lia || change (seen (meanwhile first s)) with (seen s) in *; lia. }
  assert (Hpoll : forall s3, waiting s3 = [] -> poll s3 = if version (seen s3) =? lastVer s3 then s3 else pass s3).
  { intros [w m last] Hq. unfold Watch.poll, in_pg, zoom, seen, lastVer in *. cbn [wt_world] in *.
    rewrite (QueryRow_quiet _ _ (version (tables (w_pg w)))) by done. cbn [wt_metrics wt_last]. by destruct w. }
  destruct Hs1 as (Hp & Hle & Hc). split; [done|]. subst s2. rewrite Hpoll by done.
  change (seen (meanwhile [] s1)) with (seen s1). change (lastVer (meanwhile [] s1)) with (lastVer s1).
  destruct (Z.eqb_spec (version (seen s1)) (lastVer s1)) as [E|E].
  - split_and!; [done|by apply Hc|done|]. rewrite Hpoll by done.
    change (seen (meanwhile [] (meanwhile [] s1))) with (seen s1). change (lastVer (meanwhile [] (meanwhile [] s1))) with (lastVer s1).
    by rewrite (proj2 (Z.eqb_eq _ _) E).
  - destruct (pass_quiet (meanwhile [] s1) eq_refl) as ([_ A] & Hw & Hlast & Hd & He). split_and!; [done|done|done|].
    rewrite meanwhile_quiet by done. rewrite Hpoll by done. by rewrite (proj2 (Z.eqb_eq _ _) (eq_sym Hlast)).
Qed.

End Fresh.

(** ** What is on the load balancers *)

Section Pushed.
Context {St Q : Type} {Hx : DataplaneHTTP St} {Hview : Haproxy St} {HL : HaproxyLaws St} {HQ : QueueHTTP Q}.
Context {HM : MapOrder} {HO : Collation} (decrypt : string -> option string) (sha256 : string -> string).
Abbreviation world := (@Reconcile.world St Q).
Abbreviation watch := (@watch St Q).

(** There is a push for each load balancer the reconciler had; those whose push
    gave no error hold the entries of the state pushed in their three maps. *)
Definition delivered (rd : round) (s : St) : Prop :=
  (rd_log rd).*1 = rd_edges rd /\
  (NoDup (addr <$> rd_edges rd) -> forall e, (e, None) ∈ rd_log rd -> mapped (rd_desired rd) (view (addr e) s)).

Lemma push_one_log e d (w : world) : exists er w', push_one e d w = (inr er, w') /\
  (forall b, b <> addr e -> view b (w_lbs w') = view b (w_lbs w)) /\ (er = None -> mapped d (view (addr e) (w_lbs w'))).
Proof.
  unfold push_one. set (c := Dataplane.New _ _ _). set (s := (default ∅ _, w_lbs w)).
  pose proof (framed_pushEdge c (rc_waitHost (w_rec w)) d s) as Hf. pose proof (pushEdge_maps c (rc_waitHost (w_rec w)) d s.1) as Hm.
  destruct (pushEdge c (rc_waitHost (w_rec w)) d s) as [res [pu lbs]] eqn:Hp. eexists _, _. split; [reflexivity|].
  unfold exec_quietly, in_pg, zoom. destruct (Exec_ _ _) as [r p]. cbn [snd set_pg set_lbs w_lbs]. split; [exact Hf|].
  destruct res as [er|[]]; [done|]. intros _. exact (Hm pu s.2 lbs Hp).
Qed.

Lemma push_all_log es d : forall w : world, exists log w', push_all es d w = (inr log, w') /\ log.*1 = es /\
  (forall b, b ∉ addr <$> es -> view b (w_lbs w') = view b (w_lbs w)) /\
  (NoDup (addr <$> es) -> forall e, (e, None) ∈ log -> mapped d (view (addr e) (w_lbs w'))).
Proof.
  induction es as [|e es IH]; intros w; [exists [], w; split_and!; [done..|by intros _ e ?%not_elem_of_nil]|].
  destruct (push_one_log e d w) as (er & w1 & E1 & Hf1 & Hm1). destruct (IH w1) as (log & w2 & E2 & Hl & Hf2 & Hm2).
  exists ((e, er) :: log), w2. cbn [push_all]. unfold mbind, M_bind. rewrite E1, E2. rewrite !fmap_cons. split_and!; [done|by rewrite Hl| |].
  - intros b Hb. apply not_elem_of_cons in Hb as [Hb Hbs]. rewrite Hf2, Hf1; done.
  - intros [Hn Hnd]%NoDup_cons e' [[= -> <-]|He]%elem_of_cons; [rewrite Hf2 by done; by apply Hm1|by apply Hm2].
Qed.

Lemma push_queues_lbs l : forall w : world, exists w1, push_queues l w = (inr tt, w1) /\ w_lbs w1 = w_lbs w.
Proof.
  induction l as [|[id cfg] l IH]; intros w; [by exists w|]. cbn [push_queues]. unfold mbind, M_bind, exec_quietly.
  destruct (PutRoom _ id cfg (w_queues w)) as [[e|x] q];
    (match goal with |- context [push_queues l ?w1] => destruct (IH w1) as (w2 & -> & E) end; exists w2; split; [done|];
     rewrite E; unfold in_pg, zoom; by destruct (Exec_ _ _)).
Qed.

Lemma reloadTopology_lbs (w : world) : w_lbs (reloadTopology w).2 = w_lbs w.
Proof. unfold reloadTopology, in_pg, zoom. repeat (case_match; simplify_eq/=); done. Qed.

Lemma passed_lbs (w : world) :
  match (passed decrypt sha256 w).1 with
  | inr (Some rd) => delivered rd (w_lbs (passed decrypt sha256 w).2)
  | _ => w_lbs (passed decrypt sha256 w).2 = w_lbs w
  end.
Proof.
  unfold passed, in_pg, zoom. pose proof (reloadTopology_lbs w) as Ht. destruct (QueryRow _ _) as [v p].
  destruct (Build _ _ _) as [[e|d] p']; [exact Ht|]. unfold push_edges, mbind, M_bind.
  match goal with |- context [push_queues ?l ?w2] => destruct (push_queues_lbs l w2) as (w3 & -> & E3) end.
  destruct (push_all_log (rc_edges (w_rec w3)) d w3) as (log & w4 & -> & Hl & _ & Hm). by split.
Qed.

Lemma updateMetrics_lbs (s : watch) : w_lbs (wt_world (pass decrypt sha256 s)) = w_lbs (passed decrypt sha256 (wt_world s)).2 /\
  wt_last (pass decrypt sha256 s) = match (passed decrypt sha256 (wt_world s)).1 with inr (Some rd) => Some rd | _ => wt_last s end.
Proof.
  unfold pass. destruct (passed _ _ _) as [[e|[rd|]] w]; [done| |done]. by destruct (updateMetrics _ _ _) as [r p].
Qed.

Definition all_delivered (s : watch) : Prop := forall rd, wt_last s = Some rd -> delivered rd (w_lbs (wt_world s)).

Lemma pass_delivered s : all_delivered s -> all_delivered (pass decrypt sha256 s).
Proof.
  intros Hs rd. destruct (updateMetrics_lbs s) as [-> ->]. pose proof (passed_lbs (wt_world s)) as Hp.
  destruct (passed _ _ _) as [[e|[rd'|]] w]; cbn [fst snd] in *; [rewrite Hp; apply Hs|by intros [= <-]|rewrite Hp; apply Hs].
Qed.
Lemma meanwhile_delivered sc s : all_delivered s -> all_delivered (meanwhile sc s).
Proof. exact id. Qed.
Lemma poll_delivered s : all_delivered s -> all_delivered (poll decrypt sha256 s).
Proof.
  intros Hs. unfold poll, in_pg, zoom. destruct (QueryRow _ _) as [[e|v] p]; [exact Hs|]. case_match; [exact Hs|]. by apply pass_delivered.
Qed.
Lemma loop_delivered l s : all_delivered s -> all_delivered (loop decrypt sha256 l s).
Proof.
  revert s. induction l as [|[e sc] l IH]; intros s Hs; [done|]. cbn [loop]. apply IH.
  destruct e; [apply pass_delivered|apply pass_delivered|apply poll_delivered]; done.
Qed.
Lemma Run_delivered first l s : wt_last s = None -> all_delivered (Run decrypt sha256 first l s).
Proof. intros Hs. apply loop_delivered, pass_delivered, meanwhile_delivered. intros rd. by rewrite Hs. Qed.

(** What was last pushed is the desired state of the database, a push for each
    load balancer, and those that took it hold its entries. *)
Definition current (s : watch) : Prop := exists rd, wt_last s = Some rd /\
  rd_desired rd = desired_of decrypt sha256 (seen s) /\ delivered rd (w_lbs (wt_world s)).

Lemma current_intro s : all_delivered s -> rd_desired <$> wt_last s = Some (desired_of decrypt sha256 (seen s)) -> current s.
Proof. intros Hs. destruct (wt_last s) as [rd|] eqn:E; [|done]. intros [= Hd]. exists rd. split_and!; [done|done|by apply Hs]. Qed.

Lemma Run_current first l s :
  1 <= version (seen s) -> lastVer s = 0 -> wt_last s = None -> allowed tracked unbroken first ->
  Forall (fun x => allowed tracked unbroken x.2) l ->
  let s1 := Run decrypt sha256 first l s in
  let s2 := poll decrypt sha256 (meanwhile [] s1) in
  (version (seen s1) = lastVer s1 -> current s1) /\
  alike (seen s1) (seen s2) /\ current s2 /\
  (version (seen s1) <> lastVer s1 -> rd_edges <$> wt_last s2 = Some (rc_edges (w_rec (wt_world s2)))) /\
  poll decrypt sha256 (meanwhile [] s2) = s2.
Proof.
  intros Hv Hl Hn Hf Hall s1 s2. pose proof (Run_delivered first l s Hn) as Hd.
  destruct (Run_abreast decrypt sha256 first l s Hv Hl Hf Hall) as (H1 & H2 & H3 & H4 & H5).
  split_and!; [|done| |done|done].
  - intros E. apply current_intro; [done|by apply H1].
  - apply current_intro; [|done]. by apply poll_delivered, meanwhile_delivered.
Qed.

(** Claim C8: the loop of the reconciler misses no change that increments the
    version.  Whatever the events it receives, whatever the calls of the database
    that are refused or lost, and whenever the others write, during a pass or
    between two: when the poll finds the version it kept, the state last pushed is
    the desired state of the database; and one poll that nobody disturbs ends
    there, and the next ones push nothing more.  Pushed means that there was a push
    for each load balancer the reconciler had, and that those it gave no error for
    hold the desired entries in their three maps; the version is kept whatever the
    pushes give, so a load balancer whose push failed waits for the next pass, at
    most a minute.  Two things are left out: a write that changes what the
    compilation reads and not the version ([rotation_missed]), and an answer of the
    database that is cut off midway, which counts as complete (with it the state
    pushed is cut short and its version is kept all the same). *)
Theorem Run_misses_nothing first l s :
  1 <= version (seen s) -> lastVer s = 0 -> wt_last s = None -> allowed tracked unbroken first ->
  Forall (fun x => allowed tracked unbroken x.2) l ->
  let s1 := Run decrypt sha256 first l s in
  let s2 := poll decrypt sha256 (meanwhile [] s1) in
  (version (seen s1) = lastVer s1 -> current s1) /\
  alike (seen s1) (seen s2) /\ current s2 /\
  (version (seen s1) <> lastVer s1 -> rd_edges <$> wt_last s2 = Some (rc_edges (w_rec (wt_world s2)))) /\
  poll decrypt sha256 (meanwhile [] s2) = s2.
Proof. exact (Run_current first l s). Qed.

End Pushed.

(** ** What the gauges say *)

Lemma each_quiet {A B} (q : cdb -> list A) (f : B -> A -> B) b p : quiet p -> each q f b p = (inr (foldl f b (q (tables p))), p).
Proof. intros Hq. unfold each. rewrite Query_quiet by done. cbn [fst]. by rewrite scanned_inr. Qed.

(** The metrics after a pass nobody disturbs. *)
Definition exposed (d : Desired) (t : cdb) (m : Metrics) : Metrics :=
  set_rooms_gauge (foldl count_state no_rooms (DStates d)) (foldl set_cert (reset_status (foldl set_sync m (q_sync t))) (q_status t)).

Lemma updateMetrics_quiet m d p : quiet p -> updateMetrics (Some m) d p = (inr (Some (exposed d (tables p) m)), p).
Proof.
  intros Hq. unfold updateMetrics. erewrite M_bind_ok by (by apply each_quiet). by erewrite M_bind_ok by (by apply each_quiet).
Qed.

Lemma foldl_set_sync (l : list (string * bool)) m : CertStatus (foldl set_sync m l) = CertStatus m /\
  (forall n : string, n ∉ l.*1 -> EdgeInSync (foldl set_sync m l) !! n = EdgeInSync m !! n) /\
  (NoDup l.*1 -> forall (n : string) (b : bool), (n, b) ∈ l -> EdgeInSync (foldl set_sync m l) !! n = Some (if b then fone else fzero)).
Proof.
  revert m. induction l as [|[n b] l IH]; intros m; [split_and!; [done..|]; set_solver|]. cbn [foldl].
  destruct (IH (set_sync m (n, b))) as (H1 & H2 & H3). split_and!; [done| |].
  - intros k Hk. rewrite fmap_cons in Hk. apply not_elem_of_cons in Hk as [Hne Hk]. rewrite H2 by done. by apply lookup_insert_ne.
  - intros Hnd k c. rewrite fmap_cons in Hnd. apply NoDup_cons in Hnd as [Hn Hnd]. intros [[= -> ->]|Hk]%elem_of_cons; [|by apply H3].
    rewrite H2 by done. unfold set_sync. cbn [EdgeInSync fst snd]. by rewrite lookup_insert_eq.
Qed.

Lemma foldl_set_cert (l : list (string * string * option Z)) m : EdgeInSync (foldl set_cert m l) = EdgeInSync m /\
  (forall k : string * string, CertStatus (foldl set_cert m l) !! k = if decide (k ∈ l.*1) then Some fone else CertStatus m !! k).
Proof.
  revert m. induction l as [|[k0 t] l IH]; intros m; [by split|]. cbn [foldl]. destruct (IH (set_cert m (k0, t))) as [H1 H2].
  split; [done|]. intros k. rewrite H2. unfold set_cert. cbn [CertStatus fst]. rewrite fmap_cons. cbn [fst].
  destruct (decide (k ∈ l.*1)) as [Hk|Hk]; [by rewrite decide_True by (by right)|].
  destruct (decide (k = k0)) as [->|Hne]; [by rewrite lookup_insert_eq, decide_True by (by left)|].
  rewrite lookup_insert_ne by done. rewrite decide_False; [done|]. by intros [->|?]%elem_of_cons.
Qed.

(** The gauge of a load balancer of the register says whether it holds its desired
    state, the status of a certificate is the one of the table, and no other; but
    the gauge of a load balancer that has left the register keeps its value. *)
Lemma exposed_truthful d t m : NoDup (e_name <$> edges t) ->
  (forall r, r ∈ edges t -> EdgeInSync (exposed d t m) !! e_name r = Some (if in_sync r then fone else fzero)) /\
  (forall n : string, n ∉ e_name <$> edges t -> EdgeInSync (exposed d t m) !! n = EdgeInSync m !! n) /\
  (forall k : string * string, CertStatus (exposed d t m) !! k =
     if decide (k ∈ (fun c => (c_fqdn c, c_status c)) <$> certificates t) then Some fone else None).
Proof.
  intros Hnd. unfold exposed, set_rooms_gauge. cbn [EdgeInSync CertStatus].
  destruct (foldl_set_sync (q_sync t) m) as (H1 & H2 & H3).
  destruct (foldl_set_cert (q_status t) (reset_status (foldl set_sync m (q_sync t)))) as [H4 H5].
  assert (Hn : (q_sync t).*1 = e_name <$> edges t) by (unfold q_sync; change (map ?f ?l) with (f <$> l); by rewrite <- list_fmap_compose).
  assert (Hc : (q_status t).*1 = (fun c => (c_fqdn c, c_status c)) <$> certificates t)
    by (unfold q_status; change (map ?f ?l) with (f <$> l); by rewrite <- list_fmap_compose).
  rewrite Hn in *. rewrite Hc in *. split_and!.
  - intros r Hr. rewrite H4. apply H3; [done|]. apply list_elem_of_fmap. by exists r.
  - intros n Hk. rewrite H4. by apply H2.
  - intros k. by rewrite H5.
Qed.

(** ** Examples *)

Module WatchDemo.

Abbreviation demo_run := (@Run site unit _ no_queue _ _ Some toy_sha).
Abbreviation demo_poll := (@poll site unit _ no_queue _ _ Some toy_sha).

Definition starting : @watch site unit := MkWatch first_world (Some NewMetrics) None.

(** The queue is closed while the first pass compiles, after it has read the
    queues; and the pass of the next poll does not compile. *)
Definition closing (d : cdb) : cdb := set_effective "r1" "closed" d.
Definition disturbed : list ((cdb -> cdb) * outcome) := repeat (id, Served) 16 ++ [(closing, Served)].
Definition failing : list ((cdb -> cdb) * outcome) := repeat (id, Served) 14 ++ [(id, Refused (Err "connection reset"))].
Definition after_first : @watch site unit := demo_run disturbed [(Polled, failing)] starting.

Definition states (s : @watch site unit) : list MapEntry := default [] (DStates ∘ rd_desired <$> wt_last s).
Definition outcomes (s : @watch site unit) : list (string * option goerr) :=
  default [] ((fun rd => (fun x => (EName x.1, x.2)) <$> rd_log rd) <$> wt_last s).

Lemma orderly_id n : allowed tracked unbroken (repeat (id, Served) n).
Proof. apply Forall_forall. intros t ->%list_elem_of_In%repeat_spec. by split. Qed.
Lemma disturbed_orderly : allowed tracked unbroken disturbed.
Proof.
  apply Forall_app. split; [apply orderly_id|]. apply Forall_singleton. split; [|done]. intros d. split; simpl; lia.
Qed.
Lemma failing_orderly : allowed tracked unbroken failing.
Proof. apply Forall_app. split; [apply orderly_id|]. apply Forall_singleton. by split. Qed.

Lemma Run_misses_nothing_witness :
  states after_first = [MkEntry "acme.sale" "queue"] /\
  states (demo_poll (meanwhile [] after_first)) = [MkEntry "acme.sale" "closed"] /\
  outcomes (demo_poll (meanwhile [] after_first)) = [("lb1"%string, None)] /\
  @current site unit _ _ Some toy_sha (demo_poll (meanwhile [] after_first)).
Proof.
  split; [vm_compute; reflexivity|]. split; [vm_compute; reflexivity|]. split; [vm_compute; reflexivity|].
  refine (proj1 (proj2 (proj2 (@Run_misses_nothing site unit _ _ _ no_queue _ _ Some toy_sha disturbed [(Polled, failing)] starting
            _ eq_refl eq_refl disturbed_orderly _)))).
  - vm_compute. discriminate.
  - apply List.Forall_cons; [exact failing_orderly|apply List.Forall_nil].
Defined.

(** A change that increments no version, as the rotation of the signing key, is
    missed by the poll when the pass its [Kick] asked for does not compile; it
    waits for the minute. *)
Definition rotating (d : cdb) : cdb := set_signing_keys [MkKey "k3" "PUB3" true 1000 None "SEC3"] d.
Definition rotated_missed : @watch site unit :=
  demo_run [] [(Kicked, (rotating, Served) :: repeat (id, Served) 12 ++ [(id, Refused (Err "connection reset"))])] starting.

Example rotation_missed :
  PassPub ∘ rd_desired <$> wt_last rotated_missed = Some "PUB2"%string /\
  PassPub (desired_of Some toy_sha (seen rotated_missed)) = "PUB3"%string /\
  wt_last (demo_poll (meanwhile [] rotated_missed)) = wt_last rotated_missed.
Proof. by vm_compute. Qed.

Example gauges :
  default ∅ (EdgeInSync <$> wt_metrics after_first) !! "lb1"%string = Some fone.
Proof. by vm_compute. Qed.

End WatchDemo.
