(* ===== verification/Auto.v ===== *)
(** * The automatic mode under a constant load

    [RunAuto] of [control/internal/reconcile/reconcile.go]: a queue in
    automatic mode opens above [auto_on] sessions and closes below [auto_off].
    The theorem says for which thresholds two turns that measure the same load
    agree. *)
From Stdlib Require Import Ascii.
From S2P Require Import Prelude GoStr Json Dataplane Haproxy Site Pg Compile Inventory Reconcile.

Local Open Scope list_scope.
Local Open Scope Z_scope.

(** The row the next turn reads, when this one has written the state [st]. *)
Definition at_state (st : string) (x : auto_row) : auto_row :=
  MkAuto (au_id x) st (au_on x) (au_off x) (au_backend x).

Lemma next_state_again x n :
  next_state (at_state (next_state x n) x) n = next_state x n <-> ~ (0 < au_on x /\ au_on x < n < au_off x).
Proof.
  unfold next_state, at_state. cbn [au_eff au_on au_off].
  destruct (Z.ltb_spec 0 (au_on x)), (Z.ltb_spec (au_on x) n), (Z.ltb_spec n (au_off x));
    destruct (String.eqb_spec (au_eff x) "queue") as [He|He]; cbn; rewrite ?He; cbn;
    repeat (rewrite (proj2 (String.eqb_neq _ _) He); cbn); split; try done; try lia.
Qed.

Section Auto.
Context {St Q : Type} {Hx : DataplaneHTTP St}.

Lemma auto_one_eq (x : auto_row) (w w1 : @world St Q) n ok :
  quiet (w_pg w1) -> measure (au_backend x) (rc_edges (w_rec w)) 0 0 w = (inr (n, S ok), w1) ->
  (auto_one x w).1 = inr (negb (String.eqb (next_state x n) (au_eff x))).
Proof.
  intros Hq Hm. unfold auto_one. rewrite Hm. rewrite bool_decide_eq_false_2 by done. cbn [orb].
  destruct (String.eqb _ _); [done|]. unfold in_pg, zoom, Exec_. by erewrite Exec_quiet.
Qed.

(** Claim C40: under a constant load [n] that the load balancers report, the
    turn after a turn asks for no change, unless [n] lies strictly between the
    opening threshold and the closing one; there, when the closing threshold
    is above the opening one, every turn changes the state again. *)
Theorem auto_settles (x : auto_row) (w w1 w3 w4 : @world St Q) n ok ok' k :
  measure (au_backend x) (rc_edges (w_rec w)) 0 0 w = (inr (n, S ok), w1) -> quiet (w_pg w1) ->
  measure (au_backend x) (rc_edges (w_rec w3)) 0 0 w3 = (inr (n, S ok'), w4) -> quiet (w_pg w4) ->
  (auto_one x w).1 = inr k ->
  let x' := if k then at_state (next_state x n) x else x in
  (auto_one x' w3).1 = inr (bool_decide (0 < au_on x /\ au_on x < n < au_off x)).
Proof.
  intros Hm1 Hq1 Hm2 Hq2 Hk x'. rewrite (auto_one_eq x w w1 n ok Hq1 Hm1) in Hk. injection Hk as Hk.
  rewrite (auto_one_eq x' w3 w4 n ok' Hq2) by (unfold x'; by destruct k). f_equal.
  assert (Hx' : x' = at_state (next_state x n) x).
  { unfold x'. destruct k; [done|]. apply negb_false_iff, String.eqb_eq in Hk. rewrite Hk. by destruct x. }
  rewrite Hx'. cbn [at_state au_eff]. pose proof (next_state_again x n) as Hn. case_bool_decide as Hd.
  - apply negb_true_iff, String.eqb_neq. tauto.
  - apply negb_false_iff, String.eqb_eq. tauto.
Qed.

End Auto.

(** ** A load between crossed thresholds *)

Definition crossed : auto_row := MkAuto "room" "open" 10 100 "bk_acme__web".

Definition loaded_site : site :=
  MkSite {[ lb_url := MkLb ∅ 1 ∅ ∅ ∅ ∅ ∅ {[ "bk_acme__web"%string := 50 ]} ]} [].
Definition quiet_pg : pg :=
  MkPg (MkCdb [] [] [] [] [] [] [] [] default_settings [] [] [] [] 1 0 no_accounts no_extras) [].
Definition loaded_world : @world site unit :=
  MkWorld (MkRec [MkEdge "lb1" lb_url] "admin" "secret" (Queueclient.MkClient EmptyString []) EmptyString 0 ∅)
    quiet_pg loaded_site tt.

Lemma auto_settles_witness :
  (auto_one crossed loaded_world).1 = inr true /\
  (auto_one (at_state "queue" crossed) loaded_world).1 = inr true.
Proof.
  assert (Hm : measure "bk_acme__web" (rc_edges (w_rec loaded_world)) 0 0 loaded_world = (inr (50, 1%nat), loaded_world))
    by (vm_compute; reflexivity).
  assert (Hk : (auto_one crossed loaded_world).1 = inr true) by (vm_compute; reflexivity).
  split; [exact Hk|].
  exact (auto_settles crossed loaded_world loaded_world loaded_world loaded_world 50 0 0 true Hm eq_refl Hm eq_refl Hk).
Defined.
