(* ===== verification/Jobs.v ===== *)
(** * Package [jobs]: the operations the runner executes

    [control/internal/jobs/jobs.go].  The control plane and the runner exchange
    files of one directory; the database says where each job stands.  [dir] is
    that directory with what its other user, the runner, does to it before each
    call, in the manner of [Pg.v].  Strings are taken to be valid UTF-8, so a
    request is read back as it was written, but for the integers of its
    variables, which come back as floating-point numbers. *)
From Stdlib Require Import Ascii.
From S2P Require Import Prelude GoStr F64 Json Pg Dataplane Inventory.

Local Open Scope list_scope.
Local Open Scope Z_scope.

(** ** The shared directory *)

(** A file holds a marshalled request, a JSON document, or any other text. *)
Inductive content : Type :=
| Marshalled (r : Request)
| Doc (v : json)
| Raw (s : string).

(** A call succeeds or fails; a write that fails may leave a file cut short. *)
Inductive fault : Type :=
| Fine
| Fails (e : goerr) (left : option content).

Abbreviation tree := (gmap string content).

Record dir : Type := MkDir { files : tree; dsched : list ((tree -> tree) * fault) }.

Definition dturn (d : dir) : tree * fault * list ((tree -> tree) * fault) :=
  match dsched d with
  | (env, o) :: l => (env (files d), o, l)
  | [] => (files d, Fine, [])
  end.

Definition enoent : goerr := Err "no such file or directory".

(** One call: what it gives and makes of the files. *)
Definition syscall {A} (f : tree -> (goerr + A) * tree) (partial : content -> tree -> tree) : M dir A := fun d =>
  let '(t, o, l) := dturn d in
  match o with
  | Fine => let '(r, t') := f t in (r, MkDir t' l)
  | Fails e c => (inl e, MkDir (match c with Some c => partial c t | None => t end) l)
  end.

Definition MkdirAll : M dir unit := syscall (fun t => (inr tt, t)) (fun _ t => t).
Definition WriteFile (n : string) (c : content) : M dir unit :=
  syscall (fun t => (inr tt, <[n := c]> t)) (fun c t => <[n := c]> t).
Definition Rename (a b : string) : M dir unit :=
  syscall (fun t => match t !! a with
                    | Some c => (inr tt, <[b := c]> (delete a t))
                    | None => (inl enoent, t)
                    end) (fun _ t => t).
Definition ReadFile (n : string) : M dir content :=
  syscall (fun t => (match t !! n with Some c => inr c | None => inl enoent end, t)) (fun _ t => t).
Definition Stat (n : string) : M dir unit :=
  syscall (fun t => (match t !! n with Some _ => inr tt | None => inl enoent end, t)) (fun _ t => t).
Definition Remove (n : string) : M dir unit :=
  syscall (fun t => match t !! n with Some _ => (inr tt, delete n t) | None => (inl enoent, t) end) (fun _ t => t).

(** ** Requests and rows *)

(** [json.Marshal] refuses the floating-point numbers JSON cannot write. *)
Definition marshals (r : Request) : bool :=
  forallb (fun p => match p.2 with AFloat x => negb (is_nan x || is_inf x) | _ => true end) (ExtraVars_ r).

Definition reread_any (a : any) : any := match a with AInt z => AFloat (of_int z) | _ => a end.
Definition reread (r : Request) : Request :=
  MkRequest (RKind r) (Playbook r) (Argv r) (Limit r) (Tags r) (Check_ r)
    (map (fun p => (p.1, reread_any p.2)) (ExtraVars_ r)) (Inventory r).

Definition without_inventory (r : Request) : Request :=
  MkRequest (RKind r) (Playbook r) (Argv r) (Limit r) (Tags r) (Check_ r) (ExtraVars_ r) EmptyString.
Definition zero_request : Request :=
  MkRequest EmptyString EmptyString [] EmptyString EmptyString false [] EmptyString.

(** What [scan] makes of a row. *)
Definition shown (j : job_row) : job_row :=
  MkJob (j_id j) (j_kind j) (j_status j) (j_exit_code j) (j_detail j) (j_created_by j)
    (j_created j) (j_started j) (j_finished j)
    (Some (match j_request j with Some r => without_inventory r | None => zero_request end)).

Definition Done (j : job_row) : bool :=
  String.eqb (j_status j) "succeeded" || String.eqb (j_status j) "failed" || String.eqb (j_status j) "interrupted".

Definition active (j : job_row) : bool := String.eqb (j_status j) "pending" || String.eqb (j_status j) "running".

Definition active_jobs (d : cdb) : list job_row := base.filter (fun j => active j = true) (jobs d).

(** The partial unique index [jobs_one_at_a_time]. *)
Definition one_active (d : cdb) : bool := (length (active_jobs d) <=? 1)%nat.

Definition constrained (f : cdb -> cdb) : cdb -> goerr + (unit * cdb) := fun d =>
  if one_active (f d) then inr (tt, f d) else inl (ErrPg "23505" "jobs_one_at_a_time").

Definition update_job (id : string) (f : job_row -> job_row) (d : cdb) : cdb :=
  set_jobs (map (fun j => if String.eqb (j_id j) id then f j else j) (jobs d)) d.

Definition new_job (id kind : string) (req : Request) (by_ : string) (now : Z) : job_row :=
  MkJob id kind "pending" None EmptyString by_ now None None (Some (reread req)).

#[local] Set Default Proof Using "Type".

Section Jobs.

(** The identifier [gen_random_uuid()] gives, and how the database reads a
    text as one. *)
Context (gen : cdb -> string) (uuid : string -> option string).

Record jobs_world : Type := MkJw { jw_pg : pg; jw_dir : dir }.

Definition on_pg {A} (m : M pg A) : M jobs_world A := zoom jw_pg (fun p w => MkJw p (jw_dir w)) m.
Definition on_dir {A} (m : M dir A) : M jobs_world A := zoom jw_dir (fun d w => MkJw (jw_pg w) d) m.
(** [_, _ = ...] and [_ = ...]. *)
Definition quietly {A} (m : M jobs_world A) : M jobs_world unit := fun w => (inr tt, (m w).2).

Definition path (id suffix : string) : string := (id +:+ suffix)%string.
Definition LogPath (id : string) : string := path id ".log".

(** The insertion: the primary key and the partial index. *)
Definition insert_job (kind : string) (req : Request) (by_ : string) (d : cdb) : goerr + (string * cdb) :=
  let id := gen d in
  if existsb (fun j => String.eqb (j_id j) id) (jobs d) then inl (ErrPg "23505" "jobs_pkey")
  else let d' := set_jobs (jobs d ++ [new_job id kind req by_ (clock d)]) d in
       if one_active d' then inr (id, d') else inl (ErrPg "23505" "jobs_one_at_a_time").

Definition delete_job (id : string) (d : cdb) : cdb :=
  set_jobs (base.filter (fun j => j_id j <> id) (jobs d)) d.

(** [write]: the request appears under its name all at once. *)
Definition write (id : string) (req : Request) : M dir unit :=
  MkdirAll ≫= fun _ =>
  if marshals req
  then WriteFile (path id ".request.tmp") (Marshalled req) ≫= fun _ =>
       Rename (path id ".request.tmp") (path id ".request.json")
  else mfail (Err "json: unsupported value").

(** A query on [id] fails when its text is not an identifier. *)
Definition Get (id : string) : M pg job_row :=
  match uuid id with
  | None => Exec (fun _ => inl (ErrPg "22P02" "invalid input syntax for type uuid"))
  | Some k => l ← all_rows (fun d => base.filter (fun j => j_id j = k) (jobs d));
              match l with [] => mfail ErrNoRows | j :: _ => mret (shown j) end
  end.

Definition Submit (kind : string) (req : Request) (createdBy : string) : M jobs_world job_row := fun w =>
  if negb (marshals req) then (inl (Err "json: unsupported value"), w)
  else match on_pg (Exec (insert_job kind req createdBy)) w with
       | (inl (ErrPg code msg), w1) =>
           (inl (if bool_decide (code = "23505"%string) then ErrBusy else ErrPg code msg), w1)
       | (inl e, w1) => (inl e, w1)
       | (inr id, w1) =>
           match on_dir (write id req) w1 with
           | (inl e, w2) =>
               (inl (wrap "dépôt de la demande " e), (quietly (on_pg (Exec_ (delete_job id))) w2).2)
           | (inr _, w2) => on_pg (Get id) w2
           end
       end.

(** [order by created_at desc limit n]. *)
Definition newest_first (x y : job_row) : Prop := j_created y <= j_created x.
#[export] Instance newest_first_dec : RelDecision newest_first.
Proof. intros x y. unfold newest_first. apply _. Defined.

Definition List_ (limit : Z) : M pg (list job_row) :=
  let limit := if (limit <=? 0) || (200 <? limit) then 50 else limit in
  l ← all_rows (fun d => take (Z.to_nat limit) (merge_sort newest_first (jobs d)));
  mret (map shown l).

(** ** Following the runner *)

Record result : Type := MkResult { RC : Z; RDetail : string }.

Definition dec_result : json -> option result := dec_obj (fun l =>
  rc ← dec_int (field "rc" l); d ← dec_string (field "detail" l); Some (MkResult rc d)).

(** [json.Unmarshal] of the file: a request is a JSON object too, without
    the fields of a result. *)
Definition read_result (c : content) : option result :=
  match c with
  | Doc v => dec_result v
  | Marshalled _ => Some (MkResult 0 EmptyString)
  | Raw _ => None
  end.

Definition status_of (rc : Z) : string :=
  if rc =? 75 then "interrupted" else if negb (rc =? 0) then "failed" else "succeeded".

Definition claimed (now : Z) (j : job_row) : job_row :=
  MkJob (j_id j) (j_kind j) "running" (j_exit_code j) (j_detail j) (j_created_by j) (j_created j)
    (Some (default now (j_started j))) (j_finished j) (j_request j).
Definition finished (now : Z) (res : result) (j : job_row) : job_row :=
  MkJob (j_id j) (j_kind j) (status_of (RC res)) (Some (RC res)) (RDetail res) (j_created_by j) (j_created j)
    (Some (default now (j_started j))) (Some now) (j_request j).

(** [exit_code] is a column of 32 bits. *)
Definition in_int32 (z : Z) : bool := (- 2 ^ 31 <=? z) && (z <? 2 ^ 31).

Definition cleanup (id : string) : M jobs_world unit :=
  quietly (on_dir (Remove (path id ".request.json"))) ≫= fun _ =>
  quietly (on_dir (Remove (path id ".claim"))) ≫= fun _ =>
  quietly (on_dir (Remove (path id ".result.json"))).

Definition refresh_claim (j : job_row) : M jobs_world unit := fun w =>
  if String.eqb (j_status j) "pending"
  then match on_dir (Stat (path (j_id j) ".claim")) w with
       | (inr _, w1) =>
           quietly (on_pg (Exec (fun d => constrained (update_job (j_id j) (claimed (clock d))) d))) w1
       | (inl _, w1) => (inr tt, w1)
       end
  else (inr tt, w).

Definition refresh_result (j : job_row) : M jobs_world unit := fun w =>
  match on_dir (ReadFile (path (j_id j) ".result.json")) w with
  | (inl _, w1) => (inr tt, w1)
  | (inr c, w1) =>
      match read_result c with
      | None => (inr tt, w1)
      | Some res =>
          match on_pg (Exec (fun d => if in_int32 (RC res)
                                      then constrained (update_job (j_id j) (finished (clock d) res)) d
                                      else inl (Err "is greater than maximum value for int4"))) w1 with
          | (inl _, w2) => (inr tt, w2)
          | (inr _, w2) => cleanup (j_id j) w2
          end
      end
  end.

Fixpoint refresh_all (l : list job_row) : M jobs_world unit :=
  match l with
  | [] => mret tt
  | j :: l => refresh_claim j ≫= fun _ => refresh_result j ≫= fun _ => refresh_all l
  end.

Definition refresh : M jobs_world unit := fun w =>
  match on_pg (all_rows active_jobs) w with
  | (inl _, w1) => (inr tt, w1)
  | (inr l, w1) => refresh_all (map shown l) w1
  end.

(** ** Lemmas *)

Lemma on_dir_pg {A} (m : M dir A) w r w' : on_dir m w = (r, w') -> jw_pg w' = jw_pg w.
Proof. unfold on_dir, zoom. destruct (m (jw_dir w)) as [r0 d]. by intros [= _ <-]. Qed.

Lemma on_pg_dir {A} (m : M pg A) w r w' : on_pg m w = (r, w') -> jw_dir w' = jw_dir w.
Proof. unfold on_pg, zoom. destruct (m (jw_pg w)) as [r0 d]. by intros [= _ <-]. Qed.

Lemma on_pg_eq {A} (m : M pg A) w r p : m (jw_pg w) = (r, p) -> on_pg m w = (r, MkJw p (jw_dir w)).
Proof. unfold on_pg, zoom. by intros ->. Qed.

Lemma on_dir_eq {A} (m : M dir A) w r d : m (jw_dir w) = (r, d) -> on_dir m w = (r, MkJw (jw_pg w) d).
Proof. unfold on_dir, zoom. by intros ->. Qed.

Lemma quietly_exec f w : quiet (jw_pg w) ->
  (on_pg (Exec_ f) w).2 = MkJw (MkPg (f (tables (jw_pg w))) []) (jw_dir w).
Proof.
  intros Hq. unfold Exec_. by erewrite on_pg_eq by (by apply Exec_quiet).
Qed.

Lemma set_jobs_twice l l' d : set_jobs l (set_jobs l' d) = set_jobs l d.
Proof. done. Qed.

Lemma set_jobs_id d : set_jobs (jobs d) d = d.
Proof. by destruct d. Qed.

Lemma insert_free kind req by_ d : gen d ∉ j_id <$> jobs d ->
  insert_job kind req by_ d =
  if bool_decide (active_jobs d = [])
  then inr (gen d, set_jobs (jobs d ++ [new_job (gen d) kind req by_ (clock d)]) d)
  else inl (ErrPg "23505" "jobs_one_at_a_time").
Proof.
  intros Hn. unfold insert_job. replace (existsb _ (jobs d)) with false.
  2:{ symmetry. apply not_true_iff_false. rewrite existsb_exists. intros (j & Hj & He%String.eqb_eq).
      apply Hn, list_elem_of_fmap. exists j. split; [done|]. by apply list_elem_of_In. }
  unfold one_active, active_jobs. cbn [jobs set_jobs]. rewrite filter_app, length_app.
  case_bool_decide as Hf; [by rewrite Hf|].
  destruct (base.filter _ (jobs d)); [done|]. by rewrite (proj2 (Nat.leb_gt _ _)) by (simpl; lia).
Qed.

(** The runner leaves the files alone; calls may still fail. *)
Definition alone (d : dir) : Prop := Forall (fun t => t.1 = id) (dsched d).

Lemma syscall_alone {A} (f : tree -> (goerr + A) * tree) partial d r d' :
  alone d -> syscall f partial d = (r, d') ->
  alone d' /\ (((r, files d') = f (files d)) \/
              exists e c, r = inl e /\ files d' = match c with Some c => partial c (files d) | None => files d end).
Proof.
  unfold alone, syscall, dturn. intros Ha. destruct (dsched d) as [|[env o] l].
  - destruct (f (files d)) as [r0 t']. intros [= <- <-]. split; [constructor|by left].
  - apply Forall_cons in Ha as [He Ha]. simpl in He. subst env. simpl. destruct o as [|e c].
    + destruct (f (files d)) as [r0 t']. intros [= <- <-]. split; [done|by left].
    + intros [= <- <-]. split; [done|]. right. eauto.
Qed.

Lemma path_ne i a b : a <> b -> path i a <> path i b.
Proof. intros Hab. unfold path. induction i as [|c i IH]; [done|]. by intros [= ?]. Qed.

(** The request appears under its name complete, or not at all. *)
Lemma write_atomic i req d r d' : alone d -> write i req d = (r, d') ->
  alone d' /\ files d' !! path i ".request.json" =
    match r with inr _ => Some (Marshalled req) | inl _ => files d !! path i ".request.json" end.
Proof.
  intros Ha. pose proof (path_ne i ".request.tmp" ".request.json" ltac:(done)) as Hne.
  unfold write, mbind, M_bind. destruct (MkdirAll d) as [r1 d1] eqn:E1.
  apply syscall_alone in E1 as [Ha1 Hd1]; [|done].
  assert (files d1 = files d) as Hf1 by (destruct Hd1 as [[= _ ->]|(e & [c|] & _ & ->)]; done). clear Hd1.
  destruct r1 as [e|u]; [intros [= <- <-]; by rewrite Hf1|].
  destruct (marshals req); [|intros [= <- <-]; by rewrite Hf1].
  destruct (WriteFile _ _ d1) as [r2 d2] eqn:E2. apply syscall_alone in E2 as [Ha2 Hd2]; [|done].
  destruct Hd2 as [[= -> Hf2]|(e & c & -> & Hf2)].
  2:{ intros [= <- <-]. split; [done|]. rewrite Hf2, <- Hf1. destruct c; [by rewrite lookup_insert_ne|done]. }
  intros E3. apply syscall_alone in E3 as [Ha3 Hd3]; [|done]. split; [done|].
  rewrite Hf2, lookup_insert_eq, Hf1 in Hd3. destruct Hd3 as [[= -> ->]|(e & c & -> & Hf3)].
  - apply lookup_insert_eq.
  - rewrite Hf3. destruct c; by rewrite lookup_insert_ne.
Qed.

Lemma Get_quiet i k p j l : quiet p -> uuid i = Some k ->
  base.filter (fun j => j_id j = k) (jobs (tables p)) = j :: l -> Get i p = (inr (shown j), p).
Proof.
  intros Hq Hu Hf. unfold Get. rewrite Hu. unfold all_rows, mbind, M_bind. rewrite Query_quiet by done.
  simpl. rewrite Hf. unfold lift_err. by rewrite scan_all_inr.
Qed.

Lemma delete_added kind req by_ d : gen d ∉ j_id <$> jobs d ->
  delete_job (gen d) (set_jobs (jobs d ++ [new_job (gen d) kind req by_ (clock d)]) d) = d.
Proof.
  intros Hn. unfold delete_job. rewrite set_jobs_twice. cbn [jobs set_jobs]. rewrite filter_app.
  assert (base.filter (fun j => j_id j <> gen d) (jobs d) = jobs d) as ->.
  { apply list_filter_all. intros j Hj He. apply Hn, list_elem_of_fmap. eauto. }
  rewrite filter_cons, decide_False by (intros Hx; by apply Hx). rewrite filter_nil, app_nil_r. apply set_jobs_id.
Qed.

(** Claim C29: an operation is accepted only when no other is pending or
    running: then its row is added, pending, and the complete request is in
    the directory, under the name the runner looks for, when the answer is
    given.  When it is not accepted the database is as it was, no ghost row is
    left, and the runner sees no request; [ErrBusy] is answered exactly when
    there is an active operation. *)
Theorem Submit_outcome kind req createdBy w :
  let d := tables (jw_pg w) in
  let new := new_job (gen d) kind req createdBy (clock d) in
  let name := path (gen d) ".request.json" in
  quiet (jw_pg w) -> alone (jw_dir w) -> uuid (gen d) = Some (gen d) -> gen d ∉ j_id <$> jobs d ->
  match Submit kind req createdBy w with
  | (inr j, w') => active_jobs d = [] /\ jw_pg w' = MkPg (set_jobs (jobs d ++ [new]) d) [] /\
                   j = shown new /\ files (jw_dir w') !! name = Some (Marshalled req)
  | (inl e, w') => jw_pg w' = jw_pg w /\ files (jw_dir w') !! name = files (jw_dir w) !! name /\
                   (e = ErrBusy <-> marshals req = true /\ active_jobs d <> [])
  end.
Proof.
  intros d new name Hq Ha Hu Hn. unfold Submit. destruct (marshals req) eqn:Hm; simpl.
  2:{ split_and!; [done..|]. split; [done|]. by intros [? _]. }
  pose proof (insert_free kind req createdBy d Hn) as Hins.
  assert (Hpg : jw_pg w = MkPg d []) by (unfold d; destruct (jw_pg w) as [t l]; simpl; by rewrite <- Hq).
  destruct (decide (active_jobs d = [])) as [He|He].
  2:{ rewrite bool_decide_eq_false_2 in Hins by done. unfold on_pg, zoom, Exec, turn. rewrite Hpg. simpl.
      rewrite Hins. done. }
  rewrite bool_decide_eq_true_2 in Hins by done.
  rewrite (on_pg_eq _ w _ _ (Exec_quiet _ _ _ _ Hq Hins)). fold new.
  destruct (write (gen d) req (jw_dir w)) as [[e|u] dw] eqn:Hw; rewrite (on_dir_eq _ (MkJw _ _) _ _ Hw); cbv beta iota;
    apply write_atomic in Hw as [_ Hw]; try done.
  - rewrite quietly_exec by done. cbn [jw_pg jw_dir tables]. unfold new. rewrite delete_added, Hpg by done.
    split_and!; [done..|]. split; [done|]. by intros [_ ?].
  - assert (Hf : base.filter (fun j => j_id j = gen d) (jobs d ++ [new]) = [new]).
    { rewrite filter_app, list_filter_none, filter_cons, decide_True; [done..|].
      intros j Hj He'. apply Hn, list_elem_of_fmap. eauto. }
    by erewrite on_pg_eq by exact (Get_quiet (gen d) (gen d) (MkPg (set_jobs (jobs d ++ [new]) d) []) new [] eq_refl Hu Hf).
Qed.

(** ** The life of an operation *)

Inductive job_step (now : Z) : job_row -> job_row -> Prop :=
| step_claim j : j_status j = "pending"%string -> job_step now j (claimed now j)
| step_finish j res : active j = true -> job_step now j (finished now res j).

Lemma finished_inactive now res j : active (finished now res j) = false.
Proof. unfold active, finished, status_of. simpl. by destruct (RC res =? 75), (RC res =? 0). Qed.

Lemma claimed_active now j : active (claimed now j) = true.
Proof. done. Qed.

Lemma job_step_active now r r' : rtc (job_step now) r r' -> active r' = true -> active r = true.
Proof.
  induction 1 as [|r1 r2 r3 Hs _ IH]; [done|]. intros Ha. specialize (IH Ha).
  destruct Hs as [j Hp|j res Hj]; [|done]. unfold active. by rewrite Hp.
Qed.

(** A change of the row of an operation that follows its life. *)
Definition advances (now : Z) (j : job_row) (f : job_row -> job_row) : Prop :=
  rtc (job_step now) j (f j) /\ forall r, j_id (f r) = j_id r.

Lemma update_lives now j f d : NoDup (j_id <$> jobs d) -> j ∈ jobs d -> advances now j f ->
  Forall2 (rtc (job_step now)) (jobs d) (jobs (update_job (j_id j) f d)).
Proof.
  intros Hnd Hj [Hf _]. cbn [jobs update_job set_jobs]. apply Forall2_fmap_r, Forall_Forall2_diag.
  apply Forall_forall. intros r Hr. simpl. destruct (String.eqb_spec (j_id r) (j_id j)) as [He|He]; [|reflexivity].
  assert (r = j) as ->; [|done].
  pose proof (proj2 (by_id_NoDup j_id (j_id j) _ r Hnd) (conj Hr He)) as H1.
  pose proof (proj2 (by_id_NoDup j_id (j_id j) _ j Hnd) (conj Hj eq_refl)) as H2. congruence.
Qed.

Lemma lives_active now l l' : Forall2 (rtc (job_step now)) l l' ->
  (length (base.filter (fun j => active j = true) l') <= length (base.filter (fun j => active j = true) l))%nat.
Proof.
  induction 1 as [|r r' l l' Hr _ IH]; [done|]. rewrite !filter_cons.
  pose proof (job_step_active now r r' Hr). repeat case_decide; simpl; try lia. tauto.
Qed.

Lemma update_constrained now j f d :
  one_active d = true -> NoDup (j_id <$> jobs d) -> j ∈ jobs d -> advances now j f ->
  constrained (update_job (j_id j) f) d = inr (tt, update_job (j_id j) f d).
Proof.
  intros Ho Hnd Hj Hf. unfold constrained. replace (one_active _) with true; [done|]. symmetry.
  apply Nat.leb_le in Ho. apply Nat.leb_le. pose proof (lives_active now _ _ (update_lives now j f d Hnd Hj Hf)).
  unfold active_jobs in *. lia.
Qed.

Lemma update_ids i f d : (forall r, j_id (f r) = j_id r) -> j_id <$> jobs (update_job i f d) = j_id <$> jobs d.
Proof.
  intros Hf. cbn [jobs update_job set_jobs]. rewrite <- list_fmap_compose. apply list_fmap_ext. intros k r _. simpl.
  by destruct (String.eqb _ _).
Qed.

Lemma update_update i f g d : (forall r, j_id (f r) = j_id r) ->
  update_job i g (update_job i f d) = update_job i (fun r => g (f r)) d.
Proof.
  intros Hf. unfold update_job. rewrite set_jobs_twice. cbn [jobs set_jobs]. f_equal. rewrite map_map. apply map_ext.
  intros r. destruct (String.eqb (j_id r) i) eqn:He; rewrite ?Hf, ?He; done.
Qed.

Lemma update_id i d : update_job i (fun r => r) d = d.
Proof.
  unfold update_job. rewrite (map_ext _ (fun r => r)); [by rewrite map_id, set_jobs_id|].
  intros r. by destruct (String.eqb _ _).
Qed.

Lemma claimed_advances now j : j_status j = "pending"%string -> advances now j (claimed now).
Proof. split; [|done]. apply rtc_once. by constructor. Qed.

Lemma finished_advances now j res : active j = true -> advances now j (finished now res).
Proof. split; [|done]. apply rtc_once. by constructor. Qed.

Lemma exec_constrained now j f w :
  quiet (jw_pg w) -> one_active (tables (jw_pg w)) = true -> NoDup (j_id <$> jobs (tables (jw_pg w))) ->
  j ∈ jobs (tables (jw_pg w)) -> advances now j f -> clock (tables (jw_pg w)) = now ->
  forall g, g (tables (jw_pg w)) = constrained (update_job (j_id j) f) (tables (jw_pg w)) ->
  on_pg (Exec g) w = (inr tt, MkJw (MkPg (update_job (j_id j) f (tables (jw_pg w))) []) (jw_dir w)).
Proof.
  intros Hq Ho Hnd Hj Hf Hc g Hg. rewrite (update_constrained now) in Hg by done.
  apply on_pg_eq. by apply Exec_quiet.
Qed.

Lemma claim_ok j w :
  let d := tables (jw_pg w) in
  quiet (jw_pg w) -> one_active d = true -> NoDup (j_id <$> jobs d) -> j ∈ jobs d -> active j = true ->
  exists f, advances (clock d) j f /\ active (f j) = true /\ (f = (fun r => r) \/ f = claimed (clock d)) /\
    jw_pg (refresh_claim (shown j) w).2 = MkPg (update_job (j_id j) f d) [].
Proof.
  intros d Hq Ho Hnd Hj Ha.
  assert (Hid : jw_pg w = MkPg (update_job (j_id j) (fun r => r) d) []).
  { rewrite update_id. unfold d. destruct (jw_pg w). by rewrite <- Hq. }
  assert (Hnone : advances (clock d) j (fun r => r)) by (split; [apply rtc_refl|done]).
  unfold refresh_claim. destruct (String.eqb_spec (j_status (shown j)) "pending") as [Hp|Hp].
  2:{ exists (fun r => r). split_and!; [done..|by left|done]. }
  destruct (on_dir _ w) as [[e|u] w1] eqn:E; apply on_dir_pg in E.
  - exists (fun r => r). split_and!; [done..|by left|]. cbn [snd]. by rewrite E.
  - exists (claimed (clock d)). split_and!; [by apply claimed_advances|done|by right|]. unfold quietly. cbn [snd].
    erewrite (exec_constrained (clock d) j (claimed (clock d))); rewrite ?E; try done.
    by apply claimed_advances.
Qed.

Lemma on_dir_snd {A} (m : M dir A) w : jw_pg (on_dir m w).2 = jw_pg w.
Proof. destruct (on_dir m w) as [r w'] eqn:E. by apply on_dir_pg in E. Qed.

Lemma cleanup_pg i w : jw_pg (cleanup i w).2 = jw_pg w.
Proof. unfold cleanup, mbind, M_bind, quietly. cbv beta iota. cbn [snd]. by rewrite !on_dir_snd. Qed.

(** No error leaves the loop. *)
Lemma refresh_claim_ret j w : refresh_claim j w = (inr tt, (refresh_claim j w).2).
Proof.
  unfold refresh_claim. destruct (String.eqb _ _); [|done]. by destruct (on_dir _ w) as [[e|u] w1].
Qed.

Lemma refresh_result_ret j w : refresh_result j w = (inr tt, (refresh_result j w).2).
Proof.
  unfold refresh_result. destruct (on_dir _ w) as [[e|c] w1]; [done|]. destruct (read_result c); [|done].
  by destruct (on_pg _ w1) as [[e|u] w2].
Qed.

Lemma cleanup_ret i w : cleanup i w = (inr tt, (cleanup i w).2).
Proof. done. Qed.

Lemma refresh_all_ret l w : (refresh_all l w).1 = inr tt.
Proof.
  revert w. induction l as [|j l IH]; intros w; [done|]. cbn [refresh_all]. unfold mbind, M_bind.
  rewrite refresh_claim_ret, refresh_result_ret. apply IH.
Qed.

Lemma refresh_all_one j w : (refresh_all [j] w).2 = (refresh_result j (refresh_claim j w).2).2.
Proof.
  cbn [refresh_all]. unfold mbind, M_bind. rewrite refresh_claim_ret, refresh_result_ret. done.
Qed.

Lemma result_ok j w :
  let d := tables (jw_pg w) in
  quiet (jw_pg w) -> one_active d = true -> NoDup (j_id <$> jobs d) -> j ∈ jobs d -> active j = true ->
  forall j', j_id j' = j_id j ->
  exists f, advances (clock d) j f /\ jw_pg (refresh_result j' w).2 = MkPg (update_job (j_id j) f d) [].
Proof.
  intros d Hq Ho Hnd Hj Ha j' Hj'.
  assert (Hid : jw_pg w = MkPg (update_job (j_id j) (fun r => r) d) []).
  { rewrite update_id. unfold d. destruct (jw_pg w). by rewrite <- Hq. }
  assert (Hnone : advances (clock d) j (fun r => r)) by (split; [apply rtc_refl|done]).
  unfold refresh_result. rewrite Hj'. destruct (on_dir _ w) as [[e|c] w1] eqn:E; apply on_dir_pg in E.
  { exists (fun r => r). cbn [snd]. by rewrite E. }
  destruct (read_result c) as [res|]; [|exists (fun r => r); cbn [snd]; by rewrite E].
  destruct (in_int32 (RC res)).
  - exists (finished (clock d) res). split; [by apply finished_advances|].
    erewrite (exec_constrained (clock d) j (finished (clock d) res)); rewrite ?E; try done.
    + cbn [snd]. rewrite cleanup_pg. done.
    + by apply finished_advances.
  - exists (fun r => r). split; [done|].
    erewrite on_pg_eq by (apply Exec_refused; [by rewrite E|done]). cbn [snd jw_pg]. by rewrite E.
Qed.

Lemma done_stays now r r' : rtc (job_step now) r r' -> Done r = true -> r' = r.
Proof.
  intros Hr Hd. destruct Hr as [|r1 r2 r3 Hs _]; [done|]. exfalso. unfold Done in Hd.
  destruct Hs as [j Hp|j res Hj]; [by rewrite Hp in Hd|]. unfold active in Hj.
  apply orb_true_iff in Hj as [Hj|Hj]; apply String.eqb_eq in Hj; by rewrite Hj in Hd.
Qed.

(** The database after a claim still has the constraints. *)
Lemma advanced_db now j f d : one_active d = true -> NoDup (j_id <$> jobs d) -> j ∈ jobs d -> advances now j f ->
  let d1 := update_job (j_id j) f d in
  f j ∈ jobs d1 /\ one_active d1 = true /\ NoDup (j_id <$> jobs d1) /\ j_id (f j) = j_id j.
Proof.
  intros Ho Hnd Hj Hf d1. split_and!.
  - unfold d1. cbn [jobs update_job set_jobs]. apply list_elem_of_In, in_map_iff. exists j.
    rewrite String.eqb_refl. split; [done|]. by apply list_elem_of_In.
  - pose proof (update_constrained now j f d Ho Hnd Hj Hf) as Hc. unfold constrained in Hc. fold d1 in Hc.
    by destruct (one_active d1).
  - unfold d1. rewrite update_ids; [done|apply Hf].
  - apply Hf.
Qed.

(** Claim C34: a turn of the follow-up moves each operation only along its
    life, from pending to running to one of the final states, whatever the
    runner does to the directory meanwhile and whichever calls fail; an
    operation that is done never changes again, and there is still at most one
    that is not. *)
Theorem refresh_lives w :
  let d := tables (jw_pg w) in
  quiet (jw_pg w) -> one_active d = true -> NoDup (j_id <$> jobs d) ->
  exists l, jw_pg (refresh w).2 = MkPg (set_jobs l d) [] /\
    Forall2 (fun r r' => rtc (job_step (clock d)) r r' /\ (Done r = true -> r' = r)) (jobs d) l /\
    one_active (set_jobs l d) = true.
Proof.
  intros d Hq Ho Hnd.
  cut (exists l, jw_pg (refresh w).2 = MkPg (set_jobs l d) [] /\ Forall2 (rtc (job_step (clock d))) (jobs d) l).
  { intros (l & Hl & Hf). exists l. split_and!; [done| |].
    - eapply Forall2_impl; [exact Hf|]. intros r r' Hr. split; [done|]. by apply (done_stays (clock d)).
    - apply Nat.leb_le in Ho. apply Nat.leb_le. apply lives_active in Hf. unfold active_jobs in *. simpl. lia. }
  unfold refresh. erewrite on_pg_eq by (by apply all_rows_quiet). cbn [snd].
  assert (Hw : MkJw (jw_pg w) (jw_dir w) = w) by (by destruct w). rewrite Hw. fold d.
  destruct (active_jobs d) as [|j [|k l]] eqn:Hact.
  - exists (jobs d). split; [|apply Forall_Forall2_diag, Forall_forall; intros r _; apply rtc_refl]. simpl.
    unfold d. rewrite set_jobs_id. destruct (jw_pg w). by rewrite <- Hq.
  - assert (Hin : j ∈ active_jobs d) by (rewrite Hact; by apply list_elem_of_singleton).
    apply list_elem_of_filter in Hin as [Ha Hj].
    cbn [map]. rewrite refresh_all_one.
    destruct (claim_ok j w Hq Ho Hnd Hj Ha) as (f & Hf & Haf & Hfc & Hpg1). fold d in Hf, Hpg1.
    set (w1 := (refresh_claim (shown j) w).2) in *.
    pose proof (advanced_db (clock d) j f d Ho Hnd Hj Hf) as (Hj1 & Ho1 & Hnd1 & Hidj).
    assert (Hd1 : update_job (j_id j) f d = tables (jw_pg w1)) by (by rewrite Hpg1). rewrite Hd1 in Hj1, Ho1, Hnd1.
    destruct (result_ok (f j) w1 ltac:(by rewrite Hpg1) Ho1 Hnd1 Hj1 Haf (shown j) ltac:(by rewrite Hidj))
      as (g & Hg & Hpg2).
    rewrite Hpg2, Hidj, Hpg1. cbn [tables]. rewrite update_update by apply Hf.
    assert (Hfg : advances (clock d) j (fun r => g (f r))).
    { rewrite Hpg1 in Hg. destruct Hf as [Hf Hf'], Hg as [Hg Hg']. split; [by etrans|].
      intros r. by rewrite Hg', Hf'. }
    eexists. split; [done|]. by apply update_lives.
  - unfold one_active in Ho. rewrite Hact in Ho. done.
Qed.

(** ** The end of an operation *)

Definition still (d : dir) : Prop := dsched d = [].

Lemma syscall_still {A} (f : tree -> (goerr + A) * tree) partial d :
  still d -> syscall f partial d = ((f (files d)).1, MkDir (f (files d)).2 []).
Proof. unfold still, syscall, dturn. intros ->. by destruct (f (files d)) as [r t]. Qed.

Lemma read_still n c d : still d -> files d !! n = Some c -> ReadFile n d = (inr c, d).
Proof.
  intros Hs Hn. unfold ReadFile. rewrite syscall_still, Hn by done. destruct d. by rewrite <- Hs.
Qed.

Lemma remove_still i w : still (jw_dir w) -> (on_dir (Remove i) w).2 = MkJw (jw_pg w) (MkDir (delete i (files (jw_dir w))) []).
Proof.
  intros Hs. unfold on_dir, zoom, Remove. rewrite syscall_still by done.
  destruct (files (jw_dir w) !! i) eqn:Hi; [done|]. simpl. by rewrite delete_id.
Qed.

Lemma cleanup_still i w : still (jw_dir w) ->
  (cleanup i w).2 = MkJw (jw_pg w) (MkDir (delete (path i ".result.json") (delete (path i ".claim")
                      (delete (path i ".request.json") (files (jw_dir w))))) []).
Proof.
  intros Hs. unfold cleanup, mbind, M_bind, quietly. cbv beta iota. cbn [snd].
  rewrite (remove_still (path i ".request.json") w Hs), (remove_still (path i ".claim")) by reflexivity.
  by rewrite (remove_still (path i ".result.json")) by reflexivity.
Qed.

Lemma claim_still j w : still (jw_dir w) -> jw_dir (refresh_claim j w).2 = jw_dir w.
Proof.
  intros Hs. unfold refresh_claim. destruct (String.eqb _ _); [|done].
  unfold on_dir at 1, zoom, Stat. rewrite syscall_still by done.
  assert (Hd : MkDir (files (jw_dir w)) [] = jw_dir w) by (destruct (jw_dir w); by rewrite <- Hs).
  destruct (files (jw_dir w) !! _); cbn [fst snd]; rewrite ?Hd; [|done]. unfold quietly. cbn [snd].
  destruct (on_pg _ _) as [r w'] eqn:E. apply on_pg_dir in E. cbn [snd]. rewrite E. done.
Qed.

Definition work_files (i : string) : list string :=
  [path i ".request.json"; path i ".claim"; path i ".result.json"].

(** Once the runner has written the result of the active
    operation, the next turn of the follow-up ends it with the status its
    return code calls for, the code and the detail kept; no operation is active
    any more, the working files are gone and every other file is left, the
    journal among them. *)
Theorem refresh_finishes j c res w :
  let d := tables (jw_pg w) in
  quiet (jw_pg w) -> still (jw_dir w) -> active_jobs d = [j] -> NoDup (j_id <$> jobs d) ->
  files (jw_dir w) !! path (j_id j) ".result.json" = Some c -> read_result c = Some res -> in_int32 (RC res) = true ->
  exists w' l, refresh w = (inr tt, w') /\ jw_pg w' = MkPg (set_jobs l d) [] /\ active_jobs (set_jobs l d) = [] /\
    by_id j_id (j_id j) l = Some (MkJob (j_id j) (j_kind j) (status_of (RC res)) (Some (RC res)) (RDetail res)
      (j_created_by j) (j_created j) (Some (default (clock d) (j_started j))) (Some (clock d)) (j_request j)) /\
    (forall n, files (jw_dir w') !! n = if decide (n ∈ work_files (j_id j)) then None else files (jw_dir w) !! n).
Proof.
  intros d Hq Hs Hact Hnd Hc Hres H32.
  assert (Hin : j ∈ active_jobs d) by (rewrite Hact; by apply list_elem_of_singleton). apply list_elem_of_filter in Hin as [Ha Hj].
  assert (Ho : one_active d = true) by (unfold one_active; by rewrite Hact).
  unfold refresh. erewrite on_pg_eq by (by apply all_rows_quiet). cbn [snd].
  assert (Hw : MkJw (jw_pg w) (jw_dir w) = w) by (by destruct w). rewrite Hw. fold d. rewrite Hact. cbn [map].
  destruct (claim_ok j w Hq Ho Hnd Hj Ha) as (f & Hf & Haf & Hfc & Hpg1). fold d in Hf, Hpg1.
  pose proof (claim_still (shown j) w Hs) as Hd1. pose proof (refresh_all_one (shown j) w) as Hall.
  set (w1 := (refresh_claim (shown j) w).2) in *.
  pose proof (advanced_db (clock d) j f d Ho Hnd Hj Hf) as (Hj1 & Ho1 & Hnd1 & Hidj).
  assert (Hd : update_job (j_id j) f d = tables (jw_pg w1)) by (by rewrite Hpg1).
  set (g := finished (clock d) res).
  assert (Hg : advances (clock d) (f j) g) by (by apply finished_advances).
  assert (Hpg2 : refresh_result (shown j) w1 =
    (inr tt, (cleanup (j_id j) (MkJw (MkPg (update_job (j_id j) (fun r => g (f r)) d) []) (jw_dir w))).2)).
  { unfold refresh_result. change (j_id (shown j)) with (j_id j). erewrite on_dir_eq.
    2:{ apply read_still; rewrite Hd1; [done|exact Hc]. }
    cbv beta iota. rewrite Hres, Hd1.
    erewrite (exec_constrained (clock d) (f j) g); cbn [jw_pg jw_dir]; rewrite ?Hpg1; try done.
    - rewrite Hidj. cbn [tables]. rewrite update_update by apply Hf. apply cleanup_ret.
    - cbn [tables]. rewrite H32, Hidj. done. }
  rewrite Hpg2 in Hall. rewrite cleanup_still in Hall, Hpg2 by done. cbn [snd jw_dir jw_pg] in Hall.
  eexists _, (jobs (update_job (j_id j) (fun r => g (f r)) d)). split_and!.
  - rewrite (surjective_pairing (refresh_all _ w)), Hall. by rewrite refresh_all_ret.
  - done.
  - unfold active_jobs. cbn [jobs set_jobs]. apply list_filter_none.
    intros r' Hr'. cbn [jobs update_job set_jobs] in Hr'. apply list_elem_of_In, in_map_iff in Hr' as (r & <- & Hr).
    apply list_elem_of_In in Hr. destruct (String.eqb_spec (j_id r) (j_id j)) as [He|He].
    + unfold g. rewrite finished_inactive. done.
    + intros Har. apply He. assert (Hin : r ∈ active_jobs d) by (by apply list_elem_of_filter).
      rewrite Hact in Hin. by apply list_elem_of_singleton in Hin as ->.
  - set (h := fun r => g (f r)). assert (Hh : advances (clock d) j h).
    { destruct Hf as [Hf Hf'], Hg as [Hg Hg']. split; [by etrans|]. intros r. unfold h. by rewrite Hg', Hf'. }
    destruct (advanced_db (clock d) j h d Ho Hnd Hj Hh) as (Hin & _ & Hndh & Hidh).
    rewrite (proj2 (by_id_NoDup j_id (j_id j) _ (h j) Hndh) (conj Hin Hidh)).
    unfold h, g, finished. by destruct Hfc as [-> | ->].
  - intros n. cbn [jw_dir files]. unfold work_files. rewrite !lookup_delete. clear -n j w. repeat case_decide; set_solver.
Qed.

(** ** One operation at a time *)

(** The other sessions respect the index too, as the database makes them. *)
Definition exclusive (p : pg) : Prop :=
  one_active (tables p) = true /\
  Forall (fun t => forall d, one_active d = true -> one_active (t.1 d) = true) (sched p).

Definition keeps {A} (m : M jobs_world A) : Prop := forall w, exclusive (jw_pg w) -> exclusive (jw_pg (m w).2).

Lemma turn_exclusive p d o l : exclusive p -> turn p = (d, o, l) -> exclusive (MkPg d l).
Proof.
  intros [Hp Hs]. unfold turn. destruct (sched p) as [|[env o'] l'] eqn:E; intros [= <- <- <-]; [by split|].
  apply Forall_cons in Hs as [He Hs]. split; [by apply He|done].
Qed.

Lemma keeps_query {A} (q : cdb -> list A) : keeps (on_pg (all_rows q)).
Proof.
  intros w Hw. unfold on_pg, zoom, all_rows, Query, mbind, M_bind, lift_err, mfail, mret, M_ret.
  destruct (turn (jw_pg w)) as [[d o] l] eqn:E. pose proof (turn_exclusive _ _ _ _ Hw E).
  destruct o; simpl; try done; repeat (destruct (scan_all _); simpl); done.
Qed.

Lemma keeps_exec {A} (f : cdb -> goerr + (A * cdb)) :
  (forall d a d', one_active d = true -> f d = inr (a, d') -> one_active d' = true) -> keeps (on_pg (Exec f)).
Proof.
  intros Hf w Hw. unfold on_pg, zoom, Exec. destruct (turn (jw_pg w)) as [[d o] l] eqn:E.
  pose proof (turn_exclusive _ _ _ _ Hw E) as [Hd Hl]. simpl in Hd, Hl.
  destruct o; simpl; try by split.
  - destruct (f d) as [e|[a d']] eqn:Hfd; simpl; split; try done. by eapply Hf.
  - destruct (f d) as [e'|[a d']] eqn:Hfd; simpl; split; try done. by eapply Hf.
Qed.

Lemma keeps_constrained g : keeps (on_pg (Exec (fun d => constrained (g d) d))).
Proof.
  apply keeps_exec. intros d a d' _. unfold constrained. destruct (one_active (g d d)) eqn:Ho; [|done].
  by intros [= _ <-].
Qed.

Lemma keeps_dir {A} (m : M dir A) : keeps (on_dir m).
Proof. intros w Hw. by rewrite on_dir_snd. Qed.

Lemma keeps_insert kind req by_ : keeps (on_pg (Exec (insert_job kind req by_))).
Proof.
  apply keeps_exec. intros d a d' _. unfold insert_job. destruct (existsb _ _); [done|].
  destruct (one_active _) eqn:Ho; [|done]. by intros [= _ <-].
Qed.

Lemma keeps_delete i : keeps (on_pg (Exec_ (delete_job i))).
Proof.
  apply keeps_exec. intros d a d' Hd [= _ <-]. apply Nat.leb_le in Hd. apply Nat.leb_le.
  unfold active_jobs in *. cbn [jobs delete_job set_jobs]. etrans; [|exact Hd].
  clear. induction (jobs d) as [|j l IH]; [done|]. rewrite (filter_cons (fun j => j_id j <> i)).
  case_decide; rewrite !filter_cons; case_decide; simpl; lia.
Qed.

Lemma keeps_get i : keeps (on_pg (Get i)).
Proof.
  intros w Hw. unfold Get. destruct (uuid i) as [k|]; [|by apply keeps_exec].
  pose proof (keeps_query (fun d => base.filter (fun j => j_id j = k) (jobs d)) w Hw) as Hk.
  unfold on_pg, zoom, mbind, M_bind in *. destruct (all_rows _ (jw_pg w)) as [[e|[|j l]] p]; done.
Qed.

Lemma keeps_claim j : keeps (refresh_claim j).
Proof.
  intros w Hw. unfold refresh_claim. destruct (String.eqb _ _); [|done].
  destruct (on_dir _ w) as [[e|u] w1] eqn:E; apply on_dir_pg in E; cbn [snd]; [by rewrite E|].
  apply keeps_constrained. by rewrite E.
Qed.

Lemma keeps_result j : keeps (refresh_result j).
Proof.
  intros w Hw. unfold refresh_result.
  destruct (on_dir _ w) as [[e|c] w1] eqn:E; apply on_dir_pg in E; cbn [snd]; [by rewrite E|].
  rewrite <- E in Hw. destruct (read_result c) as [res|]; [|done].
  match goal with |- context [on_pg ?m w1] => assert (Hk : keeps (on_pg m)) end.
  { destruct (in_int32 (RC res)); [apply keeps_constrained|by apply keeps_exec]. }
  specialize (Hk w1 Hw). destruct (on_pg _ w1) as [[e|u] w2]; [done|]. by rewrite cleanup_pg.
Qed.

(** Whatever the interleaving with the runner and with other
    control processes, whichever calls fail and whichever answers are lost,
    there is never more than one active operation in the database. *)
Theorem jobs_exclusive kind req createdBy w :
  exclusive (jw_pg w) ->
  exclusive (jw_pg (Submit kind req createdBy w).2) /\ exclusive (jw_pg (refresh w).2).
Proof.
  intros Hw. split.
  - unfold Submit. destruct (negb _); [done|]. pose proof (keeps_insert kind req createdBy w Hw) as H1.
    destruct (on_pg _ w) as [[e|i] w1]; cbn [snd] in H1; [by destruct e|].
    destruct (on_dir _ w1) as [[e|u] w2] eqn:E; apply on_dir_pg in E; rewrite <- E in H1.
    + by apply keeps_delete.
    + by apply keeps_get.
  - unfold refresh. pose proof (keeps_query active_jobs w Hw) as H1.
    destruct (on_pg _ w) as [[e|l] w1]; cbn [snd] in H1; [done|]. clear Hw.
    revert w1 H1. generalize (map shown l). intros L. induction L as [|j L IH]; intros w1 H1; [done|].
    cbn [refresh_all]. unfold mbind, M_bind. rewrite refresh_claim_ret, refresh_result_ret.
    by apply IH, keeps_result, keeps_claim.
Qed.

End Jobs.

(** ** Runs *)

Definition demo_gen (d : cdb) : string := FormatInt (Z.of_nat (length (jobs d))).
Definition demo_uuid (s : string) : option string := Some s.

Definition no_jobs : cdb := MkCdb [] [] [] [] [] [] [] [] default_settings [] [] [] [] 1 1000 no_accounts no_extras.
Definition demo_request : Request :=
  MkRequest "playbook" "deploy.yml" [] EmptyString EmptyString false [("flyc_image_tag"%string, AInt 7)] "all:".

Definition idle_world : jobs_world := MkJw (MkPg no_jobs []) (MkDir ∅ []).
Definition submitted : jobs_world := (Submit demo_gen demo_uuid "deploy" demo_request "ops@example" idle_world).2.

(** The runner takes the request, writes its journal and its result. *)
Definition runner_done (w : jobs_world) : jobs_world :=
  MkJw (jw_pg w) (MkDir (<["0.claim"%string := Raw EmptyString]> (<["0.log"%string := Raw "ok"]>
    (<["0.result.json"%string := Doc (JObj [("rc", JInt 75); ("detail", JStr "arrêt")]%string)]> (files (jw_dir w))))) []).

Lemma Submit_outcome_witness :
  (forall d, demo_uuid (demo_gen d) = Some (demo_gen d)) /\
  active_jobs (tables (jw_pg submitted)) = [new_job "0" "deploy" demo_request "ops@example" 1000] /\
  (Submit demo_gen demo_uuid "sync" demo_request "ops@example" submitted).1 = inl ErrBusy.
Proof.
  split; [done|].
  assert (H1 : (Submit demo_gen demo_uuid "deploy" demo_request "ops@example" idle_world).1
               = inr (shown (new_job "0" "deploy" demo_request "ops@example" 1000))) by (vm_compute; reflexivity).
  pose proof (Submit_outcome demo_gen demo_uuid "deploy" demo_request "ops@example" idle_world eq_refl
    (List.Forall_nil _) eq_refl ltac:(vm_compute; apply not_elem_of_nil)) as H.
  unfold submitted. destruct (Submit demo_gen demo_uuid "deploy" demo_request "ops@example" idle_world) as [r w].
  cbn [fst] in H1. subst r. destruct H as (_ & Hw & _ & _). cbn [snd]. destruct w as [p f]. cbn [jw_pg] in Hw. subst p.
  split; vm_compute; reflexivity.
Defined.

Lemma refresh_lives_witness :
  exists l, jw_pg (refresh (runner_done submitted)).2 = MkPg (set_jobs l (tables (jw_pg submitted))) [] /\
    one_active (set_jobs l (tables (jw_pg submitted))) = true.
Proof.
  destruct (refresh_lives (runner_done submitted) eq_refl ltac:(vm_compute; reflexivity)
    ltac:(apply (bool_decide_unpack _); vm_compute; exact I)) as (l & Hl & _ & Ho).
  exists l. split; [exact Hl|exact Ho].
Defined.

Lemma refresh_finishes_witness :
  exists w l, refresh (runner_done submitted) = (inr tt, w) /\
    jw_pg w = MkPg (set_jobs l (tables (jw_pg submitted))) [] /\
    active_jobs (set_jobs l (tables (jw_pg submitted))) = [] /\ files (jw_dir w) !! "0.claim"%string = None.
Proof.
  destruct (refresh_finishes (new_job "0" "deploy" demo_request "ops@example" 1000)
    (Doc (JObj [("rc", JInt 75); ("detail", JStr "arrêt")]%string)) (MkResult 75 "arrêt") (runner_done submitted)
    eq_refl eq_refl ltac:(vm_compute; reflexivity) ltac:(apply (bool_decide_unpack _); vm_compute; exact I)
    ltac:(vm_compute; reflexivity) ltac:(vm_compute; reflexivity) ltac:(vm_compute; reflexivity))
    as (w & l & Hr & Hp & Ha & _ & Hf).
  exists w, l. split; [exact Hr|]. split; [exact Hp|]. split; [exact Ha|]. rewrite Hf. vm_compute. reflexivity.
Defined.

Lemma jobs_exclusive_witness :
  exclusive (jw_pg (Submit demo_gen demo_uuid "sync" demo_request "ops@example" submitted).2).
Proof.
  refine (proj1 (jobs_exclusive demo_gen demo_uuid "sync" demo_request "ops@example" submitted _)).
  split; [vm_compute; reflexivity|constructor].
Defined.
