(* ===== verification/Access.v ===== *)
(** * Accounts, sessions and rights of the control plane

    [control/internal/auth/session.go], [password.go],
    [control/internal/crypt/crypt.go] and the parts of
    [control/internal/api/api.go] and [session.go] that say who a request comes
    from and what it may do.  Argon2, SHA-256, TOTP and AES-GCM are the class
    [Crypto]; what [crypto/rand] gives is in the world.  Times are
    in seconds, those of the database ([clock]) and that of the process
    ([q_now]) being two clocks. *)
From Stdlib Require Import Ascii.
From S2P Require Import Prelude GoStr Json Base64 Httpx Dataplane Pg Inventory.

Local Open Scope list_scope.
Local Open Scope Z_scope.

(** ** Requests *)

(** A request as the handlers read it; [q_body] is the JSON value of the body,
    or the error of the decoder. *)
Record http_request : Type := MkHttp {
  q_method : string; q_headers : gmap string string; q_cookies : gmap string string;
  q_path : gmap string string; q_query : gmap string string;
  q_body : goerr + json; q_remote : string; q_now : Z
}.

Definition head (k : string) (r : http_request) : string := default EmptyString (q_headers r !! k).
Definition PathValue (k : string) (r : http_request) : string := default EmptyString (q_path r !! k).
Definition Query_Get (k : string) (r : http_request) : string := default EmptyString (q_query r !! k).

Definition dec_bool (v : json) : option bool :=
  match v with JNull => Some false | JBool b => Some b | _ => None end.

(** Two string fields, and one. *)
Definition dec_pair (k1 k2 : string) : json -> option (string * string) := dec_obj (fun l =>
  a ← dec_string (Dataplane.field k1 l); b ← dec_string (Dataplane.field k2 l); Some (a, b)).
Definition dec_one (k : string) : json -> option string := dec_obj (fun l => dec_string (Dataplane.field k l)).

(** ** The world of the API *)

Record cworld (X : Type) : Type := MkCw {
  cw_pg : pg;
  cw_rand : list string;     (* what the next reads of crypto/rand give *)
  cw_kick : bool;            (* a reconciliation has been asked for *)
  cw_triggers : nat;         (* certificate passes asked for *)
  cw_rest : X
}.
Arguments MkCw {X}.
Arguments cw_pg {X}.
Arguments cw_rand {X}.
Arguments cw_kick {X}.
Arguments cw_triggers {X}.
Arguments cw_rest {X}.

Class Crypto : Type := {
  sha256 : string -> string;
  argon2 : forall (password salt : string) (time memory threads len : Z), string;
  totp_generate : string -> string -> string -> goerr + (string * string);
  totp_validate : string -> string -> bool;
  gcm_seal : forall key nonce plaintext : string, string;
  gcm_open : forall key nonce ciphertext : string, goerr + string
}.

(** What a third party does to its own part of the world, and the predicates that
    do not speak of it. *)
Definition outside {X} (x : X) (w : cworld X) : cworld X := MkCw (cw_pg w) (cw_rand w) (cw_kick w) (cw_triggers w) x.

Definition untouched {X} (P : cworld X -> Prop) : Prop := forall x w, P w -> P (outside x w).

(** ** Passwords *)

Section Passwords.
Context {HC : Crypto}.

Definition RawStdEncoding : encoding := MkEncoding (alphabet +:+ "+/") false.

Definition HashPassword (salt password : string) : string :=
  ("$argon2id$v=19$m=65536,t=3,p=2$" +:+ encode RawStdEncoding salt +:+ "$"
   +:+ encode RawStdEncoding (argon2 password salt 3 65536 2 32))%string.

(** [%d] of [fmt.Sscanf]: spaces other than a line break, then decimal digits,
    within [max]. *)
Fixpoint take_digits (s : string) : string * string :=
  match s with
  | String a s' => if is_digit a then let '(d, r) := take_digits s' in (String a d, r) else (EmptyString, s)
  | EmptyString => (EmptyString, s)
  end.

Definition scan_uint (max : Z) (s : string) : option (Z * string) :=
  let '(d, r) := take_digits (trim_left (fun a => is_space a && negb (Ascii.eqb a (chr 10))) s) in
  n ← (if bool_decide (d = EmptyString) then None else parse_dec d);
  if n <=? max then Some (n, r) else None.

(** [fmt.Sscanf(s, "m=%d,t=%d,p=%d", &m, &t, &p)]. *)
Definition scan_params (s : string) : option (Z * Z * Z) :=
  s ← cut_prefix "m=" s; m ← scan_uint (2 ^ 32 - 1) s;
  s ← cut_prefix ",t=" m.2; t ← scan_uint (2 ^ 32 - 1) s;
  s ← cut_prefix ",p=" t.2; p ← scan_uint 255 s;
  Some (m.1, t.1, p.1).

Definition VerifyPassword (hash password : string) : bool :=
  match Split "$"%char hash with
  | [_; alg; _; params; salt; want] =>
      if negb (bool_decide (alg = "argon2id"%string)) then false
      else match scan_params params, decode RawStdEncoding salt, decode RawStdEncoding want with
           | Some (m, t, p), Some salt, Some want =>
               bool_decide (argon2 password salt t m p (Z.of_nat (String.length want)) = want)
           | _, _, _ => false
           end
  | _ => false
  end.

Definition CheckPasswordPolicy (pw : string) : option string :=
  if (String.length pw <? 12)%nat then Some "le mot de passe doit faire au moins 12 caractères"%string
  else if (200 <? String.length pw)%nat then Some "mot de passe trop long"%string
  else None.

Lemma RawStdEncoding_good : good RawStdEncoding = true.
Proof. vm_compute. reflexivity. Qed.

Lemma encode_no_dollar s : free_of "$"%char (encode RawStdEncoding s) = true.
Proof. by apply encode_forall. Qed.

Lemma VerifyPassword_made salt pw pw' :
  String.length (argon2 pw salt 3 65536 2 32) = 32%nat ->
  VerifyPassword (HashPassword salt pw) pw' =
    bool_decide (argon2 pw' salt 3 65536 2 32 = argon2 pw salt 3 65536 2 32).
Proof.
  intros Hlen. unfold VerifyPassword, HashPassword.
  assert (HS : Split "$"%char ("$argon2id$v=19$m=65536,t=3,p=2$" +:+ encode RawStdEncoding salt +:+ "$"
      +:+ encode RawStdEncoding (argon2 pw salt 3 65536 2 32))%string =
    [""; "argon2id"; "v=19"; "m=65536,t=3,p=2"; encode RawStdEncoding salt;
     encode RawStdEncoding (argon2 pw salt 3 65536 2 32)]%string).
  { rewrite <- (Split_Join "$"%char [""; "argon2id"; "v=19"; "m=65536,t=3,p=2"; encode RawStdEncoding salt;
     encode RawStdEncoding (argon2 pw salt 3 65536 2 32)]%string); [done|done|].
    repeat apply List.Forall_cons; try done; apply encode_no_dollar. }
  rewrite HS. rewrite !decode_encode by apply RawStdEncoding_good. rewrite Hlen. done.
Qed.

(** A hash made by [HashPassword] accepts a password exactly when
    Argon2 gives the two the same key; in particular it accepts the password it
    was made from. *)
Theorem VerifyPassword_HashPassword salt pw pw' :
  String.length (argon2 pw salt 3 65536 2 32) = 32%nat ->
  VerifyPassword (HashPassword salt pw) pw' =
    bool_decide (argon2 pw' salt 3 65536 2 32 = argon2 pw salt 3 65536 2 32).
Proof. exact (VerifyPassword_made salt pw pw'). Qed.

Definition hashToken (t : string) : string := hex_encode (sha256 t).
Definition HashKey (k : string) : string := hex_encode (sha256 k).

End Passwords.

(** ** Package [crypt]: secrets at rest *)

Section Crypt.
Context {HC : Crypto}.

Definition Parse (b64 : string) : goerr + string :=
  let bad := Err "FLYC_MASTER_KEY doit être 32 octets en base64" in
  match decode StdEncoding b64 with
  | Some k => if bool_decide (String.length k = 32%nat) then inr k else inl bad
  | None => inl bad
  end.

(** The sizes of key of AES; the nonce of GCM. *)
Definition NewCipher (k : string) : goerr + unit :=
  if existsb (Nat.eqb (String.length k)) [16; 24; 32]%nat then inr tt else inl (Err "crypto/aes: invalid key size").
Definition NonceSize : nat := 12.

Definition Seal (k nonce plaintext : string) : goerr + string :=
  match NewCipher k with
  | inl e => inl e
  | inr _ => inr (nonce +:+ gcm_seal k nonce plaintext)%string
  end.

Definition Open (k data : string) : goerr + string :=
  match NewCipher k with
  | inl e => inl e
  | inr _ =>
      if (String.length data <? NonceSize)%nat then inl (Err "données chiffrées tronquées")
      else gcm_open k (String.substring 0 NonceSize data) (String.substring NonceSize (String.length data - NonceSize) data)
  end.

Lemma substring_app_l (a b : string) : String.substring 0 (String.length a) (a +:+ b) = a.
Proof. induction a as [|x a IH]; [by destruct b|]. rewrite append_cons. simpl. by rewrite IH. Qed.

Lemma substring_all (b : string) : String.substring 0 (String.length b) b = b.
Proof. rewrite <- (string_app_nil_r b) at 2. apply substring_app_l. Qed.

Lemma substring_app_r (a b : string) : String.substring (String.length a) (String.length b) (a +:+ b) = b.
Proof. induction a as [|x a IH]; [apply substring_all|]. rewrite append_cons. simpl. exact IH. Qed.

(** With a key that [Parse] accepts, [Seal] succeeds and [Open] gives
    back what it was given, for every nonce of the size of GCM and every AES-GCM
    that opens what it seals. *)
Lemma Open_Seal b64 k nonce s :
  (forall k n p, String.length n = NonceSize -> gcm_open k n (gcm_seal k n p) = inr p) ->
  Parse b64 = inr k -> String.length nonce = NonceSize ->
  exists enc, Seal k nonce s = inr enc /\ Open k enc = inr s /\ enc <> EmptyString.
Proof.
  intros Hgcm Hk Hn. unfold Parse in Hk. destruct (decode _ _) as [k'|]; [|done].
  case_bool_decide as Hl; [|done]. injection Hk as ->.
  assert (Hc : NewCipher k = inr tt) by (unfold NewCipher; by rewrite Hl).
  unfold Seal, Open. rewrite Hc. eexists. split_and!; [done| |by destruct nonce].
  rewrite length_sapp, Hn. rewrite (proj2 (Nat.ltb_ge _ _)) by lia.
  rewrite Nat.add_comm, Nat.add_sub. rewrite <- Hn. rewrite substring_app_l, substring_app_r. by apply Hgcm.
Qed.

End Crypt.

(** ** Calls of the world *)

Section World.
Context {X : Type} {HC : Crypto}.

Definition set_cw_pg (p : pg) (w : cworld X) : cworld X :=
  MkCw p (cw_rand w) (cw_kick w) (cw_triggers w) (cw_rest w).
Definition at_pg {A} (m : M pg A) : M (cworld X) A := zoom cw_pg set_cw_pg m.

(** [_, _ = ...]. *)
Definition drop_err {A} (m : M (cworld X) A) : M (cworld X) unit := fun w => (inr tt, (m w).2).

(** [rand.Read]. *)
Definition draw : M (cworld X) string := fun w =>
  (inr (default EmptyString (List.hd_error (cw_rand w))),
   MkCw (cw_pg w) (tail (cw_rand w)) (cw_kick w) (cw_triggers w) (cw_rest w)).

Definition Kick : M (cworld X) unit := fun w =>
  (inr tt, MkCw (cw_pg w) (cw_rand w) true (cw_triggers w) (cw_rest w)).
Definition Trigger : M (cworld X) unit := fun w =>
  (inr tt, MkCw (cw_pg w) (cw_rand w) (cw_kick w) (S (cw_triggers w)) (cw_rest w)).

Definition RandomToken : M (cworld X) string := b ← draw; mret (encode RawURLEncoding b).
Definition NewKey : M (cworld X) string := b ← draw; mret ("flyc_" +:+ hex_encode b)%string.

(** ** Sessions *)

Definition CookieName : string := "flyc_session".
Definition hour_s : Z := 3600.
Definition SessionTTL : Z := 12 * hour_s.
Definition sessionSlid : Z := 1800.

Record User : Type := MkUsr {
  ID : string; Email : string; DisplayName : string; PlatformAdmin : bool; TOTPEnabled : bool; MustChangePassword : bool
}.

Definition with_sessions (l : list session_row) (d : cdb) : cdb :=
  let a := accounts_ d in set_accounts (MkAccounts (users a) (memberships a) (api_keys a) l (oidc_states a)) d.
Definition with_users (l : list user_row) (d : cdb) : cdb :=
  let a := accounts_ d in set_accounts (MkAccounts l (memberships a) (api_keys a) (sessions a) (oidc_states a)) d.
Definition with_keys (l : list apikey_row) (d : cdb) : cdb :=
  let a := accounts_ d in set_accounts (MkAccounts (users a) (memberships a) l (sessions a) (oidc_states a)) d.

Definition update_user (id : string) (f : user_row -> user_row) (d : cdb) : cdb :=
  with_users (map (fun u => if String.eqb (u_id u) id then f u else u) (users (accounts_ d))) d.

(** The insertion of a session: its key, and the account it refers to. *)
Definition insert_session (s : session_row) (d : cdb) : goerr + (unit * cdb) :=
  if existsb (fun x => String.eqb (ss_id x) (ss_id s)) (sessions (accounts_ d)) then inl (ErrPg "23505" "sessions_pkey")
  else if existsb (fun u => String.eqb (u_id u) (ss_user s)) (users (accounts_ d))
  then inr (tt, with_sessions (sessions (accounts_ d) ++ [s]) d)
  else inl (ErrPg "23503" "sessions_user_id_fkey").

Definition logged_in (now : Z) (u : user_row) : user_row :=
  MkUser (u_id u) (u_email u) (u_hash u) (u_subject u) (u_totp u) (u_totp_on u) (u_admin u) (u_must_change u)
    (u_display u) (u_created u) (Some now).

(** [Create]: gives the value of the cookie it sets. *)
Definition Create (r : http_request) (userID : string) : M (cworld X) string :=
  tok ← RandomToken;
  let ip := if bool_decide (head "X-Real-IP" r = EmptyString) then q_remote r else head "X-Real-IP" r in
  let ua := String.substring 0 200 (head "User-Agent" r) in
  at_pg (Exec (insert_session (MkSession (hashToken tok) userID (q_now r + SessionTTL) ip ua))) ≫= fun _ =>
  drop_err (at_pg (Exec_ (fun d => update_user userID (logged_in (clock d)) d))) ≫= fun _ =>
  mret tok.

Definition user_of (u : user_row) : User :=
  MkUsr (u_id u) (u_email u) (u_display u) (u_admin u) (u_totp_on u) (u_must_change u).

(** The session of a token that has not expired, and its account. *)
Definition q_session (h : string) (d : cdb) : option (User * Z) :=
  s ← by_id ss_id h (sessions (accounts_ d));
  if clock d <? ss_expires s
  then u ← by_id u_id (ss_user s) (users (accounts_ d)); Some (user_of u, ss_expires s)
  else None.

Definition prolong (h : string) (exp : Z) (d : cdb) : cdb :=
  with_sessions (map (fun s => if String.eqb (ss_id s) h
                               then MkSession (ss_id s) (ss_user s) exp (ss_ip s) (ss_agent s) else s)
                     (sessions (accounts_ d))) d.

Definition Current (r : http_request) : M (cworld X) (option User) := fun w =>
  let v := default EmptyString (q_cookies r !! CookieName) in
  if bool_decide (v = EmptyString) then (inr None, w)
  else match at_pg (QueryRow (q_session (hashToken v))) w with
       | (inl ErrNoRows, w1) => (inr None, w1)
       | (inl e, w1) => (inl e, w1)
       | (inr (u, exp), w1) =>
           if exp - q_now r <? SessionTTL - sessionSlid
           then (inr (Some u), (at_pg (Exec_ (prolong (hashToken v) (q_now r + SessionTTL))) w1).2)
           else (inr (Some u), w1)
       end.

Definition Destroy (r : http_request) : M (cworld X) unit :=
  match q_cookies r !! CookieName with
  | Some v => drop_err (at_pg (Exec_ (fun d =>
      with_sessions (base.filter (fun s => ss_id s <> hashToken v) (sessions (accounts_ d))) d)))
  | None => mret tt
  end.

Definition DestroyAll (userID : string) : M (cworld X) unit :=
  drop_err (at_pg (Exec_ (fun d =>
    with_sessions (base.filter (fun s => ss_user s <> userID) (sessions (accounts_ d))) d))).

(** Sessions that have expired, and the states of OIDC older than a quarter of
    an hour. *)
Definition Purge : M (cworld X) unit :=
  drop_err (at_pg (Exec_ (fun d =>
    with_sessions (base.filter (fun s => clock d <= ss_expires s) (sessions (accounts_ d))) d))) ≫= fun _ =>
  drop_err (at_pg (Exec_ (fun d =>
    let a := accounts_ d in
    set_accounts (MkAccounts (users a) (memberships a) (api_keys a) (sessions a)
      (base.filter (fun o => clock d - 900 <= oi_created o) (oidc_states a))) d))).

End World.

(** ** Who a request comes from *)

Record principal : Type := MkPrincipal {
  p_keyID : string; p_tenantID : string; p_tenant : string; p_platform : bool;
  p_role : string; p_user : option User; p_session : bool
}.

Definition no_one : principal := MkPrincipal EmptyString EmptyString EmptyString false EmptyString None false.

(** A role that is not one has rank 0. *)
Definition roleRank (role : string) : Z :=
  if String.eqb role "viewer" then 1 else if String.eqb role "operator" then 2
  else if String.eqb role "admin" then 3 else if String.eqb role "owner" then 4 else 0.

Definition allows (p : principal) (minRole : string) : bool :=
  if negb (p_session p) || p_platform p then true else roleRank minRole <=? roleRank (p_role p).

(** [httpx.Error] for a database error; the message of a violated constraint
    is given as the name of the constraint. *)
Definition dbErr (e : goerr) : resp :=
  match e with
  | ErrPg code msg =>
      if String.eqb code "23505" then Error 409 "conflict" ("existe déjà : " +:+ msg)%string
      else if String.eqb code "23514" || String.eqb code "22P02" then Error 400 "invalid" msg
      else if String.eqb code "23503" then Error 400 "invalid_reference" msg
      else Error 500 "db" (error_text e)
  | ErrNoRows => Error 404 "not_found" "introuvable"
  | _ => Error 500 "db" (error_text e)
  end.

Section Rights.
Context {X : Type} {HC : Crypto} {HO : Collation}.

Definition tenant_by_slug (slug : string) (d : cdb) : option (string * string) :=
  (fun t => (t_id t, t_slug t)) <$> by_id t_slug slug (tenants d).

(** The memberships of an account, with their tenant; the one asked for, or
    the first by slug. *)
Definition q_member (user slug : string) (d : cdb) : option (string * string * string) :=
  List.hd_error (merge_sort (by1 (fun m => m.1.2)) (omap (fun m =>
    if bool_decide (m_user m = user)
    then t ← by_id t_id (m_tenant m) (tenants d);
         if bool_decide (slug = EmptyString) || bool_decide (t_slug t = slug)
         then Some (t_id t, t_slug t, m_role m) else None
    else None) (memberships (accounts_ d)))).

Definition authenticateSession (r : http_request) : M (cworld X) principal := fun w =>
  match Current r w with
  | (inl e, w1) => (inl e, w1)
  | (inr None, w1) => (inl (Err "non connecté"), w1)
  | (inr (Some u), w1) =>
      if negb (String.eqb (q_method r) "GET") && negb (String.eqb (head "X-Requested-With" r) "flyc")
      then (inl (Err "en-tête X-Requested-With requis"), w1)
      else
        let slug := head "X-Flyc-Tenant" r in
        if PlatformAdmin u then
          if bool_decide (slug = EmptyString)
          then (inr (MkPrincipal EmptyString EmptyString EmptyString true "owner" (Some u) true), w1)
          else match at_pg (QueryRow (tenant_by_slug slug)) w1 with
               | (inl _, w2) => (inl (Err "tenant inconnu"), w2)
               | (inr (i, s), w2) => (inr (MkPrincipal EmptyString i s true "owner" (Some u) true), w2)
               end
        else match at_pg (QueryRow (q_member (ID u) slug)) w1 with
             | (inl ErrNoRows, w2) =>
                 if bool_decide (slug = EmptyString)
                 then (inr (MkPrincipal EmptyString EmptyString EmptyString false EmptyString (Some u) true), w2)
                 else (inl (Err "vous n'êtes pas membre de ce tenant"), w2)
             | (inl e, w2) => (inl e, w2)
             | (inr (i, s, role), w2) => (inr (MkPrincipal EmptyString i s false role (Some u) true), w2)
             end
  end.

Definition q_key (h : string) (d : cdb) : option (apikey_row * string) :=
  k ← by_id ak_hash h (api_keys (accounts_ d));
  Some (k, default EmptyString (i ← ak_tenant k; t_slug <$> by_id t_id i (tenants d))).

Definition key_used (id : string) (d : cdb) : cdb :=
  with_keys (map (fun k => if String.eqb (ak_id k) id
                           then MkApiKey (ak_id k) (ak_tenant k) (ak_name k) (ak_hash k) (ak_created k) (Some (clock d))
                           else k) (api_keys (accounts_ d))) d.

Definition bearer_key (r : http_request) : option string :=
  TrimSpace <$> cut_prefix "Bearer " (head "Authorization" r).

Definition authenticate (r : http_request) : M (cworld X) principal := fun w =>
  match bearer_key r with
  | None => authenticateSession r w
  | Some key =>
      match at_pg (QueryRow (q_key (HashKey key))) w with
      | (inl _, w1) => (inl (Err "clé API invalide"), w1)
      | (inr (k, slug), w1) =>
          let w2 := (at_pg (Exec_ (key_used (ak_id k))) w1).2 in
          match ak_tenant k with
          | Some t => (inr (MkPrincipal (ak_id k) t slug false EmptyString None false), w2)
          | None =>
              let asked := head "X-Flyc-Tenant" r in
              if bool_decide (asked = EmptyString)
              then (inr (MkPrincipal (ak_id k) EmptyString slug true EmptyString None false), w2)
              else match at_pg (QueryRow (tenant_by_slug asked)) w2 with
                   | (inl _, w3) => (inl (Err "tenant inconnu"), w3)
                   | (inr (i, s), w3) => (inr (MkPrincipal (ak_id k) i s true EmptyString None false), w3)
                   end
          end
      end
  end.

(** ** Handlers

    [HM A] is the body of a handler: an early [return] leaves with the answer
    it has written. *)
Definition HM (A : Type) : Type := cworld X -> (resp + A) * cworld X.

#[export] Instance HM_ret : MRet HM := fun A a w => (inr a, w).
#[export] Instance HM_bind : MBind HM := fun A B f m w =>
  match m w with
  | (inl r, w') => (inl r, w')
  | (inr a, w') => f a w'
  end.

Definition reply {A} (r : resp) : HM A := fun w => (inl r, w).
Definition require (b : bool) (r : resp) : HM unit := if b then mret tt else reply r.

(** [if err != nil { k(err); return }]. *)
Definition attempt {A} (k : goerr -> resp) (m : M (cworld X) A) : HM A := fun w =>
  match m w with
  | (inl e, w') => (inl (k e), w')
  | (inr a, w') => (inr a, w')
  end.
Definition or_db {A} (m : M pg A) : HM A := attempt dbErr (at_pg m).
(** A call whose error is a value. *)
Definition tried {A} (m : M (cworld X) A) : HM (goerr + A) := fun w => let '(r, w') := m w in (inr r, w').
Definition quietly_ {A} (m : M (cworld X) A) : HM unit := fun w => (inr tt, (m w).2).

(** A random value, inside a handler. *)
Definition drawn : HM string := fun w => (inr (default EmptyString (List.hd_error (cw_rand w))), (draw w).2).

Definition served (h : HM resp) : cworld X -> resp * cworld X := fun w =>
  match h w with (inl r, w') | (inr r, w') => (r, w') end.

(** [decode]: the text of a type error is not kept. *)
Definition decode {A} (r : http_request) (dec : json -> option A) : HM A :=
  match q_body r with
  | inl e => reply (Error 400 "bad_json" (error_text e))
  | inr v => match dec v with
             | Some a => mret a
             | None => reply (Error 400 "bad_json" "json: cannot unmarshal")
             end
  end.

Definition audit (p : principal) (action : string) (diff : json) : HM unit :=
  quietly_ (at_pg (Exec_ (add_audit (MkAudit (if bool_decide (p_tenantID p = EmptyString) then None else Some (p_tenantID p))
                                       action (marshal diff))))).

Definition handler : Type := http_request -> principal -> HM resp.

Definition unauthorized (e : goerr) : resp := Error 401 "unauthorized" (error_text e).

Definition platform (h : handler) (r : http_request) : HM resp :=
  p ← attempt unauthorized (authenticate r);
  require (p_platform p) (Error 403 "forbidden" "clé plateforme requise") ≫= fun _ => h r p.

Definition tenant (minRole : string) (h : handler) (r : http_request) : HM resp :=
  p ← attempt unauthorized (authenticate r);
  require (negb (bool_decide (p_tenantID p = EmptyString)))
    (Error 400 "no_tenant" "précisez le tenant avec X-Flyc-Tenant") ≫= fun _ =>
  require (allows p minRole) (Error 403 "forbidden" ("rôle insuffisant : " +:+ minRole +:+ " requis")%string) ≫= fun _ =>
  h r p.

Definition session (h : handler) (r : http_request) : HM resp :=
  p ← attempt unauthorized (authenticateSession r); h r p.

Definition me (r : http_request) : HM resp :=
  p ← attempt unauthorized (authenticate r);
  mret (JSON 200 (JObj [("platform", JBool (p_platform p)); ("role", JStr (p_role p));
                        ("session", JBool (p_session p)); ("tenant", JStr (p_tenant p))]%string)).

End Rights.

(** ** Rights *)

Section Guards.
Context {X : Type} {HC : Crypto} {HO : Collation}.

Definition quiet_w (w : cworld X) : Prop := quiet (cw_pg w).
Definition db (w : cworld X) : cdb := tables (cw_pg w).

Lemma at_pg_query {A} (q : cdb -> option A) w : quiet_w w ->
  at_pg (QueryRow q) w = (match q (db w) with Some a => inr a | None => inl ErrNoRows end, w).
Proof.
  unfold quiet_w, quiet, at_pg, zoom, QueryRow, turn, set_cw_pg, db. destruct w as [[d l] rd k t x]. simpl.
  by intros ->.
Qed.

Lemma at_pg_exec_ f w : quiet_w w -> at_pg (Exec_ f) w = (inr tt, set_cw_pg (MkPg (f (db w)) []) w).
Proof.
  unfold quiet_w, quiet, at_pg, zoom, Exec_, Exec, turn, set_cw_pg, db. destruct w as [[d l] rd k t x]. simpl.
  by intros ->.
Qed.

Lemma at_pg_exec {A} (f : cdb -> goerr + (A * cdb)) w : quiet_w w ->
  at_pg (Exec f) w = match f (db w) with
                     | inl e => (inl e, w)
                     | inr (a, d') => (inr a, set_cw_pg (MkPg d' []) w)
                     end.
Proof.
  unfold quiet_w, quiet, at_pg, zoom, Exec, turn, set_cw_pg, db. destruct w as [[d l] rd k t x]. simpl.
  intros ->. by destruct (f d) as [e|[a d']].
Qed.

(** ** Handlers over a quiet database: each call in one step *)

Definition with_db (d : cdb) (w : cworld X) : cworld X := set_cw_pg (MkPg d []) w.

Lemma HM_bind_eq {A B} (f : A -> @HM X B) (m : @HM X A) w :
  (m ≫= f) w = match m w with (inl r, w') => (inl r, w') | (inr a, w') => f a w' end.
Proof. done. Qed.

Lemma require_eq b a (w : cworld X) : require b a w = if b then (inr tt, w) else (inl a, w).
Proof. by destruct b. Qed.

Lemma or_db_exec {A} (f : cdb -> goerr + (A * cdb)) w : quiet_w w ->
  or_db (Exec f) w = match f (db w) with inl e => (inl (dbErr e), w) | inr (a, d') => (inr a, with_db d' w) end.
Proof. intros Hq. unfold or_db, attempt. rewrite at_pg_exec by done. by destruct (f (db w)) as [e|[a d']]. Qed.

Lemma or_db_exec_ f w : quiet_w w -> or_db (Exec_ f) w = (inr tt, with_db (f (db w)) w).
Proof. intros Hq. unfold or_db, attempt. by rewrite at_pg_exec_. Qed.

Lemma or_db_query {A} (q : cdb -> option A) w : quiet_w w ->
  or_db (QueryRow q) w = (match q (db w) with Some a => inr a | None => inl (dbErr ErrNoRows) end, w).
Proof. intros Hq. unfold or_db, attempt. rewrite at_pg_query by done. by destruct (q (db w)). Qed.

Lemma or_db_rows {A} (q : cdb -> list A) w : quiet_w w -> or_db (Query q) w = (inr (inr <$> q (db w), None), w).
Proof. intros Hq. unfold or_db, attempt, at_pg, zoom. rewrite Query_quiet by done. by destruct w. Qed.

Lemma tried_query {A} (q : cdb -> option A) w : quiet_w w ->
  tried (at_pg (QueryRow q)) w = (inr (match q (db w) with Some a => inr a | None => inl ErrNoRows end), w).
Proof. intros Hq. unfold tried. by rewrite at_pg_query. Qed.

Lemma quietly_exec_ f w : quiet_w w -> quietly_ (at_pg (Exec_ f)) w = (inr tt, with_db (f (db w)) w).
Proof. intros Hq. unfold quietly_. by rewrite at_pg_exec_. Qed.

Lemma audit_quiet p action diff w : quiet_w w ->
  exists a, audit p action diff w = (inr tt, with_db (add_audit a (db w)) w).
Proof. intros Hq. eexists. unfold audit. by rewrite quietly_exec_. Qed.

Lemma quiet_with_db d w : quiet_w (with_db d w).
Proof. done. Qed.
Lemma db_with_db d w : db (with_db d w) = d.
Proof. done. Qed.
Lemma with_db_with_db d d' w : with_db d (with_db d' w) = with_db d w.
Proof. done. Qed.
Lemma accounts_audit a d : accounts_ (add_audit a d) = accounts_ d.
Proof. done. Qed.

Lemma drawn_eq (w : cworld X) : drawn w = (inr (default EmptyString (List.hd_error (cw_rand w))), (draw w).2).
Proof. done. Qed.
Lemma quiet_draw (w : cworld X) : quiet_w w -> quiet_w (draw w).2.
Proof. done. Qed.
Lemma db_draw (w : cworld X) : db (draw w).2 = db w.
Proof. done. Qed.

(** A session of the account [u] that has not expired. *)
Definition live_session (d : cdb) (r : http_request) (u : user_row) : Prop :=
  exists s, s ∈ sessions (accounts_ d) /\ clock d < ss_expires s /\
    ss_id s = hashToken (default EmptyString (q_cookies r !! CookieName)) /\
    u ∈ users (accounts_ d) /\ u_id u = ss_user s.

(** What entitles a request to act as [p]. *)
Inductive entitled (d : cdb) (r : http_request) (p : principal) : Prop :=
| by_tenant_key key k :
    bearer_key r = Some key -> k ∈ api_keys (accounts_ d) -> ak_hash k = HashKey key ->
    ak_tenant k = Some (p_tenantID p) -> p_platform p = false -> p_session p = false -> entitled d r p
| by_platform_key key k :
    bearer_key r = Some key -> k ∈ api_keys (accounts_ d) -> ak_hash k = HashKey key ->
    ak_tenant k = None -> p_platform p = true -> p_session p = false -> entitled d r p
| by_admin u :
    live_session d r u -> u_admin u = true -> p_platform p = true -> p_session p = true -> entitled d r p
| by_member u m :
    live_session d r u -> p_platform p = false -> p_session p = true ->
    m ∈ memberships (accounts_ d) -> m_user m = u_id u -> m_tenant m = p_tenantID p -> m_role m = p_role p ->
    entitled d r p
| by_account u :
    live_session d r u -> p_platform p = false -> p_session p = true -> p_tenantID p = EmptyString -> entitled d r p.

(** What authenticating may write: the last use of a key, the end of a
    session. *)
Definition touched (d d' : cdb) : Prop :=
  d' = d \/ (exists i, d' = key_used i d) \/ exists h e, d' = prolong h e d.

Lemma Current_sound r w res w' : quiet_w w -> Current r w = (res, w') ->
  quiet_w w' /\ touched (db w) (db w') /\ tenants (db w') = tenants (db w) /\
  memberships (accounts_ (db w')) = memberships (accounts_ (db w)) /\
  match res with
  | inr (Some u) => exists row, live_session (db w) r row /\ u = user_of row
  | _ => True
  end.
Proof.
  intros Hq. unfold Current. set (v := default EmptyString _).
  case_bool_decide; [by intros [= <- <-]; split_and!; auto; left|].
  rewrite at_pg_query by done. unfold q_session.
  destruct (by_id ss_id (hashToken v) _) as [s|] eqn:Hs; simpl; [|by intros [= <- <-]; split_and!; auto; left].
  destruct (Z.ltb_spec (clock (db w)) (ss_expires s)) as [He|He]; [|by intros [= <- <-]; split_and!; auto; left].
  destruct (by_id u_id (ss_user s) _) as [u|] eqn:Hu; simpl; [|by intros [= <- <-]; split_and!; auto; left].
  apply by_id_elem in Hs as [Hs Hid], Hu as [Hu Huid].
  assert (Hlive : live_session (db w) r u) by (exists s; split_and!; done).
  case_match; [rewrite at_pg_exec_ by done|]; intros [= <- <-]; (split_and!; [done| |done|done|eauto]); [|by left].
  right; right; eauto.
Qed.

Lemma q_member_inv user slug d i s role : q_member user slug d = Some (i, s, role) ->
  exists m, m ∈ memberships (accounts_ d) /\ m_user m = user /\ m_tenant m = i /\ m_role m = role.
Proof.
  unfold q_member. intros Hh.
  match type of Hh with List.hd_error ?l = _ => assert (Hin : (i, s, role) ∈ l) by (destruct l; simplify_eq/=; by left) end.
  rewrite merge_sort_Permutation in Hin. apply list_elem_of_omap in Hin as (m & Hm & Hx).
  case_bool_decide; [|done]. destruct (by_id t_id (m_tenant m) (tenants d)) as [t|] eqn:Ht; [|done]. simpl in Hx.
  destruct (_ || _); simplify_eq. apply by_id_elem in Ht as [_ Ht]. eauto.
Qed.

Lemma authenticateSession_sound r w p w' : quiet_w w -> authenticateSession r w = (inr p, w') ->
  quiet_w w' /\ touched (db w) (db w') /\ entitled (db w) r p.
Proof.
  intros Hq. unfold authenticateSession. destruct (Current r w) as [res w1] eqn:HC1.
  apply Current_sound in HC1 as (Hq1 & Ht & Hten & Hmem & Hu); [|done].
  destruct res as [e|[u|]]; [done| |done]. destruct Hu as (row & Hlive & ->).
  destruct (_ && _); [done|]. change (PlatformAdmin (user_of row)) with (u_admin row).
  destruct (u_admin row) eqn:Hadm.
  - case_bool_decide.
    + intros [= <- <-]. split_and!; [done..|]. by eapply by_admin.
    + rewrite at_pg_query by done. destruct (tenant_by_slug _ _) as [[i s]|]; [|done].
      intros [= <- <-]. split_and!; [done..|]. by eapply by_admin.
  - rewrite at_pg_query by done. destruct (q_member _ _ _) as [[[i s] role]|] eqn:Hm.
    + intros [= <- <-]. split_and!; [done..|]. apply q_member_inv in Hm as (m & Hm & Hmu & Hmt & Hmr).
      rewrite Hmem in Hm. eapply (by_member _ _ _ row m); try done.
    + case_bool_decide; [|done]. intros [= <- <-]. split_and!; [done..|]. by eapply by_account.
Qed.

Lemma authenticate_sound r w p w' : quiet_w w -> authenticate r w = (inr p, w') ->
  quiet_w w' /\ touched (db w) (db w') /\ entitled (db w) r p.
Proof.
  intros Hq. unfold authenticate. destruct (bearer_key r) as [key|] eqn:Hb; [|by apply authenticateSession_sound].
  rewrite at_pg_query by done. unfold q_key.
  destruct (by_id ak_hash (HashKey key) _) as [k|] eqn:Hk; [|done]. cbn [mbind option_bind].
  apply by_id_elem in Hk as [Hk Hh]. rewrite at_pg_exec_ by done. cbn [snd].
  set (w2 := set_cw_pg _ w). assert (Hq2 : quiet_w w2) by done.
  assert (Ht : touched (db w) (db w2)) by (right; left; eexists; done).
  destruct (ak_tenant k) as [t|] eqn:Hkt.
  - intros [= <- <-]. split_and!; [done..|]. by eapply by_tenant_key.
  - case_bool_decide.
    + intros [= <- <-]. split_and!; [done..|]. by eapply by_platform_key.
    + rewrite at_pg_query by done. destruct (tenant_by_slug _ _) as [[i s]|]; [|done].
      intros [= <- <-]. split_and!; [done..|]. by eapply by_platform_key.
Qed.

Lemma authenticateSession_touches r w res w' : quiet_w w -> authenticateSession r w = (res, w') ->
  quiet_w w' /\ touched (db w) (db w').
Proof.
  intros Hq. unfold authenticateSession. destruct (Current r w) as [cur w1] eqn:HC1.
  apply Current_sound in HC1 as (Hq1 & Ht & _); [|done].
  destruct cur as [e|[u|]]; [by intros [= _ <-]| |by intros [= _ <-]].
  destruct (_ && _); [by intros [= _ <-]|]. destruct (PlatformAdmin u).
  - case_bool_decide; [by intros [= _ <-]|]. rewrite at_pg_query by done.
    destruct (tenant_by_slug _ _) as [[i s]|]; by intros [= _ <-].
  - rewrite at_pg_query by done. destruct (q_member _ _ _) as [[[i s] role]|]; [by intros [= _ <-]|].
    case_bool_decide; by intros [= _ <-].
Qed.

Lemma authenticate_touches r w res w' : quiet_w w -> authenticate r w = (res, w') -> quiet_w w' /\ touched (db w) (db w').
Proof.
  intros Hq. unfold authenticate. destruct (bearer_key r) as [key|]; [|by apply authenticateSession_touches].
  rewrite at_pg_query by done. destruct (q_key _ _) as [[k slug]|]; [|intros [= _ <-]; split; [done|by left]].
  rewrite at_pg_exec_ by done. cbn [snd].
  set (w2 := set_cw_pg _ w). assert (Hq2 : quiet_w w2) by done.
  assert (Ht : touched (db w) (db w2)) by (right; left; eexists; done).
  destruct (ak_tenant k); [by intros [= _ <-]|]. case_bool_decide; [by intros [= _ <-]|].
  rewrite at_pg_query by done. destruct (tenant_by_slug _ _) as [[i s]|]; by intros [= _ <-].
Qed.

(** An answer that keeps the handler from running. *)
Definition kept_out (codes : list Z) (d : cdb) (o : (resp + resp) * cworld X) : Prop :=
  exists a w, o = (inl a, w) /\ r_code a ∈ codes /\ quiet_w w /\ touched d (db w).

(** The handler of a tenant route runs only for a request entitled
    to act on a tenant: a key of that tenant, a key of the platform, the session
    of an administrator, or the session of a member of that tenant whose role is
    at least the one the route asks for.  Every other request is answered 400,
    401 or 403 and changes nothing but the last use of its key or the end of its
    session. *)
Theorem tenant_guard minRole (h : @handler X) r w :
  quiet_w w ->
  (exists p w1, authenticate r w = (inr p, w1) /\ entitled (db w) r p /\ p_tenantID p <> EmptyString /\
     (p_session p = true -> p_platform p = false -> roleRank minRole <= roleRank (p_role p)) /\
     tenant minRole h r w = h r p w1) \/
  kept_out [400; 401; 403] (db w) (tenant minRole h r w).
Proof.
  intros Hq. unfold tenant, attempt, require, mbind, HM_bind, kept_out.
  destruct (authenticate r w) as [[e|p] w1] eqn:Ha; pose proof (authenticate_touches _ _ _ _ Hq Ha) as [Hqt Ht].
  { right. eexists _, _. split_and!; [done|set_solver|done|done]. }
  apply authenticate_sound in Ha as (Hq1 & _ & He); [|done].
  case_bool_decide as Hn; cbn [negb].
  { right. eexists _, _. split_and!; [done|set_solver|done|done]. }
  destruct (allows p minRole) eqn:Hal.
  - left. exists p, w1. split_and!; [done..| |done]. unfold allows in Hal. intros Hs Hp.
    rewrite Hs, Hp in Hal. by apply Z.leb_le in Hal.
  - right. eexists _, _. split_and!; [done|set_solver|done|done].
Qed.

(** The same of the routes of the platform. *)
Lemma platform_guard (h : @handler X) r w :
  quiet_w w ->
  (exists p w1, authenticate r w = (inr p, w1) /\ entitled (db w) r p /\ p_platform p = true /\
     platform h r w = h r p w1) \/
  kept_out [401; 403] (db w) (platform h r w).
Proof.
  intros Hq. unfold platform, attempt, require, mbind, HM_bind, kept_out.
  destruct (authenticate r w) as [[e|p] w1] eqn:Ha; pose proof (authenticate_touches _ _ _ _ Hq Ha) as [Hqt Ht].
  { right. eexists _, _. split_and!; [done|set_solver|done|done]. }
  apply authenticate_sound in Ha as (Hq1 & _ & He); [|done].
  destruct (p_platform p) eqn:Hp.
  - left. by exists p, w1.
  - right. eexists _, _. split_and!; [done|set_solver|done|done].
Qed.

(** ** The life of a session *)

Lemma RandomToken_quiet w : quiet_w w ->
  exists tok w1, RandomToken w = (inr tok, w1) /\ quiet_w w1 /\ db w1 = db w.
Proof. intros Hq. by eexists _, _. Qed.

Lemma Create_quiet r i w tok w' : quiet_w w -> Create r i w = (inr tok, w') ->
  exists s u, ss_id s = hashToken tok /\ ss_user s = i /\ ss_expires s = q_now r + SessionTTL /\ quiet_w w' /\
    hashToken tok ∉ ss_id <$> sessions (accounts_ (db w)) /\ u ∈ users (accounts_ (db w)) /\ u_id u = i /\
    db w' = update_user i (logged_in (clock (db w))) (with_sessions (sessions (accounts_ (db w)) ++ [s]) (db w)).
Proof.
  intros Hq Hs. destruct (RandomToken_quiet w Hq) as (t & w1 & Ht & Hq1 & Hdb).
  unfold Create in Hs. M_inv.
  rewrite Ht in Hm. injection Hm as <- <-.
  rewrite at_pg_exec in Hm0 by done. unfold insert_session in Hm0. rewrite Hdb in Hm0.
  destruct (existsb _ (sessions _)) eqn:Hx1; [done|]. destruct (existsb _ (users _)) eqn:Hx2; [|done].
  simplify_eq. unfold drop_err in Hm1. rewrite at_pg_exec_ in Hm1 by done. simplify_eq.
  apply existsb_exists in Hx2 as (u & Hu%list_elem_of_In & He%String.eqb_eq).
  assert (Hnew : hashToken t ∉ ss_id <$> sessions (accounts_ (db w))).
  { intros (x & Hx & Hin)%list_elem_of_fmap. apply not_true_iff_false in Hx1. apply Hx1, existsb_exists.
    exists x. split; [by apply list_elem_of_In|]. simpl. rewrite <- Hx. apply String.eqb_refl. }
  exists (MkSession (hashToken t) i (q_now r + SessionTTL)
    (if bool_decide (head "X-Real-IP" r = EmptyString) then q_remote r else head "X-Real-IP" r)
    (String.substring 0 200 (head "User-Agent" r))), u.
  split_and!; done.
Qed.

Lemma Create_fails r i w e w' : quiet_w w -> Create r i w = (inl e, w') -> quiet_w w' /\ db w' = db w.
Proof.
  intros Hq. destruct (RandomToken_quiet w Hq) as (t & w1 & Ht & Hq1 & Hdb).
  unfold Create, mbind, M_bind. rewrite Ht. rewrite at_pg_exec by done.
  destruct (insert_session _ _) as [e1|[[] d]]; [by intros [= _ <-]|]. unfold drop_err, mret, M_ret. done.
Qed.

Lemma by_id_update i j (f : user_row -> user_row) l : (forall u, u_id (f u) = u_id u) ->
  by_id u_id i (map (fun u => if String.eqb (u_id u) j then f u else u) l) =
  (fun u => if String.eqb i j then f u else u) <$> by_id u_id i l.
Proof.
  intros Hf. induction l as [|u l IH]; [done|]. simpl. rewrite !by_id_cons, IH.
  assert (Hi : u_id (if String.eqb (u_id u) j then f u else u) = u_id u) by 
    by (destruct (String.eqb (u_id u) j); [apply Hf|done]).
  rewrite Hi. case_decide as He; [|done]. by rewrite <- He.
Qed.

Lemma by_id_prolong h e l : by_id ss_id h (map (fun s => if String.eqb (ss_id s) h
    then MkSession (ss_id s) (ss_user s) e (ss_ip s) (ss_agent s) else s) l) =
  (fun s => MkSession (ss_id s) (ss_user s) e (ss_ip s) (ss_agent s)) <$> by_id ss_id h l.
Proof.
  induction l as [|s l IH]; [done|]. simpl. rewrite !by_id_cons, IH.
  destruct (String.eqb_spec (ss_id s) h) as [He|He]; simpl; by case_decide.
Qed.

Lemma sessions_with l d : sessions (accounts_ (with_sessions l d)) = l.
Proof. by destruct d. Qed.

(** What a valid session gives, when it has been created by [Create]. *)
Lemma q_session_created r i w tok w1 d : quiet_w w -> Create r i w = (inr tok, w1) ->
  accounts_ d = accounts_ (db w1) ->
  exists row, by_id u_id i (users (accounts_ (db w))) = Some row /\
    q_session (hashToken tok) d =
      if clock d <? q_now r + SessionTTL then Some (user_of row, q_now r + SessionTTL) else None.
Proof.
  intros Hq Hs Hd. destruct (Create_quiet _ _ _ _ _ Hq Hs) as (s & u & Hid & Hus & Hex & _ & Hn & Hu & Hui & Hdb).
  destruct (by_id u_id i (users (accounts_ (db w)))) as [row|] eqn:Hrow.
  2:{ apply by_id_None in Hrow. exfalso. apply Hrow, list_elem_of_fmap. by exists u. }
  exists row. split; [done|]. unfold q_session. rewrite Hd, Hdb. simpl. rewrite by_id_app.
  replace (by_id ss_id (hashToken tok) _) with (@None session_row) by (symmetry; by apply by_id_None).
  rewrite by_id_cons, decide_True by done. cbn [mbind option_bind]. rewrite Hex. case_match; [|done].
  rewrite by_id_update by done. rewrite Hus, Hrow. simpl. by rewrite String.eqb_refl.
Qed.

(** Claim C19: a session opened by [Create] is worth the account it was opened
    for until [SessionTTL] after its creation, by the database's clock, and
    nothing afterwards; each use leaves it at least [SessionTTL] less
    [sessionSlid] to live; after [Destroy], or [DestroyAll] of its account, its
    cookie is worth nothing. *)
Theorem session_life r i w tok w1 r2 w2 :
  quiet_w w -> Create r i w = (inr tok, w1) ->
  quiet_w w2 -> accounts_ (db w2) = accounts_ (db w1) -> q_cookies r2 !! CookieName = Some tok -> tok <> EmptyString ->
  exists row, by_id u_id i (users (accounts_ (db w))) = Some row /\
  (Current r2 w2).1 = inr (if clock (db w2) <? q_now r + SessionTTL then Some (user_of row) else None) /\
  (clock (db w2) < q_now r + SessionTTL ->
     exists s, by_id ss_id (hashToken tok) (sessions (accounts_ (db (Current r2 w2).2))) = Some s /\
       q_now r2 + (SessionTTL - sessionSlid) <= ss_expires s) /\
  (Current r2 (Destroy r2 w2).2).1 = inr None /\
  (Current r2 (DestroyAll i w2).2).1 = inr None.
Proof.
  intros Hq Hs Hq2 Hacc Hck Hne. destruct (q_session_created _ _ _ _ _ _ Hq Hs Hacc) as (row & Hrow & Hqs).
  exists row. assert (Hcur : forall w, quiet_w w -> (Current r2 w).1 =
    inr (fst <$> q_session (hashToken tok) (db w))).
  { intros w3 Hq3. unfold Current. rewrite Hck. cbn [default]. rewrite bool_decide_false by done.
    rewrite at_pg_query by done. change (id tok) with tok.
    destruct (q_session (hashToken tok) (db w3)) as [[u e]|]; [|done]. by destruct (e - q_now r2 <? _). }
  assert (Hgone : forall d, hashToken tok ∉ ss_id <$> sessions (accounts_ d) ->
    (Current r2 (set_cw_pg (MkPg d []) w2)).1 = inr None).
  { intros d Hd. rewrite Hcur by done. unfold q_session. cbn [db cw_pg set_cw_pg tables].
    by replace (by_id _ _ _) with (@None session_row) by (symmetry; by apply by_id_None). }
  split_and!; [done|..].
  - rewrite Hcur, Hqs by done. by case_match.
  - intros Hlt. unfold Current. rewrite Hck. cbn [default]. rewrite bool_decide_false by done. rewrite at_pg_query by done. change (id tok) with tok.
    pose proof Hqs as Hq'. unfold q_session in Hq'. rewrite Hqs. rewrite (proj2 (Z.ltb_lt _ _) Hlt) in Hq' |- *. cbn [fst snd].
    destruct (by_id ss_id _ _) as [s|] eqn:Hby; [|done]. cbn [mbind option_bind] in Hq'.
    destruct (clock (db w2) <? ss_expires s); [|done]. destruct (by_id u_id (ss_user s) _); simplify_eq/=.
    destruct (Z.ltb_spec (q_now r + SessionTTL - q_now r2) (SessionTTL - sessionSlid)).
    + rewrite at_pg_exec_ by done.
      change (sessions _) with (sessions (accounts_ (prolong (hashToken tok) (q_now r2 + SessionTTL) (db w2)))).
      unfold prolong. rewrite sessions_with, by_id_prolong, Hby. eexists. split; [done|].
      unfold sessionSlid. simpl. lia.
    + exists s. split; [done|]. lia.
  - unfold Destroy. rewrite Hck. unfold drop_err. rewrite at_pg_exec_ by done. apply Hgone. cbn.
    intros (s & Hs1 & Hs2)%list_elem_of_fmap. apply list_elem_of_filter in Hs2 as [Hs2 _]. by apply Hs2.
  - unfold DestroyAll, drop_err. rewrite at_pg_exec_ by done. apply Hgone. cbn.
    intros (s & Hs1 & Hs2)%list_elem_of_fmap. apply list_elem_of_filter in Hs2 as [Hs2 Hin]. apply Hs2.
    destruct (Create_quiet _ _ _ _ _ Hq Hs) as (s0 & u & Hid & Hus & _ & _ & Hn & _ & _ & Hdb).
    change (s ∈ sessions (accounts_ (db w2))) in Hin. rewrite Hacc, Hdb in Hin.
    change (s ∈ sessions (accounts_ (db w)) ++ [s0]) in Hin. apply elem_of_app in Hin as [Hin|Hin%list_elem_of_singleton].
    + exfalso. apply Hn, list_elem_of_fmap. by exists s.
    + by rewrite Hin.
Qed.

End Guards.

#[export] Hint Resolve quiet_with_db quiet_draw : flyc.
#[export] Hint Rewrite @db_with_db @with_db_with_db @db_draw @accounts_audit : flyc.

(** Runs the next call of a handler over a quiet database. *)
Ltac h_call :=
  first
  [ rewrite or_db_exec_ by auto with flyc | rewrite or_db_exec by auto with flyc
  | rewrite or_db_query by auto with flyc | rewrite or_db_rows by auto with flyc | rewrite tried_query by auto with flyc
  | rewrite quietly_exec_ by auto with flyc | rewrite drawn_eq
  | match goal with |- context [audit ?p ?a ?d ?w] =>
      let au := fresh "au" in let E := fresh "Eau" in
      destruct (audit_quiet p a d w) as [au E]; [auto with flyc|rewrite E; clear E]
    end ];
  autorewrite with flyc.
Ltac h_step := rewrite ?HM_bind_eq; h_call.

(** ** An example *)

Module AccessDemo.

(** A toy instance: nothing here is cryptographic. *)
#[export] Instance toy : Crypto := {|
  sha256 := fun s => s;
  argon2 := fun p s _ _ _ len => String.substring 0 (Z.to_nat len) (p +:+ s +:+ "................................")%string;
  totp_generate := fun _ email rnd => inr (rnd, ("otpauth://totp/" +:+ email)%string);
  totp_validate := fun secret code => String.eqb secret code;
  gcm_seal := fun k n p => (n +:+ p)%string;
  gcm_open := fun k n c => match cut_prefix n c with Some p => inr p | None => inl (Err "cipher: message authentication failed") end
|}.

Definition ann : user_row :=
  MkUser "u1" "ann@acme.example" (Some (HashPassword "salt" "correct horse")) None (Some "123456789abc123456789abc123456"%string) true false false
    "Ann" 0 None.
Definition bob : user_row :=
  MkUser "u2" "bob@acme.example" (Some (HashPassword "salt" "battery staple")) None None false true false "Bob" 0 None.

Definition demo : cdb :=
  MkCdb [MkTenant "t1" "acme" "Acme" 0; MkTenant "t2" "other" "Other" 0] [] [] [] [] [] [] [] default_settings [] [] [] [] 1 1000
    (MkAccounts [ann; bob] [MkMember "t1" "u1" "operator"]
       [MkApiKey "k1" (Some "t1"%string) "initial" (HashKey "key one") 0 None;
        MkApiKey "k2" (Some "t2"%string) "initial" (HashKey "key two") 0 None]
       [MkSession (hashToken "token") "u1" 2000 EmptyString EmptyString] []) no_extras.

Definition world : cworld unit := MkCw (MkPg demo []) ["abc"; "def"; "ghi"]%string false 0 tt.

Definition request (cookies path : list (string * string)) (body : json) : http_request :=
  MkHttp "POST" {[ "X-Requested-With" := "flyc" ]}%string (list_to_map cookies) (list_to_map path) ∅ (inr body) "192.0.2.1" 1000.

Definition ann_request : http_request := request [(CookieName, "token"%string)] [] JNull.
Definition hello : @handler unit := fun r p => mret (JSON 200 (JStr (p_tenant p))).

End AccessDemo.
Import AccessDemo.

Lemma tenant_guard_witness :
  (served (tenant "operator" hello ann_request) world).1 = JSON 200 (JStr "acme") /\
  (served (tenant "admin" hello ann_request) world).1 =
    Error 403 "forbidden" "rôle insuffisant : admin requis" /\
  ((exists p w1, authenticate ann_request world = (inr p, w1) /\
     entitled (db world) ann_request p /\ p_tenantID p <> EmptyString /\
     (p_session p = true -> p_platform p = false -> roleRank "operator" <= roleRank (p_role p)) /\
     tenant "operator" hello ann_request world =
       hello ann_request p w1) \/
   kept_out [400; 401; 403] (db world) (tenant "operator" hello ann_request world)).
Proof.
  split_and!; [vm_compute; reflexivity|vm_compute; reflexivity|].
  apply (tenant_guard "operator" hello ann_request world). reflexivity.
Defined.

Lemma VerifyPassword_HashPassword_witness :
  VerifyPassword (HashPassword "salt" "correct horse") "correct horse" = true /\
  VerifyPassword (HashPassword "salt" "correct horse") "battery staple" =
    bool_decide (argon2 "battery staple" "salt" 3 65536 2 32 = argon2 "correct horse" "salt" 3 65536 2 32).
Proof.
  split; [vm_compute; reflexivity|].
  apply (VerifyPassword_HashPassword "salt" "correct horse" "battery staple"). reflexivity.
Defined.

Lemma session_life_witness :
  exists tok w1 row, Create ann_request "u1" world = (inr tok, w1) /\
  let r2 := request [(CookieName, tok)] [] JNull in
  by_id u_id "u1" (users (accounts_ (db world))) = Some row /\
  (Current r2 w1).1 = inr (if clock (db w1) <? q_now ann_request + SessionTTL then Some (user_of row) else None) /\
  (clock (db w1) < q_now ann_request + SessionTTL ->
     exists s, by_id ss_id (hashToken tok) (sessions (accounts_ (db (Current r2 w1).2))) = Some s /\
       q_now r2 + (SessionTTL - sessionSlid) <= ss_expires s) /\
  (Current r2 (Destroy r2 w1).2).1 = inr None /\
  (Current r2 (DestroyAll "u1" w1).2).1 = inr None.
Proof.
  destruct (Create ann_request "u1" world) as [[e|tok] w1] eqn:Hc.
  { exfalso. revert Hc. vm_compute. congruence. }
  assert (Ht : tok = "YWJj"%string) by (revert Hc; vm_compute; congruence).
  assert (Hq : quiet_w w1) by (revert Hc; vm_compute; intros [= _ <-]; reflexivity).
  destruct (session_life ann_request "u1" world tok w1
    (request [(CookieName, tok)] [] JNull) w1 eq_refl Hc Hq eq_refl) as (row & Hrow).
  - rewrite Ht. vm_compute. reflexivity.
  - rewrite Ht. discriminate.
  - exists tok, w1, row. split; [done|exact Hrow].
Defined.
