(* ===== verification/Account.v ===== *)
(** * The account routes of the control API

    [control/internal/api/session.go]: signing in and out, the password and the
    second factor of an account, the accounts, the memberships and the API keys;
    [createTenant] and [createTenantKey] of [api.go].  The lists and
    the QR code are in Reads.v; OIDC is left out. *)
From Stdlib Require Import Ascii.
From S2P Require Import Prelude GoStr Json Base64 Httpx Dataplane Pg Inventory Access.

Local Open Scope list_scope.
Local Open Scope Z_scope.

(** ** Bodies *)

Record login_in : Type := MkLogin { l_email : string; l_password : string; l_totp : string }.
Definition dec_login : json -> option login_in := dec_obj (fun l =>
  e ← dec_string (Dataplane.field "email" l); p ← dec_string (Dataplane.field "password" l);
  t ← dec_string (Dataplane.field "totp" l); Some (MkLogin e p t)).

Record user_in : Type := MkUserIn {
  i_email : string; i_password : string; i_display : string; i_admin : bool; i_tenant : string; i_role : string
}.
Definition dec_user : json -> option user_in := dec_obj (fun l =>
  e ← dec_string (Dataplane.field "email" l); p ← dec_string (Dataplane.field "password" l);
  n ← dec_string (Dataplane.field "display_name" l); a ← dec_bool (Dataplane.field "platform_admin" l);
  t ← dec_string (Dataplane.field "tenant" l); r ← dec_string (Dataplane.field "role" l);
  Some (MkUserIn e p n a t r)).

(** [_ = json.NewDecoder(r.Body).Decode(&in)] of a struct with one field. *)
Definition loose_field (k : string) (r : http_request) : string :=
  match q_body r with
  | inr v => default EmptyString (dec_one k v)
  | inl _ => EmptyString
  end.

Section Account.
Context {X : Type} {HC : Crypto} {HO : Collation}.
(** The master key. *)
Context (key : string).
(** The identifiers [gen_random_uuid()] gives, how the database reads a text as
    an identifier, the name of the issuer in TOTP applications and the name of
    a key that is given none. *)
Context (gen : cdb -> string) (uuid : string -> option string) (issuer : string) (key_name : Z -> string).

Abbreviation HMX := (@HM X).
Abbreviation handlerX := (@handler X).

Definition account_by_email (email : string) (d : cdb) : option user_row :=
  snd <$> list_find (fun u => ToLower (u_email u) = email) (users (accounts_ d)).

Definition bad_credentials (msg : string) : resp := Error 401 "bad_credentials" msg.

(** ** Signing in *)

Definition second_factor (u : user_row) (i : login_in) : HMX unit :=
  if u_totp_on u then
    require (negb (bool_decide (l_totp i = EmptyString)))
      (JSON 428 (JObj [("error", JStr "totp_required"); ("message", JStr "code de validation requis")]%string)) ≫= fun _ =>
    require (match Open key (default EmptyString (u_totp u)) with
             | inr secret => totp_validate secret (TrimSpace (l_totp i))
             | inl _ => false
             end) (Error 401 "bad_totp" "code de validation incorrect")
  else mret tt.

Definition login (r : http_request) : HMX resp :=
  i ← decode r dec_login;
  let email := ToLower (TrimSpace (l_email i)) in
  found ← tried (at_pg (QueryRow (account_by_email email)));
  let refused := bad_credentials "email ou mot de passe incorrect" in
  match found with
  | inl _ => reply refused
  | inr u =>
      let hash := default EmptyString (u_hash u) in
      require (negb (bool_decide (hash = EmptyString))) refused ≫= fun _ =>
      require (VerifyPassword hash (l_password i)) refused ≫= fun _ =>
      second_factor u i ≫= fun _ =>
      tok ← attempt (fun e => Error 500 "session" (error_text e)) (Create r (u_id u));
      audit no_one "auth.login" (JObj [("email"%string, JStr email)]) ≫= fun _ =>
      mret (add_cookie CookieName tok
              (JSON 200 (JObj [("must_change_password", JBool (u_must_change u)); ("status", JStr "ok")]%string)))
  end.

Definition logout (r : http_request) : HMX resp :=
  quietly_ (Destroy r) ≫= fun _ =>
  mret (add_cookie CookieName EmptyString (JSON 200 (JObj [("status", JStr "logged_out")]%string))).

(** ** The account *)

Definition user_id (p : principal) : string := match p_user p with Some u => ID u | None => EmptyString end.
Definition user_email (p : principal) : string := match p_user p with Some u => Email u | None => EmptyString end.

(** The hash of the account, empty when it has none or when the reading
    fails. *)
Definition read_hash (id : string) : HMX string :=
  res ← tried (at_pg (QueryRow (fun d => (fun u => default EmptyString (u_hash u)) <$> by_id u_id id (users (accounts_ d)))));
  mret (match res with inr h => h | inl _ => EmptyString end).

Definition with_password (hash : string) (must : bool) (u : user_row) : user_row :=
  MkUser (u_id u) (u_email u) (Some hash) (u_subject u) (u_totp u) (u_totp_on u) (u_admin u) must
    (u_display u) (u_created u) (u_login u).
Definition with_totp (secret : option string) (on : bool) (u : user_row) : user_row :=
  MkUser (u_id u) (u_email u) (u_hash u) (u_subject u) secret on (u_admin u) (u_must_change u)
    (u_display u) (u_created u) (u_login u).

Definition changePassword : handlerX := fun r p =>
  i ← decode r (dec_pair "current" "new");
  hash ← read_hash (user_id p);
  require (bool_decide (hash = EmptyString) || VerifyPassword hash i.1)
    (bad_credentials "mot de passe actuel incorrect") ≫= fun _ =>
  match CheckPasswordPolicy i.2 with
  | Some msg => reply (Error 400 "weak_password" msg)
  | None =>
      salt ← drawn;
      or_db (Exec_ (update_user (user_id p) (with_password (HashPassword salt i.2) false))) ≫= fun _ =>
      quietly_ (DestroyAll (user_id p)) ≫= fun _ =>
      tok ← tried (Create r (user_id p));
      audit p "account.password" JNull ≫= fun _ =>
      let ok := JSON 200 (JObj [("status", JStr "changed")]%string) in
      mret (match tok with inr t => add_cookie CookieName t ok | inl _ => ok end)
  end.

Definition totpSetup : handlerX := fun r p =>
  rnd ← drawn;
  k ← attempt (fun e => Error 500 "totp" (error_text e)) (lift_err (totp_generate issuer (user_email p) rnd));
  nonce ← drawn;
  enc ← attempt (fun e => Error 500 "crypt" (error_text e)) (lift_err (Seal key nonce k.1));
  or_db (Exec_ (update_user (user_id p) (with_totp (Some enc) false))) ≫= fun _ =>
  mret (JSON 200 (JObj [("otpauth_url", JStr k.2); ("secret", JStr k.1)]%string)).

(** The encrypted secret, when there is one. *)
Definition read_totp (id : string) : HMX (option string) :=
  res ← tried (at_pg (QueryRow (fun d => u_totp <$> by_id u_id id (users (accounts_ d)))));
  mret (match res with
        | inr (Some enc) => if bool_decide (enc = EmptyString) then None else Some enc
        | _ => None
        end).

Definition totpEnable : handlerX := fun r p =>
  code ← decode r (dec_one "code");
  enc ← read_totp (user_id p);
  match enc with
  | None => reply (Error 404 "no_totp" "lancez d'abord la configuration")
  | Some enc =>
      require (match Open key enc with inr secret => totp_validate secret (TrimSpace code) | inl _ => false end)
        (Error 400 "bad_totp" "code incorrect") ≫= fun _ =>
      quietly_ (at_pg (Exec_ (update_user (user_id p) (fun u => with_totp (u_totp u) true u)))) ≫= fun _ =>
      audit p "account.totp_enabled" JNull ≫= fun _ =>
      mret (JSON 200 (JObj [("status", JStr "enabled")]%string))
  end.

Definition totpDisable : handlerX := fun r p =>
  pw ← decode r (dec_one "password");
  hash ← read_hash (user_id p);
  require (bool_decide (hash = EmptyString) || VerifyPassword hash pw)
    (bad_credentials "mot de passe incorrect") ≫= fun _ =>
  quietly_ (at_pg (Exec_ (update_user (user_id p) (with_totp None false)))) ≫= fun _ =>
  audit p "account.totp_disabled" JNull ≫= fun _ =>
  mret (JSON 200 (JObj [("status", JStr "disabled")]%string)).

(** ** Accounts *)

Definition email_taken (email : string) (d : cdb) : bool :=
  existsb (fun u => String.eqb (ToLower (u_email u)) (ToLower email)) (users (accounts_ d)).

Definition insert_user (i : user_in) (email hash : string) (d : cdb) : goerr + (string * cdb) :=
  if email_taken email d then inl (ErrPg "23505" "users_email_idx")
  else let u := MkUser (gen d) email (Some hash) None None false (i_admin i) true (i_display i) (clock d) None in
       inr (gen d, with_users (users (accounts_ d) ++ [u]) d).

Definition with_members (l : list member_row) (d : cdb) : cdb :=
  let a := accounts_ d in set_accounts (MkAccounts (users a) l (api_keys a) (sessions a) (oidc_states a)) d.

Definition roles_known : list string := ["owner"; "admin"; "operator"; "viewer"]%string.
Definition bad_role : goerr := ErrPg "23514" "memberships_role_check".

Definition same_member (t u : string) (m : member_row) : bool := String.eqb (m_tenant m) t && String.eqb (m_user m) u.

(** [insert ... select ... from tenants where slug=$1]: no row for an unknown
    slug, and no error. *)
Definition insert_member (slug user role : string) (d : cdb) : goerr + (unit * cdb) :=
  match by_id t_slug slug (tenants d) with
  | None => inr (tt, d)
  | Some t =>
      if negb (existsb (String.eqb role) roles_known) then inl bad_role
      else if existsb (same_member (t_id t) user) (memberships (accounts_ d)) then inl (ErrPg "23505" "memberships_pkey")
      else inr (tt, with_members (memberships (accounts_ d) ++ [MkMember (t_id t) user role]) d)
  end.

Definition initial_password (given : string) : HMX string :=
  if bool_decide (given = EmptyString)
  then b ← drawn; mret (String.substring 0 16 (encode RawURLEncoding b))
  else mret given.

Definition createUser : handlerX := fun r p =>
  i ← decode r dec_user;
  let email := ToLower (TrimSpace (i_email i)) in
  require (Contains email "@") (Error 400 "invalid" "email invalide") ≫= fun _ =>
  pw ← initial_password (i_password i);
  match CheckPasswordPolicy pw with
  | Some msg => reply (Error 400 "weak_password" msg)
  | None =>
      salt ← drawn;
      id ← or_db (Exec (insert_user i email (HashPassword salt pw)));
      let role := if bool_decide (i_tenant i <> EmptyString) && bool_decide (i_role i = EmptyString)
                  then "operator"%string else i_role i in
      (if bool_decide (i_tenant i = EmptyString) then mret tt
       else or_db (Exec (insert_member (i_tenant i) id role))) ≫= fun _ =>
      audit p "user.create" (JObj [("email", JStr email); ("platform_admin", JBool (i_admin i)); ("role", JStr role);
                                   ("tenant", JStr (i_tenant i))]%string) ≫= fun _ =>
      mret (JSON 201 (JObj [("email", JStr email); ("id", JStr id); ("initial_password", JStr pw)]%string))
  end.

(** A statement on the account whose identifier is given as text: whether there
    was one. *)
Definition on_user (text : string) (f : string -> cdb -> cdb) (d : cdb) : goerr + (bool * cdb) :=
  match uuid text with
  | None => inl (ErrPg "22P02" "invalid input syntax for type uuid")
  | Some id => match by_id u_id id (users (accounts_ d)) with
               | Some _ => inr (true, f id d)
               | None => inr (false, d)
               end
  end.

(** The deletion of an account takes its sessions and memberships along. *)
Definition remove_user (id : string) (d : cdb) : cdb :=
  let a := accounts_ d in
  set_accounts (MkAccounts (base.filter (fun u => u_id u <> id) (users a))
                  (base.filter (fun m => m_user m <> id) (memberships a)) (api_keys a)
                  (base.filter (fun s => ss_user s <> id) (sessions a)) (oidc_states a)) d.

Definition no_content : resp := MkResp 204 [] [] NoBody.

Definition deleteUser : handlerX := fun r p =>
  let id := PathValue "id" r in
  require (negb (match p_user p with Some u => String.eqb (ID u) id | None => false end))
    (Error 400 "self" "impossible de supprimer son propre compte") ≫= fun _ =>
  found ← or_db (Exec (on_user id remove_user));
  require found (Error 404 "not_found" "utilisateur inconnu") ≫= fun _ =>
  audit p "user.delete" (JStr id) ≫= fun _ => mret no_content.

Definition reset_row (hash : string) (u : user_row) : user_row := with_totp None false (with_password hash true u).

Definition resetUserPassword : handlerX := fun r p =>
  let id := PathValue "id" r in
  pw ← initial_password (loose_field "password" r);
  match CheckPasswordPolicy pw with
  | Some msg => reply (Error 400 "weak_password" msg)
  | None =>
      salt ← drawn;
      found ← or_db (Exec (on_user id (fun i => update_user i (reset_row (HashPassword salt pw)))));
      require found (Error 404 "not_found" "utilisateur inconnu") ≫= fun _ =>
      quietly_ (DestroyAll (default EmptyString (uuid id))) ≫= fun _ =>
      audit p "user.password_reset" (JStr id) ≫= fun _ =>
      mret (JSON 200 (JObj [("initial_password", JStr pw)]%string))
  end.

(** ** Memberships *)

Definition put_member (slug email role : string) (d : cdb) : goerr + (bool * cdb) :=
  match by_id t_slug slug (tenants d), account_by_email email d with
  | Some t, Some u =>
      if negb (existsb (String.eqb role) roles_known) then inl bad_role
      else let l := memberships (accounts_ d) in
           inr (true, with_members
             (if existsb (same_member (t_id t) (u_id u)) l
              then map (fun m => if same_member (t_id t) (u_id u) m then MkMember (t_id t) (u_id u) role else m) l
              else l ++ [MkMember (t_id t) (u_id u) role]) d)
  | _, _ => inr (false, d)
  end.

Definition putMember : handlerX := fun r p =>
  i ← decode r (dec_pair "email" "role");
  require (negb (roleRank i.2 =? 0)) (Error 400 "invalid" "role : owner, admin, operator ou viewer") ≫= fun _ =>
  found ← or_db (Exec (put_member (PathValue "slug" r) (ToLower i.1) i.2));
  require found (Error 404 "not_found" "tenant ou utilisateur inconnu") ≫= fun _ =>
  audit p "member.put" (JObj [("email", JStr i.1); ("role", JStr i.2); ("tenant", JStr (PathValue "slug" r))]%string) ≫= fun _ =>
  mret (JSON 200 (JObj [("email", JStr i.1); ("role", JStr i.2)]%string)).

Definition delete_member (slug email : string) (d : cdb) : cdb :=
  match by_id t_slug slug (tenants d), account_by_email email d with
  | Some t, Some u =>
      with_members (base.filter (fun m => same_member (t_id t) (u_id u) m = false) (memberships (accounts_ d))) d
  | _, _ => d
  end.

Definition deleteMember : handlerX := fun r p =>
  or_db (Exec_ (delete_member (PathValue "slug" r) (ToLower (PathValue "email" r)))) ≫= fun _ =>
  audit p "member.delete" (JObj [("email", JStr (PathValue "email" r)); ("tenant", JStr (PathValue "slug" r))]%string) ≫= fun _ =>
  mret no_content.

(** ** API keys and tenants *)

Definition insert_key (tenant : option string) (name hash : string) (d : cdb) : goerr + (unit * cdb) :=
  if existsb (fun k => String.eqb (ak_hash k) hash) (api_keys (accounts_ d)) then inl (ErrPg "23505" "api_keys_key_hash_key")
  else inr (tt, with_keys (api_keys (accounts_ d) ++ [MkApiKey (gen d) tenant name hash (clock d) None]) d).

Definition fresh_key : HMX string := b ← drawn; mret ("flyc_" +:+ hex_encode b)%string.

Definition named_key (r : http_request) : string :=
  let n := loose_field "name" r in if bool_decide (n = EmptyString) then key_name (q_now r) else n.

Definition createOwnTenantKey : handlerX := fun r p =>
  let name := named_key r in
  key ← fresh_key;
  or_db (Exec (insert_key (Some (p_tenantID p)) name (HashKey key))) ≫= fun _ =>
  audit p "apikey.create" (JObj [("name"%string, JStr name)]) ≫= fun _ =>
  mret (JSON 201 (JObj [("api_key", JStr key); ("name", JStr name)]%string)).

Definition remove_key (text tenant : string) (d : cdb) : goerr + (bool * cdb) :=
  match uuid text with
  | None => inl (ErrPg "22P02" "invalid input syntax for type uuid")
  | Some id =>
      let l := api_keys (accounts_ d) in
      let mine k := String.eqb (ak_id k) id && bool_decide (ak_tenant k = Some tenant) in
      inr (existsb mine l, with_keys (base.filter (fun k => mine k = false) l) d)
  end.

Definition deleteTenantKey : handlerX := fun r p =>
  found ← or_db (Exec (remove_key (PathValue "id" r) (p_tenantID p)));
  require found (Error 404 "not_found" "clé inconnue") ≫= fun _ =>
  audit p "apikey.delete" (JStr (PathValue "id" r)) ≫= fun _ => mret no_content.

Definition createTenantKey : handlerX := fun r p =>
  let name := named_key r in
  t ← or_db (QueryRow (tenant_by_slug (PathValue "slug" r)));
  key ← fresh_key;
  or_db (Exec (insert_key (Some t.1) name (HashKey key))) ≫= fun _ =>
  audit p "apikey.create" (JObj [("name", JStr name); ("tenant", JStr (PathValue "slug" r))]%string) ≫= fun _ =>
  mret (JSON 201 (JObj [("api_key", JStr key); ("name", JStr name)]%string)).

(** The check of the database wants two characters at least. *)
Definition insert_tenant (slug name : string) (d : cdb) : goerr + (string * cdb) :=
  if negb (slug_match slug && (2 <=? String.length slug)%nat) then inl (ErrPg "23514" "tenants_slug_check")
  else if existsb (fun t => String.eqb (t_slug t) slug) (tenants d) then inl (ErrPg "23505" "tenants_slug_key")
  else inr (gen d, set_tenants (tenants d ++ [MkTenant (gen d) slug name (clock d)]) d).

Definition createTenant : handlerX := fun r p =>
  i ← decode r (dec_pair "slug" "name");
  require (slug_match i.1) (Error 400 "invalid" "slug invalide") ≫= fun _ =>
  let name := if bool_decide (i.2 = EmptyString) then i.1 else i.2 in
  id ← or_db (Exec (insert_tenant i.1 name));
  key ← fresh_key;
  or_db (Exec (insert_key (Some id) "initial" (HashKey key))) ≫= fun _ =>
  audit p "tenant.create" (JObj [("slug", JStr i.1); ("name", JStr name)]%string) ≫= fun _ =>
  mret (JSON 201 (JObj [("api_key", JStr key); ("id", JStr id); ("name", JStr name); ("slug", JStr i.1)]%string)).

End Account.

(** ** Signing in *)

Section SignIn.
Context {X : Type} {HC : Crypto} {HO : Collation} (key : string).

(** The password and, when the account asks for one, the code. *)
Definition proven (u : user_row) (i : login_in) : Prop :=
  (exists h, u_hash u = Some h /\ VerifyPassword h (l_password i) = true) /\
  (u_totp_on u = true ->
     exists secret, Open key (default EmptyString (u_totp u)) = inr secret /\
       totp_validate secret (TrimSpace (l_totp i)) = true).

Lemma second_factor_spec u i (w : cworld X) :
  (exists a, second_factor key u i w = (inl a, w) /\ r_code a ∈ [401; 428]) \/
  (second_factor key u i w = (inr tt, w) /\
   (u_totp_on u = true ->
     exists secret, Open key (default EmptyString (u_totp u)) = inr secret /\
       totp_validate secret (TrimSpace (l_totp i)) = true)).
Proof.
  unfold second_factor. destruct (u_totp_on u); [|by right].
  rewrite HM_bind_eq, require_eq. case_bool_decide; cbn [negb]; [left; eexists; split; [done|set_solver]|].
  rewrite require_eq. destruct (Open _ _) as [e|secret]; [left; eexists; split; [done|set_solver]|].
  destruct (totp_validate _ _) eqn:Hv; [right; split; [done|eauto]|left; eexists; split; [done|set_solver]].
Qed.

Lemma account_by_email_elem email d u : account_by_email email d = Some u ->
  u ∈ users (accounts_ d) /\ ToLower (u_email u) = email.
Proof.
  unfold account_by_email. destruct (list_find _ _) as [[n x]|] eqn:Hf; [|done]. intros [= ->].
  apply list_find_Some in Hf as (Hl & He & _). split; [|done]. by eapply list_elem_of_lookup_2.
Qed.

Local Ltac refused := right; split; [set_solver|done].

(** Claim C20: [login] answers 200 only to the password of the account of that
    address and, when its second factor is on, to a valid code; it has then
    opened exactly one session, for that account, and gives its token as the
    cookie.  Any other answer is 400, 401, 428 or 500 and leaves accounts and
    sessions as they were. *)
Theorem login_sound r (w : cworld X) :
  quiet_w w ->
  let '(a, w') := served (login key r) w in
  (r_code a = 200 /\
   exists i v u tok s, q_body r = inr v /\ dec_login v = Some i /\ u ∈ users (accounts_ (db w)) /\
     ToLower (u_email u) = ToLower (TrimSpace (l_email i)) /\ proven u i /\
     sessions (accounts_ (db w')) = sessions (accounts_ (db w)) ++ [s] /\
     ss_id s = hashToken tok /\ ss_user s = u_id u /\ (CookieName, tok) ∈ r_cookies a) \/
  (r_code a ∈ [400; 401; 428; 500] /\ accounts_ (db w') = accounts_ (db w)).
Proof.
  intros Hq. unfold served, login, decode. rewrite HM_bind_eq.
  destruct (q_body r) as [e|v] eqn:Hb; [refused|].
  destruct (dec_login v) as [i|] eqn:Hi; [|refused].
  cbn [mret HM_ret]. h_step.
  destruct (account_by_email _ _) as [u|] eqn:Hu; [|refused].
  apply account_by_email_elem in Hu as [Hu Hem].
  rewrite HM_bind_eq, require_eq. case_bool_decide as Hh; cbn [negb]; [refused|].
  rewrite HM_bind_eq, require_eq. destruct (VerifyPassword _ _) eqn:Hpw; [|refused].
  rewrite HM_bind_eq. destruct (second_factor_spec u i w) as [[a' [-> Ha]]|[-> Htotp]]; [right; split; [set_solver|done]|].
  rewrite HM_bind_eq. unfold attempt.
  destruct (Create r (u_id u) w) as [[e|tok] w1] eqn:HCr.
  { apply Create_fails in HCr as [Hq1 Hdb]; [|done]. rewrite Hdb. refused. }
  apply Create_quiet in HCr as (s & u' & Hid & Hus & _ & Hq1 & _ & _ & _ & Hdb); [|done].
  h_step. left. split; [done|]. exists i, v, u, tok, s. split_and!; try done.
  - split; [|done]. destruct (u_hash u) as [h|]; [by exists h|done].
  - rewrite Hdb. done.
  - set_solver.
Qed.

End SignIn.

(** ** Password and second factor *)

Section Credentials.
Context {X : Type} {HC : Crypto} {HO : Collation}.

Definition close_sessions (i : string) (d : cdb) : cdb :=
  with_sessions (base.filter (fun s => ss_user s <> i) (sessions (accounts_ d))) d.

Lemma quietly_DestroyAll i (w : cworld X) : quiet_w w ->
  quietly_ (DestroyAll i) w = (inr tt, with_db (close_sessions i (db w)) w).
Proof. intros Hq. unfold quietly_, DestroyAll, drop_err. by rewrite at_pg_exec_. Qed.

Lemma read_hash_quiet id u (w : cworld X) : quiet_w w -> by_id u_id id (users (accounts_ (db w))) = Some u ->
  read_hash id w = (inr (default EmptyString (u_hash u)), w).
Proof. intros Hq Hu. unfold read_hash. h_step. by rewrite Hu. Qed.

Lemma by_id_updated id (f : user_row -> user_row) d u : (forall u, u_id (f u) = u_id u) ->
  by_id u_id id (users (accounts_ d)) = Some u -> by_id u_id id (users (accounts_ (update_user id f d))) = Some (f u).
Proof.
  intros Hf Hu. change (by_id u_id id (map (fun u => if String.eqb (u_id u) id then f u else u) (users (accounts_ d))) = Some (f u)).
  rewrite by_id_update, Hu by done. simpl. by rewrite String.eqb_refl.
Qed.

Local Ltac refused := right; split; [set_solver|done].

(** [changePassword] answers 200 only to the current password of the
    account, or when it has none, and to a new password that meets the policy;
    the account then has the new hash and no duty to change it, and every
    session it had is closed: the only one left is that of the cookie of the
    answer.  The sessions of the other accounts are kept.  Any other answer is
    400 or 401 and changes no account and no session. *)
Theorem changePassword_sound r p u (w : cworld X) :
  quiet_w w -> by_id u_id (user_id p) (users (accounts_ (db w))) = Some u ->
  let '(a, w') := served (changePassword r p) w in
  (r_code a = 200 /\
   exists v i salt row, q_body r = inr v /\ dec_pair "current" "new" v = Some i /\ CheckPasswordPolicy i.2 = None /\
     (default EmptyString (u_hash u) = EmptyString \/ VerifyPassword (default EmptyString (u_hash u)) i.1 = true) /\
     by_id u_id (user_id p) (users (accounts_ (db w'))) = Some row /\
     u_hash row = Some (HashPassword salt i.2) /\ u_must_change row = false /\
     (forall s, s ∈ sessions (accounts_ (db w')) -> ss_user s = user_id p ->
        exists tok, ss_id s = hashToken tok /\ (CookieName, tok) ∈ r_cookies a) /\
     (forall s, ss_user s <> user_id p -> s ∈ sessions (accounts_ (db w')) <-> s ∈ sessions (accounts_ (db w)))) \/
  (r_code a ∈ [400; 401] /\ accounts_ (db w') = accounts_ (db w)).
Proof.
  intros Hq Hu. unfold served, changePassword, decode. rewrite HM_bind_eq.
  destruct (q_body r) as [e|v] eqn:Hb; [refused|].
  destruct (dec_pair _ _ v) as [i|] eqn:Hi; [|refused].
  cbn [mret HM_ret]. rewrite HM_bind_eq. erewrite read_hash_quiet by done.
  rewrite HM_bind_eq, require_eq.
  destruct (bool_decide _ || VerifyPassword _ _) eqn:Hver; [|refused].
  destruct (CheckPasswordPolicy i.2) eqn:Hpol; [refused|].
  do 2 h_step. set (salt := default _ _). set (w1 := with_db _ _).
  assert (Hrow : by_id u_id (user_id p) (users (accounts_ (db w1))) = Some (with_password (HashPassword salt i.2) false u))
    by (by apply by_id_updated).
  rewrite HM_bind_eq, quietly_DestroyAll by done. rewrite HM_bind_eq. unfold tried.
  set (w2 := with_db _ w1).
  assert (Hw2 : forall s, s ∈ sessions (accounts_ (db w2)) <-> ss_user s <> user_id p /\ s ∈ sessions (accounts_ (db w))).
  { intros s. change (s ∈ base.filter (fun s => ss_user s <> user_id p) (sessions (accounts_ (db w))) <->
      ss_user s <> user_id p /\ s ∈ sessions (accounts_ (db w))). by rewrite list_elem_of_filter. }
  assert (Hver' : default EmptyString (u_hash u) = EmptyString \/ VerifyPassword (default EmptyString (u_hash u)) i.1 = true).
  { apply orb_true_iff in Hver as [Hv%bool_decide_eq_true|]; auto. }
  destruct (Create r (user_id p) w2) as [[e|tok] w3] eqn:HCr.
  - apply Create_fails in HCr as [Hq1 Hdb]; [|done]. h_step. left. split; [done|].
    exists v, i, salt, (with_password (HashPassword salt i.2) false u). rewrite db_with_db, accounts_audit, Hdb.
    split_and!; try done; intros s; rewrite Hw2; naive_solver.
  - apply Create_quiet in HCr as (s & u' & Hid & Hus & _ & Hq1 & _ & _ & _ & Hdb); [|done].
    h_step. left. split; [done|]. exists v, i, salt, (logged_in (clock (db w2)) (with_password (HashPassword salt i.2) false u)).
    rewrite db_with_db, accounts_audit, Hdb.
    assert (Hses : forall x, x ∈ sessions (accounts_ (update_user (user_id p) (logged_in (clock (db w2)))
        (with_sessions (sessions (accounts_ (db w2)) ++ [s]) (db w2)))) <->
      (ss_user x <> user_id p /\ x ∈ sessions (accounts_ (db w))) \/ x = s).
    { intros x. rewrite <- Hw2.
      change (x ∈ sessions (accounts_ (db w2)) ++ [s] <-> x ∈ sessions (accounts_ (db w2)) \/ x = s). set_solver. }
    split_and!; try done.
    + by apply by_id_updated.
    + intros x [[Hx _]|Hx]%Hses Hxu; [done|subst x]. exists tok. split; [done|set_solver].
    + intros x Hx. rewrite Hses. naive_solver.
Qed.

(** When the reading of the current hash fails, [changePassword]
    checks no password: it sets the new one whatever the request gives as the
    current one. *)
Theorem changePassword_blind r p v i env e u (w : cworld X) :
  sched (cw_pg w) = [(env, Refused e)] -> q_body r = inr v -> dec_pair "current" "new" v = Some i ->
  CheckPasswordPolicy i.2 = None -> by_id u_id (user_id p) (users (accounts_ (env (db w)))) = Some u ->
  let '(a, w') := served (changePassword r p) w in
  r_code a = 200 /\
  exists row salt, by_id u_id (user_id p) (users (accounts_ (db w'))) = Some row /\ u_hash row = Some (HashPassword salt i.2).
Proof.
  intros Hs Hb Hi Hpol Hu. unfold served, changePassword, decode. rewrite HM_bind_eq, Hb, Hi. cbn [mret HM_ret].
  rewrite HM_bind_eq.
  assert (Hrd : read_hash (user_id p) w = (inr EmptyString, with_db (env (db w)) w)).
  { unfold read_hash, tried, at_pg, zoom, QueryRow, turn. rewrite HM_bind_eq, Hs. done. }
  rewrite Hrd, HM_bind_eq, require_eq. cbn [bool_decide orb]. rewrite bool_decide_true by done. cbn [orb].
  rewrite Hpol. do 2 h_step. set (salt := default _ _). set (w1 := with_db _ _).
  rewrite HM_bind_eq, quietly_DestroyAll by done. rewrite HM_bind_eq. unfold tried.
  set (w2 := with_db _ w1).
  assert (Hrow : by_id u_id (user_id p) (users (accounts_ (db w2))) = Some (with_password (HashPassword salt i.2) false u))
    by (by apply (by_id_updated _ (with_password (HashPassword salt i.2) false))).
  destruct (Create r (user_id p) w2) as [[e'|tok] w3] eqn:HCr.
  - apply Create_fails in HCr as [Hq1 Hdb]; [|done]. h_step. split; [done|].
    eexists _, salt. rewrite db_with_db, accounts_audit, Hdb. done.
  - apply Create_quiet in HCr as (s & u' & Hid & Hus & _ & Hq1 & _ & _ & _ & Hdb); [|done].
    h_step. split; [done|].
    exists (logged_in (clock (db w2)) (with_password (HashPassword salt i.2) false u)), salt.
    rewrite db_with_db, accounts_audit, Hdb. split; [|done].
    apply (by_id_updated (user_id p) (logged_in (clock (db w2)))); done.
Qed.

Lemma read_totp_quiet id u (w : cworld X) : quiet_w w -> by_id u_id id (users (accounts_ (db w))) = Some u ->
  read_totp id w = (inr (enc ← u_totp u; if bool_decide (enc = EmptyString) then None else Some enc), w).
Proof. intros Hq Hu. unfold read_totp. h_step. by rewrite Hu. Qed.

(** [totpSetup] replaces the second factor of the account by a new
    secret and leaves it off, whatever it was and without any password; the
    account then asks for a code again once [totpEnable] is given one that is
    valid for the secret that [totpSetup] answered, and not before. *)
Theorem totp_enrolment issuer b64 key r p u rnd nonce l (w w1 w2 : cworld X) a r2 v2 code :
  (forall k n p, String.length n = NonceSize -> gcm_open k n (gcm_seal k n p) = inr p) ->
  Parse b64 = inr key -> cw_rand w = rnd :: nonce :: l -> String.length nonce = NonceSize ->
  quiet_w w -> by_id u_id (user_id p) (users (accounts_ (db w))) = Some u ->
  served (totpSetup key issuer r p) w = (a, w1) -> r_code a = 200 ->
  quiet_w w2 -> accounts_ (db w2) = accounts_ (db w1) -> q_body r2 = inr v2 -> dec_one "code" v2 = Some code ->
  exists secret url row, r_body a = BJson (JObj [("otpauth_url", JStr url); ("secret", JStr secret)]%string) /\
    by_id u_id (user_id p) (users (accounts_ (db w1))) = Some row /\ u_totp_on row = false /\
  let '(b, w3) := served (totpEnable key r2 p) w2 in
  if totp_validate secret (TrimSpace code)
  then r_code b = 200 /\ by_id u_id (user_id p) (users (accounts_ (db w3))) = Some (with_totp (u_totp row) true row)
  else r_code b = 400 /\ accounts_ (db w3) = accounts_ (db w1).
Proof.
  intros Hgcm Hkey Hrand Hnonce Hq Hu Hs Hc Hq2 Hacc Hb Hcode. revert Hs. unfold served at 1, totpSetup, attempt.
  h_step. rewrite HM_bind_eq. unfold lift_err.
  destruct (totp_generate _ _ _) as [e|[secret url]]; [by intros [= <- _]|]. h_step.
  rewrite HM_bind_eq. cbn [draw snd cw_rand]. rewrite Hrand. cbn [tail List.hd_error default].
  destruct (Open_Seal b64 key nonce secret Hgcm Hkey Hnonce) as (enc & Hseal & Henc & Hne).
  cbn [fst]. change (id nonce) with nonce. rewrite Hseal.
  h_step. intros [= <- <-].
  exists secret, url, (with_totp (Some enc) false u). split; [done|].
  match goal with |- by_id _ _ (users (accounts_ (db ?w0))) = _ /\ _ => set (w1 := w0) in * end.
  assert (Hrow : by_id u_id (user_id p) (users (accounts_ (db w1))) = Some (with_totp (Some enc) false u))
    by (by apply (by_id_updated _ (with_totp (Some enc) false))).
  split_and!; [done..|]. unfold served, totpEnable, decode. rewrite HM_bind_eq, Hb, Hcode. cbn [mret HM_ret].
  rewrite HM_bind_eq. erewrite read_totp_quiet by (rewrite ?Hacc; done). cbn [u_totp with_totp mbind option_bind].
  rewrite bool_decide_false by done. rewrite HM_bind_eq, require_eq, Henc.
  cbn [fst]. destruct (totp_validate secret (TrimSpace code)); [|by rewrite Hacc].
  do 2 h_step. split; [done|].
  match goal with |- by_id _ _ (users (accounts_ (db ?w0))) = _ => change (accounts_ (db w0)) with
    (accounts_ (update_user (user_id p) (fun u => with_totp (u_totp u) true u) (db w2))) end.
  apply (by_id_updated _ (fun u => with_totp (u_totp u) true u)); [done|by rewrite Hacc].
Qed.

End Credentials.

(** ** Examples *)

Import AccessDemo.

Definition master : string := "0123456789abcdef0123456789abcdef".
Definition body_of (l : list (string * string)) : json := JObj (map (fun kv => (kv.1, JStr kv.2)) l).
Definition as_user (u : user_row) : principal := MkPrincipal EmptyString "t1" "acme" false "operator" (Some (user_of u)) true.
Definition login_request : http_request :=
  request [] [] (body_of [("email", " Bob@acme.example"); ("password", "battery staple")]%string).
Definition change_request : http_request :=
  request [(CookieName, "token"%string)] [] (body_of [("current", "battery staple"); ("new", "a longer password")]%string).

Lemma login_sound_witness :
  r_code (served (login master login_request) world).1 = 200 /\
  r_code (served (login master change_request) world).1 = 401 /\
  let '(a, w') := served (login master login_request) world in
  (r_code a = 200 /\
   exists i v u tok s, q_body login_request = inr v /\ dec_login v = Some i /\ u ∈ users (accounts_ (db world)) /\
     ToLower (u_email u) = ToLower (TrimSpace (l_email i)) /\ proven master u i /\
     sessions (accounts_ (db w')) = sessions (accounts_ (db world)) ++ [s] /\
     ss_id s = hashToken tok /\ ss_user s = u_id u /\ (CookieName, tok) ∈ r_cookies a) \/
  (r_code a ∈ [400; 401; 428; 500] /\ accounts_ (db w') = accounts_ (db world)).
Proof.
  split_and!; [vm_compute; reflexivity|vm_compute; reflexivity|].
  apply (login_sound master login_request world). reflexivity.
Defined.

Lemma changePassword_sound_witness :
  exists u, by_id u_id "u2" (users (accounts_ (db world))) = Some u /\
  r_code (served (changePassword change_request (as_user bob)) world).1 = 200 /\
  let '(a, w') := served (changePassword change_request (as_user bob)) world in
  (r_code a = 200 /\
   exists v i salt row, q_body change_request = inr v /\ dec_pair "current" "new" v = Some i /\ CheckPasswordPolicy i.2 = None /\
     (default EmptyString (u_hash u) = EmptyString \/ VerifyPassword (default EmptyString (u_hash u)) i.1 = true) /\
     by_id u_id "u2" (users (accounts_ (db w'))) = Some row /\
     u_hash row = Some (HashPassword salt i.2) /\ u_must_change row = false /\
     (forall s, s ∈ sessions (accounts_ (db w')) -> ss_user s = "u2"%string ->
        exists tok, ss_id s = hashToken tok /\ (CookieName, tok) ∈ r_cookies a) /\
     (forall s, ss_user s <> "u2"%string -> s ∈ sessions (accounts_ (db w')) <-> s ∈ sessions (accounts_ (db world)))) \/
  (r_code a ∈ [400; 401] /\ accounts_ (db w') = accounts_ (db world)).
Proof.
  exists bob. split; [reflexivity|]. split; [vm_compute; reflexivity|].
  apply (changePassword_sound change_request (as_user bob) bob world); reflexivity.
Defined.

(** The same request with a wrong current password, when the first statement
    fails. *)
Definition forged_request : http_request :=
  request [(CookieName, "token"%string)] [] (body_of [("current", "a guess"); ("new", "a longer password")]%string).
Definition shaky : cworld unit :=
  MkCw (MkPg demo [(id, Refused (Err "conn closed"))]) ["abc"; "def"]%string false 0 tt.

Lemma changePassword_blind_witness :
  r_code (served (changePassword forged_request (as_user bob)) world).1 = 401 /\
  let '(a, w') := served (changePassword forged_request (as_user bob)) shaky in
  r_code a = 200 /\
  exists row salt, by_id u_id "u2" (users (accounts_ (db w'))) = Some row /\
    u_hash row = Some (HashPassword salt "a longer password").
Proof.
  split; [vm_compute; reflexivity|].
  apply (changePassword_blind forged_request (as_user bob)
    (body_of [("current", "a guess"); ("new", "a longer password")]%string)
    ("a guess", "a longer password")%string id (Err "conn closed") bob shaky); reflexivity.
Defined.

Definition code_request : http_request := request [(CookieName, "token"%string)] [] (body_of [("code", " JBSWY3DP "%string)]).
Definition enrolling : cworld unit := MkCw (MkPg demo []) ["JBSWY3DP"; "123456789abc"]%string false 0 tt.

Lemma totp_enrolment_witness :
  let '(a, w1) := served (totpSetup master "flyc" ann_request (as_user ann)) enrolling in
  exists secret url row, r_body a = BJson (JObj [("otpauth_url", JStr url); ("secret", JStr secret)]%string) /\
    by_id u_id "u1" (users (accounts_ (db w1))) = Some row /\ u_totp_on row = false /\
  let '(b, w3) := served (totpEnable master code_request (as_user ann)) w1 in
  if totp_validate secret (TrimSpace " JBSWY3DP ")
  then r_code b = 200 /\ by_id u_id "u1" (users (accounts_ (db w3))) = Some (with_totp (u_totp row) true row)
  else r_code b = 400 /\ accounts_ (db w3) = accounts_ (db w1).
Proof.
  destruct (served (totpSetup master "flyc" ann_request (as_user ann)) enrolling) as [a w1] eqn:Hs.
  apply (totp_enrolment "flyc" (encode StdEncoding master) master ann_request (as_user ann) ann "JBSWY3DP" "123456789abc" []
    enrolling w1 w1 a code_request (body_of [("code", " JBSWY3DP "%string)])); try reflexivity.
  - intros k n p _. unfold gcm_open, gcm_seal. cbn [toy]. by rewrite cut_prefix_app.
  - exact Hs.
  - revert Hs. vm_compute. by intros [= <- _].
  - revert Hs. vm_compute. by intros [= _ <-].
Defined.
