(* ===== verification/Tenant.v ===== *)
(** * The routes of a tenant

    [control/internal/api/tenant.go]: domains, backends, queues and the check of
    a pass by a site, with the deletions of load balancers and queue hosts of
    [api.go].  The routes that only read are in Reads.v.  Left out is the
    certificate order a renewal starts in the background: only the request is
    recorded.  A change of a queue's state runs the reconciler of
    [Reconcile.v] before it answers. *)
From Stdlib Require Import Ascii.
From S2P Require Import Prelude GoStr F64 Json Base64 Httpx Dataplane Queueclient Pg Compile Inventory Reconcile Pass Access.

Local Open Scope list_scope.
Local Open Scope Z_scope.

(** ** Names *)

(** [strings.TrimSuffix(s, c)] for one byte. *)
Fixpoint TrimSuffix1 (c : ascii) (s : string) : string :=
  match s with
  | EmptyString => EmptyString
  | String a EmptyString => if Ascii.eqb a c then EmptyString else s
  | String a s' => String a (TrimSuffix1 c s')
  end.

Fixpoint last_char (a : ascii) (s : string) : ascii :=
  match s with EmptyString => a | String b s' => last_char b s' end.

(** [[a-z0-9]([a-z0-9-]{0,61}[a-z0-9])?] *)
Definition label_match (s : string) : bool :=
  match s with
  | EmptyString => false
  | String a s' => slug_head a && string_forall slug_tail s' && slug_head (last_char a s') && (String.length s <=? 63)%nat
  end.

(** [[a-z]{2,63}] *)
Definition tld_match (s : string) : bool :=
  string_forall is_lower s && (2 <=? String.length s)%nat && (String.length s <=? 63)%nat.

(** [fqdnRe]. *)
Definition fqdn_match (s : string) : bool :=
  match rev (Split "."%char s) with
  | tld :: (_ :: _) as labels => tld_match tld && forallb label_match (tail labels)
  | _ => false
  end.

(** ** Bodies *)

Record domain_in : Type := MkDomainIn { di_fqdn : string; di_mode : string; di_tls : string }.
Definition dec_domain : json -> option domain_in := dec_obj (fun l =>
  f ← dec_string (Dataplane.field "fqdn" l); m ← dec_string (Dataplane.field "mode" l);
  t ← dec_string (Dataplane.field "tls" l); Some (MkDomainIn f m t)).
Definition domain_json (i : domain_in) : json :=
  JObj [("fqdn", JStr (di_fqdn i)); ("mode", JStr (di_mode i)); ("tls", JStr (di_tls i))]%string.

Record server_in : Type := MkServerIn {
  si_name : string; si_address : string; si_port : Z; si_weight : option Z; si_maxconn : option Z
}.
Record backend_in : Type := MkBackendIn {
  bi_name : string; bi_balance : string; bi_check_path : string; bi_servers : list server_in
}.
Definition dec_server_in : json -> option server_in := dec_obj (fun l =>
  n ← dec_string (Dataplane.field "name" l); a ← dec_string (Dataplane.field "address" l);
  p ← dec_int (Dataplane.field "port" l); w ← dec_opt dec_int (Dataplane.field "weight" l);
  m ← dec_opt dec_int (Dataplane.field "maxconn" l); Some (MkServerIn n a p w m)).
Definition dec_backend_in : json -> option backend_in := dec_obj (fun l =>
  n ← dec_string (Dataplane.field "name" l); b ← dec_string (Dataplane.field "balance" l);
  c ← dec_string (Dataplane.field "check_path" l); s ← dec_list dec_server_in (Dataplane.field "servers" l);
  Some (MkBackendIn n b c s)).
Definition json_opt (z : option Z) : json := match z with Some z => JInt z | None => JNull end.
Definition backend_json (i : backend_in) : json :=
  JObj [("name", JStr (bi_name i)); ("balance", JStr (bi_balance i)); ("check_path", JStr (bi_check_path i));
        ("servers", JArr (map (fun s => JObj [("name", JStr (si_name s)); ("address", JStr (si_address s));
           ("port", JInt (si_port s)); ("weight", json_opt (si_weight s)); ("maxconn", json_opt (si_maxconn s))]) (bi_servers i)))]%string.

Definition dec_float (v : json) : option f64 :=
  match v with JNull => Some fzero | JNum t => ParseFloat t | _ => None end.
(** A map of strings; [null] is the nil map. *)
Definition dec_strings (v : json) : option (option (gmap string string)) :=
  match v with
  | JNull => Some None
  | JObj l => Some <$> foldl (fun (acc : option (gmap string string)) kv =>
      m ← acc; s ← dec_string kv.2; Some (<[kv.1 := s]> m)) (Some ∅) l
  | _ => None
  end.

Record room_in : Type := MkRoomIn {
  ri_slug : string; ri_title : string; ri_domain : string; ri_backend : string; ri_state : string;
  ri_rate : f64; ri_max_active : Z; ri_wave_s : Z; ri_pass_ttl_s : Z; ri_opens_at : option string;
  ri_theme : option (gmap string string); ri_auto_on : Z; ri_auto_off : Z
}.
Definition dec_room_in : json -> option room_in := dec_obj (fun l =>
  s ← dec_string (Dataplane.field "slug" l); t ← dec_string (Dataplane.field "title" l);
  d ← dec_string (Dataplane.field "domain" l); b ← dec_string (Dataplane.field "backend" l);
  st ← dec_string (Dataplane.field "state" l); r ← dec_float (Dataplane.field "rate" l);
  ma ← dec_int (Dataplane.field "max_active" l); w ← dec_int (Dataplane.field "wave_s" l);
  p ← dec_int (Dataplane.field "pass_ttl_s" l); o ← dec_opt dec_string (Dataplane.field "opens_at" l);
  th ← dec_strings (Dataplane.field "theme" l); a1 ← dec_int (Dataplane.field "auto_on" l);
  a2 ← dec_int (Dataplane.field "auto_off" l);
  Some (MkRoomIn s t d b st r ma w p o th a1 a2)).
Definition room_in_json (i : room_in) : json :=
  JObj [("slug", JStr (ri_slug i)); ("title", JStr (ri_title i)); ("domain", JStr (ri_domain i));
        ("backend", JStr (ri_backend i)); ("state", JStr (ri_state i)); ("rate", JNum (json_float (ri_rate i)));
        ("max_active", JInt (ri_max_active i)); ("wave_s", JInt (ri_wave_s i)); ("pass_ttl_s", JInt (ri_pass_ttl_s i));
        ("opens_at", match ri_opens_at i with Some s => JStr s | None => JNull end);
        ("theme", match ri_theme i with Some m => JMap m | None => JNull end);
        ("auto_on", JInt (ri_auto_on i)); ("auto_off", JInt (ri_auto_off i))]%string.

(** ** The world: the reconciler, the load balancers, the queue service *)

Section Tenant.
Context {St Q : Type} {HD : DataplaneHTTP St} {HQ : QueueHTTP Q} {HM_ : MapOrder} {HO : Collation} {HC : Crypto}.
(** The master key; the identifiers [gen_random_uuid()] gives; [time.Parse] at
    [RFC3339], in seconds; whether ACME is configured. *)
Context (key : string) (gen : cdb -> string) (rfc3339 : string -> option Z) (acme_enabled : bool).

Record rest : Type := MkRest {
  rs_rec : Reconciler; rs_lbs : St; rs_queues : Q;
  rs_issues : list (string * string)     (* the certificate orders started *)
}.
Abbreviation W := (cworld rest).
Abbreviation HMR := (@HM rest).
Abbreviation handlerR := (@handler rest).

Definition set_rest (x : rest) (w : W) : W := MkCw (cw_pg w) (cw_rand w) (cw_kick w) (cw_triggers w) x.

Definition rec_world (w : W) : @Reconcile.world St Q :=
  Reconcile.MkWorld (rs_rec (cw_rest w)) (cw_pg w) (rs_lbs (cw_rest w)) (rs_queues (cw_rest w)).
Definition back (w : W) (v : @Reconcile.world St Q) : W :=
  MkCw (w_pg v) (cw_rand w) (cw_kick w) (cw_triggers w)
    (MkRest (w_rec v) (w_lbs v) (w_queues v) (rs_issues (cw_rest w))).

(** [a.rec.Once(ctx, true)]. *)
Definition rec_Once : HMR unit := fun w =>
  (inr tt, back w (Once (fun enc => match Open key enc with inr s => Some s | inl _ => None end) sha256 true (rec_world w)).2).

Definition call_queue (method path : string) : HMR (goerr + (Z * string)) := fun w =>
  let x := cw_rest w in
  let '(r, q) := Queueclient.Call (rc_queue (rs_rec x)) method path (rs_queues x) in
  (inr r, set_rest (MkRest (rs_rec x) (rs_lbs x) q (rs_issues x)) w).

Definition no_content : resp := MkResp 204 [] [] NoBody.
Definition not_found (msg : string) : resp := Error 404 "not_found" msg.
Definition invalid (msg : string) : resp := Error 400 "invalid" msg.

(** ** Domains *)

Definition violates (constraint : string) : goerr := ErrPg "23514" constraint.

Definition insert_domain (tenant : string) (i : domain_in) (d : cdb) : goerr + (unit * cdb) :=
  if negb (bool_decide (ToLower (di_fqdn i) = di_fqdn i)) then inl (violates "domains_fqdn_check")
  else if negb (existsb (String.eqb (di_mode i)) ["dns"; "iframe"]%string) then inl (violates "domains_mode_check")
  else if negb (existsb (String.eqb (di_tls i)) ["auto"; "none"]%string) then inl (violates "domains_tls_check")
  else if existsb (fun x => String.eqb (d_fqdn x) (di_fqdn i)) (domains d) then inl (ErrPg "23505" "domains_fqdn_key")
  else if negb (existsb (fun t => String.eqb (t_id t) tenant) (tenants d)) then inl (ErrPg "23503" "domains_tenant_id_fkey")
  else inr (tt, set_sites 1 (domains d ++ [MkDomain (gen d) tenant (di_fqdn i) (di_mode i) (di_tls i) (clock d)])
                  (backends d) (servers d) (rooms d) (certificates d) d).

Definition or_default (s def : string) : string := if bool_decide (s = EmptyString) then def else s.

Definition createDomain : handlerR := fun r p =>
  i ← decode r dec_domain;
  let fqdn := ToLower (TrimSuffix1 "."%char (TrimSpace (di_fqdn i))) in
  require (fqdn_match fqdn) (invalid "fqdn invalide") ≫= fun _ =>
  let i := MkDomainIn fqdn (or_default (di_mode i) "dns") (or_default (di_tls i) "auto") in
  or_db (Exec (insert_domain (p_tenantID p) i)) ≫= fun _ =>
  audit p "domain.create" (domain_json i) ≫= fun _ =>
  quietly_ Trigger ≫= fun _ =>
  mret (JSON 201 (domain_json i)).

Definition is_domain (tenant fqdn : string) (x : domain_row) : bool :=
  String.eqb (d_tenant x) tenant && String.eqb (d_fqdn x) fqdn.

(** A room whose domain, or backend, is deleted keeps none. *)
Definition no_domain (i : string) (r : room_row) : room_row :=
  if bool_decide (r_domain r = Some i)
  then MkRoom (r_id r) (r_tenant r) (r_slug r) (r_title r) None (r_backend r) (r_state r) (r_effective r)
         (r_rate r) (r_max_active r) (r_wave_s r) (r_pass_ttl_s r) (r_opens_at r) (r_theme r) (r_auto_on r) (r_auto_off r) (r_updated r)
  else r.
Definition no_backend (i : string) (r : room_row) : room_row :=
  if bool_decide (r_backend r = Some i)
  then MkRoom (r_id r) (r_tenant r) (r_slug r) (r_title r) (r_domain r) None (r_state r) (r_effective r)
         (r_rate r) (r_max_active r) (r_wave_s r) (r_pass_ttl_s r) (r_opens_at r) (r_theme r) (r_auto_on r) (r_auto_off r) (r_updated r)
  else r.

(** The foreign keys: certificates go with their domain, and the queue keeps
    none.  Whether there was such a domain, [fqdn] being unique. *)
Definition delete_domain (tenant fqdn : string) (d : cdb) : bool * cdb :=
  match list_find (fun x => is_domain tenant fqdn x = true) (domains d) with
  | None => (false, set_sites 1 (domains d) (backends d) (servers d) (rooms d) (certificates d) d)
  | Some (_, x) =>
      (true, set_sites 3 (base.filter (fun y => d_id y <> d_id x) (domains d)) (backends d) (servers d)
               (map (no_domain (d_id x)) (rooms d)) (base.filter (fun c => c_domain c <> d_id x) (certificates d)) d)
  end.

Definition deleteDomain : handlerR := fun r p =>
  found ← or_db (Exec (fun d => inr (delete_domain (p_tenantID p) (ToLower (PathValue "fqdn" r)) d)));
  require found (not_found "domaine inconnu") ≫= fun _ =>
  audit p "domain.delete" (JStr (PathValue "fqdn" r)) ≫= fun _ =>
  quietly_ Kick ≫= fun _ => mret no_content.

Definition q_domain (tenant fqdn : string) (d : cdb) : option domain_row :=
  snd <$> list_find (fun x => is_domain tenant fqdn x = true) (domains d).

Definition start_issue (id fqdn : string) : HMR unit := fun w =>
  let y := cw_rest w in
  (inr tt, set_rest (MkRest (rs_rec y) (rs_lbs y) (rs_queues y) (rs_issues y ++ [(id, fqdn)])) w).

Definition renewCert : handlerR := fun r p =>
  x ← or_db (QueryRow (q_domain (p_tenantID p) (ToLower (PathValue "fqdn" r))));
  require acme_enabled (Error 409 "acme_disabled" "ACME n'est pas configuré (FLYC_ACME_EMAIL)") ≫= fun _ =>
  start_issue (d_id x) (d_fqdn x) ≫= fun _ =>
  mret (JSON 202 (JObj [("status", JStr "requested")]%string)).

(** ** Backends *)

Definition is_backend (tenant name : string) (x : backend_row) : bool :=
  String.eqb (b_tenant x) tenant && String.eqb (b_name x) name.

(** [insert ... on conflict (tenant_id, name) do update ... returning id]. *)
Definition put_backend_row (tenant : string) (i : backend_in) (d : cdb) : goerr + (string * cdb) :=
  if negb (slug_match (bi_name i)) then inl (violates "backends_name_check")
  else if negb (existsb (String.eqb (bi_balance i)) ["roundrobin"; "leastconn"; "source"]%string)
  then inl (violates "backends_balance_check")
  else
    let with_backends l := set_sites 2 (domains d) l (servers d) (rooms d) (certificates d) d in
    match list_find (fun x => is_backend tenant (bi_name i) x = true) (backends d) with
    | Some (_, x) =>
        inr (b_id x, with_backends (map (fun y =>
          if is_backend tenant (bi_name i) y
          then MkBackendRow (b_id y) (b_tenant y) (b_name y) (bi_balance i) (bi_check_path i) else y) (backends d)))
    | None =>
        if negb (existsb (fun t => String.eqb (t_id t) tenant) (tenants d)) then inl (ErrPg "23503" "backends_tenant_id_fkey")
        else inr (gen d, with_backends (backends d ++ [MkBackendRow (gen d) tenant (bi_name i) (bi_balance i) (bi_check_path i)]))
    end.

Definition delete_servers_of (id : string) (d : cdb) : cdb :=
  set_sites 1 (domains d) (backends d) (base.filter (fun s => sv_backend s <> id) (servers d)) (rooms d) (certificates d) d.

(** A number that does not fit the column does not reach the server. *)
Definition int4 (z : Z) : bool := (- 2 ^ 31 <=? z) && (z <? 2 ^ 31).
Definition too_large (z : Z) : goerr := Err (FormatInt z +:+ " is greater than maximum value for int4")%string.

Definition insert_server (s : server_row) (d : cdb) : goerr + (unit * cdb) :=
  if negb (slug_match (sv_name s)) then inl (violates "backend_servers_name_check")
  else if negb ((1 <=? sv_port s) && (sv_port s <=? 65535)) then inl (violates "backend_servers_port_check")
  else if negb ((0 <=? sv_weight s) && (sv_weight s <=? 256)) then inl (violates "backend_servers_weight_check")
  else if existsb (fun x => String.eqb (sv_backend x) (sv_backend s) && String.eqb (sv_name x) (sv_name s)) (servers d)
  then inl (ErrPg "23505" "backend_servers_backend_id_name_key")
  else if negb (existsb (fun b => String.eqb (b_id b) (sv_backend s)) (backends d)) then inl (ErrPg "23503" "backend_servers_backend_id_fkey")
  else inr (tt, set_sites 1 (domains d) (backends d) (servers d ++ [s]) (rooms d) (certificates d) d).

Definition fitting (l : list Z) : M pg unit :=
  match list_find (fun z => int4 z = false) l with
  | Some (_, z) => mfail (too_large z)
  | None => mret tt
  end.

(** The loop over the servers of the body, [i] being the index of the next. *)
Fixpoint insert_servers (id : string) (i : Z) (l : list server_in) : M pg unit :=
  match l with
  | [] => mret tt
  | s :: l =>
      let name := if bool_decide (si_name s = EmptyString) then ("srv" +:+ FormatInt (i + 1))%string else si_name s in
      let row := MkServerRow id name (si_address s) (si_port s) (default 100 (si_weight s)) (default 0 (si_maxconn s)) in
      fitting [sv_port row; sv_weight row; sv_maxconn row] ≫= fun _ =>
      Exec (insert_server row) ≫= fun _ => insert_servers id (i + 1) l
  end.

Definition put_backend_tx (tenant : string) (i : backend_in) : M pg unit :=
  id ← Exec (put_backend_row tenant i);
  Exec_ (delete_servers_of id) ≫= fun _ =>
  insert_servers id 0 (bi_servers i).

Definition upsertBackend : handlerR := fun r p =>
  i ← decode r dec_backend_in;
  let name := or_default (PathValue "name" r) (bi_name i) in
  require (slug_match name) (invalid "nom de backend invalide") ≫= fun _ =>
  let i := MkBackendIn name (or_default (bi_balance i) "roundrobin") (or_default (bi_check_path i) "/") (bi_servers i) in
  require (negb (bool_decide (bi_servers i = []))) (invalid "au moins un serveur") ≫= fun _ =>
  or_db (in_tx (put_backend_tx (p_tenantID p) i)) ≫= fun _ =>
  audit p "backend.upsert" (backend_json i) ≫= fun _ =>
  quietly_ Kick ≫= fun _ =>
  mret (JSON 200 (JObj [("haproxy_name", JStr (BackendName (p_tenant p) name)); ("name", JStr name);
                        ("servers", JInt (Z.of_nat (List.length (bi_servers i))))]%string)).

(** The servers go with their backend, and the queues keep none. *)
Definition delete_backend (tenant name : string) (d : cdb) : bool * cdb :=
  match list_find (fun x => is_backend tenant name x = true) (backends d) with
  | None => (false, set_sites 1 (domains d) (backends d) (servers d) (rooms d) (certificates d) d)
  | Some (_, x) =>
      (true, set_sites 3 (domains d) (base.filter (fun y => b_id y <> b_id x) (backends d))
               (base.filter (fun s => sv_backend s <> b_id x) (servers d)) (map (no_backend (b_id x)) (rooms d))
               (certificates d) d)
  end.

Definition deleteBackend : handlerR := fun r p =>
  found ← or_db (Exec (fun d => inr (delete_backend (p_tenantID p) (PathValue "name" r) d)));
  require found (not_found "backend inconnu") ≫= fun _ =>
  audit p "backend.delete" (JStr (PathValue "name" r)) ≫= fun _ =>
  quietly_ Kick ≫= fun _ => mret no_content.

(** ** Queues *)

Definition q_backend (tenant name : string) (d : cdb) : option backend_row :=
  snd <$> list_find (fun x => is_backend tenant name x = true) (backends d).

(** The identifier of what a name designates, or nothing for the empty name. *)
Definition named {A} (name : string) (q : cdb -> option A) (id : A -> string) (bad : resp) : HMR (option string) :=
  if bool_decide (name = EmptyString) then mret None
  else x ← attempt (fun _ => bad) (at_pg (QueryRow q)); mret (Some (id x)).

Definition theme_keys : list string := ["accent"; "logo_url"; "message"; "lang"]%string.
Definition clean_theme (t : option (gmap string string)) : gmap string string :=
  base.filter (fun kv => kv.1 ∈ theme_keys) (default ∅ t).

Definition room_of (id tenant : string) (i : room_in) (domain backend : option string) (opens : option Z)
    (theme : gmap string string) (eff : string) (now : Z) : room_row :=
  MkRoom id tenant (ri_slug i) (ri_title i) domain backend (ri_state i) eff (ri_rate i) (ri_max_active i)
    (ri_wave_s i) (ri_pass_ttl_s i) opens theme (ri_auto_on i) (ri_auto_off i) now.

Definition is_room (tenant slug : string) (x : room_row) : bool :=
  String.eqb (r_tenant x) tenant && String.eqb (r_slug x) slug.

(** [insert ... on conflict (tenant_id, slug) do update]: in automatic mode the
    effective state of the row is kept. *)
Definition put_room_row (tenant : string) (i : room_in) (domain backend : option string) (opens : option Z)
    (theme : gmap string string) (eff : string) (d : cdb) : goerr + (unit * cdb) :=
  let with_rooms l := set_sites 2 (domains d) (backends d) (servers d) l (certificates d) d in
  let taken x := bool_decide (domain <> None) && bool_decide (r_domain x = domain) in
  if negb (slug_match (ri_slug i)) then inl (violates "rooms_slug_check")
  else if negb (existsb (String.eqb (ri_state i)) ["open"; "queue"; "closed"; "auto"]%string) then inl (violates "rooms_state_check")
  else if existsb (fun x => taken x && negb (is_room tenant (ri_slug i) x)) (rooms d) then inl (ErrPg "23505" "rooms_domain_idx")
  else
    match list_find (fun x => is_room tenant (ri_slug i) x = true) (rooms d) with
    | Some _ =>
        inr (tt, with_rooms (map (fun x =>
          if is_room tenant (ri_slug i) x
          then room_of (r_id x) (r_tenant x) i domain backend opens theme
                 (if String.eqb (ri_state i) "auto" then r_effective x else ri_state i) (clock d)
          else x) (rooms d)))
    | None =>
        if negb (existsb (fun t => String.eqb (t_id t) tenant) (tenants d)) then inl (ErrPg "23503" "rooms_tenant_id_fkey")
        else inr (tt, with_rooms (rooms d ++ [room_of (gen d) tenant i domain backend opens theme eff (clock d)]))
    end.

Definition or_positive (z def : Z) : Z := if z <=? 0 then def else z.

(** The body with its defaults. *)
Definition room_defaults (slug : string) (i : room_in) : room_in :=
  MkRoomIn slug (ri_title i) (ri_domain i) (ri_backend i) (or_default (ri_state i) "open")
    (if fleb (ri_rate i) fzero then F64.of_int 10 else ri_rate i) (ri_max_active i)
    (or_positive (ri_wave_s i) 30) (or_positive (ri_pass_ttl_s i) 1200) (ri_opens_at i)
    (Some (clean_theme (ri_theme i))) (ri_auto_on i) (ri_auto_off i).

Definition bad_thresholds (i : room_in) : bool :=
  String.eqb (ri_state i) "auto" && ((ri_auto_on i <=? 0) || (ri_auto_off i <? 0) || (ri_auto_on i <=? ri_auto_off i)).

Definition opening (i : room_in) : HMR (option Z) :=
  match ri_opens_at i with
  | None => mret None
  | Some s =>
      if bool_decide (s = EmptyString) then mret None
      else match rfc3339 s with
           | Some t => mret (Some t)
           | None => reply (invalid "opens_at doit être au format RFC3339")
           end
  end.

Definition upsertRoom : handlerR := fun r p =>
  i ← decode r dec_room_in;
  let slug := or_default (PathValue "slug" r) (ri_slug i) in
  require (slug_match slug) (invalid "slug invalide") ≫= fun _ =>
  let i := room_defaults slug i in
  domain ← named (ri_domain i) (q_domain (p_tenantID p) (ToLower (ri_domain i))) d_id
             (Error 400 "invalid_domain" ("domaine inconnu pour ce tenant : " +:+ ri_domain i)%string);
  backend ← named (ri_backend i) (q_backend (p_tenantID p) (ri_backend i)) b_id
              (Error 400 "invalid_backend" ("backend inconnu pour ce tenant : " +:+ ri_backend i)%string);
  opens ← opening i;
  require (negb (bad_thresholds i)) (invalid "mode auto : auto_on > auto_off ≥ 0 requis (connexions backend)") ≫= fun _ =>
  let eff := if String.eqb (ri_state i) "auto" then "open"%string else ri_state i in
  or_db (fitting [ri_wave_s i; ri_pass_ttl_s i; ri_auto_on i; ri_auto_off i] ≫= fun _ =>
         Exec (put_room_row (p_tenantID p) i domain backend opens (clean_theme (ri_theme i)) eff)) ≫= fun _ =>
  audit p "room.upsert" (room_in_json i) ≫= fun _ =>
  quietly_ Kick ≫= fun _ =>
  mret (JSON 200 (JObj [("id", JStr (p_tenant p +:+ "." +:+ slug)); ("state", JStr (ri_state i))]%string)).

Definition delete_room (tenant slug : string) (d : cdb) : bool * cdb :=
  (existsb (is_room tenant slug) (rooms d),
   set_sites 1 (domains d) (backends d) (servers d) (base.filter (fun x => is_room tenant slug x = false) (rooms d))
     (certificates d) d).

Definition deleteRoom : handlerR := fun r p =>
  found ← or_db (Exec (fun d => inr (delete_room (p_tenantID p) (PathValue "slug" r) d)));
  require found (not_found "file inconnue") ≫= fun _ =>
  audit p "room.delete" (JStr (PathValue "slug" r)) ≫= fun _ =>
  quietly_ Kick ≫= fun _ => mret no_content.

Definition with_state (now : Z) (st : string) (eff : option string) (x : room_row) : room_row :=
  MkRoom (r_id x) (r_tenant x) (r_slug x) (r_title x) (r_domain x) (r_backend x) st (default (r_effective x) eff)
    (r_rate x) (r_max_active x) (r_wave_s x) (r_pass_ttl_s x) (r_opens_at x) (r_theme x) (r_auto_on x) (r_auto_off x) now.

(** [update rooms set state=... where tenant_id=$1 and slug=$2], for the rows
    [ok] accepts: whether there was one. *)
Definition set_state (tenant slug st : string) (eff : option string) (ok : room_row -> bool) (d : cdb) : bool * cdb :=
  let this x := is_room tenant slug x && ok x in
  (existsb this (rooms d),
   set_sites 1 (domains d) (backends d) (servers d) (map (fun x => if this x then with_state (clock d) st eff x else x) (rooms d))
     (certificates d) d).

Definition room_states : list string := ["open"; "queue"; "closed"; "auto"]%string.

(** The writing of [roomState], before it runs the reconciler. *)
Definition change_state (tenant slug st : string) : HMR unit :=
  if String.eqb st "auto" then
    found ← or_db (Exec (fun d => inr (set_state tenant slug "auto" None (fun x => 0 <? r_auto_on x) d)));
    require found (invalid "définissez d'abord les seuils auto_on / auto_off de la file")
  else
    found ← or_db (Exec (fun d => inr (set_state tenant slug st (Some st) (fun _ => true) d)));
    require found (not_found "file inconnue").

Definition roomState : handlerR := fun r p =>
  st ← decode r (dec_one "state");
  let slug := PathValue "slug" r in
  require (existsb (String.eqb st) room_states) (invalid "state doit être open, queue, closed ou auto") ≫= fun _ =>
  change_state (p_tenantID p) slug st ≫= fun _ =>
  audit p "room.state" (JObj [("slug", JStr slug); ("state", JStr st)]%string) ≫= fun _ =>
  rec_Once ≫= fun _ =>
  mret (JSON 200 (JObj [("id", JStr (p_tenant p +:+ "." +:+ slug)); ("state", JStr st)]%string)).

(** [POST /v1/sync]. *)
Definition syncNow : handlerR := fun r p =>
  rec_Once ≫= fun _ => quietly_ Trigger ≫= fun _ => mret (JSON 200 (JObj [("status", JStr "synced")]%string)).

(** The answer of the queue service, forwarded as it is. *)
Definition forward (x : Z * string) : resp := MkResp x.1 [("Content-Type", "application/json")]%string [] (BText x.2).

Definition roomStats : handlerR := fun r p =>
  x ← call_queue "GET" ("/internal/rooms/" +:+ p_tenant p +:+ "." +:+ PathValue "slug" r)%string;
  match x with
  | inl e => reply (Error 503 "queue_unreachable" (error_text e))
  | inr x => mret (forward x)
  end.

Definition roomFlush : handlerR := fun r p =>
  x ← call_queue "POST" ("/internal/rooms/" +:+ p_tenant p +:+ "." +:+ PathValue "slug" r +:+ "/flush")%string;
  match x with
  | inl e => reply (Error 503 "queue_unreachable" (error_text e))
  | inr x => audit p "room.flush" (JStr (PathValue "slug" r)) ≫= fun _ => mret (forward x)
  end.

(** ** The check of a pass *)

Section Verify.
Context {PK : Type} (pem_decode : string -> option string) (parse_pkix : string -> goerr + option PK).
Context (ecdsa_verify : PK -> string -> Z -> Z -> bool) (unmarshal_payload : string -> goerr + Payload).

(** The keys in use, and those retired for less than a day. *)
Definition q_pems (d : cdb) : list string :=
  omap (fun k => if k_active k || match k_retired k with Some t => clock d - 86400 <? t | None => false end
                 then Some (k_public k) else None) (signing_keys d).

(** The first key that verifies the pass; else the error of the last. *)
Fixpoint verify_any (now : Z) (pems : list string) (token host : string) (last : option goerr) : option goerr + Payload :=
  match pems with
  | [] => inl last
  | pem :: pems =>
      match Verify pem_decode parse_pkix sha256 ecdsa_verify unmarshal_payload now pem token host with
      | inr c => inr c
      | inl e => verify_any now pems token host (Some e)
      end
  end.

Definition refusal (reason : string) : resp := JSON 200 (JObj [("reason", JStr reason); ("valid", JBool false)]%string).

Definition verifyPass : handlerR := fun r p =>
  i ← decode r (dec_pair "pass" "host");
  rows ← or_db (Query q_pems);
  match verify_any (q_now r) (scanned rows.1) i.1 (ToLower i.2) None with
  | inl last => mret (refusal (match last with Some e => error_text e | None => "pass invalide"%string end))
  | inr c =>
      own ← tried (at_pg (QueryRow (fun d => Some (existsb (is_domain (p_tenantID p) (p_Dom c)) (domains d)))));
      if negb (match own with inr b => b | inl _ => false end) || negb (HasPrefix (p_Rm c) (p_tenant p +:+ ".")%string)
      then mret (refusal "pass émis pour un autre tenant")
      else mret (JSON 200 (JObj [("dom", JStr (p_Dom c)); ("exp", JInt (p_Exp c)); ("kid", JStr (p_Kid c));
                                 ("room", JStr (p_Rm c)); ("sub", JStr (p_Sub c)); ("valid", JBool true)]%string))
  end.

End Verify.

(** ** Load balancers and queue hosts that have left the inventory *)

Definition delete_edge (name : string) (d : cdb) : bool * cdb :=
  (existsb (fun e => String.eqb (e_name e) name) (edges d), set_edges (base.filter (fun e => e_name e <> name) (edges d)) d).

Definition still_there (msg : string) : resp := Error 409 "still_configured" msg.

Definition deleteEdge : handlerR := fun r p w =>
  let name := PathValue "name" r in
  (require (negb (existsb (String.eqb name) (EdgeNames (rs_rec (cw_rest w)))))
     (still_there "ce LB est encore déployé : le retirer de l'inventaire et rejouer le playbook d'abord") ≫= fun _ =>
   found ← or_db (Exec (fun d => inr (delete_edge name d)));
   require found (not_found "aucun LB de ce nom") ≫= fun _ =>
   audit p "edge.delete" (JObj [("name"%string, JStr name)]) ≫= fun _ =>
   mret (JSON 200 (JObj [("deleted"%string, JStr name)]))) w.

Definition deleteQueueHost : handlerR := fun r p w =>
  let name := PathValue "name" r in
  (h ← attempt (fun e => match e with ErrNoRows => not_found "aucun hôte de file de ce nom" | e => dbErr e end)
         (at_pg (QueryRow (fun d => by_id q_name name (queue_hosts d))));
   let url := ("http://" +:+ q_address h +:+ ":" +:+ FormatInt (q_port h))%string in
   require (negb (existsb (String.eqb url) (Queueclient.Hosts (rc_queue (rs_rec (cw_rest w))))))
     (still_there "cet hôte de file est encore déployé : le retirer de l'inventaire et rejouer le playbook d'abord") ≫= fun _ =>
   or_db (Exec_ (fun d => set_queue_hosts (base.filter (fun x => q_name x <> name) (queue_hosts d)) d)) ≫= fun _ =>
   audit p "queuehost.delete" (JObj [("name"%string, JStr name)]) ≫= fun _ =>
   mret (JSON 200 (JObj [("deleted"%string, JStr name)]))) w.

End Tenant.

(** ** What a valid pass is *)

Section PassCheck.
Context {St Q : Type} {HO : Collation} {HC : Crypto}.
Context {PK : Type} (pem_decode : string -> option string) (parse_pkix : string -> goerr + option PK).
Context (ecdsa_verify : PK -> string -> Z -> Z -> bool) (unmarshal_payload : string -> goerr + Payload).

Abbreviation check := (Verify pem_decode parse_pkix sha256 ecdsa_verify unmarshal_payload).

(** The answer [valid: true]. *)
Definition valid_answer (a : resp) : bool :=
  match r_body a with
  | BJson (JObj l) => match Dataplane.field "valid" l with JBool b => b | _ => false end
  | _ => false
  end.

(** The first key, in the order the query gives them, that verifies the pass. *)
Definition first_verified (now : Z) (pems : list string) (token host : string) (c : Payload) : Prop :=
  exists l1 pem l2, pems = l1 ++ pem :: l2 /\ Forall (fun k => forall x, check now k token host <> inr x) l1 /\
    check now pem token host = inr c.

Lemma verify_any_first now pems token host last c :
  verify_any pem_decode parse_pkix ecdsa_verify unmarshal_payload now pems token host last = inr c <->
  first_verified now pems token host c.
Proof.
  unfold first_verified. revert last. induction pems as [|pem pems IH]; intros last; cbn [verify_any].
  { split; [done|]. by intros (l1 & pem & l2 & ?%app_cons_not_nil & _). }
  destruct (check now pem token host) as [e|c'] eqn:Hc.
  - rewrite IH. split.
    + intros (l1 & k & l2 & -> & Hl & Hk). exists (pem :: l1), k, l2. split; [done|]. split; [|done].
      apply Forall_cons. split; [|done]. intros x Hx. congruence.
    + intros ([|k1 l1] & k & l2 & [= -> ->] & Hl & Hk); [congruence|]. apply Forall_cons in Hl as [_ Hl]. by exists l1, k, l2.
  - split.
    + intros [= ->]. exists [], pem, pems. split; [done|]. by split; [constructor|].
    + intros ([|k1 l1] & k & l2 & [= -> ->] & Hl & Hk); [congruence|]. apply Forall_cons in Hl as [Hl _]. by destruct (Hl c').
Qed.

(** Claim C36: over a database that answers, [verifyPass] changes nothing and
    answers that a pass is valid exactly when a signing key in use, or retired
    for less than a day, verifies it for the host given, at the time of the
    request, and what the first such key reads in it is a domain of the tenant
    that asks and a queue whose name starts with the tenant's name and a dot.
    Nothing else is looked at: the queue may not exist. *)
Theorem verifyPass_sound r p (w : cworld (@rest St Q)) :
  quiet_w w ->
  let '(a, w') := served (verifyPass pem_decode parse_pkix ecdsa_verify unmarshal_payload r p) w in
  db w' = db w /\ (valid_answer a = true -> r_code a = 200) /\
  (valid_answer a = true <->
   exists v i c x, q_body r = inr v /\ dec_pair "pass" "host" v = Some i /\
     first_verified (q_now r) (q_pems (db w)) i.1 (ToLower i.2) c /\
     x ∈ domains (db w) /\ d_tenant x = p_tenantID p /\ d_fqdn x = p_Dom c /\
     exists slug, p_Rm c = (p_tenant p +:+ "." +:+ slug)%string).
Proof.
  assert (Hno : forall (a : resp) (P : Prop), valid_answer a = false -> (valid_answer a = true -> r_code a = 200) /\ (P -> False) -> (valid_answer a = true -> r_code a = 200) /\ (valid_answer a = true <-> P)).
  { intros a P -> [H1 H2]. split; [done|]. by split. }
  intros Hq. unfold served, verifyPass, decode. rewrite HM_bind_eq.
  destruct (q_body r) as [e|v] eqn:Hb.
  { split; [done|]. apply Hno; [done|]. split; [done|]. by intros (v & i & c & x & ? & _). }
  destruct (dec_pair _ _ v) as [i|] eqn:Hi.
  2:{ split; [done|]. apply Hno; [done|]. split; [done|]. intros (v' & i & c & x & [= <-] & Hx & _). congruence. }
  cbn [mret HM_ret]. h_step. cbn [fst]. rewrite scanned_inr.
  destruct (verify_any _ _ _ _ _ _ _ _ _) as [last|c] eqn:Hv.
  { split; [done|]. apply Hno; [done|]. split; [done|]. intros (v' & i' & c & x & [= <-] & Hx & Hf & _).
    rewrite Hi in Hx. injection Hx as <-. apply (verify_any_first _ _ _ _ None) in Hf. congruence. }
  pose proof Hv as Hf. apply verify_any_first in Hf. h_step.
  assert (Hc : forall v' i' c', inr v = inr v' :> (goerr + json) -> dec_pair "pass" "host" v' = Some i' ->
     first_verified (q_now r) (q_pems (db w)) i'.1 (ToLower i'.2) c' -> c' = c).
  { intros v' i' c' [= <-] Hx Hf'. rewrite Hi in Hx. injection Hx as <-. apply (verify_any_first _ _ _ _ None) in Hf'. congruence. }
  destruct (existsb _ (domains (db w))) eqn:Hx; cbn [negb orb].
  2:{ split; [done|]. apply Hno; [done|]. split; [done|]. intros (v' & i' & c' & x & H1 & H2 & H3 & Hin & Ht & Hd & _).
      rewrite (Hc _ _ _ H1 H2 H3) in Hd.
      rewrite <- not_true_iff_false, existsb_exists in Hx. apply Hx. exists x. split; [by apply list_elem_of_In|].
      unfold is_domain. by rewrite Ht, Hd, !String.eqb_refl. }
  destruct (HasPrefix _ _) eqn:Hp; cbn [negb].
  2:{ split; [done|]. apply Hno; [done|]. split; [done|]. intros (v' & i' & c' & x & H1 & H2 & H3 & _ & _ & _ & slug & Hs).
      rewrite (Hc _ _ _ H1 H2 H3) in Hs. rewrite Hs, <- string_app_assoc, HasPrefix_app in Hp. done. }
  split; [done|]. split; [done|]. split; [intros _|done].
  apply existsb_exists in Hx as (x & Hx%list_elem_of_In & [Ht%String.eqb_eq Hd%String.eqb_eq]%andb_true_iff).
  exists v, i, c, x. split_and!; try done. apply HasPrefix_inv in Hp as [slug Hp]. exists slug.
  by rewrite Hp, string_app_assoc.
Qed.

End PassCheck.

(** ** An example *)

Import AccessDemo.

Definition any_payload : Payload := MkPayload "flyc" "s" "t_1" "shop.example" "acme.sale" 900 2000 "k2".
Definition signed : string := ("YQ.YQ." +:+ encode RawURLEncoding (alphabet +:+ "--"))%string.
Definition pass_request (host : string) : http_request :=
  request [] [] (JObj [("pass", JStr signed); ("host", JStr host)]%string).
Definition site_world : cworld (@rest unit unit) :=
  MkCw (MkPg demo_db []) [] false 0
    (MkRest (MkRec [] "admin" "secret" (Queueclient.MkClient EmptyString []) EmptyString 0 ∅) tt tt []).
Definition toy_check : @handler (@rest unit unit) :=
  verifyPass (PK := string) Some (fun s => inr (Some s)) (fun _ _ _ _ => true) (fun _ => inr any_payload).
Definition tenant_of (i slug : string) : principal := MkPrincipal "k" i slug false EmptyString None false.

(** A pass for a queue the tenant does not have. *)
Definition stray_payload : Payload := MkPayload "flyc" "s" "t_1" "shop.example" "acme.nosuchqueue" 900 2000 "k2".
Definition stray_check : @handler (@rest unit unit) :=
  verifyPass (PK := string) Some (fun s => inr (Some s)) (fun _ _ _ _ => true) (fun _ => inr stray_payload).

Lemma verifyPass_sound_witness :
  room_id <$> q_rooms (db site_world) = ["acme.sale"%string] /\
  valid_answer (served (stray_check (pass_request "Shop.example") (tenant_of "t1" "acme")) site_world).1 = true /\
  valid_answer (served (stray_check (pass_request "Shop.example") (tenant_of "t2" "other")) site_world).1 = false.
Proof.
  split; [vm_compute; reflexivity|]. split; [|vm_compute; reflexivity].
  pose proof (verifyPass_sound (PK := string) Some (fun s => inr (Some s)) (fun _ _ _ _ => true) (fun _ => inr stray_payload)
    (pass_request "Shop.example") (tenant_of "t1" "acme") site_world eq_refl) as H. unfold stray_check.
  destruct (served _ _) as [a w']. destruct H as (_ & _ & [_ H]). apply H. clear H.
  eexists _, (signed, "Shop.example"%string), stray_payload, (MkDomain "d1" "t1" "shop.example" "dns" "auto" 0).
  split; [reflexivity|]. split; [vm_compute; reflexivity|]. split.
  { eexists [], _, _. split; [vm_compute; reflexivity|]. split; [constructor|]. vm_compute. reflexivity. }
  split; [by left|]. do 3 (split; [reflexivity|] || idtac). by exists "nosuchqueue"%string.
Defined.
