(* ===== verification/Ownership.v ===== *)
(** * What a tenant may change

    The tables of the sites as an abstract machine, [tenant_step], which the
    routes of [Tenant.v] refine; its invariant [owned] and the isolation of the
    tenants from one another. *)
From Stdlib Require Import Ascii.
From S2P Require Import Prelude GoStr F64 Json Httpx Dataplane Site Queueclient Pg Compile Inventory Reconcile Settle Pass Access Tenant.

Local Open Scope list_scope.
Local Open Scope Z_scope.

(** ** Lists *)

Lemma filter_map_id {A} (P : A -> Prop) `{forall x, Decision (P x)} (f : A -> A) (l : list A) :
  (forall x, x ∈ l -> P x -> f x = x) -> (forall x, x ∈ l -> P (f x) -> P x) ->
  base.filter P (map f l) = base.filter P l.
Proof.
  intros Hf HP. induction l as [|x l IH]; [done|]. simpl. rewrite !filter_cons, IH by (intros; eauto using list_elem_of_further).
  destruct (decide (P x)) as [Hx|Hx].
  - rewrite Hf by (done || left). by rewrite decide_True.
  - rewrite decide_False; [done|]. intros Hx'. apply Hx, HP; [left|done].
Qed.

Lemma filter_filter_eq {A} (P P' R : A -> Prop) `{forall x, Decision (P x)} `{forall x, Decision (P' x)}
    `{forall x, Decision (R x)} (l : list A) :
  (forall x, x ∈ l -> R x -> P' x <-> P x) -> (forall x, x ∈ l -> P x -> R x) ->
  base.filter P' (base.filter R l) = base.filter P l.
Proof.
  intros HP HPR. induction l as [|x l IH]; [done|]. rewrite !filter_cons.
  assert (IH' : base.filter P' (base.filter R l) = base.filter P l)
    by (apply IH; intros y Hy; [apply HP|apply HPR]; by right).
  destruct (decide (R x)) as [Hr|Hr]; rewrite ?filter_cons, IH'.
  - assert (Hx : P' x <-> P x) by (apply HP; [left|done]). destruct (decide (P x)) as [Hp|Hp].
    + by rewrite decide_True by (by apply Hx).
    + by rewrite decide_False by (by rewrite Hx).
  - rewrite decide_False; [done|]. intros Hp. apply Hr, HPR; [left|done].
Qed.

Lemma filter_app_none {A} (P : A -> Prop) `{forall x, Decision (P x)} (l l' : list A) :
  (forall x, x ∈ l' -> ~ P x) -> base.filter P (l ++ l') = base.filter P l.
Proof.
  intros Hn. rewrite filter_app. rewrite (list_filter_none P l'); [by rewrite app_nil_r|done].
Qed.

Lemma by_id_map_keep {A} (key : A -> string) (f : A -> A) i l :
  (forall x, key (f x) = key x) -> by_id key i (map f l) = f <$> by_id key i l.
Proof.
  intros Hf. induction l as [|x l IH]; [done|]. simpl. rewrite !by_id_cons, Hf, IH. by case_decide.
Qed.

Lemma by_id_filter_other {A} (key : A -> string) k i l :
  i <> k -> by_id key i (base.filter (fun x => key x <> k) l) = by_id key i l.
Proof. intros Hi. rewrite (by_id_filter key _ (fun x => x <> k)) by done. by rewrite decide_True. Qed.

Lemma NoDup_map_keep {A B} (key : A -> B) (f : A -> A) l :
  (forall x, key (f x) = key x) -> NoDup (key <$> l) -> NoDup (key <$> map f l).
Proof.
  intros Hf. replace (key <$> map f l) with (key <$> l); [done|].
  change (map f l) with (f <$> l). rewrite <- list_fmap_compose. apply list_fmap_ext. intros i x _. simpl. by rewrite Hf.
Qed.

Lemma NoDup_filter_key {A B} (key : A -> B) (P : A -> Prop) `{forall x, Decision (P x)} (l : list A) :
  NoDup (key <$> l) -> NoDup (key <$> base.filter P l).
Proof.
  induction l as [|x l IH]; [done|]. rewrite fmap_cons, filter_cons. intros [Hx Hn]%NoDup_cons.
  case_decide; [|by apply IH]. rewrite fmap_cons. apply NoDup_cons. split; [|by apply IH].
  intros (y & Hy & [_ Hin]%list_elem_of_filter)%list_elem_of_fmap. apply Hx, list_elem_of_fmap. eauto.
Qed.

Lemma NoDup_snoc_key {A B} (key : A -> B) l x : NoDup (key <$> l) -> key x ∉ key <$> l -> NoDup (key <$> l ++ [x]).
Proof.
  intros Hn Hx. rewrite fmap_app. apply NoDup_app. split_and!; [done| |apply NoDup_singleton].
  intros k Hk ->%list_elem_of_singleton. done.
Qed.

(** ** The machine

    One rule per statement of the routes, the identifiers a queue refers to
    having been looked up among those of the tenant. *)

Section Machine.
Context (gen : cdb -> string) (t : string).

Definition own_domain (d : cdb) (o : option string) : Prop :=
  match o with None => True | Some i => exists f x, q_domain t f d = Some x /\ d_id x = i end.
Definition own_backend (d : cdb) (o : option string) : Prop :=
  match o with None => True | Some i => exists n x, q_backend t n d = Some x /\ b_id x = i end.

Inductive tenant_step (d : cdb) : cdb -> Prop :=
| ts_none : tenant_step d d
| ts_domain i d' : insert_domain gen t i d = inr (tt, d') -> tenant_step d d'
| ts_no_domain f : tenant_step d (delete_domain t f d).2
| ts_backend i id d1 d' : put_backend_row gen t i d = inr (id, d1) ->
    insert_servers id 0 (bi_servers i) (MkPg (delete_servers_of id d1) []) = (inr tt, MkPg d' []) -> tenant_step d d'
| ts_no_backend n : tenant_step d (delete_backend t n d).2
| ts_room i dom bk opens theme eff d' : own_domain d dom -> own_backend d bk ->
    put_room_row gen t i dom bk opens theme eff d = inr (tt, d') -> tenant_step d d'
| ts_no_room sl : tenant_step d (delete_room t sl d).2
| ts_state sl st eff ok : tenant_step d (set_state t sl st eff ok d).2.

(** Identifiers are unique, and a queue refers to a domain and a backend of its
    own tenant. *)
Record owned (d : cdb) : Prop := {
  own_domain_ids : NoDup (d_id <$> domains d);
  own_backend_ids : NoDup (b_id <$> backends d);
  own_room_domain : forall r i, r ∈ rooms d -> r_domain r = Some i ->
    exists x, by_id d_id i (domains d) = Some x /\ d_tenant x = r_tenant r;
  own_room_backend : forall r i, r ∈ rooms d -> r_backend r = Some i ->
    exists x, by_id b_id i (backends d) = Some x /\ b_tenant x = r_tenant r
}.

(** The rows of the other tenants. *)
Definition foreign_servers (d : cdb) : list server_row :=
  base.filter (fun s => match by_id b_id (sv_backend s) (backends d) with
                        | Some b => negb (String.eqb (b_tenant b) t) | None => false end = true) (servers d).
Definition foreign_certs (d : cdb) : list cert_row :=
  base.filter (fun c => match by_id d_id (c_domain c) (domains d) with
                        | Some x => negb (String.eqb (d_tenant x) t) | None => false end = true) (certificates d).
Definition foreign (d : cdb) :=
  (tenants d, base.filter (fun x => d_tenant x <> t) (domains d), base.filter (fun x => b_tenant x <> t) (backends d),
   foreign_servers d, base.filter (fun x => r_tenant x <> t) (rooms d), foreign_certs d).

(** ** The rules, table by table *)

Lemma Exec_quiet_inv {A} (f : cdb -> goerr + (A * cdb)) p a p' :
  quiet p -> Exec f p = (inr a, p') -> exists d', f (tables p) = inr (a, d') /\ p' = MkPg d' [].
Proof.
  unfold quiet, Exec, turn. destruct p as [d l]; simpl. intros ->. destruct (f d) as [e|[b d']]; [done|].
  intros [= <- <-]. by exists d'.
Qed.

Lemma Exec_quiet_err {A} (f : cdb -> goerr + (A * cdb)) p e p' : quiet p -> Exec f p = (inl e, p') -> p' = p.
Proof.
  unfold quiet, Exec, turn. destruct p as [d l]; simpl. intros ->. destruct (f d) as [e'|[b d']]; [|done]. by intros [= _ <-].
Qed.

Lemma insert_domain_inv i d d' : insert_domain gen t i d = inr (tt, d') ->
  exists x, d_id x = gen d /\ d_tenant x = t /\ tenants d' = tenants d /\ domains d' = domains d ++ [x] /\
    backends d' = backends d /\ servers d' = servers d /\ rooms d' = rooms d /\ certificates d' = certificates d.
Proof.
  unfold insert_domain. repeat case_match; try done. intros [= <-].
  by exists (MkDomain (gen d) t (di_fqdn i) (di_mode i) (di_tls i) (clock d)).
Qed.

Lemma put_backend_row_inv i id d d' : put_backend_row gen t i d = inr (id, d') ->
  tenants d' = tenants d /\ domains d' = domains d /\ servers d' = servers d /\ rooms d' = rooms d /\
  certificates d' = certificates d /\
  ((exists x f, x ∈ backends d /\ b_id x = id /\ b_tenant x = t /\ backends d' = map f (backends d) /\
      (forall y, b_id (f y) = b_id y) /\ (forall y, b_tenant (f y) = b_tenant y) /\ (forall y, b_tenant y <> t -> f y = y)) \/
   (exists x, id = gen d /\ b_id x = id /\ b_tenant x = t /\ backends d' = backends d ++ [x])).
Proof.
  unfold put_backend_row. destruct (negb (slug_match _)); [done|]. destruct (negb (existsb _ _)); [done|].
  destruct (list_find _ _) as [[n x]|] eqn:Hf.
  - intros [= <- <-]. split_and!; try done. left.
    apply list_find_Some in Hf as (Hx & [Ht Hn]%andb_true_iff & _). apply String.eqb_eq in Ht.
    eexists x, _. split_and!; [by eapply list_elem_of_lookup_2|done|done|reflexivity|..]; intros y; simpl; unfold is_backend.
    + by case_match.
    + by case_match.
    + intros Hy. by rewrite (proj2 (String.eqb_neq _ _) Hy).
  - destruct (negb (existsb _ _)); [done|]. intros [= <- <-]. split_and!; try done. right.
    by exists (MkBackendRow (gen d) t (bi_name i) (bi_balance i) (bi_check_path i)).
Qed.

Lemma insert_server_inv s d d' : insert_server s d = inr (tt, d') ->
  tenants d' = tenants d /\ domains d' = domains d /\ backends d' = backends d /\ rooms d' = rooms d /\
  certificates d' = certificates d /\ servers d' = servers d ++ [s].
Proof. unfold insert_server. repeat case_match; try done. by intros [= <-]. Qed.

Lemma insert_servers_inv id l i d d' : insert_servers id i l (MkPg d []) = (inr tt, MkPg d' []) ->
  tenants d' = tenants d /\ domains d' = domains d /\ backends d' = backends d /\ rooms d' = rooms d /\
  certificates d' = certificates d /\ exists l', servers d' = servers d ++ l' /\ Forall (fun s => sv_backend s = id) l'.
Proof.
  revert i d. induction l as [|s l IH]; intros i d; cbn [insert_servers].
  - intros [= <-]. split_and!; try done. exists []. by rewrite app_nil_r.
  - intros Hs. M_inv. unfold fitting in Hm. destruct (list_find _ _) as [[? ?]|]; [done|]. M_inv.
    apply Exec_quiet_inv in Hm0 as (d1 & Hi & ->); [|done]. cbn [tables] in Hi.
    destruct a0. apply insert_server_inv in Hi as (E1 & E2 & E3 & E4 & E5 & E6).
    apply IH in Hs as (F1 & F2 & F3 & F4 & F5 & l' & F6 & Hl). split_and!; try congruence.
    eexists (_ :: l'). rewrite F6, E6, <- app_assoc. split; [done|]. by constructor.
Qed.

Lemma put_room_row_inv i dom bk opens theme eff d d' : put_room_row gen t i dom bk opens theme eff d = inr (tt, d') ->
  tenants d' = tenants d /\ domains d' = domains d /\ backends d' = backends d /\ servers d' = servers d /\
  certificates d' = certificates d /\
  (forall y, y ∈ rooms d' -> y ∈ rooms d \/ (r_tenant y = t /\ r_domain y = dom /\ r_backend y = bk)) /\
  base.filter (fun x => r_tenant x <> t) (rooms d') = base.filter (fun x => r_tenant x <> t) (rooms d).
Proof.
  unfold put_room_row. destruct (negb _); [done|]. destruct (negb _); [done|]. destruct (existsb _ (rooms d)); [done|].
  destruct (list_find _ _) as [[n x]|]; [|destruct (negb _); [done|]]; intros [= <-]; split_and!; try done.
  - intros y (z & Hz & Hin)%list_elem_of_fmap. unfold is_room in Hz.
    destruct (String.eqb_spec (r_tenant z) t) as [Ht|Ht]; cbn [andb] in Hz; [|left; by subst y].
    destruct (String.eqb _ _); subst y; [right; by split_and!|by left].
  - apply filter_map_id; unfold is_room; intros y _.
    + intros Hy. by rewrite (proj2 (String.eqb_neq _ _) Hy).
    + destruct (String.eqb_spec (r_tenant y) t) as [Ht|Ht]; cbn [andb]; [|done]. destruct (String.eqb _ _); [done|done].
  - intros y [Hy|Hy%list_elem_of_singleton]%elem_of_app; [by left|]. right. by rewrite Hy.
  - apply filter_app_none. intros y Hy%list_elem_of_singleton. subst y. simpl. by intros Hx.
Qed.

Lemma no_domain_same i r : r_domain r <> Some i -> no_domain i r = r.
Proof. intros Hr. unfold no_domain. by rewrite bool_decide_false. Qed.
Lemma no_backend_same i r : r_backend r <> Some i -> no_backend i r = r.
Proof. intros Hr. unfold no_backend. by rewrite bool_decide_false. Qed.
Lemma no_domain_spec i r : r_tenant (no_domain i r) = r_tenant r /\ r_backend (no_domain i r) = r_backend r /\
  (forall j, r_domain (no_domain i r) = Some j -> j <> i /\ r_domain r = Some j).
Proof. unfold no_domain. case_bool_decide; split_and!; try done. intros j Hj. split; [congruence|done]. Qed.
Lemma no_backend_spec i r : r_tenant (no_backend i r) = r_tenant r /\ r_domain (no_backend i r) = r_domain r /\
  (forall j, r_backend (no_backend i r) = Some j -> j <> i /\ r_backend r = Some j).
Proof. unfold no_backend. case_bool_decide; split_and!; try done. intros j Hj. split; [congruence|done]. Qed.

Lemma set_state_none sl st eff ok d : (set_state t sl st eff ok d).1 = false -> same_sites d (set_state t sl st eff ok d).2.
Proof.
  intros Hf. split_and!; try done. cbn [rooms set_state set_sites snd fst] in *.
  rewrite <- (map_id (rooms d)) at 2. apply map_ext_in. intros x Hx.
  destruct (is_room t sl x && ok x) eqn:Hc; [|done]. exfalso. apply not_true_iff_false in Hf. apply Hf, existsb_exists. eauto.
Qed.

(** ** The invariant *)

Definition fresh (d : cdb) : Prop := gen d ∉ d_id <$> domains d /\ gen d ∉ b_id <$> backends d.

Lemma owned_sites d d' : same_sites d d' -> owned d -> owned d'.
Proof. intros (_ & E1 & E2 & _ & E3 & _) [H1 H2 H3 H4]. split; rewrite ?E1, ?E2, ?E3; done. Qed.

(** Changing the queues alone. *)
Lemma owned_rooms d d' : domains d' = domains d -> backends d' = backends d ->
  (forall y, y ∈ rooms d' ->
     (forall i, r_domain y = Some i -> exists x, by_id d_id i (domains d) = Some x /\ d_tenant x = r_tenant y) /\
     (forall i, r_backend y = Some i -> exists x, by_id b_id i (backends d) = Some x /\ b_tenant x = r_tenant y)) ->
  owned d -> owned d'.
Proof.
  intros E1 E2 Hr [H1 H2 _ _]. split; rewrite ?E1, ?E2; try done; intros y i Hy; by apply (Hr y Hy).
Qed.

Lemma own_domain_tenant d i : owned d -> own_domain d (Some i) ->
  exists x, by_id d_id i (domains d) = Some x /\ d_tenant x = t.
Proof.
  intros Hd (f & x & Hx & <-). unfold q_domain in Hx. destruct (list_find _ _) as [[n y]|] eqn:Hf; [|done]. simplify_eq/=.
  apply list_find_Some in Hf as (Hl & [Ht _]%andb_true_iff & _). exists x. split; [|by apply String.eqb_eq].
  apply by_id_NoDup; [apply Hd|]. split; [by eapply list_elem_of_lookup_2|done].
Qed.

Lemma own_backend_tenant d i : owned d -> own_backend d (Some i) ->
  exists x, by_id b_id i (backends d) = Some x /\ b_tenant x = t.
Proof.
  intros Hd (f & x & Hx & <-). unfold q_backend in Hx. destruct (list_find _ _) as [[n y]|] eqn:Hf; [|done]. simplify_eq/=.
  apply list_find_Some in Hf as (Hl & [Ht _]%andb_true_iff & _). exists x. split; [|by apply String.eqb_eq].
  apply by_id_NoDup; [apply Hd|]. split; [by eapply list_elem_of_lookup_2|done].
Qed.

Lemma owned_domain i d d' : gen d ∉ d_id <$> domains d -> insert_domain gen t i d = inr (tt, d') -> owned d -> owned d'.
Proof.
  intros Hg Hi [H1 H2 H3 H4]. apply insert_domain_inv in Hi as (x & Hx & _ & _ & E1 & E2 & _ & E3 & _).
  split; rewrite ?E1, ?E2, ?E3; [|done| |done].
  - apply NoDup_snoc_key; [done|by rewrite Hx].
  - intros r j Hr Hj. destruct (H3 r j Hr Hj) as (y & Hy & Ht). exists y. by rewrite by_id_app, Hy.
Qed.

Lemma owned_no_domain f d : owned d -> owned (delete_domain t f d).2.
Proof.
  intros [H1 H2 H3 H4]. unfold delete_domain. destruct (list_find _ _) as [[n x]|]; [|by apply (owned_sites d)].
  split; cbn [domains backends rooms set_sites snd]; [by apply NoDup_filter_key|done|..];
    intros r j (z & -> & Hz)%list_elem_of_fmap Hj; destruct (no_domain_spec (d_id x) z) as (-> & Hb & Hd).
  - apply Hd in Hj as [Hne Hj]. rewrite by_id_filter_other by done. by apply H3.
  - rewrite Hb in Hj. by apply H4.
Qed.

Lemma owned_backend i id d d1 d' : gen d ∉ b_id <$> backends d -> put_backend_row gen t i d = inr (id, d1) ->
  insert_servers id 0 (bi_servers i) (MkPg (delete_servers_of id d1) []) = (inr tt, MkPg d' []) -> owned d -> owned d'.
Proof.
  intros Hg Hp Hi [H1 H2 H3 H4]. apply insert_servers_inv in Hi as (_ & F1 & F2 & F3 & _).
  cbn [delete_servers_of domains backends rooms set_sites] in F1, F2, F3.
  apply put_backend_row_inv in Hp as (_ & E1 & _ & E3 & _ & Hb).
  split; rewrite ?F1, ?F2, ?F3, ?E1, ?E3; [done| |done|].
  - destruct Hb as [(x & f & _ & _ & _ & -> & Hf & _)|(x & -> & Hx & _ & ->)]; [by apply NoDup_map_keep|].
    apply NoDup_snoc_key; [done|by rewrite Hx].
  - intros r j Hr Hj. destruct (H4 r j Hr Hj) as (y & Hy & Ht).
    destruct Hb as [(x & f & _ & _ & _ & -> & Hf & Hft & _)|(x & _ & _ & _ & ->)].
    + exists (f y). rewrite by_id_map_keep, Hy by done. by rewrite Hft.
    + exists y. by rewrite by_id_app, Hy.
Qed.

Lemma owned_no_backend n d : owned d -> owned (delete_backend t n d).2.
Proof.
  intros [H1 H2 H3 H4]. unfold delete_backend. destruct (list_find _ _) as [[k x]|]; [|by apply (owned_sites d)].
  split; cbn [domains backends rooms set_sites snd]; [done|by apply NoDup_filter_key|..];
    intros r j (z & -> & Hz)%list_elem_of_fmap Hj; destruct (no_backend_spec (b_id x) z) as (-> & Hb & Hd).
  - rewrite Hb in Hj. by apply H3.
  - apply Hd in Hj as [Hne Hj]. rewrite by_id_filter_other by done. by apply H4.
Qed.

Lemma tenant_step_owned d d' : fresh d -> tenant_step d d' -> owned d -> owned d'.
Proof.
  intros [Hg1 Hg2] Hs Hd. destruct Hs.
  - done.
  - by eapply owned_domain.
  - by apply owned_no_domain.
  - by eapply owned_backend.
  - by apply owned_no_backend.
  - match goal with H : put_room_row _ _ _ _ _ _ _ _ _ = _ |- _ =>
      apply put_room_row_inv in H as (_ & E1 & E2 & _ & _ & Hr & _) end.
    apply (owned_rooms d); try done. intros y [Hy|(Ht & <- & <-)]%Hr.
    + split; intros j Hj; [by apply Hd|by apply Hd].
    + rewrite Ht. split; intros j Hj; [apply own_domain_tenant|apply own_backend_tenant]; try done; by rewrite <- Hj.
  - apply (owned_rooms d); try done. intros y [_ Hy]%list_elem_of_filter. split; intros j Hj; by apply Hd.
  - apply (owned_rooms d); try done. intros y (z & -> & Hz)%list_elem_of_fmap.
    destruct (is_room t sl z && ok z); split; intros j Hj;
      solve [by apply (own_room_domain _ Hd z j Hz)|by apply (own_room_backend _ Hd z j Hz)].
Qed.

(** ** The isolation *)

Lemma foreign_sites d d' : same_sites d d' -> foreign d' = foreign d.
Proof. intros (E0 & E1 & E2 & E3 & E4 & E5). unfold foreign, foreign_servers, foreign_certs. by rewrite E0, E1, E2, E3, E4, E5. Qed.

(** Each table of [foreign] apart. *)
Lemma foreign_eq d d' : tenants d' = tenants d ->
  base.filter (fun x => d_tenant x <> t) (domains d') = base.filter (fun x => d_tenant x <> t) (domains d) ->
  base.filter (fun x => b_tenant x <> t) (backends d') = base.filter (fun x => b_tenant x <> t) (backends d) ->
  foreign_servers d' = foreign_servers d ->
  base.filter (fun x => r_tenant x <> t) (rooms d') = base.filter (fun x => r_tenant x <> t) (rooms d) ->
  foreign_certs d' = foreign_certs d -> foreign d' = foreign d.
Proof. intros E1 E2 E3 E4 E5 E6. unfold foreign. by rewrite E1, E2, E3, E4, E5, E6. Qed.

(** The rows of a table that belong to another tenant only depend on who owns
    the row they refer to. *)
Lemma foreign_servers_eq d d' : servers d' = servers d ->
  (forall i, match by_id b_id i (backends d') with Some b => negb (String.eqb (b_tenant b) t) | None => false end =
             match by_id b_id i (backends d) with Some b => negb (String.eqb (b_tenant b) t) | None => false end) ->
  foreign_servers d' = foreign_servers d.
Proof. intros E Hb. unfold foreign_servers. rewrite E. apply list_filter_iff. intros s. by rewrite Hb. Qed.

Lemma foreign_certs_eq d d' : certificates d' = certificates d ->
  (forall i, match by_id d_id i (domains d') with Some x => negb (String.eqb (d_tenant x) t) | None => false end =
             match by_id d_id i (domains d) with Some x => negb (String.eqb (d_tenant x) t) | None => false end) ->
  foreign_certs d' = foreign_certs d.
Proof. intros E Hb. unfold foreign_certs. rewrite E. apply list_filter_iff. intros s. by rewrite Hb. Qed.

Lemma foreign_domain i d d' : insert_domain gen t i d = inr (tt, d') -> foreign d' = foreign d.
Proof.
  intros Hi. apply insert_domain_inv in Hi as (x & _ & Hx & E0 & E1 & E2 & E3 & E4 & E5).
  apply foreign_eq; rewrite ?E2, ?E4; try done.
  - rewrite E1. apply filter_app_none. intros y ->%list_elem_of_singleton. by intros H.
  - apply foreign_servers_eq; [done|]. by rewrite E2.
  - apply foreign_certs_eq; [done|]. intros j. rewrite E1, by_id_app, by_id_cons. destruct (by_id _ _ _); [done|].
    case_decide; [|done]. rewrite Hx. by rewrite String.eqb_refl.
Qed.

Lemma foreign_no_domain f d : owned d -> foreign (delete_domain t f d).2 = foreign d.
Proof.
  intros Hd. unfold delete_domain. destruct (list_find _ _) as [[n x]|] eqn:Hf; [|by apply foreign_sites].
  apply list_find_Some in Hf as (Hx%list_elem_of_lookup_2 & [Ht _]%andb_true_iff & _). apply String.eqb_eq in Ht.
  assert (Hby : by_id d_id (d_id x) (domains d) = Some x) by (apply by_id_NoDup; [apply Hd|done]).
  apply foreign_eq; cbn [snd tenants domains backends servers rooms certificates set_sites]; try done.
  - apply filter_filter_eq; [done|]. intros y Hy Hyt He. apply Hyt. rewrite <- Ht.
    assert (Hy' : by_id d_id (d_id y) (domains d) = Some y) by (apply by_id_NoDup; [apply Hd|done]). congruence.
  - apply filter_map_id; intros r Hr; [|by destruct (no_domain_spec (d_id x) r) as (-> & _)].
    intros Hrt. apply no_domain_same. intros Hdm. destruct (own_room_domain _ Hd r _ Hr Hdm) as (y & Hy & Hyt). congruence.
  - unfold foreign_certs. cbn [domains certificates set_sites]. apply filter_filter_eq.
    + intros c _ Hc. by rewrite by_id_filter_other.
    + intros c _ Hc He. rewrite He, Hby, Ht, String.eqb_refl in Hc. done.
Qed.

Lemma by_id_own_backend d x : owned d -> x ∈ backends d -> by_id b_id (b_id x) (backends d) = Some x.
Proof. intros Hd Hx. apply by_id_NoDup; [apply Hd|done]. Qed.

Lemma foreign_no_backend n d : owned d -> foreign (delete_backend t n d).2 = foreign d.
Proof.
  intros Hd. unfold delete_backend. destruct (list_find _ _) as [[k x]|] eqn:Hf; [|by apply foreign_sites].
  apply list_find_Some in Hf as (Hx%list_elem_of_lookup_2 & [Ht _]%andb_true_iff & _). apply String.eqb_eq in Ht.
  pose proof (by_id_own_backend d x Hd Hx) as Hby.
  apply foreign_eq; cbn [snd tenants domains backends servers rooms certificates set_sites]; try done.
  - apply filter_filter_eq; [done|]. intros y Hy Hyt He. apply Hyt. rewrite <- Ht.
    pose proof (by_id_own_backend d y Hd Hy). congruence.
  - unfold foreign_servers. cbn [backends servers set_sites]. apply filter_filter_eq.
    + intros c _ Hc. by rewrite by_id_filter_other.
    + intros c _ Hc He. rewrite He, Hby, Ht, String.eqb_refl in Hc. done.
  - apply filter_map_id; intros r Hr; [|by destruct (no_backend_spec (b_id x) r) as (-> & _)].
    intros Hrt. apply no_backend_same. intros Hdm. destruct (own_room_backend _ Hd r _ Hr Hdm) as (y & Hy & Hyt). congruence.
Qed.

Lemma foreign_backend i id d d1 d' : owned d -> put_backend_row gen t i d = inr (id, d1) ->
  insert_servers id 0 (bi_servers i) (MkPg (delete_servers_of id d1) []) = (inr tt, MkPg d' []) ->
  gen d ∉ b_id <$> backends d -> foreign d' = foreign d.
Proof.
  intros Hd Hp Hi Hg. apply insert_servers_inv in Hi as (F0 & F1 & F2 & F3 & F4 & l & F5 & Hl).
  cbn [delete_servers_of tenants domains backends rooms certificates servers set_sites] in F0, F1, F2, F3, F4, F5.
  apply put_backend_row_inv in Hp as (E0 & E1 & E2 & E3 & E4 & Hb).
  rewrite E0 in F0. rewrite E1 in F1. rewrite E2 in F5. rewrite E3 in F3. rewrite E4 in F4.
  assert (Hby : forall j, match by_id b_id j (backends d1) with Some b => negb (String.eqb (b_tenant b) t) | None => false end =
                          match by_id b_id j (backends d) with Some b => negb (String.eqb (b_tenant b) t) | None => false end).
  { intros j. destruct Hb as [(x & f & _ & _ & _ & -> & Hf & Hft & _)|(x & _ & Hx & Hxt & ->)].
    - rewrite by_id_map_keep by done. destruct (by_id _ _ _) as [y|]; [simpl; by rewrite Hft|done].
    - rewrite by_id_app, by_id_cons. destruct (by_id _ _ _); [done|]. case_decide; [|done].
      rewrite Hxt. by rewrite String.eqb_refl. }
  assert (Hid : match by_id b_id id (backends d1) with Some b => negb (String.eqb (b_tenant b) t) | None => false end = false).
  { rewrite Hby. destruct Hb as [(x & f & Hx & <- & Hxt & _)|(x & -> & _)].
    - rewrite (by_id_own_backend d x Hd Hx), Hxt. by rewrite String.eqb_refl.
    - by rewrite (proj2 (by_id_None b_id (gen d) (backends d)) Hg). }
  apply foreign_eq; [done|by rewrite F1| |  |by rewrite F3|].
  - rewrite F2. destruct Hb as [(x & f & _ & _ & _ & -> & Hf & Hft & Hfo)|(x & _ & _ & Hxt & ->)].
    + apply filter_map_id; intros y _ Hy; [by apply Hfo|by rewrite Hft in Hy].
    + apply filter_app_none. intros y ->%list_elem_of_singleton. by intros H.
  - unfold foreign_servers. rewrite F5, F2. rewrite filter_app_none.
    + apply filter_filter_eq; intros s _ Hs; [by rewrite Hby|]. intros He. rewrite He, <- Hby, Hid in Hs. done.
    + intros s Hs. rewrite Forall_forall in Hl. rewrite (Hl s Hs), Hid. done.
  - apply foreign_certs_eq; [done|]. by rewrite F1.
Qed.

Lemma tenant_step_foreign d d' : fresh d -> tenant_step d d' -> owned d -> foreign d' = foreign d.
Proof.
  intros [Hg1 Hg2] Hs Hd. destruct Hs as [|i d' Hi|f|i id d1 d' Hp Hi|n|i dom bk opens theme eff d' _ _ Hp|sl|sl st eff ok].
  - done.
  - by eapply foreign_domain.
  - by apply foreign_no_domain.
  - by eapply foreign_backend.
  - by apply foreign_no_backend.
  - apply put_room_row_inv in Hp as (E0 & E1 & E2 & E3 & E4 & _ & Hr).
    apply foreign_eq; rewrite ?E1, ?E2; try done; [apply foreign_servers_eq|apply foreign_certs_eq]; rewrite ?E1, ?E2; done.
  - apply foreign_eq; try done. apply filter_filter_eq; [done|]. unfold is_room. intros y _ Hy.
    by rewrite (proj2 (String.eqb_neq _ _) Hy).
  - apply foreign_eq; try done. apply filter_map_id; unfold is_room; intros y _.
    + intros Hy. by rewrite (proj2 (String.eqb_neq _ _) Hy).
    + destruct (_ && _); done.
Qed.

End Machine.

(** ** The routes refine the machine *)

Section Routes.
Context {St Q : Type} {HD : DataplaneHTTP St} {HQ : QueueHTTP Q} {HM_ : MapOrder} {HO : Collation} {HC : Crypto}.
Context (key : string) (gen : cdb -> string) (rfc3339 : string -> option Z) (acme_enabled : bool).

Abbreviation W := (cworld (@rest St Q)).
Abbreviation handlerR := (@handler (@rest St Q)).

(** The outcome of a request of [t]: one step of the machine, and none when the
    answer is an error. *)
Definition steps (t : string) (w : W) (o : resp * W) : Prop :=
  quiet_w o.2 /\ (exists d', tenant_step gen t (db w) d' /\ same_sites d' (db o.2)) /\
  (400 <= r_code o.1 -> same_sites (db w) (db o.2)).

Definition refines (h : handlerR) : Prop := forall r p w, quiet_w w -> steps (p_tenantID p) w (served (h r p) w).

Lemma steps_none t w a w' : quiet_w w' -> same_sites (db w) (db w') -> steps t w (a, w').
Proof. intros Hq Hs. split_and!; [done| |done]. exists (db w). split; [constructor|done]. Qed.

Lemma steps_done t w a w' d' : quiet_w w' -> tenant_step gen t (db w) d' -> same_sites d' (db w') -> r_code a < 400 ->
  steps t w (a, w').
Proof. intros Hq Ht Hs Ha. split_and!; [done|by exists d'|]. intros H. exfalso. change (400 <= r_code a) in H. lia. Qed.

Local Ltac refused := apply steps_none; [done|auto with flyc].

Lemma createDomain_refines : refines (createDomain gen).
Proof.
  intros r p w Hq. unfold served, createDomain, decode. rewrite HM_bind_eq.
  destruct (q_body r) as [e|v]; [refused|]. destruct (dec_domain v) as [i|]; [|refused].
  cbn [mret HM_ret]. rewrite HM_bind_eq, require_eq. destruct (fqdn_match _); [|refused].
  h_step. destruct (insert_domain _ _ _ _) as [e|[[] d]] eqn:Hi; [refused|].
  h_step. eapply steps_done; [done|by eapply ts_domain|apply same_sites_audit|done].
Qed.

Lemma deleteDomain_refines : refines deleteDomain.
Proof.
  intros r p w Hq. unfold served, deleteDomain. h_step.
  destruct (delete_domain _ _ _) as [[] d] eqn:Hd; rewrite HM_bind_eq, require_eq.
  - h_step. eapply steps_done; [done| |apply same_sites_audit|done].
    replace d with (delete_domain (p_tenantID p) (ToLower (PathValue "fqdn" r)) (db w)).2 by (by rewrite Hd). constructor.
  - apply steps_none; [done|]. unfold delete_domain in Hd. destruct (list_find _ _) as [[? ?]|]; [done|].
    injection Hd as <-. by split_and!.
Qed.

Lemma deleteBackend_refines : refines deleteBackend.
Proof.
  intros r p w Hq. unfold served, deleteBackend. h_step.
  destruct (delete_backend _ _ _) as [[] d] eqn:Hd; rewrite HM_bind_eq, require_eq.
  - h_step. eapply steps_done; [done| |apply same_sites_audit|done].
    replace d with (delete_backend (p_tenantID p) (PathValue "name" r) (db w)).2 by (by rewrite Hd). constructor.
  - apply steps_none; [done|]. unfold delete_backend in Hd. destruct (list_find _ _) as [[? ?]|]; [done|].
    injection Hd as <-. by split_and!.
Qed.

Lemma deleteRoom_refines : refines deleteRoom.
Proof.
  intros r p w Hq. unfold served, deleteRoom. h_step.
  destruct (delete_room _ _ _) as [[] d] eqn:Hd; rewrite HM_bind_eq, require_eq.
  - h_step. eapply steps_done; [done| |apply same_sites_audit|done].
    replace d with (delete_room (p_tenantID p) (PathValue "slug" r) (db w)).2 by (by rewrite Hd). constructor.
  - apply steps_none; [done|]. injection Hd as He <-. split_and!; try done.
    apply list_filter_all. intros x Hx. apply not_true_iff_false. intros Hr.
    apply not_true_iff_false in He. apply He, existsb_exists. exists x. split; [by apply list_elem_of_In|done].
Qed.

Lemma named_quiet {A} name (q : cdb -> option A) id bad (w : W) : quiet_w w ->
  named name q id bad w = (inl bad, w) \/
  exists o, named name q id bad w = (inr o, w) /\
    match o with None => True | Some i => exists x, q (db w) = Some x /\ id x = i end.
Proof.
  intros Hq. unfold named. case_bool_decide; [right; by exists None|]. rewrite HM_bind_eq. unfold attempt.
  rewrite at_pg_query by done. destruct (q (db w)) as [x|]; [right; exists (Some (id x)); eauto|by left].
Qed.

Lemma opening_quiet i (w : W) : (exists a, opening rfc3339 i w = (inl a, w)) \/ (exists o, opening rfc3339 i w = (inr o, w)).
Proof.
  unfold opening. destruct (ri_opens_at i); [|right; by eexists]. case_bool_decide; [right; by eexists|].
  destruct (rfc3339 _); [right|left]; by eexists.
Qed.

Lemma fitting_quiet l p : quiet p -> fitting l p = (inr tt, p) \/ exists e, fitting l p = (inl e, p).
Proof. intros Hq. unfold fitting. destruct (list_find _ _) as [[? ?]|]; [right; by eexists|by left]. Qed.

Lemma or_db_fitting {A} l (f : cdb -> goerr + (A * cdb)) (w : W) : quiet_w w ->
  (exists a, or_db (fitting l ≫= fun _ => Exec f) w = (inl a, w)) \/
  or_db (fitting l ≫= fun _ => Exec f) w = or_db (Exec f) w.
Proof.
  intros Hq. unfold or_db, attempt, at_pg, zoom, mbind, M_bind.
  destruct (fitting_quiet l (cw_pg w) Hq) as [->|[e ->]]; [by right|]. left. eexists. by destruct w.
Qed.

Lemma upsertRoom_refines : refines (upsertRoom gen rfc3339).
Proof.
  intros r p w Hq. unfold served, upsertRoom, decode. rewrite HM_bind_eq.
  destruct (q_body r) as [e|v]; [refused|]. destruct (dec_room_in v) as [i0|]; [|refused].
  cbn [mret HM_ret]. rewrite HM_bind_eq, require_eq. destruct (slug_match _); [|refused].
  set (i := room_defaults _ i0). rewrite HM_bind_eq.
  match goal with |- context [named ?n ?q ?id ?b w] => destruct (named_quiet n q id b w Hq) as [->|(dom & -> & Hdom)] end; [refused|].
  rewrite HM_bind_eq.
  match goal with |- context [named ?n ?q ?id ?b w] => destruct (named_quiet n q id b w Hq) as [->|(bk & -> & Hbk)] end; [refused|].
  rewrite HM_bind_eq. destruct (opening_quiet i w) as [[a ->]|[opens ->]]; [refused|].
  rewrite HM_bind_eq, require_eq. destruct (negb (bad_thresholds i)); [|refused].
  rewrite HM_bind_eq.
  match goal with |- context [or_db (fitting ?l ≫= fun _ => Exec ?f) w] =>
    destruct (or_db_fitting l f w Hq) as [[a ->]| ->] end; [refused|].
  rewrite or_db_exec by done.
  destruct (put_room_row _ _ _ _ _ _ _ _ _) as [e|[[] d']] eqn:Hp; [refused|].
  h_step. eapply steps_done; [done| |apply same_sites_audit|done].
  eapply ts_room; [| |exact Hp]; [destruct dom|destruct bk]; try done; naive_solver.
Qed.

Lemma insert_servers_keeps id l : forall i p, quiet p -> quiet (insert_servers id i l p).2.
Proof.
  induction l as [|s l IH]; intros i p Hq; [done|]. cbn [insert_servers]. unfold mbind at 1, M_bind at 1.
  match goal with |- context [fitting ?l p] => destruct (fitting_quiet l p Hq) as [->|[e ->]] end; [|done].
  unfold mbind, M_bind. match goal with |- context [Exec ?f p] => destruct (Exec f p) as [[e|[]] p1] eqn:Hx end.
  - by apply Exec_quiet_err in Hx as ->.
  - apply Exec_quiet_inv in Hx as (d1 & _ & ->); [|done]. by apply IH.
Qed.

Lemma put_backend_tx_quiet t i p : quiet p ->
  (exists e p1, put_backend_tx gen t i p = (inl e, p1) /\ quiet p1) \/
  (exists d', put_backend_tx gen t i p = (inr tt, MkPg d' []) /\ tenant_step gen t (tables p) d').
Proof.
  intros Hq. unfold put_backend_tx, mbind, M_bind.
  destruct (Exec _ p) as [[e|id] p1] eqn:Hx.
  - apply Exec_quiet_err in Hx as ->; [|done]. left. by eexists _, _.
  - apply Exec_quiet_inv in Hx as (d1 & Hp & ->); [|done]. rewrite Exec__quiet by done. cbn [tables].
    pose proof (insert_servers_keeps id (bi_servers i) 0 (MkPg (delete_servers_of id d1) []) eq_refl) as Hk.
    destruct (insert_servers _ _ _ _) as [[e|[]] [d' l]] eqn:Hi; [left; by eexists _, _|].
    right. exists d'. unfold quiet in Hk. simpl in Hk. subst l. split; [done|]. by eapply ts_backend.
Qed.

Lemma upsertBackend_refines : refines (upsertBackend gen).
Proof.
  intros r p w Hq. unfold served, upsertBackend, decode. rewrite HM_bind_eq.
  destruct (q_body r) as [e|v]; [refused|]. destruct (dec_backend_in v) as [i0|]; [|refused].
  cbn [mret HM_ret]. rewrite HM_bind_eq, require_eq. destruct (slug_match _); [|refused].
  set (i := MkBackendIn _ _ _ _). rewrite HM_bind_eq, require_eq. destruct (negb _); [|refused].
  rewrite HM_bind_eq. unfold or_db at 1, attempt, at_pg, zoom.
  destruct (put_backend_tx_quiet (p_tenantID p) i (cw_pg w) Hq) as [(e & p1 & Hp & Hq1)|(d' & Hp & Ht)].
  - rewrite in_tx_quiet, Hp by (done || by rewrite Hp). apply steps_none; [done|auto with flyc].
  - rewrite in_tx_quiet, Hp by (done || by rewrite Hp).
    change (set_cw_pg (MkPg d' []) w) with (with_db d' w). h_step.
    eapply steps_done; [done|exact Ht|apply same_sites_audit|done].
Qed.

Lemma change_state_quiet t sl st (w : W) : quiet_w w ->
  (exists a w', change_state t sl st w = (inl a, w') /\ quiet_w w' /\ same_sites (db w) (db w')) \/
  (exists eff ok, change_state t sl st w = (inr tt, with_db (set_state t sl st eff ok (db w)).2 w)).
Proof.
  intros Hq. unfold change_state. destruct (String.eqb_spec st "auto") as [->|Hne]; h_step;
    match goal with |- context [set_state t sl ?s ?e ?o (db w)] =>
      destruct (set_state t sl s e o (db w)) as [f d'] eqn:Hs;
      assert (Hno : f = false -> same_sites (db w) d') by (injection Hs as <- <-; intros Hf; by apply set_state_none);
      destruct f; rewrite require_eq; [right; exists e, o; by rewrite Hs|left; eexists _, _; split_and!; [done|done|by apply Hno]]
    end.
Qed.

Lemma roomState_refines : refines (roomState key).
Proof.
  intros r p w Hq. unfold served, roomState, decode. rewrite HM_bind_eq.
  destruct (q_body r) as [e|v]; [refused|]. destruct (dec_one "state" v) as [st|]; [|refused].
  cbn [mret HM_ret]. rewrite HM_bind_eq, require_eq. destruct (existsb _ _); [|refused]. rewrite HM_bind_eq.
  destruct (change_state_quiet (p_tenantID p) (PathValue "slug" r) st w Hq) as [(a & w' & -> & Hq' & Hs)|(eff & ok & ->)];
    [by apply steps_none|].
  h_step. rewrite HM_bind_eq. unfold rec_Once.
  match goal with |- context [Once ?d ?s true ?v] => destruct (Once_sites d s true v eq_refl) as (v' & -> & Hq3 & Hs3) end.
  eapply steps_done; [exact Hq3|apply ts_state| |done]. eapply same_sites_trans; [|exact Hs3]. by split_and!.
Qed.

(** The routes of a tenant that write to these tables, as [Register] mounts
    them: the pattern, the role asked of a session, the handler. *)
Definition mounted : list (string * string * handlerR) :=
  [("POST /v1/domains", "admin", createDomain gen); ("DELETE /v1/domains/{fqdn}", "admin", deleteDomain);
   ("POST /v1/backends", "admin", upsertBackend gen); ("PUT /v1/backends/{name}", "admin", upsertBackend gen);
   ("DELETE /v1/backends/{name}", "admin", deleteBackend);
   ("POST /v1/rooms", "admin", upsertRoom gen rfc3339); ("PUT /v1/rooms/{slug}", "admin", upsertRoom gen rfc3339);
   ("DELETE /v1/rooms/{slug}", "admin", deleteRoom); ("POST /v1/rooms/{slug}/state", "operator", roomState key)]%string.
Definition tenant_routes : list handlerR := mounted.*2.

Lemma routes_refine h : h ∈ tenant_routes -> refines h.
Proof.
  assert (Hall : Forall refines tenant_routes).
  { unfold tenant_routes. simpl. rewrite !Forall_cons, Forall_nil. split_and!; auto using createDomain_refines, deleteDomain_refines, upsertBackend_refines,
      deleteBackend_refines, upsertRoom_refines, deleteRoom_refines, roomState_refines. }
  rewrite Forall_forall in Hall. apply Hall.
Qed.

(** Each writing route of a tenant does to the tables of the sites
    what one rule of the machine does, for that tenant, and an answer of 400 or
    more leaves them as they were: the transaction of a backend leaves nothing
    behind, and the reconciliation [roomState] waits for changes none of them. *)
Theorem tenant_routes_refine h r p w :
  h ∈ tenant_routes -> quiet_w w ->
  let '(a, w') := served (h r p) w in
  quiet_w w' /\ (exists d', tenant_step gen (p_tenantID p) (db w) d' /\ same_sites d' (db w')) /\
  (400 <= r_code a -> same_sites (db w) (db w')).
Proof. intros Hh Hq. pose proof (routes_refine h Hh r p w Hq) as Hs. by destruct (served (h r p) w). Qed.

(** The writing routes keep the tables in order: identifiers stay
    unique, and a queue refers to a domain and a backend that exist and belong
    to its own tenant, so that no tenant can route a domain of another one. *)
Theorem tenant_ownership h r p w :
  h ∈ tenant_routes -> quiet_w w -> fresh gen (db w) -> owned (db w) -> owned (db (served (h r p) w).2).
Proof.
  intros Hh Hq Hf Ho. destruct (routes_refine h Hh r p w Hq) as (_ & (d' & Ht & Hs) & _).
  eapply owned_sites; [exact Hs|]. by eapply tenant_step_owned.
Qed.

Lemma touched_sites d d' : touched d d' -> same_sites d d'.
Proof. intros [->|[[i ->]|(h & e & ->)]]; by split_and!. Qed.

(** A writing route keeps the sites owned, and those of the other tenants as
    they were. *)
Lemma handler_isolates h r p w : h ∈ tenant_routes -> quiet_w w -> (forall d, fresh gen d) -> owned (db w) ->
  let w' := (served (h r p) w).2 in
  quiet_w w' /\ owned (db w') /\ foreign (p_tenantID p) (db w') = foreign (p_tenantID p) (db w).
Proof.
  intros Hh Hq Hf Ho. pose proof (routes_refine h Hh r p w Hq) as Hr. destruct (served (h r p) w) as [a w'].
  destruct Hr as (Hq2 & (d' & Hstep & Hs) & _). cbn [snd].
  apply tenant_step_owned in Hstep as Ho2; [|apply Hf|done]. split_and!; [done|by eapply owned_sites|].
  rewrite (foreign_sites _ _ _ Hs). by eapply tenant_step_foreign; [apply Hf|exact Hstep|].
Qed.

(** A request to a writing route, as it is mounted. *)
Lemma mounted_isolates pattern minRole h r w :
  (pattern, minRole, h) ∈ mounted -> quiet_w w -> (forall d, fresh gen d) -> owned (db w) ->
  let '(a, w') := served (tenant minRole h r) w in
  quiet_w w' /\ owned (db w') /\
  (same_sites (db w) (db w') \/
   exists p, entitled (db w) r p /\ p_tenantID p <> EmptyString /\
     (p_session p = true -> p_platform p = false -> roleRank minRole <= roleRank (p_role p)) /\
     foreign (p_tenantID p) (db w') = foreign (p_tenantID p) (db w)).
Proof.
  intros Hm Hq Hf Ho. assert (Hh : h ∈ tenant_routes) by (apply list_elem_of_fmap; by exists (pattern, minRole, h)).
  destruct (tenant_guard minRole h r w Hq) as [(p & w1 & Ha & He & Hn & Hrole & Hrun)|(a & w1 & Hrun & _ & Hqt & Ht)];
    unfold served at 1; rewrite Hrun.
  - apply authenticate_sound in Ha as (Hq1 & Ht%touched_sites & _); [|done].
    assert (Ho1 : owned (db w1)) by (by eapply owned_sites).
    destruct (handler_isolates h r p w1 Hh Hq1 Hf Ho1) as (Hq2 & Ho2 & Hfor). unfold served in Hq2, Ho2, Hfor.
    destruct (h r p w1) as [[a|a] w2]; (split_and!; [exact Hq2|exact Ho2|]); right; exists p;
      (split_and!; [done..|]); rewrite <- (foreign_sites _ _ _ Ht); exact Hfor.
  - apply touched_sites in Ht. split_and!; [done|by eapply owned_sites|by left].
Qed.

(** The isolation of the tenants, from the request to the tables: a
    request to a writing route, as it is mounted, either changes no table of the sites, or comes
    from someone entitled to act on a tenant, with the role the route asks for,
    and leaves every row of the other tenants as it was: their domains,
    backends, servers, queues and certificates. *)
Theorem tenant_isolation pattern minRole h r w :
  (pattern, minRole, h) ∈ mounted -> quiet_w w -> (forall d, fresh gen d) -> owned (db w) ->
  let '(a, w') := served (tenant minRole h r) w in
  same_sites (db w) (db w') \/
  exists p, entitled (db w) r p /\ p_tenantID p <> EmptyString /\
    (p_session p = true -> p_platform p = false -> roleRank minRole <= roleRank (p_role p)) /\
    foreign (p_tenantID p) (db w') = foreign (p_tenantID p) (db w).
Proof.
  intros Hm Hq Hf Ho. pose proof (mounted_isolates pattern minRole h r w Hm Hq Hf Ho) as Hi.
  destruct (served (tenant minRole h r) w). by destruct Hi as (_ & _ & Hi).
Qed.

End Routes.

(** ** Examples *)

Import AccessDemo.

(** An identifier longer than all those in use. *)
Definition toy_gen (d : cdb) : string :=
  foldr (fun x acc => x +:+ acc) "+"%string 
    ((d_id <$> domains d) ++ (b_id <$> backends d) ++ (b_tenant <$> backends d) ++ (r_tenant <$> rooms d)).

Lemma toy_gen_longer l x : x ∈ l -> (String.length x < String.length (foldr (fun x acc => x +:+ acc) "+"%string l))%nat.
Proof.
  induction l as [|y l IH]; [by intros ?%not_elem_of_nil|]. simpl. rewrite length_sapp. intros [->|Hx]%elem_of_cons.
  - assert (H : forall l : list string, (0 < String.length (foldr (fun x acc => x +:+ acc) "+"%string l))%nat).
    { clear. intros l. induction l as [|z l IH]; simpl; [lia|]. rewrite length_sapp. lia. }
    specialize (H l). lia.
  - specialize (IH Hx). lia.
Qed.

Lemma toy_gen_new d : toy_gen d ∉ (d_id <$> domains d) ++ (b_id <$> backends d) ++ (b_tenant <$> backends d) ++ (r_tenant <$> rooms d).
Proof. intros Hin. apply toy_gen_longer in Hin. unfold toy_gen in Hin at 1. lia. Qed.
Lemma toy_gen_fresh d : fresh toy_gen d.
Proof. pose proof (toy_gen_new d) as H. rewrite !elem_of_app in H. split; tauto. Qed.

Definition toy_queue : QueueHTTP unit := {| qdo := fun _ _ _ _ s => (inl (Err "connection refused"), s) |}.

(** The tables of an example, with the accounts of another. *)
Definition shop_db : cdb := set_accounts (accounts_ demo) demo_db.
Definition shop : cworld (@rest site unit) :=
  MkCw (MkPg shop_db []) [] false 0
    (MkRest (MkRec [] "admin" "secret" (Queueclient.MkClient EmptyString []) EmptyString 0 ∅) bare_site tt []).
Definition domain_request : http_request :=
  request [(CookieName, "token"%string)] [] (JObj [("fqdn"%string, JStr "WWW.Shop2.example.")]).
Definition ann_principal : principal := MkPrincipal EmptyString "t1" "acme" false "operator" (Some (user_of ann)) true.

Lemma shop_owned : owned shop_db.
Proof.
  split; [apply (bool_decide_unpack _); vm_compute; exact I..|intros r i|intros r i];
    intros Hr%list_elem_of_singleton; subst r; intros Hi; injection Hi as <-; eexists; by split.
Qed.

Lemma tenant_routes_refine_witness :
  r_code (served (createDomain toy_gen domain_request ann_principal) shop).1 = 201 /\
  let '(a, w') := served (createDomain toy_gen domain_request ann_principal) shop in
  quiet_w w' /\ (exists d', tenant_step toy_gen "t1" (db shop) d' /\ same_sites d' (db w')) /\
  (400 <= r_code a -> same_sites (db shop) (db w')).
Proof.
  split; [vm_compute; reflexivity|].
  apply (@tenant_routes_refine _ _ _ toy_queue _ _ _ EmptyString toy_gen (fun _ => None)
    (createDomain toy_gen) domain_request ann_principal shop); [by left|reflexivity].
Defined.

Lemma tenant_ownership_witness : owned (db (served (createDomain toy_gen domain_request ann_principal) shop).2).
Proof.
  apply (@tenant_ownership _ _ _ toy_queue _ _ _ EmptyString toy_gen (fun _ => None)
    (createDomain toy_gen) domain_request ann_principal shop);
    [by left|reflexivity|apply toy_gen_fresh|exact shop_owned].
Defined.

(** The same, from a key of the tenant. *)
Definition key_request : http_request :=
  MkHttp "POST" {[ "Authorization" := "Bearer key one" ]}%string ∅ ∅ ∅ (q_body domain_request) "192.0.2.1" 1000.

Lemma tenant_isolation_witness :
  r_code (served (tenant "admin" (createDomain toy_gen) key_request) shop).1 = 201 /\
  let '(a, w') := served (tenant "admin" (createDomain toy_gen) key_request) shop in
  same_sites (db shop) (db w') \/
  exists p, entitled (db shop) key_request p /\ p_tenantID p <> EmptyString /\
    (p_session p = true -> p_platform p = false -> roleRank "admin" <= roleRank (p_role p)) /\
    foreign (p_tenantID p) (db w') = foreign (p_tenantID p) (db shop).
Proof.
  split; [vm_compute; reflexivity|].
  apply (@tenant_isolation _ _ _ toy_queue _ _ _ EmptyString toy_gen (fun _ => None)
    "POST /v1/domains" "admin" (createDomain toy_gen) key_request shop);
    [by left|reflexivity|apply toy_gen_fresh|exact shop_owned].
Defined.
