(* ===== verification/Switch.v ===== *)
(** * The switch of a queue, from the request to the load balancers

    [roomState] of [control/internal/api/tenant.go] together with the pass of
    the reconciler it waits for. *)
From Stdlib Require Import Ascii.
From S2P Require Import Prelude GoStr F64 Json Httpx Dataplane Haproxy Site Queueclient Pg Compile Inventory Reconcile Converge Settle Pass Access Tenant.

Local Open Scope list_scope.
Local Open Scope Z_scope.

Section Switch.
Context {St Q : Type} {HD : DataplaneHTTP St} {Hview : Haproxy St} {HL : HaproxyLaws St} {HQ : QueueHTTP Q}.
Context {HM_ : MapOrder} {HO : Collation} {HC : Crypto} (key : string).

Abbreviation W := (cworld (@rest St Q)).

Definition lbs (w : W) : St := rs_lbs (cw_rest w).
Definition decrypt (enc : string) : option string := match Open key enc with inr s => Some s | inl _ => None end.

Lemma tables_ok_state t sl st eff ok d : tables_ok d -> tables_ok (set_state t sl st eff ok d).2.
Proof. intros [H1 H2 H3 H4 H5 H6]. by split. Qed.

Lemma set_state_found t sl st eff d :
  (set_state t sl st eff (fun _ => true) d).1 = existsb (is_room t sl) (rooms d).
Proof. simpl. induction (rooms d) as [|x l IH]; [done|]. simpl. by rewrite andb_true_r, IH. Qed.

Lemma tables_ok_audit a d : tables_ok d -> tables_ok (add_audit a d).
Proof. intros [H1 H2 H3 H4 H5 H6]. by split. Qed.

(** Claim C18: switching a queue that exists to [open], [queue] or [closed]
    answers 200 whatever the load balancers do.  The queue is then in that
    state, the other queues are as they were, and the register says of each load
    balancer what became of it: either the push failed, or the load balancer is
    what a push of the desired state of the database after the switch makes of it
    ([holds_desired]): its map of the states of the queues and the two others hold
    exactly the desired entries, its lists of certificates, its keys and its
    backends with the addresses, ports and weights of their servers are the
    desired ones.  What a push never writes again (the balance and the check path
    of a backend that was there, the [maxconn] of a server that is right
    otherwise, a certificate remembered as given) is not among what the answer
    vouches for. *)
Theorem roomState_switches r p v st (w : W) :
  quiet_w w -> q_body r = inr v -> dec_one "state" v = Some st -> st ∈ ["open"; "queue"; "closed"]%string ->
  existsb (is_room (p_tenantID p) (PathValue "slug" r)) (rooms (db w)) = true ->
  nodes (db w) <> [] -> NoDup (Name <$> nodes (db w)) -> tables_ok (db w) -> NoDup (addr <$> edges_of (db w)) ->
  (forall e, e ∈ edges_of (db w) -> conf_ok (lb_conf (view (addr e) (lbs w)))) ->
  let switched := (set_state (p_tenantID p) (PathValue "slug" r) st (Some st) (fun _ => true) (db w)).2 in
  let des := desired_of decrypt sha256 switched in
  let '(a, w') := served (roomState key r p) w in
  r_code a = 200 /\ rooms (db w') = rooms switched /\
  forall e, e ∈ edges_of (db w) -> exists row, by_id e_name (EName e) (edges (db w')) = Some row /\
    e_desired_hash row = Some (DHash des) /\
    ((e_status row = Some "error"%string /\ e_error row <> None) \/
     (e_status row = Some "ok"%string /\ holds_desired des (rec_world w) (rec_world w') e)).
Proof.
  intros Hq Hb Hst Hin Hex Hn Hnd Hok Ha Hc switched des. unfold served, roomState, decode.
  rewrite HM_bind_eq, Hb, Hst. cbn [mret HM_ret]. rewrite HM_bind_eq, require_eq.
  assert (Hstates : existsb (String.eqb st) room_states = true /\ String.eqb st "auto" = false).
  { unfold room_states. set_unfold in Hin. by destruct Hin as [->|[->|[->|[]]]]. }
  destruct Hstates as [-> Hauto]. rewrite HM_bind_eq. unfold change_state. rewrite Hauto. h_step.
  rewrite (surjective_pairing (set_state _ _ _ _ _ _)), set_state_found, Hex. fold switched.
  rewrite require_eq. h_step. rewrite HM_bind_eq. unfold rec_Once.
  assert (Hsw : tables_ok switched) by (by apply tables_ok_state).
  match goal with |- context [Once ?d ?s true ?v] =>
    destruct (Once_report d s true v) as (v2 & Hv & Hq2 & Hss & _ & _ & Hrows);
      [done|exact Hn|exact Hnd|exact (tables_ok_audit au switched Hsw)|exact Ha|exact Hc|] end.
  fold decrypt in Hv, Hrows |- *. rewrite Hv. split; [done|]. split; [apply Hss|].
  intros e He. destruct (Hrows e He) as (row & Hrow & _ & Hh & Hcase). exists row. split_and!; [exact Hrow|exact Hh|].
  destruct Hcase as [Herr|(Hok' & _ & _ & Hset)]; [by left|right]. split; [done|exact Hset].
Qed.

End Switch.

(** ** An example *)

Import AccessDemo.

Definition toy_queue : QueueHTTP unit := {| qdo := fun _ _ _ _ s => (inl (Err "connection refused"), s) |}.
Definition close_request : http_request := request [] [("slug", "sale")]%string (JObj [("state"%string, JStr "closed")]).
Definition acme : principal := MkPrincipal "k" "t1" "acme" false EmptyString None false.
(** The load balancer refuses the first [n] connections. *)
Definition reachable (n : nat) : cworld (@rest site unit) :=
  MkCw (MkPg demo_db []) [] false 0
    (MkRest (MkRec [] "admin" "secret" (Queueclient.MkClient EmptyString []) EmptyString 0 ∅)
       (MkSite (site_lbs bare_site) (replicate n true)) tt []).
Definition closing (n : nat) : resp * cworld (@rest site unit) :=
  served (@roomState _ _ _ toy_queue _ _ toy EmptyString close_request acme) (reachable n).

Lemma roomState_switches_witness :
  (r_code (closing 0).1 = 200 /\ (by_id e_name "lb1" (edges (db (closing 0).2)) ≫= e_status) = Some "ok"%string) /\
  (r_code (closing 1).1 = 200 /\ (by_id e_name "lb1" (edges (db (closing 1).2)) ≫= e_status) = Some "error"%string) /\
  let switched := (set_state "t1" "sale" "closed" (Some "closed"%string) (fun _ => true) demo_db).2 in
  let des := desired_of (decrypt EmptyString) sha256 switched in
  let '(a, w') := closing 1 in
  r_code a = 200 /\ rooms (db w') = rooms switched /\
  forall e, e ∈ edges_of demo_db -> exists row, by_id e_name (EName e) (edges (db w')) = Some row /\
    e_desired_hash row = Some (DHash des) /\
    ((e_status row = Some "error"%string /\ e_error row <> None) \/
     (e_status row = Some "ok"%string /\ holds_desired des (rec_world (reachable 1)) (rec_world w') e)).
Proof.
  split_and!; try (vm_compute; reflexivity).
  apply (@roomState_switches _ _ _ _ _ toy_queue _ _ toy EmptyString close_request acme
    (JObj [("state"%string, JStr "closed")]) "closed" (reachable 1)); try (vm_compute; reflexivity).
  - right. right. left.
  - discriminate.
  - apply (bool_decide_unpack _). vm_compute. exact I.
  - destruct first_tables_ok as [H1 H2 H3 H4 H5 H6]. split; [exact H1|exact H2|exact H3|exact H4|exact H5|exact H6].
  - apply (bool_decide_unpack _). vm_compute. exact I.
  - intros e He. assert (Hl : lb_conf (view (addr e) (lbs (reachable 1))) = ∅).
    { assert (Hf : Forall (fun e => lb_conf (view (addr e) (lbs (reachable 1))) = ∅) (edges_of demo_db)).
      { apply (bool_decide_unpack _). vm_compute. exact I. }
      rewrite Forall_forall in Hf. by apply Hf. }
    rewrite Hl. intros n bc Hn. by rewrite lookup_empty in Hn.
Defined.
