(* ===== verification/Reads.v ===== *)
(** * The routes that show lists

    The reading routes of [control/internal/api/tenant.go], [api.go] and
    [session.go], each a query and the JSON of its rows; those that show the sites
    of a tenant depend only on what the tenant owns.  [Views] gives what this
    means for the whole API. *)
From Stdlib Require Import Ascii.
From S2P Require Import Prelude GoStr F64 Json Httpx Dataplane Site Queueclient Pg Compile Inventory Reconcile Settle Access Account Tenant Ownership.

Local Open Scope list_scope.
Local Open Scope Z_scope.

(** ** Rows read with [_ = rows.Scan(...)]

    The loop goes on whatever [Scan] gives: a row that does not scan is shown
    with what [part] says its variables hold, and ends the rows; the error
    [rows.Err()] gives is not looked at. *)
Definition Listed {A} (part : A -> A) (q : cdb -> list A) : M pg (list A) := fun p =>
  let '(d, o, l) := turn p in
  (match o with
   | Served => inr (q d)
   | Refused e | Lost e => inl e
   | Cut n _ => inr (take n (q d))
   | BadRow n _ => inr (take n (q d) ++ (part <$> take 1 (drop n (q d))))
   end, MkPg d l).

Section Reads.
Context {St Q : Type} {HD : DataplaneHTTP St} {HQ : QueueHTTP Q} {HM_ : MapOrder} {HO : Collation} {HC : Crypto}.
(** The master key; how [encoding/json] shows a time, in the time zone of the process. *)
Context (key : string) (show_time : Z -> string).

Abbreviation W := (cworld (@rest St Q)).
Abbreviation HMR := (@HM (@rest St Q)).
Abbreviation handlerR := (@handler (@rest St Q)).

Definition JTime (t : Z) : json := JStr (show_time t).
Definition JOpt {A} (f : A -> json) (o : option A) : json := match o with Some a => f a | None => JNull end.
Definition text (o : option string) : string := default EmptyString o.

(** ** The lists of a tenant *)

(** A domain, its certificate and the slug of its queue. *)
Definition domain_shown : Type := domain_row * option cert_row * option string.

Definition show_domain (d : cdb) (x : domain_row) : domain_shown :=
  (x, by_id c_domain (d_id x) (certificates d),
   r_slug <$> List.hd_error (base.filter (fun r => r_domain r = Some (d_id x)) (rooms d))).

Definition q_domains (tenant : string) (d : cdb) : list domain_shown :=
  map (show_domain d) (merge_sort (by1 d_fqdn) (base.filter (fun x => d_tenant x = tenant) (domains d))).

Definition domain_item (s : domain_shown) : json :=
  let '(x, c, room) := s in
  JObj [("certificate", JObj [("last_error", JStr (text (c ≫= c_error))); ("not_after", JOpt JTime (c ≫= c_not_after));
                              ("status", JStr (match c with Some c => c_status c | None => "none" end))]);
        ("created_at", JTime (d_created x)); ("fqdn", JStr (d_fqdn x)); ("mode", JStr (d_mode x));
        ("room", JOpt JStr room); ("tls", JStr (d_tls x))]%string.

(** No column of this list, nor of those of the backends, can fail to scan. *)
Definition listDomains : handlerR := fun r p =>
  l ← or_db (Listed id (q_domains (p_tenantID p)));
  mret (JSON 200 (JArr (map domain_item l))).

Definition domainCert : handlerR := fun r p =>
  c ← or_db (QueryRow (fun d =>
        x ← q_domain (p_tenantID p) (ToLower (PathValue "fqdn" r)) d;
        Some (by_id c_domain (d_id x) (certificates d))));
  mret (JSON 200 (JObj [("issuer", JStr (text (c ≫= c_issuer))); ("last_attempt_at", JOpt JTime (c ≫= c_attempt));
                        ("last_error", JStr (text (c ≫= c_error))); ("not_after", JOpt JTime (c ≫= c_not_after));
                        ("not_before", JOpt JTime (c ≫= c_not_before));
                        ("status", JStr (match c with Some c => c_status c | None => "none" end))]%string)).

Definition q_own_backends (tenant : string) (d : cdb) : list backend_row :=
  merge_sort (by1 b_name) (base.filter (fun b => b_tenant b = tenant) (backends d)).

Definition server_item (s : server_row) : json :=
  JObj [("address", JStr (sv_address s)); ("maxconn", JInt (sv_maxconn s)); ("name", JStr (sv_name s));
        ("port", JInt (sv_port s)); ("weight", JInt (sv_weight s))]%string.

Definition backend_item (slug : string) (b : backend_row) (l : list server_row) : json :=
  JObj [("balance", JStr (b_balance b)); ("check_path", JStr (b_check_path b));
        ("haproxy_name", JStr (BackendName slug (b_name b))); ("name", JStr (b_name b));
        ("servers", JArr (map server_item l))]%string.

(** One query per backend; when it fails the backend is shown without servers. *)
Fixpoint backend_items (slug : string) (bs : list backend_row) : HMR (list json) :=
  match bs with
  | [] => mret []
  | b :: bs =>
      l ← tried (at_pg (Listed id (q_servers (b_id b))));
      rest ← backend_items slug bs;
      mret (backend_item slug b (match l with inr l => l | inl _ => [] end) :: rest)
  end.

Definition listBackends : handlerR := fun r p =>
  bs ← or_db (Listed id (q_own_backends (p_tenantID p)));
  l ← backend_items (p_tenant p) bs;
  mret (JSON 200 (JArr l)).

(** A queue with the name of its domain and of its backend. *)
Definition room_shown : Type := room_row * option string * option string.

Definition show_room (d : cdb) (x : room_row) : room_shown :=
  (x, (i ← r_domain x; d_fqdn <$> by_id d_id i (domains d)), (i ← r_backend x; b_name <$> by_id b_id i (backends d))).

Definition q_own_rooms (tenant : string) (d : cdb) : list room_shown :=
  map (show_room d) (merge_sort (by1 r_slug) (base.filter (fun x => r_tenant x = tenant) (rooms d))).

(** A theme that is not an object of strings does not scan: the columns after
    it keep their zero values. *)
Definition without_theme (s : room_shown) : room_shown :=
  let '(x, f, b) := s in
  (MkRoom (r_id x) (r_tenant x) (r_slug x) (r_title x) (r_domain x) (r_backend x) (r_state x) EmptyString
     (r_rate x) (r_max_active x) (r_wave_s x) (r_pass_ttl_s x) (r_opens_at x) ∅ 0 0 (r_updated x), f, b).

Definition room_item (slug : string) (s : room_shown) : json :=
  let '(x, fqdn, backend) := s in
  JObj [("auto_off", JInt (r_auto_off x)); ("auto_on", JInt (r_auto_on x)); ("backend", JOpt JStr backend);
        ("domain", JOpt JStr fqdn); ("effective_state", JStr (r_effective x));
        ("id", JStr (slug +:+ "." +:+ r_slug x)); ("max_active", JInt (r_max_active x));
        ("opens_at", JOpt JTime (r_opens_at x)); ("pass_ttl_s", JInt (r_pass_ttl_s x)); ("rate", JNum (json_float (r_rate x)));
        ("slug", JStr (r_slug x)); ("state", JStr (r_state x)); ("theme", JMap (r_theme x)); ("title", JStr (r_title x));
        ("updated_at", JTime (r_updated x)); ("wave_s", JInt (r_wave_s x))]%string.

Definition listRooms : handlerR := fun r p =>
  l ← or_db (Listed without_theme (q_own_rooms (p_tenantID p)));
  mret (JSON 200 (JArr (map (room_item (p_tenant p)) l))).

(** The routes that show the sites of a tenant. *)
Definition site_reads : list handlerR := [listDomains; domainCert; listBackends; listRooms].

End Reads.

(** ** The lists of the platform and of an account *)

Section Lists.
Context {St Q : Type} {HD : DataplaneHTTP St} {HQ : QueueHTTP Q} {HM_ : MapOrder} {HO : Collation} {HC : Crypto}.
(** The master key, the issuer of TOTP secrets, the drawing of a QR code, and
    how a time is shown. *)
Context (key issuer : string) (qr_png : string -> goerr + string) (show_time : Z -> string).

Abbreviation W := (cworld (@rest St Q)).
Abbreviation HMR := (@HM (@rest St Q)).
Abbreviation handlerR := (@handler (@rest St Q)).

(** A tenant, with how many queues and domains it has. *)
Definition q_tenants (d : cdb) : list (tenant_row * Z * Z) :=
  map (fun t => (t, Z.of_nat (length (base.filter (fun r => r_tenant r = t_id t) (rooms d))),
                    Z.of_nat (length (base.filter (fun x => d_tenant x = t_id t) (domains d)))))
    (merge_sort (by1 t_slug) (tenants d)).

Definition tenant_item (x : tenant_row * Z * Z) : json :=
  let '(t, nr, nd) := x in
  JObj [("created_at", JTime show_time (t_created t)); ("domains", JInt nd); ("name", JStr (t_name t));
        ("rooms", JInt nr); ("slug", JStr (t_slug t))]%string.

Definition listTenants : handlerR := fun r p =>
  l ← or_db (Listed id q_tenants);
  mret (JSON 200 (JArr (map tenant_item l))).

Definition edge_item (e : edge_row) : json :=
  let ch := text (e_config_hash e) in
  JObj [("dataplane_url", JStr (e_url e));
        ("in_sync", JBool (negb (bool_decide (ch = EmptyString)) && bool_decide (ch = text (e_desired_hash e))));
        ("last_error", JStr (text (e_error e))); ("last_push_at", JOpt (JTime show_time) (e_pushed e));
        ("last_push_status", JStr (text (e_status e))); ("name", JStr (e_name e))]%string.

Definition listEdges : handlerR := fun r p =>
  l ← or_db (Listed id (fun d => merge_sort (by1 e_name) (edges d)));
  mret (JSON 200 (JArr (map edge_item l))).

(** [a.queue.Healthy(ctx, h)]. *)
Definition check_queue (h : string) : HMR (goerr + unit) := fun w =>
  let x := cw_rest w in
  let '(r, q) := Queueclient.Healthy h (rs_queues x) in
  (inr r, set_rest (MkRest (rs_rec x) (rs_lbs x) q (rs_issues x)) w).

Definition host_item (x : queue_row) (health : string) : json :=
  JObj [("address", JStr (q_address x)); ("health", JStr health); ("last_error", JStr (text (q_error x)));
        ("last_seen_at", JOpt (JTime show_time) (q_seen x)); ("name", JStr (q_name x)); ("port", JInt (q_port x))]%string.

Fixpoint host_items (l : list queue_row) : HMR (list json) :=
  match l with
  | [] => mret []
  | x :: l =>
      h ← check_queue ("http://" +:+ q_address x +:+ ":" +:+ FormatInt (q_port x))%string;
      rest ← host_items l;
      mret (host_item x (match h with inr _ => "ok"%string | inl e => error_text e end) :: rest)
  end.

Definition listQueueHosts : handlerR := fun r p =>
  l ← or_db (Listed id (fun d => merge_sort (by1 q_name) (queue_hosts d)));
  items ← host_items l;
  mret (JSON 200 (JArr items)).

(** The memberships of an account, with their tenant. *)
Definition q_memberships (user : string) (d : cdb) : list (tenant_row * string) :=
  merge_sort (by1 (fun m => t_slug m.1)) (omap (fun m =>
    if bool_decide (m_user m = user) then t ← by_id t_id (m_tenant m) (tenants d); Some (t, m_role m) else None)
    (memberships (accounts_ d))).

(** The guard [session] gives a principal with a user; without one the code
    would panic. *)
Definition account : handlerR := fun r p =>
  l ← or_db (Listed id (q_memberships (user_id p)));
  match p_user p with
  | None => mret (MkResp 500 [] [] NoBody)
  | Some u =>
      mret (JSON 200 (JObj [("display_name", JStr (DisplayName u)); ("email", JStr (Email u));
        ("memberships", JArr (map (fun m => JObj [("name", JStr (t_name m.1)); ("role", JStr m.2); ("tenant", JStr (t_slug m.1))]%string) l));
        ("must_change_password", JBool (MustChangePassword u)); ("platform_admin", JBool (PlatformAdmin u));
        ("totp_enabled", JBool (TOTPEnabled u))]%string))
  end.

Definition totpQR : handlerR := fun r p =>
  enc ← tried (at_pg (QueryRow (fun d => u_totp <$> by_id u_id (user_id p) (users (accounts_ d)))));
  let enc := match enc with inr e => text e | inl _ => EmptyString end in
  require (negb (bool_decide (enc = EmptyString))) (Error 404 "no_totp" "lancez d'abord la configuration") ≫= fun _ =>
  secret ← attempt (fun e => Error 500 "crypt" (error_text e)) (lift_err (Open key enc));
  let url := ("otpauth://totp/" +:+ PathEscape (issuer +:+ ":" +:+ user_email p) +:+ "?secret=" +:+ secret
              +:+ "&issuer=" +:+ QueryEscape issuer)%string in
  png ← attempt (fun e => Error 500 "qr" (error_text e)) (lift_err (qr_png url));
  mret (MkResp 200 [("Content-Type", "image/png"); ("Cache-Control", "no-store")]%string [] (BText png)).

(** An account, with the text of its memberships. *)
Definition q_users (d : cdb) : list (user_row * string) :=
  map (fun u => (u, Join (map (fun m => (t_slug m.1 +:+ ":" +:+ m.2)%string) (q_memberships (u_id u) d)) ","))
    (merge_sort (by1 u_email) (users (accounts_ d))).

Definition user_item (x : user_row * string) : json :=
  let '(u, members) := x in
  JObj [("created_at", JTime show_time (u_created u)); ("display_name", JStr (u_display u)); ("email", JStr (u_email u));
        ("id", JStr (u_id u)); ("last_login_at", JOpt (JTime show_time) (u_login u)); ("memberships", JStr members);
        ("oidc", JBool (bool_decide (u_subject u <> None))); ("platform_admin", JBool (u_admin u));
        ("totp_enabled", JBool (u_totp_on u))]%string.

Definition listUsers : handlerR := fun r p =>
  l ← or_db (Listed id q_users);
  mret (JSON 200 (JArr (map user_item l))).

(** The members of a tenant. *)
Definition q_members (slug : string) (d : cdb) : list (user_row * string) :=
  merge_sort (by1 (fun m => u_email m.1)) (omap (fun m =>
    u ← by_id u_id (m_user m) (users (accounts_ d)); t ← by_id t_id (m_tenant m) (tenants d);
    if bool_decide (t_slug t = slug) then Some (u, m_role m) else None) (memberships (accounts_ d))).

Definition listMembers : handlerR := fun r p =>
  l ← or_db (Listed id (q_members (PathValue "slug" r)));
  mret (JSON 200 (JArr (map (fun m => JObj [("display_name", JStr (u_display m.1)); ("email", JStr (u_email m.1));
                                            ("role", JStr m.2)]%string) l))).

Definition by_created : relation apikey_row := fun x y => ak_created x <= ak_created y.
#[global] Instance by_created_dec : RelDecision by_created.
Proof. intros x y. unfold by_created. apply _. Defined.

Definition q_api_keys (tenant : string) (d : cdb) : list apikey_row :=
  merge_sort by_created (base.filter (fun k => ak_tenant k = Some tenant) (api_keys (accounts_ d))).

Definition key_item (k : apikey_row) : json :=
  JObj [("created_at", JTime show_time (ak_created k)); ("id", JStr (ak_id k));
        ("last_used_at", JOpt (JTime show_time) (ak_used k)); ("name", JStr (ak_name k))]%string.

Definition listKeysFor (tenant : string) : HMR resp :=
  l ← or_db (Listed id (q_api_keys tenant));
  mret (JSON 200 (JArr (map key_item l))).

Definition listTenantKeys : handlerR := fun r p => listKeysFor (p_tenantID p).

Definition listTenantKeysPlatform : handlerR := fun r p =>
  t ← or_db (QueryRow (tenant_by_slug (PathValue "slug" r)));
  listKeysFor t.1.

Definition newest_first : relation key_row := fun x y => k_created y <= k_created x.
#[global] Instance newest_first_dec : RelDecision newest_first.
Proof. intros x y. unfold newest_first. apply _. Defined.

(** Whether a key is accepted, by the clock of the process. *)
Definition accepted (now : Z) (k : key_row) : bool :=
  k_active k || match k_retired k with Some t => now - t <? 86400 | None => false end.

Definition signing_item (now : Z) (k : key_row) : json :=
  JObj [("accepted", JBool (accepted now k)); ("active", JBool (k_active k)); ("created_at", JTime show_time (k_created k));
        ("kid", JStr (k_kid k)); ("retired_at", JOpt (JTime show_time) (k_retired k))]%string.

Definition listSigningKeys : handlerR := fun r p =>
  l ← or_db (Listed id (fun d => merge_sort newest_first (signing_keys d)));
  mret (JSON 200 (JArr (map (signing_item (q_now r)) l))).

End Lists.

(** ** What a tenant owns *)

Section Own.
Context (t : string).

Definition own_domains (d : cdb) : list domain_row := base.filter (fun x => d_tenant x = t) (domains d).
Definition own_backends (d : cdb) : list backend_row := base.filter (fun x => b_tenant x = t) (backends d).
Definition own_rooms (d : cdb) : list room_row := base.filter (fun x => r_tenant x = t) (rooms d).
Definition own_servers (d : cdb) : list server_row :=
  base.filter (fun s => sv_backend s ∈ b_id <$> own_backends d) (servers d).
Definition own_certs (d : cdb) : list cert_row :=
  base.filter (fun c => c_domain c ∈ d_id <$> own_domains d) (certificates d).

(** Two databases that hold the same rows of the tenant. *)
Record same_own (d1 d2 : cdb) : Prop := {
  so_domains : own_domains d1 = own_domains d2; so_backends : own_backends d1 = own_backends d2;
  so_rooms : own_rooms d1 = own_rooms d2; so_servers : own_servers d1 = own_servers d2;
  so_certs : own_certs d1 = own_certs d2
}.

#[export] Instance same_own_equiv : Equivalence same_own.
Proof.
  split; [by split|intros d1 d2 [? ? ? ? ?]; by split|].
  intros d1 d2 d3 [? ? ? ? ?] [? ? ? ? ?]. split; congruence.
Qed.

Lemma by_id_own {A} (key : A -> string) (P : A -> Prop) `{forall x, Decision (P x)} i l x :
  NoDup (key <$> l) -> by_id key i l = Some x -> P x -> by_id key i (base.filter P l) = Some x.
Proof.
  intros Hn Hi HP. apply by_id_NoDup; [by apply NoDup_filter_key|]. apply by_id_elem in Hi as [Hx Hk].
  split; [|done]. by apply list_elem_of_filter.
Qed.

Lemma own_domain_row d x y : owned d -> x ∈ own_domains d -> by_id d_id (d_id x) (domains d) = Some y -> y = x.
Proof.
  intros Hd [_ Hx]%list_elem_of_filter Hy. assert (Hx' : by_id d_id (d_id x) (domains d) = Some x); [|congruence].
  apply by_id_NoDup; [apply Hd|done].
Qed.

(** The queries only meet the rows of the tenant. *)
Lemma show_domain_own d x : owned d -> x ∈ own_domains d ->
  show_domain d x = (x, by_id c_domain (d_id x) (own_certs d),
    r_slug <$> List.hd_error (base.filter (fun r => r_domain r = Some (d_id x)) (own_rooms d))).
Proof.
  intros Hd Hx. unfold show_domain. f_equal; [f_equal|].
  - unfold own_certs. rewrite (by_id_filter c_domain _ (fun k => k ∈ d_id <$> own_domains d)) by done.
    rewrite decide_True; [done|]. by apply list_elem_of_fmap_2.
  - do 2 f_equal. symmetry. apply filter_filter_eq; [done|]. intros r Hr Hdm.
    destruct (own_room_domain _ Hd r _ Hr Hdm) as (y & Hy & <-). apply own_domain_row in Hy as ->; [|done..].
    by apply list_elem_of_filter in Hx as [-> _].
Qed.

Lemma show_room_own d x : owned d -> x ∈ own_rooms d ->
  show_room d x = (x, (i ← r_domain x; d_fqdn <$> by_id d_id i (own_domains d)),
                      (i ← r_backend x; b_name <$> by_id b_id i (own_backends d))).
Proof.
  intros Hd [Ht Hx]%list_elem_of_filter. unfold show_room. f_equal; [f_equal|].
  - destruct (r_domain x) as [i|] eqn:Hi; [|done]. simpl.
    destruct (own_room_domain _ Hd x i Hx Hi) as (y & Hy & Hyt).
    unfold own_domains. by rewrite Hy, (by_id_own d_id _ i (domains d) y) by (apply Hd || done || congruence).
  - destruct (r_backend x) as [i|] eqn:Hi; [|done]. simpl.
    destruct (own_room_backend _ Hd x i Hx Hi) as (y & Hy & Hyt).
    unfold own_backends. by rewrite Hy, (by_id_own b_id _ i (backends d) y) by (apply Hd || done || congruence).
Qed.

Lemma q_servers_own `{Collation} d b : b ∈ own_backends d ->
  q_servers (b_id b) d = merge_sort (by1 sv_name) (base.filter (fun s => sv_backend s = b_id b) (own_servers d)).
Proof.
  intros Hb. unfold q_servers. f_equal. symmetry. apply filter_filter_eq; [done|].
  intros s _ ->. by apply list_elem_of_fmap_2.
Qed.

End Own.

(** ** A reading route only depends on what its tenant owns *)

Section Isolation.
Context {St Q : Type} {HD : DataplaneHTTP St} {HQ : QueueHTTP Q} {HM_ : MapOrder} {HO : Collation} {HC : Crypto}.
Context (key : string) (gen : cdb -> string) (rfc3339 : string -> option Z) (show_time : Z -> string).

Abbreviation W := (cworld (@rest St Q)).
Abbreviation handlerR := (@handler (@rest St Q)).

Lemma or_db_listed {A} part (q : cdb -> list A) (w : W) : quiet_w w -> or_db (Listed part q) w = (inr (q (db w)), w).
Proof.
  unfold quiet_w, quiet, or_db, attempt, at_pg, zoom, Listed, turn, set_cw_pg, db. destruct w as [[d l] rd k t x]. simpl.
  by intros ->.
Qed.

Lemma tried_listed {A} part (q : cdb -> list A) (w : W) : quiet_w w ->
  tried (at_pg (Listed part q)) w = (inr (inr (q (db w))), w).
Proof.
  unfold quiet_w, quiet, tried, at_pg, zoom, Listed, turn, set_cw_pg, db. destruct w as [[d l] rd k t x]. simpl.
  by intros ->.
Qed.

Lemma backend_items_quiet slug bs (w : W) : quiet_w w ->
  backend_items slug bs w = (inr (map (fun b => backend_item slug b (q_servers (b_id b) (db w))) bs), w).
Proof.
  intros Hq. induction bs as [|b bs IH]; [done|]. cbn [backend_items].
  rewrite HM_bind_eq, tried_listed by done. by rewrite HM_bind_eq, IH.
Qed.

Lemma q_domains_same t d1 d2 : owned d1 -> owned d2 -> same_own t d1 d2 -> q_domains t d1 = q_domains t d2.
Proof.
  intros H1 H2 Hs. unfold q_domains. change (base.filter _ (domains d1)) with (own_domains t d1).
  change (base.filter _ (domains d2)) with (own_domains t d2). rewrite (so_domains _ _ _ Hs).
  apply map_ext_in. intros x Hx%list_elem_of_In. rewrite merge_sort_Permutation in Hx.
  rewrite (show_domain_own t d2), (show_domain_own t d1) by (done || by rewrite (so_domains _ _ _ Hs)).
  by rewrite (so_certs _ _ _ Hs), (so_rooms _ _ _ Hs).
Qed.

Lemma q_own_rooms_same t d1 d2 : owned d1 -> owned d2 -> same_own t d1 d2 -> q_own_rooms t d1 = q_own_rooms t d2.
Proof.
  intros H1 H2 Hs. unfold q_own_rooms. change (base.filter _ (rooms d1)) with (own_rooms t d1).
  change (base.filter _ (rooms d2)) with (own_rooms t d2). rewrite (so_rooms _ _ _ Hs).
  apply map_ext_in. intros x Hx%list_elem_of_In. rewrite merge_sort_Permutation in Hx.
  rewrite (show_room_own t d2), (show_room_own t d1) by (done || by rewrite (so_rooms _ _ _ Hs)).
  by rewrite (so_domains _ _ _ Hs), (so_backends _ _ _ Hs).
Qed.

Lemma q_servers_same t d1 d2 b : same_own t d1 d2 -> b ∈ own_backends t d1 -> q_servers (b_id b) d1 = q_servers (b_id b) d2.
Proof.
  intros Hs Hb. rewrite (q_servers_own t d1), (q_servers_own t d2), (so_servers _ _ _ Hs); [done| |done].
  by rewrite <- (so_backends _ _ _ Hs).
Qed.

Lemma backends_same t slug d1 d2 : same_own t d1 d2 ->
  map (fun b => backend_item slug b (q_servers (b_id b) d1)) (q_own_backends t d1) =
  map (fun b => backend_item slug b (q_servers (b_id b) d2)) (q_own_backends t d2).
Proof.
  intros Hs. unfold q_own_backends. change (base.filter _ (backends d1)) with (own_backends t d1).
  change (base.filter _ (backends d2)) with (own_backends t d2). rewrite (so_backends _ _ _ Hs).
  apply map_ext_in. intros b Hb%list_elem_of_In. rewrite merge_sort_Permutation in Hb. f_equal.
  apply (q_servers_same t); [done|]. by rewrite (so_backends _ _ _ Hs).
Qed.

Lemma find_cons {A} (P : A -> Prop) `{forall x, Decision (P x)} x l :
  snd <$> list_find P (x :: l) = if decide (P x) then Some x else snd <$> list_find P l.
Proof. simpl. case_decide; [done|]. by destruct (list_find P l) as [[? ?]|]. Qed.

Lemma q_domain_own t f d : q_domain t f d = snd <$> list_find (fun x => is_domain t f x = true) (own_domains t d).
Proof.
  unfold q_domain, own_domains. induction (domains d) as [|x l IH]; [done|].
  rewrite filter_cons, find_cons, IH. destruct (decide (d_tenant x = t)) as [Ht|Ht]; [by rewrite find_cons|].
  rewrite decide_False; [done|]. intros [Hx%String.eqb_eq _]%andb_true_iff. done.
Qed.

Lemma cert_same t d1 d2 x : same_own t d1 d2 -> x ∈ own_domains t d1 ->
  by_id c_domain (d_id x) (certificates d1) = by_id c_domain (d_id x) (certificates d2).
Proof.
  intros Hs Hx.
  assert (Hc : forall d, x ∈ own_domains t d -> by_id c_domain (d_id x) (certificates d) = by_id c_domain (d_id x) (own_certs t d)).
  { intros d Hd. unfold own_certs. rewrite (by_id_filter c_domain _ (fun k => k ∈ d_id <$> own_domains t d)) by done.
    rewrite decide_True; [done|]. by apply list_elem_of_fmap_2. }
  rewrite !Hc, (so_certs _ _ _ Hs); [done| |done]. by rewrite <- (so_domains _ _ _ Hs).
Qed.

Lemma reads_own hr r p (w1 w2 : W) : hr ∈ site_reads show_time -> quiet_w w1 -> quiet_w w2 ->
  owned (db w1) -> owned (db w2) -> same_own (p_tenantID p) (db w1) (db w2) ->
  (served (hr r p) w1).1 = (served (hr r p) w2).1 /\ db (served (hr r p) w1).2 = db w1.
Proof.
  intros Hh Hq1 Hq2 H1 H2 Hs. unfold site_reads in Hh.
  repeat (apply elem_of_cons in Hh as [->|Hh]); [| | | |by apply not_elem_of_nil in Hh]; unfold served.
  - unfold listDomains. rewrite !HM_bind_eq, !or_db_listed by done. by rewrite (q_domains_same _ _ (db w2)).
  - unfold domainCert. rewrite !HM_bind_eq, !or_db_query by done. rewrite !q_domain_own, (so_domains _ _ _ Hs).
    destruct (list_find _ _) as [[n x]|] eqn:Hf; [|done]. simpl.
    apply list_find_Some in Hf as (Hx%list_elem_of_lookup_2 & _). rewrite <- (so_domains _ _ _ Hs) in Hx.
    by rewrite (cert_same _ _ _ x Hs Hx).
  - unfold listBackends. rewrite !HM_bind_eq, !or_db_listed by done. rewrite !HM_bind_eq, !backend_items_quiet by done.
    by rewrite (backends_same _ _ _ (db w2)).
  - unfold listRooms. rewrite !HM_bind_eq, !or_db_listed by done. by rewrite (q_own_rooms_same _ _ (db w2)).
Qed.

Lemma same_own_sites t d d' : same_sites d d' -> same_own t d' d.
Proof.
  intros (E0 & E1 & E2 & E3 & E4 & E5).
  split; unfold own_servers, own_certs, own_domains, own_backends, own_rooms; by rewrite ?E1, ?E2, ?E3, ?E4, ?E5.
Qed.

Lemma filter_narrow {A} (P R : A -> Prop) `{forall x, Decision (P x)} `{forall x, Decision (R x)} (l l' : list A) :
  (forall x, P x -> R x) -> base.filter R l = base.filter R l' -> base.filter P l = base.filter P l'.
Proof.
  intros HPR Hl. rewrite <- (filter_filter_eq P P R l), <- (filter_filter_eq P P R l'), Hl; auto.
Qed.

(** What another tenant has left alone is untouched. *)
Lemma own_foreign t t' d d' : t <> t' -> owned d -> owned d' -> foreign t d' = foreign t d -> same_own t' d' d.
Proof.
  intros Hne Hd Hd' Hf. injection Hf as _ Edom Eback Eserv Erooms Ecerts.
  assert (Hdom : own_domains t' d' = own_domains t' d) by (eapply filter_narrow, Edom; intros x; congruence).
  assert (Hback : own_backends t' d' = own_backends t' d) by (eapply filter_narrow, Eback; intros x; congruence).
  split; [done|done|eapply filter_narrow, Erooms; intros x; congruence| |].
  - assert (Hin : forall d0, owned d0 -> own_servers t' d0 =
      base.filter (fun s => sv_backend s ∈ b_id <$> own_backends t' d0) (foreign_servers t d0)).
    { intros d0 H0. symmetry. apply filter_filter_eq; [done|].
      intros s _ (b & Hb & [Ht Hbin]%list_elem_of_filter)%list_elem_of_fmap.
      rewrite Hb, (by_id_own_backend d0 b H0 Hbin), Ht. by rewrite (proj2 (String.eqb_neq _ _)). }
    rewrite !Hin, Eserv, Hback by done. done.
  - assert (Hin : forall d0, owned d0 -> own_certs t' d0 =
      base.filter (fun c => c_domain c ∈ d_id <$> own_domains t' d0) (foreign_certs t d0)).
    { intros d0 H0. symmetry. apply filter_filter_eq; [done|].
      intros s _ (b & Hb & [Ht Hbin]%list_elem_of_filter)%list_elem_of_fmap.
      rewrite Hb, (proj2 (by_id_NoDup d_id (d_id b) (domains d0) b (own_domain_ids _ H0)) (conj Hbin eq_refl)), Ht.
      by rewrite (proj2 (String.eqb_neq _ _)). }
    rewrite !Hin, Ecerts, Hdom by done. done.
Qed.

End Isolation.
