(* ===== verification/Bootstrap.v ===== *)
(** * The first start, and the rotation of the signing key

    [control/internal/bootstrap/bootstrap.go]: the signing key of the passes, the
    first administrator, the first key of the platform; the routes of
    [control/internal/api] that serve and rotate the signing key.  Keys, DER and
    PEM are parameters; the disk is a map of paths to contents, with what each of
    its next operations will do. *)
From Stdlib Require Import Ascii.
From S2P Require Import Prelude GoStr Json Base64 Httpx Dataplane Queueclient Pass Pg Compile Inventory Reconcile Access Account Tenant Ownership Reads.

Local Open Scope list_scope.
Local Open Scope Z_scope.

(** ** The disk *)

(** A fault is the error given and, for a file, what it leaves of it. *)
Record disk : Type := MkDisk { dk_files : gmap string string; dk_faults : list (option (goerr * option string)) }.

Definition disk_op (path : string) (f : gmap string string -> gmap string string) : M disk unit := fun s =>
  match dk_faults s with
  | Some (e, rem) :: l =>
      (inl e, MkDisk (match rem with Some c => <[path := c]> (dk_files s) | None => dk_files s end) l)
  | _ => (inr tt, MkDisk (f (dk_files s)) (tail (dk_faults s)))
  end.

Definition WriteFile (path content : string) : M disk unit := disk_op path (fun m => <[path := content]> m).
Definition Remove (path : string) : M disk unit := disk_op path (fun m => delete path m).
Definition MkdirAll (dir : string) : M disk unit := disk_op dir id.

(** ** Keys *)

Record Result : Type := MkResult { KID : string; PrivatePEM : string; PublicPEM : string; JWKS : json }.

Section Bootstrap.
Context {HC : Crypto} {HO : Collation} {SK PK : Type}.
(** [ecdsa.GenerateKey] on the bytes it reads, the two DER forms of a key, and
    PEM. *)
Context (generate : string -> goerr + SK) (marshal_ec marshal_pkix : SK -> goerr + string).
Context (pem_encode : string -> string -> string) (pem_decode : string -> option string).
(** The public keys as [x509] parses them, with their coordinates. *)
Context (parse_pkix : string -> goerr + option PK) (coords : PK -> Z * Z).
(** The month of a time, as [2006-01]; the identifiers of the database; where
    the files of the first start are. *)
Context (month : Z -> string) (gen : cdb -> string) (data_dir admin_path platform_path : string).

Definition padTo32 (b : Z) : string := be_bytes 32 b.

Definition jwk_of (kid : string) (pub : PK) : json :=
  JObj [("alg", JStr "ES256"); ("crv", JStr "P-256"); ("kid", JStr kid); ("kty", JStr "EC"); ("use", JStr "sig");
        ("x", JStr (encode RawURLEncoding (padTo32 (coords pub).1)));
        ("y", JStr (encode RawURLEncoding (padTo32 (coords pub).2)))]%string.

(** The public key of a PEM text. *)
Definition public_of (pubPEM : string) : goerr + PK :=
  match pem_decode pubPEM with
  | None => inl (Err "clé publique PEM invalide")
  | Some der =>
      match parse_pkix der with
      | inl e => inl e
      | inr None => inl (Err "clé publique : pas une clé ECDSA")
      | inr (Some pub) => inr pub
      end
  end.

Definition build (kid privPEM pubPEM : string) : goerr + Result :=
  match public_of pubPEM with
  | inl e => inl e
  | inr pub => inr (MkResult kid privPEM pubPEM (JObj [("keys"%string, JArr [jwk_of kid pub])]))
  end.

(** [build], then the first key of its set. *)
Definition JWK (kid pubPEM : string) : goerr + json :=
  match build kid EmptyString pubPEM with
  | inl e => inl e
  | inr r => match JWKS r with
             | JObj [(_, JArr (k :: _))] => inr k
             | _ => inr JNull
             end
  end.

(** ** Random values and encryption *)

Section World.
Context {X : Type}.

Definition randHex : M (cworld X) string := b ← draw; mret (hex_encode b).

Definition encrypt (k plaintext : string) : M (cworld X) string :=
  match NewCipher k with
  | inl e => mfail e
  | inr _ => nonce ← draw; mret (nonce +:+ gcm_seal k nonce plaintext)%string
  end.

Definition decrypt (k data : string) : goerr + string :=
  match NewCipher k with
  | inl e => inl e
  | inr _ =>
      if (String.length data <? NonceSize)%nat then inl (Err "données chiffrées tronquées")
      else gcm_open k (String.substring 0 NonceSize data) (String.substring NonceSize (String.length data - NonceSize) data)
  end.

(** ** The signing key *)

(** The active key, the newest when there are several. *)
Definition q_signing (d : cdb) : option key_row :=
  List.hd_error (merge_sort newest_first (base.filter (fun k => k_active k = true) (signing_keys d))).

Definition insert_signing (kid enc pub : string) (d : cdb) : goerr + (unit * cdb) :=
  if existsb (fun k => String.eqb (k_kid k) kid) (signing_keys d) then inl (ErrPg "23505" "signing_keys_pkey")
  else inr (tt, set_signing_keys (signing_keys d ++ [MkKey kid pub true (clock d) None enc]) d).

(** The pair of PEM texts of a new key; [MarshalECPrivateKey] and
    [MarshalPKIXPublicKey] may fail. *)
Definition new_pair (sk : SK) : goerr + (string * string) :=
  match marshal_ec sk with
  | inl e => inl e
  | inr priv => match marshal_pkix sk with
                | inl e => inl e
                | inr pub => inr (pem_encode "EC PRIVATE KEY" priv, pem_encode "PUBLIC KEY" pub)
                end
  end.

Definition new_kid (now : Z) : M (cworld X) string := h ← randHex; mret (month now +:+ "-" +:+ h)%string.

Definition ensureSigningKey (now : Z) (k : string) : M (cworld X) Result := fun w =>
  match at_pg (QueryRow q_signing) w with
  | (inr row, w1) =>
      (match decrypt k (k_private row) with
       | inl e => inl (wrap ("déchiffrement de la clé de signature " +:+ k_kid row +:+ " (clé maître changée ?)")%string e)
       | inr priv => build (k_kid row) priv (k_public row)
       end, w1)
  | (inl ErrNoRows, w1) =>
      (rnd ← draw;
       sk ← lift_err (generate rnd);
       pems ← lift_err (new_pair sk);
       kid ← new_kid now;
       enc ← encrypt k pems.1;
       at_pg (Exec (insert_signing kid enc pems.2)) ≫= fun _ =>
       lift_err (build kid pems.1 pems.2)) w1
  | (inl e, w1) => (inl e, w1)
  end.

(** The errors of the two marshallings are dropped here. *)
Definition loose_pair (sk : SK) : string * string :=
  (pem_encode "EC PRIVATE KEY" (match marshal_ec sk with inr s => s | inl _ => EmptyString end),
   pem_encode "PUBLIC KEY" (match marshal_pkix sk with inr s => s | inl _ => EmptyString end)).

Definition retire_keys (d : cdb) : cdb :=
  set_signing_keys (map (fun k => if k_active k
                                  then MkKey (k_kid k) (k_public k) false (k_created k) (Some (clock d)) (k_private k)
                                  else k) (signing_keys d)) d.

Definition RotateSigningKey (now : Z) (k : string) : M (cworld X) Result :=
  rnd ← draw;
  sk ← lift_err (generate rnd);
  let pems := loose_pair sk in
  kid ← new_kid now;
  enc ← encrypt k pems.1;
  at_pg (in_tx (Exec_ retire_keys ≫= fun _ => Exec (insert_signing kid enc pems.2))) ≫= fun _ =>
  lift_err (build kid pems.1 pems.2).

End World.

(** ** The first administrator and the first key of the platform *)

Abbreviation B := (cworld disk).

Definition at_disk {A} (m : M disk A) : M B A :=
  zoom cw_rest (fun x w => MkCw (cw_pg w) (cw_rand w) (cw_kick w) (cw_triggers w) x) m.

Definition insert_admin (email hash : string) (d : cdb) : goerr + (unit * cdb) :=
  if email_taken email d then inl (ErrPg "23505" "users_email_idx")
  else inr (tt, with_users (users (accounts_ d) ++
         [MkUser (gen d) email (Some hash) None None false true false EmptyString (clock d) None]) d).

(** [os.WriteFile], then the insertion, which removes the file when it fails. *)
Definition announce (path content msg : string) (insert : cdb -> goerr + (unit * cdb)) : M B unit := fun w =>
  match wrapping msg (at_disk (WriteFile path content)) w with
  | (inl e, w1) => (inl e, w1)
  | (inr _, w1) =>
      match at_pg (Exec insert) w1 with
      | (inl e, w2) => (inl e, (at_disk (Remove path) w2).2)
      | (inr _, w2) => (inr tt, w2)
      end
  end.

Definition admin_email : string := "admin@localhost".
Definition admin_content (password : string) : string :=
  ("Premier administrateur flyc-control" +:+ newline +:+ "email    : admin@localhost" +:+ newline +:+ "password : " +:+ password
   +:+ newline +:+ newline +:+ "Changez ce mot de passe à la première connexion, puis supprimez ce fichier." +:+ newline)%string.

Definition ensureAdmin : M B unit :=
  n ← at_pg (QueryRow (fun d => Some (length (users (accounts_ d)))));
  if (0 <? n)%nat then mret tt else
  password ← randHex;
  salt ← draw;
  wrapping ("répertoire de données " +:+ data_dir)%string (at_disk (MkdirAll data_dir)) ≫= fun _ =>
  announce admin_path (admin_content password)
    ("écriture du mot de passe initial dans " +:+ admin_path +:+ " (volume /data accessible en écriture par l'uid 10001 ?)")%string
    (insert_admin admin_email (HashPassword salt password)).

Definition platform_content (k : string) : string :=
  ("Clé API plateforme flyc-control (accès total)" +:+ newline +:+ k +:+ newline +:+ newline
   +:+ "Usage : Authorization: Bearer <clé> ; ajouter X-Flyc-Tenant: <slug> pour agir sur un tenant." +:+ newline
   +:+ "Supprimez ce fichier après l'avoir rangé." +:+ newline)%string.

Definition ensurePlatformKey : M B unit :=
  n ← at_pg (QueryRow (fun d => Some (length (base.filter (fun k => ak_tenant k = None) (api_keys (accounts_ d))))));
  if (0 <? n)%nat then mret tt else
  k ← NewKey;
  announce platform_path (platform_content k) ("écriture de la clé API initiale dans " +:+ platform_path)%string
    (insert_key gen None "initial-platform" (HashKey k)).

Definition Run (now : Z) (masterKeyB64 : string) : M B Result :=
  k ← lift_err (Parse masterKeyB64);
  res ← ensureSigningKey now k;
  ensureAdmin ≫= fun _ => ensurePlatformKey ≫= fun _ => mret res.

End Bootstrap.

(** ** The routes of the signing key *)

(** The state is the key the API serves. *)
Section Signing.
Context {HC : Crypto} {HO : Collation} {SK PK : Type}.
Context (generate : string -> goerr + SK) (marshal_ec marshal_pkix : SK -> goerr + string).
Context (pem_encode : string -> string -> string) (pem_decode : string -> option string).
Context (parse_pkix : string -> goerr + option PK) (coords : PK -> Z * Z) (month : Z -> string).
(** The master key, and the token of the internal calls. *)
Context (key internal_token : string).

Abbreviation S := (cworld Result).
Abbreviation handlerS := (@handler Result).
Abbreviation JWK := (JWK pem_decode parse_pkix coords).

Definition SetSigning (res : Result) : M S unit := fun w =>
  (inr tt, MkCw (cw_pg w) (cw_rand w) (cw_kick w) (cw_triggers w) res).

Definition q_accepted (d : cdb) : list key_row :=
  merge_sort key_order (base.filter (fun k => key_current (clock d) k = true) (signing_keys d)).

(** The rows that do not scan and the keys that do not parse are skipped. *)
Definition jwk_list (rows : list key_row) : list json :=
  omap (fun k => match JWK (k_kid k) (k_public k) with inr j => Some j | inl _ => None end) rows.

Definition jwks (r : http_request) : @HM Result resp :=
  rows ← tried (at_pg (Query q_accepted));
  mret (JSON 200 (JObj [("keys"%string, JArr (match rows with inr x => jwk_list (scanned x.1) | inl _ => [] end))])).

Definition passPEM (r : http_request) : @HM Result resp := fun w =>
  let s := cw_rest w in
  (inr (MkResp 200 [("Content-Type", "application/x-pem-file"); ("X-Flyc-Kid", KID s)]%string [] (BText (PublicPEM s))), w).

Definition signingKey (r : http_request) : @HM Result resp := fun w =>
  (require (String.eqb (head "Authorization" r) ("Bearer " +:+ internal_token))
     (Error 401 "unauthorized" "jeton interne invalide") ≫= fun _ =>
   let s := cw_rest w in
   mret (JSON 200 (JObj [("kid", JStr (KID s)); ("private_pem", JStr (PrivatePEM s)); ("public_pem", JStr (PublicPEM s))]%string))) w.

Definition rotateSigningKey : handlerS := fun r p =>
  res ← attempt (fun e => Error 500 "rotate" (error_text e))
          (RotateSigningKey generate marshal_ec marshal_pkix pem_encode pem_decode parse_pkix coords month (q_now r) key);
  audit p "keys.rotate" (JObj [("kid"%string, JStr (KID res))]) ≫= fun _ =>
  quietly_ (SetSigning res) ≫= fun _ => quietly_ Kick ≫= fun _ =>
  mret (JSON 200 (JObj [("kid", JStr (KID res)); ("status", JStr "rotated")]%string)).

End Signing.

(** ** Lemmas *)

Ltac draw_inv := match goal with H : draw _ = (inr _, _) |- _ => unfold draw in H; injection H as <- <- end.

Section Rotation.
Context {HC : Crypto} {HO : Collation} {SK PK : Type}.
Context (generate : string -> goerr + SK) (marshal_ec marshal_pkix : SK -> goerr + string).
Context (pem_encode : string -> string -> string) (pem_decode : string -> option string).
Context (parse_pkix : string -> goerr + option PK) (coords : PK -> Z * Z) (month : Z -> string).
Context {X : Type}.

Abbreviation build := (build pem_decode parse_pkix coords).
Abbreviation RotateSigningKey :=
  (@RotateSigningKey HC SK PK generate marshal_ec marshal_pkix pem_encode pem_decode parse_pkix coords month X).

(** Both packages open the same texts. *)
Lemma decrypt_Open k data : decrypt k data = Open k data.
Proof. done. Qed.

Lemma build_fields kid priv pub res : build kid priv pub = inr res ->
  KID res = kid /\ PrivatePEM res = priv /\ PublicPEM res = pub.
Proof. unfold Bootstrap.build. destruct (public_of _ _ _); [done|]. by intros [= <-]. Qed.

(** The tables after a rotation. *)
Definition rotated (new : key_row) (d : cdb) : cdb := set_signing_keys (signing_keys (retire_keys d) ++ [new]) d.

Lemma RotateSigningKey_inv now k (w : cworld X) res w' : quiet_w w -> RotateSigningKey now k w = (inr res, w') ->
  exists new, db w' = rotated new (db w) /\ quiet_w w' /\ k_active new = true /\ k_created new = clock (db w) /\
    k_kid new = KID res /\ k_public new = PublicPEM res /\ (KID res ∉ k_kid <$> signing_keys (db w)) /\
    k_private new = (nth 2 (cw_rand w) EmptyString +:+ gcm_seal k (nth 2 (cw_rand w) EmptyString) (PrivatePEM res))%string /\
    NewCipher k = inr tt.
Proof.
  intros Hq Hs. unfold Bootstrap.RotateSigningKey in Hs. M_inv.
  draw_inv. unfold new_kid, randHex in Hm1. M_inv.
  draw_inv. unfold encrypt in Hm2. destruct (NewCipher k) as [e|[]] eqn:Hc; [done|]. M_inv.
  draw_inv. cbn [cw_rand cw_pg] in *.
  unfold at_pg, zoom in Hm3. cbn [cw_pg] in Hm3. erewrite in_tx_quiet in Hm3; [|done|].
  2: { unfold mbind, M_bind. rewrite Exec__quiet by done. unfold Exec, turn, quiet. cbn [sched tables].
       by destruct (insert_signing _ _ _ _) as [e|[[] d]]. }
  unfold mbind, M_bind in Hm3. rewrite Exec__quiet in Hm3 by done. unfold Exec, turn in Hm3. cbn [sched tables] in Hm3.
  unfold insert_signing in Hm3. destruct (existsb _ _) eqn:Hx; [done|]. injection Hm3 as _ <-.
  apply build_fields in H as (-> & -> & ->). eexists. split; [reflexivity|].
  split_and!; try done; [|cbn; by destruct (cw_rand w) as [|? [|? [|? l]]]].
  intros (x & Hx1 & Hx2)%list_elem_of_fmap. apply not_true_iff_false in Hx. apply Hx, existsb_exists.
  cbn [retire_keys signing_keys set_signing_keys].
  exists (if k_active x then MkKey (k_kid x) (k_public x) false (k_created x) (Some (clock (tables (cw_pg w)))) (k_private x) else x).
  split; [apply in_map_iff; eexists; split; [reflexivity|by apply list_elem_of_In]|]. rewrite Hx1. apply String.eqb_eq. by destruct (k_active x).
Qed.

Lemma retired_row new d x : x ∈ signing_keys d -> k_active x = true ->
  MkKey (k_kid x) (k_public x) false (k_created x) (Some (clock d)) (k_private x) ∈ signing_keys (rotated new d).
Proof.
  intros Hx Ha. cbn [rotated retire_keys signing_keys set_signing_keys]. apply elem_of_app. left.
  apply list_elem_of_In, in_map_iff. exists x. by rewrite Ha, list_elem_of_In in *.
Qed.

(** A key that was active is accepted for a day. *)
Lemma retired_accepted new d d2 x : x ∈ signing_keys d -> k_active x = true ->
  signing_keys d2 = signing_keys (rotated new d) -> clock d2 < clock d + day -> k_public x ∈ q_pems d2.
Proof.
  intros Hx Ha He Hc. unfold q_pems. apply list_elem_of_omap.
  exists (MkKey (k_kid x) (k_public x) false (k_created x) (Some (clock d)) (k_private x)).
  split; [by rewrite He; apply retired_row|]. cbn [k_active k_retired k_public orb].
  unfold day in Hc. by rewrite (proj2 (Z.ltb_lt _ _)) by lia.
Qed.

Lemma active_rotated new d : k_active new = true ->
  base.filter (fun x => k_active x = true) (signing_keys (rotated new d)) = [new].
Proof.
  intros Ha. cbn [rotated retire_keys signing_keys set_signing_keys]. rewrite filter_app, list_filter_none.
  - cbn [app]. rewrite filter_cons, decide_True by done. done.
  - intros x (y & -> & _)%list_elem_of_fmap. destruct (k_active y) eqn:Hy; [done|]. by rewrite Hy.
Qed.

End Rotation.

#[global] Instance key_order_total : Total key_order.
Proof.
  intros x y. unfold key_order. destruct (k_active x), (k_active y); auto; destruct (Z.le_ge_cases (k_created x) (k_created y)); auto.
Qed.

#[global] Instance key_order_trans : Transitive key_order.
Proof.
  intros x y z. unfold key_order. intros [[? ?]|[? ?]] [[? ?]|[? ?]]; [congruence|left; split; congruence|left; split; congruence|].
  right. split; [congruence|lia].
Qed.

(** The first two keys of a list, when one is active and, of the others, one
    has been created last. *)
Lemma first_keys l new old : new ∈ l -> old ∈ l -> k_active new = true -> k_active old = false ->
  (forall x, x ∈ l -> k_active x = true -> x = new) ->
  (forall x, x ∈ l -> k_active x = false -> x <> old -> k_created x < k_created old) ->
  NoDup l -> take 2 (merge_sort key_order l) = [new; old].
Proof.
  intros Hn Ho Han Hao Hna Hold Hnd.
  pose proof (StronglySorted_merge_sort key_order l) as Hs. pose proof (merge_sort_Permutation key_order l) as Hp.
  rewrite <- Hp in Hnd. rewrite <- Hp in Hn, Ho. destruct (merge_sort key_order l) as [|a l1]; [by apply not_elem_of_nil in Hn|].
  assert (Hin : forall x, x ∈ a :: l1 -> x ∈ l) by (intros x; by rewrite Hp).
  apply StronglySorted_inv in Hs as [Hs Ha]. rewrite Forall_forall in Ha.
  assert (a = new) as ->.
  { apply elem_of_cons in Hn as [->|Hn]; [done|]. apply Hna; [apply Hin; by left|].
    destruct (Ha _ Hn) as [[H _]|[H _]]; [done|]. by rewrite H. }
  assert (Hne : old <> new) by congruence. apply elem_of_cons in Ho as [Ho|Ho]; [done|].
  destruct l1 as [|b l2]; [by apply not_elem_of_nil in Ho|]. simpl. do 2 f_equal.
  apply elem_of_cons in Ho as [->|Ho]; [done|]. exfalso.
  assert (Hb : b <> old) by (intros ->; apply NoDup_cons in Hnd as [_ Hnd]; by apply NoDup_cons in Hnd as [? _]).
  apply StronglySorted_inv in Hs as [_ Hb2]. rewrite Forall_forall in Hb2.
  assert (Hba : k_active b = false).
  { apply not_true_iff_false. intros Hba. apply NoDup_cons in Hnd as [Hnd _]. apply Hnd.
    rewrite <- (Hna b); [by left|apply Hin; right; by left|done]. }
  assert (Hlt : k_created b < k_created old) by (apply Hold; [apply Hin; right; by left|done|done]).
  destruct (Hb2 _ Ho) as [[H _]|[_ H]]; [congruence|lia].
Qed.

(** ** The rotation, for the load balancers and for those who check passes *)

Section Rotated.
Context {HC : Crypto} {HO : Collation} {SK PK : Type} {St Q : Type}.
Context (generate : string -> goerr + SK) (marshal_ec marshal_pkix : SK -> goerr + string).
Context (pem_encode : string -> string -> string) (pem_decode : string -> option string).
Context (parse_pkix : string -> goerr + option PK) (coords : PK -> Z * Z) (month : Z -> string).
Context (ecdsa_verify : PK -> string -> Z -> Z -> bool) (unmarshal_payload : string -> goerr + Payload).

Abbreviation W := (cworld (@rest St Q)).
Abbreviation RotateSigningKey :=
  (@RotateSigningKey HC SK PK generate marshal_ec marshal_pkix pem_encode pem_decode parse_pkix coords month (@rest St Q)).
Abbreviation check := (Verify pem_decode parse_pkix sha256 ecdsa_verify unmarshal_payload).

(** When one key signs the passes, a rotation retires it and makes
    the new one the only active key; the key stored is the one returned, and the
    master key opens it.  For a day, and until the next rotation, the load
    balancers are given both keys, the new one first. *)
Theorem rotation_state now b64 k (w w1 : W) res old d2 :
  (forall k n p, String.length n = NonceSize -> gcm_open k n (gcm_seal k n p) = inr p) ->
  Parse b64 = inr k -> String.length (nth 2 (cw_rand w) EmptyString) = NonceSize ->
  quiet_w w -> RotateSigningKey now k w = (inr res, w1) ->
  NoDup (k_kid <$> signing_keys (db w)) -> old ∈ signing_keys (db w) -> k_active old = true ->
  (forall x, x ∈ signing_keys (db w) -> x <> old -> k_active x = false /\ k_created x < k_created old) ->
  PublicPEM res <> EmptyString -> k_public old <> EmptyString ->
  signing_keys d2 = signing_keys (db w1) -> clock d2 < clock (db w) + day ->
  (exists new, base.filter (fun x => k_active x = true) (signing_keys (db w1)) = [new] /\
     k_kid new = KID res /\ k_public new = PublicPEM res /\ Open k (k_private new) = inr (PrivatePEM res)) /\
  pass_keys (q_keys d2) = (PublicPEM res, k_public old).
Proof.
  intros Hgcm Hk Hlen Hq Hs Hnd Ho Hoa Hold Hp1 Hp2 Hd2 Hc.
  apply RotateSigningKey_inv in Hs as (new & Hdb & _ & Hna & Hnc & Hkid & Hpub & Hnew & Hpriv & Hciph); [|done].
  rewrite Hdb in *. split.
  - exists new. split_and!; [by apply active_rotated|done|done|]. rewrite Hpriv.
    destruct (Open_Seal b64 k _ (PrivatePEM res) Hgcm Hk Hlen) as (enc & He & Hopen & _).
    unfold Seal in He. rewrite Hciph in He. by injection He as <-.
  - set (old' := MkKey (k_kid old) (k_public old) false (k_created old) (Some (clock (db w))) (k_private old)).
    assert (Hin : old' ∈ signing_keys d2) by (rewrite Hd2; by apply retired_row).
    assert (Hcur : key_current (clock d2) old' = true) by (cbn; by apply Z.ltb_lt; lia).
    assert (Hrow : forall x, x ∈ signing_keys d2 -> x = new \/ x = old' \/ k_active x = false /\ k_created x < k_created old).
    { intros x. rewrite Hd2. cbn [rotated retire_keys signing_keys set_signing_keys].
      intros [(y & -> & Hy)%list_elem_of_fmap|Hx%list_elem_of_singleton]%elem_of_app; [right|by left].
      destruct (k_active y) eqn:Hya.
      - left. destruct (decide (k_kid y = k_kid old)) as [He|He].
        + assert (y = old) as ->; [|done].
          pose proof (proj2 (by_id_NoDup k_kid (k_kid old) _ y Hnd) (conj Hy He)) as E1.
          pose proof (proj2 (by_id_NoDup k_kid (k_kid old) _ old Hnd) (conj Ho eq_refl)) as E2. congruence.
        + destruct (Hold y Hy) as [H _]; congruence.
      - right. apply Hold; [done|]. intros ->. congruence. }
    unfold q_keys. rewrite (first_keys _ new old').
    + unfold pass_keys. cbn [foldl]. unfold pick_key. rewrite Hna.
      cbn [andb]. rewrite bool_decide_true by done. unfold old'. cbn [k_active k_public andb negb].
      rewrite bool_decide_true by done. by rewrite bool_decide_false, Hpub.
    + apply list_elem_of_filter. split; [unfold key_current; by rewrite Hna|].
      rewrite Hd2. cbn. apply elem_of_app. right. by left.
    + by apply list_elem_of_filter.
    + done.
    + done.
    + intros x [_ Hx]%list_elem_of_filter Hxa. destruct (Hrow x Hx) as [->|[->|[? _]]]; congruence || done.
    + intros x [_ Hx]%list_elem_of_filter Hxa Hxo. destruct (Hrow x Hx) as [->|[->|[_ ?]]]; congruence || done.
    + apply NoDup_filter. rewrite Hd2. apply (NoDup_fmap_1 k_kid).
      cbn [rotated retire_keys signing_keys set_signing_keys]. apply NoDup_snoc_key; [|].
      * apply NoDup_map_keep; [|done]. intros x. by destruct (k_active x).
      * rewrite Hkid. change (map ?f ?l) with (f <$> l). rewrite <- list_fmap_compose.
        intros (x & Hx & Hin')%list_elem_of_fmap. apply Hnew. rewrite Hx. apply list_elem_of_fmap. exists x.
        split; [|done]. simpl. by destruct (k_active x).
Qed.

(** The payload is read from the token: keys that verify it agree on it. *)
Lemma Verify_payload now pem pem' token host c c' : check now pem token host = inr c -> check now pem' token host = inr c' -> c = c'.
Proof.
  unfold Verify. destruct (ParsePublic _ _ pem) as [e|pub]; [done|]. destruct (ParsePublic _ _ pem') as [e|pub']; [done|].
  destruct (Split _ token) as [|p0 [|p1 [|p2 [|? ?]]]]; try done. destruct (Base64.decode RawURLEncoding p2) as [sig|]; [|done].
  destruct (negb (_ =? 64)%nat); [done|]. destruct (negb (ecdsa_verify pub _ _ _)); [done|].
  destruct (negb (ecdsa_verify pub' _ _ _)); [done|]. destruct (Base64.decode RawURLEncoding p1); [|done].
  destruct (unmarshal_payload _) as [e|pl]; [done|]. destruct (_ <=? now); [done|]. destruct (_ && _); congruence.
Qed.

Lemma verify_any_some now pems token host last pem c : pem ∈ pems -> check now pem token host = inr c ->
  verify_any pem_decode parse_pkix ecdsa_verify unmarshal_payload now pems token host last = inr c.
Proof.
  intros Hin Hc. revert last. induction pems as [|q pems IH]; intros last; [by apply not_elem_of_nil in Hin|].
  cbn [verify_any]. destruct (check now q token host) as [e|c'] eqn:Hq.
  - apply elem_of_cons in Hin as [->|Hin]; [congruence|by apply IH].
  - f_equal. by eapply Verify_payload.
Qed.

(** Claim C9: a rotation breaks no pass in circulation: a pass that an active
    key verifies is still declared valid for a day after the rotation, to the
    tenant it was made for, as long as it has not expired. *)
Theorem rotation_keeps_passes now k (w w1 : W) res old r p (w2 : W) v i c :
  quiet_w w -> RotateSigningKey now k w = (inr res, w1) ->
  old ∈ signing_keys (db w) -> k_active old = true ->
  quiet_w w2 -> signing_keys (db w2) = signing_keys (db w1) -> clock (db w2) < clock (db w) + day ->
  q_body r = inr v -> dec_pair "pass" "host" v = Some i ->
  check (q_now r) (k_public old) i.1 (ToLower i.2) = inr c ->
  existsb (is_domain (p_tenantID p) (p_Dom c)) (domains (db w2)) = true ->
  HasPrefix (p_Rm c) (p_tenant p +:+ ".")%string = true ->
  valid_answer (served (verifyPass pem_decode parse_pkix ecdsa_verify unmarshal_payload r p) w2).1 = true.
Proof.
  intros Hq Hs Ho Hoa Hq2 Hd2 Hc Hb Hi Hv Hdom Hroom.
  apply RotateSigningKey_inv in Hs as (new & Hdb & _); [|done]. rewrite Hdb in Hd2.
  unfold served, verifyPass, decode. rewrite HM_bind_eq, Hb, Hi. cbn [mret HM_ret]. h_step. cbn [fst]. rewrite scanned_inr.
  rewrite (verify_any_some _ _ _ _ _ (k_public old) c) by (by eapply retired_accepted || done).
  h_step. by rewrite Hdom, Hroom.
Qed.

End Rotated.

(** ** The first start *)

Section Start.
Context {HC : Crypto} {HO : Collation} {SK PK : Type}.
Context (generate : string -> goerr + SK) (marshal_ec marshal_pkix : SK -> goerr + string).
Context (pem_encode : string -> string -> string) (pem_decode : string -> option string).
Context (parse_pkix : string -> goerr + option PK) (coords : PK -> Z * Z) (month : Z -> string).
Context (gen : cdb -> string) (data_dir admin_path platform_path : string).

Abbreviation B := (cworld disk).
Abbreviation build := (build pem_decode parse_pkix coords).
Abbreviation ensureSigningKey :=
  (@ensureSigningKey HC SK PK generate marshal_ec marshal_pkix pem_encode pem_decode parse_pkix coords month disk).
Abbreviation ensureAdmin := (ensureAdmin gen data_dir admin_path).
Abbreviation ensurePlatformKey := (ensurePlatformKey gen platform_path).
Abbreviation Run :=
  (Run generate marshal_ec marshal_pkix pem_encode pem_decode parse_pkix coords month gen data_dir admin_path platform_path).

(** A disk that does what it is asked. *)
Definition sound_disk (w : B) : Prop := dk_faults (cw_rest w) = [].
Definition files (w : B) : gmap string string := dk_files (cw_rest w).
Definition with_files (m : gmap string string) (w : B) : B :=
  MkCw (cw_pg w) (cw_rand w) (cw_kick w) (cw_triggers w) (MkDisk m []).

Lemma write_ok path content w : sound_disk w -> at_disk (WriteFile path content) w = (inr tt, with_files (<[path:=content]> (files w)) w).
Proof. unfold sound_disk, at_disk, zoom, WriteFile, disk_op, files. by intros ->. Qed.

Lemma remove_ok path w : sound_disk w -> at_disk (Remove path) w = (inr tt, with_files (delete path (files w)) w).
Proof. unfold sound_disk, at_disk, zoom, Remove, disk_op, files. by intros ->. Qed.

Lemma mkdir_ok dir w : sound_disk w -> at_disk (MkdirAll dir) w = (inr tt, with_files (files w) w).
Proof. unfold sound_disk, at_disk, zoom, MkdirAll, disk_op, files. by intros ->. Qed.

(** The file is written first; a refused insertion takes it back. *)
Lemma announce_ok path content msg ins w : quiet_w w -> sound_disk w ->
  announce path content msg ins w =
    match ins (db w) with
    | inl e => (inl e, with_files (delete path (<[path:=content]> (files w))) w)
    | inr (_, d') => (inr tt, with_db d' (with_files (<[path:=content]> (files w)) w))
    end.
Proof.
  intros Hq Hd. unfold announce, wrapping. rewrite write_ok by done. rewrite at_pg_exec by done.
  change (db (with_files _ w)) with (db w). destruct (ins (db w)) as [e|[[] d']]; [|done]. by rewrite remove_ok.
Qed.

Lemma announce_inv path content msg ins w w' : quiet_w w -> sound_disk w -> announce path content msg ins w = (inr tt, w') ->
  exists d', ins (db w) = inr (tt, d') /\ w' = with_db d' (with_files (<[path:=content]> (files w)) w).
Proof.
  intros Hq Hd. rewrite announce_ok by done. destruct (ins (db w)) as [e|[[] d']]; [done|].
  intros [= <-]. by exists d'.
Qed.

Definition no_users (d : cdb) : bool := bool_decide (users (accounts_ d) = []).
Definition platform_keys (d : cdb) : list apikey_row := base.filter (fun k => ak_tenant k = None) (api_keys (accounts_ d)).

Lemma ensureAdmin_inv w w' : quiet_w w -> sound_disk w -> ensureAdmin w = (inr tt, w') ->
  (users (accounts_ (db w)) <> [] /\ w' = w) \/
  (users (accounts_ (db w)) = [] /\
   exists b0 salt d', let pw := hex_encode b0 in
   insert_admin gen admin_email (HashPassword salt pw) (db w) = inr (tt, d') /\
   db w' = d' /\ quiet_w w' /\ sound_disk w' /\ files w' = <[admin_path := admin_content pw]> (files w)).
Proof.
  intros Hq Hd. unfold Bootstrap.ensureAdmin, mbind, M_bind. rewrite at_pg_query by done.
  destruct (users (accounts_ (db w))) as [|u l] eqn:Hu; cbn [length Nat.ltb Nat.leb]; [|intros [= <-]; by left].
  intros Hs. right. split; [done|]. unfold randHex, mbind, M_bind, draw in Hs. cbn [mret M_ret] in Hs.
  unfold wrapping in Hs. rewrite mkdir_ok in Hs by done.
  apply announce_inv in Hs as (d' & Hi & ->); [|done..]. eexists _, _, d'. cbv zeta.
  split_and!; [exact Hi|done..].
Qed.

Lemma ensurePlatformKey_inv w w' : quiet_w w -> sound_disk w -> ensurePlatformKey w = (inr tt, w') ->
  (platform_keys (db w) <> [] /\ w' = w) \/
  (platform_keys (db w) = [] /\
   exists b0 d', let k := ("flyc_" +:+ hex_encode b0)%string in
   insert_key gen None "initial-platform" (HashKey k) (db w) = inr (tt, d') /\
   db w' = d' /\ quiet_w w' /\ sound_disk w' /\ files w' = <[platform_path := platform_content k]> (files w)).
Proof.
  intros Hq Hd. unfold Bootstrap.ensurePlatformKey, mbind, M_bind. rewrite at_pg_query by done.
  fold (platform_keys (db w)).
  destruct (platform_keys (db w)) as [|u l] eqn:Hu; cbn [length Nat.ltb Nat.leb]; [|intros [= <-]; by left].
  intros Hs. right. split; [done|]. unfold NewKey, mbind, M_bind, draw in Hs. cbn [mret M_ret] in Hs.
  apply announce_inv in Hs as (d' & Hi & ->); [|done..]. eexists _, d'. cbv zeta.
  split_and!; [exact Hi|done..].
Qed.

Definition same_rest (w w' : B) : Prop :=
  quiet_w w' /\ sound_disk w' /\ accounts_ (db w') = accounts_ (db w) /\ files w' = files w.

Lemma ensureSigningKey_inv now b64 k w res w' :
  (forall k n p, String.length n = NonceSize -> gcm_open k n (gcm_seal k n p) = inr p) ->
  Parse b64 = inr k -> (q_signing (db w) = None -> String.length (nth 2 (cw_rand w) EmptyString) = NonceSize) ->
  quiet_w w -> sound_disk w -> ensureSigningKey now k w = (inr res, w') ->
  same_rest w w' /\
  exists row, q_signing (db w') = Some row /\ decrypt k (k_private row) = inr (PrivatePEM res) /\
    build (k_kid row) (PrivatePEM res) (k_public row) = inr res.
Proof.
  intros Hgcm Hk Hlen Hq Hd. unfold Bootstrap.ensureSigningKey. rewrite at_pg_query by done.
  destruct (q_signing (db w)) as [row|] eqn:Hrow.
  - intros [= Hs <-]. split; [by split_and!|]. exists row. split; [done|].
    destruct (decrypt k (k_private row)) as [e|priv] eqn:Hdec; [done|].
    apply (build_fields pem_decode parse_pkix coords) in Hs as Hf. destruct Hf as (_ & -> & _). done.
  - specialize (Hlen eq_refl). intros Hs. M_inv. draw_inv.
    unfold new_kid, randHex in Hm2. M_inv. draw_inv.
    unfold encrypt in Hm3. destruct (NewCipher k) as [e|[]] eqn:Hc; [done|]. M_inv. draw_inv. cbn [cw_rand cw_pg] in *.
    rewrite at_pg_exec in Hm4 by done. unfold insert_signing in Hm4. destruct (existsb _ _) eqn:Hx; [done|].
    injection Hm4 as _ <-. split; [by split_and!|].
    match goal with |- exists row, q_signing (db (set_cw_pg (MkPg (set_signing_keys (?l ++ [?new]) _) []) _)) = _ /\ _ => exists new end.
    unfold db, q_signing. cbn [tables cw_pg set_cw_pg signing_keys set_signing_keys]. rewrite filter_app.
    assert (Hnone : base.filter (fun k => k_active k = true) (signing_keys (db w)) = []).
    { unfold q_signing in Hrow.
      pose proof (merge_sort_Permutation newest_first (base.filter (fun k => k_active k = true) (signing_keys (db w)))) as Hp.
      destruct (merge_sort _ _); [by apply Permutation_nil_l in Hp|done]. }
    unfold db in Hnone. rewrite Hnone. split; [done|]. cbn [k_private k_kid k_public].
    match goal with H : build _ _ _ = inr res |- _ => pose proof (build_fields pem_decode parse_pkix coords _ _ _ _ H) as (_ & Hp & _) end.
    rewrite Hp. split; [|done]. rewrite decrypt_Open.
    assert (Hn : String.length (default EmptyString (List.hd_error (tail (tail (cw_rand w))))) = NonceSize)
      by (by destruct (cw_rand w) as [|? [|? [|? ?]]]).
    match goal with |- Open k (?n +:+ gcm_seal k ?n ?x) = _ => destruct (Open_Seal b64 k n x Hgcm Hk Hn) as (enc & He & Ho & _) end.
    unfold Seal in He. rewrite Hc in He. by injection He as <-.
Qed.

Lemma ensureSigningKey_again now k w row res :
  quiet_w w -> q_signing (db w) = Some row -> decrypt k (k_private row) = inr (PrivatePEM res) ->
  build (k_kid row) (PrivatePEM res) (k_public row) = inr res -> ensureSigningKey now k w = (inr res, w).
Proof. intros Hq Hr Hd Hb. unfold Bootstrap.ensureSigningKey. rewrite at_pg_query, Hr, Hd, Hb by done. done. Qed.

(** Starting again, once everything is there. *)
Lemma ensureAdmin_again w : quiet_w w -> users (accounts_ (db w)) <> [] -> ensureAdmin w = (inr tt, w).
Proof.
  intros Hq Hu. unfold Bootstrap.ensureAdmin, mbind, M_bind. rewrite at_pg_query by done.
  by destruct (users (accounts_ (db w))).
Qed.

Lemma ensurePlatformKey_again w : quiet_w w -> platform_keys (db w) <> [] -> ensurePlatformKey w = (inr tt, w).
Proof.
  intros Hq Hu. unfold Bootstrap.ensurePlatformKey, mbind, M_bind. rewrite at_pg_query by done.
  fold (platform_keys (db w)). by destruct (platform_keys (db w)).
Qed.

Lemma Run_inv now b64 w res w' : Run now b64 w = (inr res, w') ->
  exists k w1 w2, Parse b64 = inr k /\ ensureSigningKey now k w = (inr res, w1) /\ ensureAdmin w1 = (inr tt, w2) /\
    ensurePlatformKey w2 = (inr tt, w').
Proof.
  intros Hs. unfold Bootstrap.Run in Hs. M_inv. repeat match goal with x : () |- _ => destruct x end. eauto 10.
Qed.

Lemma q_signing_keys d d' : signing_keys d' = signing_keys d -> q_signing d' = q_signing d.
Proof. intros H. unfold q_signing. by rewrite H. Qed.

Lemma insert_admin_inv email hash d d' : insert_admin gen email hash d = inr (tt, d') ->
  signing_keys d' = signing_keys d /\ api_keys (accounts_ d') = api_keys (accounts_ d) /\
  users (accounts_ d') = users (accounts_ d) ++
    [MkUser (gen d) email (Some hash) None None false true false EmptyString (clock d) None].
Proof. unfold insert_admin. destruct (email_taken _ _); [done|]. by intros [= <-]. Qed.

Lemma insert_key_inv tn name hash d d' : insert_key gen tn name hash d = inr (tt, d') ->
  signing_keys d' = signing_keys d /\ users (accounts_ d') = users (accounts_ d) /\
  (hash ∉ ak_hash <$> api_keys (accounts_ d)) /\
  api_keys (accounts_ d') = api_keys (accounts_ d) ++ [MkApiKey (gen d) tn name hash (clock d) None].
Proof.
  unfold insert_key. destruct (existsb _ _) eqn:Hx; [done|]. intros [= <-]. split_and!; try done.
  intros (x & Hh & Hin)%list_elem_of_fmap. apply not_true_iff_false in Hx. apply Hx, existsb_exists.
  exists x. split; [by apply list_elem_of_In|]. rewrite Hh. apply String.eqb_refl.
Qed.

(** [Run] is idempotent: after a start that succeeded, starting again
    gives the same signing key and changes neither the database nor the disk. *)
Theorem Run_idempotent now b64 w res w' now' :
  (forall k n p, String.length n = NonceSize -> gcm_open k n (gcm_seal k n p) = inr p) ->
  (q_signing (db w) = None -> String.length (nth 2 (cw_rand w) EmptyString) = NonceSize) ->
  quiet_w w -> sound_disk w -> Run now b64 w = (inr res, w') -> Run now' b64 w' = (inr res, w').
Proof.
  intros Hgcm Hlen Hq Hd Hs. apply Run_inv in Hs as (k & w1 & w2 & Hk & H1 & H2 & H3).
  apply (ensureSigningKey_inv now b64) in H1 as ((Hq1 & Hd1 & Ha1 & _) & row & Hrow & Hdec & Hb); [|done..].
  assert (H2' : quiet_w w2 /\ sound_disk w2 /\ signing_keys (db w2) = signing_keys (db w1) /\ users (accounts_ (db w2)) <> []).
  { apply ensureAdmin_inv in H2 as [[Hu ->]|(Hu & b0 & salt & d' & Hi & Hdb & Hq2 & Hd2 & _)]; [done| |done..].
    apply insert_admin_inv in Hi as (E1 & _ & E2). rewrite Hdb, E1, E2. split_and!; [done..|]. by destruct (users _). }
  destruct H2' as (Hq2 & Hd2 & Hk2 & Hu2).
  assert (H3' : quiet_w w' /\ signing_keys (db w') = signing_keys (db w1) /\ users (accounts_ (db w')) <> [] /\ platform_keys (db w') <> []).
  { apply ensurePlatformKey_inv in H3 as [[Hp ->]|(Hp & b0 & d' & Hi & Hdb & Hq3 & Hd3 & _)]; [done| |done..].
    apply insert_key_inv in Hi as (E1 & E2 & _ & E3). rewrite Hdb, E1, E2. split_and!; [done..|].
    unfold platform_keys. rewrite E3, filter_app. rewrite (filter_cons _ (MkApiKey _ _ _ _ _ _)), decide_True by done.
    by destruct (base.filter _ _). }
  destruct H3' as (Hq3 & Hk3 & Hu3 & Hp3).
  unfold Bootstrap.Run, mbind, M_bind, lift_err. rewrite Hk.
  rewrite (ensureSigningKey_again _ _ _ row res) by (done || by rewrite (q_signing_keys (db w1))).
  by rewrite ensureAdmin_again, ensurePlatformKey_again by done.
Qed.

(** Claim C33: the first start gives the platform to whoever reads its two
    files: the base then has one account, an administrator of the platform
    whose password is the one written on the disk and whom nothing obliges to
    change it; and the key written on the disk gives the rights of the
    platform. *)
Theorem first_start now b64 w res w' :
  (forall k n p, String.length n = NonceSize -> gcm_open k n (gcm_seal k n p) = inr p) ->
  (forall pw salt, String.length (argon2 pw salt 3 65536 2 32) = 32%nat) ->
  (q_signing (db w) = None -> String.length (nth 2 (cw_rand w) EmptyString) = NonceSize) -> admin_path <> platform_path ->
  quiet_w w -> sound_disk w -> users (accounts_ (db w)) = [] -> platform_keys (db w) = [] ->
  Run now b64 w = (inr res, w') ->
  (exists pw u, files w' !! admin_path = Some (admin_content pw) /\ users (accounts_ (db w')) = [u] /\
     u_email u = admin_email /\ u_admin u = true /\ u_must_change u = false /\
     VerifyPassword (default EmptyString (u_hash u)) pw = true) /\
  (exists k, files w' !! platform_path = Some (platform_content k) /\
     forall r, bearer_key r = Some k -> head "X-Flyc-Tenant" r = EmptyString ->
       exists p w'', authenticate r w' = (inr p, w'') /\ p_platform p = true).
Proof.
  intros Hgcm Hargon Hlen Hne Hq Hd Hu Hp Hs. apply Run_inv in Hs as (k & w1 & w2 & Hk & H1 & H2 & H3).
  apply (ensureSigningKey_inv now b64) in H1 as ((Hq1 & Hd1 & Ha1 & Hf1) & _); [|done..].
  apply ensureAdmin_inv in H2 as [[Hno _]|(_ & b0 & salt & d2 & Hi & Hdb2 & Hq2 & Hd2 & Hf2)]; [congruence| |done..].
  apply insert_admin_inv in Hi as (_ & Hak & Hus). rewrite Ha1, Hu in Hus. rewrite Ha1 in Hak.
  apply ensurePlatformKey_inv in H3 as [[Hno _]|(_ & b1 & d3 & Hi & Hdb3 & Hq3 & _ & Hf3)]; [| |done..].
  { exfalso. apply Hno. unfold platform_keys. by rewrite Hdb2, Hak. }
  apply insert_key_inv in Hi as (_ & Hus3 & Hnew & Hak3). rewrite Hdb2, Hus in Hus3. rewrite Hdb2 in Hnew, Hak3.
  split.
  - eexists (hex_encode b0), _. rewrite Hf3, lookup_insert_ne, Hf2, lookup_insert_eq, Hdb3, Hus3 by done.
    split_and!; try done. cbn [u_hash from_option id]. rewrite VerifyPassword_made by done. by apply bool_decide_eq_true.
  - eexists. rewrite Hf3, lookup_insert_eq. split; [done|]. intros r Hb Ht. unfold authenticate. rewrite Hb.
    rewrite at_pg_query by done. unfold q_key. rewrite Hdb3, Hak3, by_id_app.
    rewrite (proj2 (by_id_None ak_hash _ _) Hnew). rewrite by_id_cons, decide_True by done. cbn [mbind option_bind ak_tenant].
    rewrite Ht, bool_decide_true by done. by eexists _, _.
Qed.

(** When the insertion of the first administrator is executed but its
    answer lost, the start fails and takes the password back from the disk; the
    account is there all the same, and no later start gives it a password. *)
Theorem ensureAdmin_lost e w :
  sched (cw_pg w) = [(id, Served); (id, Lost e)] -> sound_disk w -> users (accounts_ (db w)) = [] ->
  exists w', ensureAdmin w = (inl e, w') /\ files w' !! admin_path = None /\
    (exists u, users (accounts_ (db w')) = [u] /\ u_email u = admin_email /\ u_admin u = true) /\
    forall w2, quiet_w w2 -> accounts_ (db w2) = accounts_ (db w') -> ensureAdmin w2 = (inr tt, w2).
Proof.
  intros Hs Hd Hu. destruct w as [[d l] rd kk tr x]. cbn [cw_pg sched] in Hs. subst l. unfold sound_disk in Hd. cbn [cw_rest] in Hd.
  unfold db in Hu. cbn [cw_pg tables] in Hu.
  assert (Hnt : email_taken admin_email d = false) by (unfold email_taken; by rewrite Hu).
  unfold Bootstrap.ensureAdmin, mbind, M_bind, at_pg at 1, zoom, QueryRow, turn. cbn [cw_pg sched tables id]. rewrite Hu.
  cbn [length Nat.ltb Nat.leb]. unfold randHex, mbind, M_bind, draw. cbn [mret M_ret cw_rand cw_pg cw_kick cw_triggers cw_rest set_cw_pg].
  unfold wrapping at 1. rewrite mkdir_ok by done. unfold announce, wrapping. rewrite write_ok by done.
  unfold at_pg, zoom, Exec, turn. cbn [with_files cw_pg sched tables id files cw_rest dk_files].
  unfold insert_admin. rewrite Hnt. cbn [set_cw_pg]. rewrite remove_ok by done.
  eexists. split; [reflexivity|]. cbn [snd]. split_and!.
  - unfold files. cbn [with_files cw_rest dk_files]. by rewrite lookup_delete_eq.
  - eexists. unfold db. cbn [with_files cw_pg tables with_users set_accounts accounts_ users]. by rewrite Hu.
  - intros w2 Hq2 Ha2. apply ensureAdmin_again; [done|]. rewrite Ha2. unfold db.
    cbn [with_files cw_pg tables with_users set_accounts accounts_ users]. by rewrite Hu.
Qed.

End Start.

(** ** Examples *)

Import AccessDemo.

Lemma toy_opens k n p : String.length n = NonceSize -> gcm_open k n (gcm_seal k n p) = inr p.
Proof. intros _. unfold gcm_open, gcm_seal. cbn [toy]. by rewrite cut_prefix_app. Qed.

Lemma length_substring n s : (n <= String.length s)%nat -> String.length (String.substring 0 n s) = n.
Proof.
  revert n. induction s as [|a s IH]; intros [|n] Hn; simpl in *; try done; [lia|]. f_equal. apply IH. lia.
Qed.

Lemma toy_argon2 pw salt : String.length (argon2 pw salt 3 65536 2 32) = 32%nat.
Proof. cbn [argon2 toy]. apply length_substring. rewrite !length_sapp. change (Z.to_nat 32) with 32%nat. simpl. lia. Qed.

(** Keys that are their own encodings. *)
Section Toy.
Context {X : Type}.
Definition toy_rotate : Z -> string -> M (cworld X) Result :=
  RotateSigningKey (SK := string) (PK := string) inr inr inr (fun _ s => s) Some (fun s => inr (Some s)) (fun _ => (1, 2))
    (fun _ => "2024-01"%string).
End Toy.
Definition toy_Run : Z -> string -> M (cworld disk) Result :=
  Run (SK := string) (PK := string) inr inr inr (fun _ s => s) Some (fun s => inr (Some s)) (fun _ => (1, 2))
    (fun _ => "2024-01"%string) (fun _ => "0c7a"%string) "/data" "/data/admin.txt" "/data/key.txt".

Definition toy_master : string := encode StdEncoding master.
Definition before_rotation : cworld (@rest unit unit) :=
  MkCw (cw_pg site_world) ["NEW"; "ab"; "123456789abc"]%string false 0 (cw_rest site_world).
Definition after_rotation : cworld (@rest unit unit) := (toy_rotate 1000 master before_rotation).2.
Definition new_result : Result :=
  MkResult "2024-01-6162" "NEW" "NEW" (JObj [("keys"%string, JArr [jwk_of (fun _ : string => (1, 2)) "2024-01-6162" "NEW"%string])]).
Definition signing_key : key_row := MkKey "k2" "PUB2" true 900 None "SEC2".

Lemma after_rotation_eq : toy_rotate 1000 master before_rotation = (inr new_result, after_rotation).
Proof. vm_compute. reflexivity. Defined.

Lemma rotation_state_witness :
  (exists new, base.filter (fun x => k_active x = true) (signing_keys (db after_rotation)) = [new] /\
     k_kid new = "2024-01-6162"%string /\ k_public new = "NEW"%string /\ Open master (k_private new) = inr "NEW"%string) /\
  pass_keys (q_keys (db after_rotation)) = ("NEW", "PUB2")%string.
Proof.
  apply (rotation_state (SK := string) (PK := string) inr inr inr (fun _ s => s) Some (fun s => inr (Some s)) (fun _ => (1, 2))
    (fun _ => "2024-01"%string) 1000 toy_master master before_rotation after_rotation new_result signing_key (db after_rotation)
    toy_opens); try (vm_compute; reflexivity); try discriminate.
  - apply (bool_decide_unpack _). vm_compute. exact I.
  - by left.
  - intros x [->|[->|Hx%not_elem_of_nil]%elem_of_cons]%elem_of_cons Hne; done.
Defined.

Lemma rotation_keeps_passes_witness :
  valid_answer (served (toy_check (pass_request "Shop.example") (tenant_of "t1" "acme")) after_rotation).1 = true.
Proof.
  eapply (rotation_keeps_passes (SK := string) (PK := string) inr inr inr (fun _ s => s) Some (fun s => inr (Some s)) (fun _ => (1, 2))
    (fun _ => "2024-01"%string) (fun _ _ _ _ => true) (fun _ => inr any_payload)
    1000 master before_rotation after_rotation new_result signing_key (pass_request "Shop.example") (tenant_of "t1" "acme")
    after_rotation _ (signed, "Shop.example"%string) any_payload); try (vm_compute; reflexivity).
  by left.
Defined.

Definition blank : cworld disk :=
  MkCw (MkPg (set_signing_keys [] (set_accounts no_accounts demo_db)) []) ["NEW"; "ab"; "123456789abc"; "pass"; "salt"; "key"]%string
    false 0 (MkDisk ∅ []).
Definition started : cworld disk := (toy_Run 1000 toy_master blank).2.

Lemma started_eq : toy_Run 1000 toy_master blank = (inr new_result, started).
Proof. vm_compute. reflexivity. Defined.

Lemma Run_idempotent_witness : toy_Run 2000 toy_master started = (inr new_result, started).
Proof.
  eapply (Run_idempotent (SK := string) (PK := string) inr inr inr (fun _ s => s) Some (fun s => inr (Some s)) (fun _ => (1, 2))
    (fun _ => "2024-01"%string) (fun _ => "0c7a"%string) "/data" "/data/admin.txt" "/data/key.txt" 1000 toy_master blank new_result
    started 2000 toy_opens); try (vm_compute; reflexivity).
Defined.

Lemma first_start_witness :
  (exists pw u, files started !! "/data/admin.txt"%string = Some (admin_content pw) /\ users (accounts_ (db started)) = [u] /\
     u_email u = admin_email /\ u_admin u = true /\ u_must_change u = false /\
     VerifyPassword (default EmptyString (u_hash u)) pw = true) /\
  (exists k, files started !! "/data/key.txt"%string = Some (platform_content k) /\
     forall r, bearer_key r = Some k -> head "X-Flyc-Tenant" r = EmptyString ->
       exists p w'', authenticate r started = (inr p, w'') /\ p_platform p = true).
Proof.
  eapply (first_start (SK := string) (PK := string) inr inr inr (fun _ s => s) Some (fun s => inr (Some s)) (fun _ => (1, 2))
    (fun _ => "2024-01"%string) (fun _ => "0c7a"%string) "/data" "/data/admin.txt" "/data/key.txt" 1000 toy_master blank new_result
    started toy_opens toy_argon2); try (vm_compute; reflexivity); try done.
Defined.

(** The same base, whose second statement is executed without an answer. *)
Definition cut_off : cworld disk :=
  MkCw (MkPg (db blank) [(id, Served); (id, Lost (Err "conn closed"))]) ["pass"; "salt"]%string false 0 (MkDisk ∅ []).

Lemma ensureAdmin_lost_witness :
  exists w', ensureAdmin (fun _ => "0c7a"%string) "/data" "/data/admin.txt" cut_off = (inl (Err "conn closed"), w') /\
    files w' !! "/data/admin.txt"%string = None /\
    (exists u, users (accounts_ (db w')) = [u] /\ u_email u = admin_email /\ u_admin u = true) /\
    forall w2, quiet_w w2 -> accounts_ (db w2) = accounts_ (db w') ->
      ensureAdmin (fun _ => "0c7a"%string) "/data" "/data/admin.txt" w2 = (inr tt, w2).
Proof.
  apply (ensureAdmin_lost (fun _ => "0c7a"%string) "/data" "/data/admin.txt" (Err "conn closed") cut_off); reflexivity.
Defined.
