(* ===== verification/Nodes.v ===== *)
(** * The inventory's routes: nodes, settings and the generated file

    [control/internal/api/inventory.go].  The inventory is the tables [nodes]
    and [platform_settings]; these routes are the only way to change them from
    the interface.  What is proved: the inventory they leave can be generated
    as far as its data host goes, as long as the query that counts the data
    hosts is answered; what a creation over an existing name does; what the
    settings keep. *)
From Stdlib Require Import Ascii.
From S2P Require Import Prelude GoStr F64 Json Httpx Dataplane Net Pg Inventory Access Tenant Ownership Reads.

Local Open Scope list_scope.
Local Open Scope Z_scope.

(** ** A node is valid *)

Definition porte (roles : list string) (role : string) : bool := existsb (String.eqb role) roles.

(** [^[a-z0-9][a-z0-9._-]{0,62}$]. *)
Definition node_head (a : ascii) : bool := is_lower a || is_digit a.
Definition node_tail (a : ascii) : bool :=
  node_head a || Ascii.eqb a "."%char || Ascii.eqb a "_"%char || Ascii.eqb a "-"%char.
Definition nomNode (s : string) : bool :=
  match s with
  | String a t => node_head a && string_forall node_tail t && (String.length t <=? 62)%nat
  | EmptyString => false
  end.

(** The loop on the roles; [vus] are those seen. *)
Fixpoint roles_fault (vus roles : list string) : option string :=
  match roles with
  | [] => None
  | role :: roles =>
      if negb (porte roles_allowed role) then Some "rôle inconnu : edge, queue ou data"%string
      else if porte vus role then Some ("rôle en double : " +:+ role)%string
      else roles_fault (role :: vus) roles
  end.

Definition ipv6_fault (ip6 : string) : bool :=
  match ParseIP ip6 with Some ip => bool_decide (is_Some (To4 ip)) | None => true end.

(** What is wrong with a node, if anything. *)
Definition valideNode (n : Node) : option string :=
  if negb (nomNode (Name n)) then Some "nom invalide : minuscules, chiffres, point, tiret et souligné"%string
  else if bool_decide (Roles n = []) then Some "au moins un rôle est requis : edge, queue ou data"%string
  else match roles_fault [] (Roles n) with
       | Some msg => Some msg
       | None =>
           if bool_decide (ParseIP (MgmtIP n) = None) then Some "mgmt_ip n'est pas une adresse IP"%string
           else if negb (bool_decide (MgmtIP6 n = EmptyString)) && ipv6_fault (MgmtIP6 n)
           then Some "mgmt_ip6 n'est pas une adresse IPv6"%string
           else None
       end.

(** ** JSON *)

Section Values.
(** [time.Parse] at [RFC3339] and how [encoding/json] shows a time. *)
Context (rfc3339 : string -> option Z) (show_time : Z -> string).

Definition dec_time (v : json) : option Z := match v with JStr s => rfc3339 s | _ => None end.

Definition dec_node : json -> option Node := dec_obj (fun l =>
  n ← dec_string (Dataplane.field "name" l); ro ← dec_list dec_string (Dataplane.field "roles" l);
  ip ← dec_string (Dataplane.field "mgmt_ip" l); ip6 ← dec_string (Dataplane.field "mgmt_ip6" l);
  st ← dec_string (Dataplane.field "state" l); no ← dec_string (Dataplane.field "note" l);
  en ← dec_opt dec_time (Dataplane.field "enrolled_at" l);
  Some (MkNode n ro ip ip6 st no en)).

Definition node_json (n : Node) : json :=
  JObj ([("name"%string, JStr (Name n)); ("roles"%string, JArr (map JStr (Roles n))); ("mgmt_ip"%string, JStr (MgmtIP n))]
        ++ omit_str "mgmt_ip6" (MgmtIP6 n) ++ [("state"%string, JStr (NState n))] ++ omit_str "note" (Note n)
        ++ omit_opt "enrolled_at" (JTime show_time) (EnrolledAt n)).

Record nodePatch : Type := MkPatch { np_ip : option string; np_ip6 : option string; np_state : option string; np_note : option string }.
Definition dec_patch : json -> option nodePatch := dec_obj (fun l =>
  ip ← dec_opt dec_string (Dataplane.field "mgmt_ip" l); ip6 ← dec_opt dec_string (Dataplane.field "mgmt_ip6" l);
  st ← dec_opt dec_string (Dataplane.field "state" l); no ← dec_opt dec_string (Dataplane.field "note" l);
  Some (MkPatch ip ip6 st no)).
Definition patched (i : nodePatch) (n : Node) : Node :=
  MkNode (Name n) (Roles n) (default (MgmtIP n) (np_ip i)) (default (MgmtIP6 n) (np_ip6 i))
    (default (NState n) (np_state i)) (default (Note n) (np_note i)) (EnrolledAt n).

(** *** The settings *)

Definition neighbor_json (n : Neighbor) : json :=
  JObj [("ip", JStr (IP n)); ("remote_as", JInt (RemoteAS n)); ("family", JStr (Family n))]%string.
Definition any_json (a : any) : json :=
  match a with
  | AString s => JStr s
  | ABool b => JBool b
  | AFloat x => JNum (json_float x)
  | AInt z => JInt z
  | ANil => JNull
  | AOther v => v
  end.

(** The members of [Settings], in order, under their JSON names. *)
Definition settings_fields (s : Settings) : list (string * json) :=
  [("env", JStr (SEnv s)); ("ansible_user", JStr (AnsibleUser s)); ("wait_host", JStr (WaitHost s));
   ("control_host", JStr (ControlHost s)); ("vip_app_v4", JStr (VIPAppV4 s)); ("vip_app_v6", JStr (VIPAppV6 s));
   ("vip_wait_v4", JStr (VIPWaitV4 s)); ("vip_wait_v6", JStr (VIPWaitV6 s)); ("vip_gateway_v4", JStr (VIPGatewayV4 s));
   ("vip_gateway_v6", JStr (VIPGatewayV6 s)); ("bgp_enabled", JBool (BGPEnabled s)); ("bgp_local_as", JInt (BGPLocalAS s));
   ("bgp_neighbors", JArr (map neighbor_json (BGPNeighbors s))); ("acme_email", JStr (ACMEEmail s));
   ("acme_directory", JStr (ACMEDirectory s)); ("control_public_url", JStr (ControlPublicURL s));
   ("cookie_secure", JBool (CookieSecure s)); ("image_tag", JStr (ImageTag s)); ("registry", JStr (Registry s));
   ("queue_port", JInt (QueuePort s)); ("control_port", JInt (ControlPort s)); ("dataplane_port", JInt (DataplanePort s));
   ("manage_firewall", JBool (ManageFirewall s)); ("deploy_from", JStr (DeployFrom s)); ("registry_ca", JStr (RegistryCA s));
   ("extra_vars", JObj (map (fun p => (p.1, any_json p.2)) (key_sorted (ExtraVars s))));
   ("seeded_from_env", JBool (SeededFromEnv s))]%string.

(** [registry_ca] is left out when it is empty. *)
Definition settings_json (s : Settings) : json :=
  JObj (base.filter (fun p => ~ (p.1 = "registry_ca"%string /\ RegistryCA s = EmptyString)) (settings_fields s)).

(** A member decoded over its value: an absent one and [null] keep it. *)
Definition over {A} (f : json -> option A) (old : A) (v : json) : option A :=
  match v with JNull => Some old | _ => f v end.

(** The values of a member, in order, [null] included. *)
Definition members (name : string) (l : list (string * json)) : list json :=
  map snd (base.filter (fun p => EqualFold p.1 name = true) l).

Definition dec_any (v : json) : option any :=
  match v with
  | JNull => Some ANil
  | JBool b => Some (ABool b)
  | JNum t => AFloat <$> ParseFloat t
  | JStr s => Some (AString s)
  | JArr _ | JObj _ => Some (AOther v)
  end.

(** [m[k] = v]. *)
Definition put_key {A} (k : string) (v : A) (m : list (string * A)) : list (string * A) :=
  upsert fst k (fun _ => (k, v)) (k, v) m.

(** An object is merged into the map that is there; [null] makes it nil. *)
Definition over_map (m : list (string * any)) (v : json) : option (list (string * any)) :=
  match v with
  | JNull => Some []
  | JObj l => foldl (fun acc kv => m ← acc; a ← dec_any kv.2; Some (put_key kv.1 a m)) (Some m) l
  | _ => None
  end.

(** An array replaces the slice. *)
Definition dec_neighbor : json -> option Neighbor := dec_obj (fun l =>
  ip ← dec_string (Dataplane.field "ip" l); ra ← dec_int (Dataplane.field "remote_as" l);
  fa ← dec_string (Dataplane.field "family" l); Some (MkNeighbor ip ra fa)).
Definition over_list (_ : list Neighbor) (v : json) : option (list Neighbor) := dec_list dec_neighbor v.

Definition over_members {A} (f : A -> json -> option A) (old : A) (l : list json) : option A :=
  foldl (fun acc v => x ← acc; f x v) (Some old) l.

(** [decode(w, r, cur)]: the body decoded over the settings. *)
Definition dec_settings (s : Settings) : json -> option Settings := dec_obj (fun l =>
  let str k old := over dec_string old (Dataplane.field k l) in
  let int k old := over dec_int old (Dataplane.field k l) in
  let flag k old := over dec_bool old (Dataplane.field k l) in
  x1 ← str "env"%string (SEnv s); x2 ← str "ansible_user"%string (AnsibleUser s); x3 ← str "wait_host"%string (WaitHost s);
  x4 ← str "control_host"%string (ControlHost s); x5 ← str "vip_app_v4"%string (VIPAppV4 s);
  x6 ← str "vip_app_v6"%string (VIPAppV6 s); x7 ← str "vip_wait_v4"%string (VIPWaitV4 s);
  x8 ← str "vip_wait_v6"%string (VIPWaitV6 s); x9 ← str "vip_gateway_v4"%string (VIPGatewayV4 s);
  x10 ← str "vip_gateway_v6"%string (VIPGatewayV6 s); x11 ← flag "bgp_enabled"%string (BGPEnabled s);
  x12 ← int "bgp_local_as"%string (BGPLocalAS s);
  x13 ← over_members over_list (BGPNeighbors s) (members "bgp_neighbors" l);
  x14 ← str "acme_email"%string (ACMEEmail s); x15 ← str "acme_directory"%string (ACMEDirectory s);
  x16 ← str "control_public_url"%string (ControlPublicURL s); x17 ← flag "cookie_secure"%string (CookieSecure s);
  x18 ← str "image_tag"%string (ImageTag s); x19 ← str "registry"%string (Registry s);
  x20 ← int "queue_port"%string (QueuePort s); x21 ← int "control_port"%string (ControlPort s);
  x22 ← int "dataplane_port"%string (DataplanePort s); x23 ← flag "manage_firewall"%string (ManageFirewall s);
  x24 ← str "deploy_from"%string (DeployFrom s); x25 ← str "registry_ca"%string (RegistryCA s);
  x26 ← over_members over_map (ExtraVars s) (members "extra_vars" l);
  x27 ← flag "seeded_from_env"%string (SeededFromEnv s);
  Some (MkSettings x1 x2 x3 x4 x5 x6 x7 x8 x9 x10 x11 x12 x13 x14 x15 x16 x17 x18 x19 x20 x21 x22 x23 x24 x25 x26 x27)).

End Values.

(** ** The routes *)

Section Routes.
Context {X : Type} {HC : Crypto} {HO : Collation}.
Context (rfc3339 : string -> option Z) (show_time : Z -> string).
(** The date of the generated file's header. *)
Context (stamp : Z -> string).

Abbreviation handlerN := (@handler X).
Abbreviation node_json := (node_json show_time).

Definition listNodes : handlerN := fun r p =>
  l ← or_db LoadNodes; mret (JSON 200 (JArr (map node_json l))).

Definition count_data (d : cdb) : option nat := Some (length (base.filter (fun n => has_role RoleData n = true) (nodes d))).

(** The error of the count is dropped: [dejaLa] is then 0. *)
Definition createNode : handlerN := fun r p =>
  n ← decode r (dec_node rfc3339);
  match valideNode n with
  | Some msg => reply (Error 400 "invalid" msg)
  | None =>
      (if porte (Roles n) RoleData
       then c ← tried (at_pg (QueryRow count_data));
            require (negb (0 <? match c with inr k => k | inl _ => 0%nat end)%nat)
              (Error 409 "conflict" "un hôte data existe déjà : control suppose une instance unique")
       else mret tt) ≫= fun _ =>
      let n := if bool_decide (NState n = EmptyString) then Inventory.with_state "planned" n else n in
      or_db (SaveNode n) ≫= fun _ =>
      audit p "node.create" (node_json n) ≫= fun _ =>
      quietly_ Kick ≫= fun _ => mret (JSON 201 (node_json n))
  end.

(** The pointer is left on the last node of that name. *)
Definition find_node (name : string) (l : list Node) : option Node := last (base.filter (fun n => Name n = name) l).

Definition patchNode : handlerN := fun r p =>
  l ← or_db LoadNodes;
  match find_node (PathValue "name" r) l with
  | None => reply (Error 404 "not_found" "aucun nœud de ce nom")
  | Some cur =>
      i ← decode r dec_patch;
      let cur := patched i cur in
      match valideNode cur with
      | Some msg => reply (Error 400 "invalid" msg)
      | None =>
          or_db (SaveNode cur) ≫= fun _ =>
          let cur := if bool_decide (NState cur = EmptyString) then Inventory.with_state "planned" cur else cur in
          audit p "node.update" (node_json cur) ≫= fun _ =>
          quietly_ Kick ≫= fun _ => mret (JSON 200 (node_json cur))
      end
  end.

Definition delete_node (name : string) (d : cdb) : cdb := set_nodes (base.filter (fun n => Name n <> name) (nodes d)) d.

Definition deleteNode : handlerN := fun r p =>
  let name := PathValue "name" r in
  n ← or_db (QueryRow (fun d => by_id Name name (nodes d)));
  require (negb (porte (Roles n) RoleData))
    (Error 409 "still_configured" "l'hôte data porte control et la base : il ne se retire pas depuis l'interface") ≫= fun _ =>
  require (negb (String.eqb (NState n) "ready"))
    (Error 409 "still_configured" "ce nœud est en service : le mettre en retrait (draining) et le décommissionner d'abord") ≫= fun _ =>
  or_db (Exec_ (delete_node name)) ≫= fun _ =>
  audit p "node.delete" (JObj [("name", JStr name); ("roles", JArr (map JStr (Roles n)))]%string) ≫= fun _ =>
  quietly_ Kick ≫= fun _ => mret (MkResp 204 [] [] NoBody).

Definition getSettings : handlerN := fun r p =>
  s ← or_db LoadSettings; mret (JSON 200 (settings_json s)).

Definition putSettings : handlerN := fun r p =>
  cur ← or_db LoadSettings;
  s ← decode r (dec_settings cur);
  s ← or_db (SaveSettings s false);
  audit p "settings.update" (settings_json s) ≫= fun _ =>
  quietly_ Kick ≫= fun _ => mret (JSON 200 (settings_json s)).

Definition getInventory : handlerN := fun r p =>
  y ← attempt (fun e => match e with ErrIncomplete m => Error 409 "incomplete" m | _ => dbErr e end)
        (at_pg (Generate (stamp (q_now r))));
  mret (MkResp 200 [("Content-Type", "text/yaml; charset=utf-8")]%string [] (BText y)).

(** As mounted, behind [platform]. *)
Definition registerInventory : list (string * handlerN) :=
  [("GET /v1/nodes", listNodes); ("POST /v1/nodes", createNode); ("PATCH /v1/nodes/{name}", patchNode);
   ("DELETE /v1/nodes/{name}", deleteNode); ("GET /v1/settings", getSettings); ("PUT /v1/settings", putSettings);
   ("GET /v1/inventory", getInventory)]%string.

End Routes.

(** ** What a valid node is *)

Lemma roles_fault_inv roles : forall vus, roles_fault vus roles = None ->
  NoDup roles /\ (forall r, r ∈ roles -> r ∉ vus) /\ Forall (fun r => porte roles_allowed r = true) roles.
Proof.
  induction roles as [|r roles IH]; intros vus; cbn [roles_fault].
  { intros _. split_and!; [by constructor|by intros r ?%elem_of_nil|by constructor]. }
  destruct (porte roles_allowed r) eqn:Ha; [cbn [negb]|done]. destruct (porte vus r) eqn:Hv; [done|].
  intros (Hnd & Hout & Hall)%IH. split_and!.
  - constructor; [|done]. intros Hin. apply (Hout r Hin). by left.
  - intros x [->|Hx]%elem_of_cons Hin.
    + apply not_true_iff_false in Hv. apply Hv, existsb_exists. exists r. split; [by apply list_elem_of_In|apply String.eqb_refl].
    + apply (Hout x Hx). by right.
  - by constructor.
Qed.

Lemma valideNode_inv n : valideNode n = None ->
  nomNode (Name n) = true /\ NoDup (Roles n) /\ (exists ip, ParseIP (MgmtIP n) = Some ip) /\
  (MgmtIP6 n = EmptyString \/ exists ip, ParseIP (MgmtIP6 n) = Some ip /\ To4 ip = None).
Proof.
  unfold valideNode. destruct (nomNode _); [cbn [negb]|done]. case_bool_decide; [done|].
  destruct (roles_fault [] (Roles n)) eqn:Hr; [done|]. apply roles_fault_inv in Hr as (Hnd & _).
  destruct (ParseIP (MgmtIP n)) as [ip|] eqn:Hip; [rewrite bool_decide_false by done|by rewrite bool_decide_true].
  case_bool_decide as H6; cbn [negb andb]; [intros _; split_and!; [done|done|by eexists|by left]|]. unfold ipv6_fault.
  destruct (ParseIP (MgmtIP6 n)) as [ip6|] eqn:Hip6; [|done]. case_bool_decide as H4; [done|]. intros _.
  split_and!; [done|done|by eexists|]. right. exists ip6. split; [done|]. by apply eq_None_not_Some.
Qed.

(** ** An inventory that can be generated *)

Definition data_nodes (l : list Node) : list Node := base.filter (fun n => has_role RoleData n = true) l.
Definition node_ok (n : Node) : Prop := valideNode n = None /\ NState n ∈ states_allowed.

Record inventory_ok (l : list Node) : Prop := {
  ok_names : NoDup (Name <$> l);
  ok_addresses : NoDup (MgmtIP <$> l);
  ok_nodes : Forall node_ok l;
  ok_data : (length (data_nodes l) <= 1)%nat
}.

Definition others (n : Node) (l : list Node) : list Node := base.filter (fun m => Name m <> Name n) l.

#[export] Instance inventory_ok_proper : Proper ((≡ₚ) ==> iff) inventory_ok.
Proof.
  assert (H : forall l l', l ≡ₚ l' -> inventory_ok l -> inventory_ok l'); [|intros l l' Hl; split; by apply H].
  intros l l' Hl [H1 H2 H3 H4]. split; [by rewrite <- Hl|by rewrite <- Hl|by rewrite <- Hl|].
  unfold data_nodes in *. by rewrite <- Hl.
Qed.

Lemma data_others n l : data_nodes (others n l) = others n (data_nodes l).
Proof.
  unfold data_nodes, others. rewrite !list_filter_filter. apply list_filter_iff. tauto.
Qed.

Lemma inventory_ok_others n l : inventory_ok l -> inventory_ok (others n l).
Proof.
  intros [H1 H2 H3 H4].
  split; [by apply NoDup_filter_key|by apply NoDup_filter_key|..].
  - apply Forall_forall. intros x [_ Hx]%list_elem_of_filter. by eapply Forall_forall in H3.
  - rewrite data_others. unfold others. etrans; [apply length_filter|done].
Qed.

(** Saving a node keeps the others. *)
Lemma upsert_node_perm n l : NoDup (Name <$> l) ->
  exists e, upsert_node n l ≡ₚ MkNode (Name n) (Roles n) (MgmtIP n) (MgmtIP6 n) (NState n) (Note n) e :: others n l.
Proof.
  intros Hnd. unfold upsert_node, upsert, others. destruct (existsb _ l) eqn:He.
  - apply existsb_exists in He as (m & Hin%list_elem_of_In & Hm%String.eqb_eq).
    apply list_elem_of_split in Hin as (l1 & l2 & ->). exists (EnrolledAt m).
    rewrite fmap_app, fmap_cons in Hnd. apply NoDup_app in Hnd as (_ & Hd & [Hm2 _]%NoDup_cons).
    assert (Ho : forall k, Forall (fun x => Name x <> Name n) k ->
        map (fun r => if String.eqb (Name r) (Name n) then MkNode (Name n) (Roles n) (MgmtIP n) (MgmtIP6 n) (NState n) (Note n) (EnrolledAt r) else r) k = k
        /\ base.filter (fun x => Name x <> Name n) k = k).
    { intros k Hk. split; [|by apply list_filter_all; apply Forall_forall]. rewrite <- (map_id k) at 2. apply map_ext_Forall.
      eapply Forall_impl; [exact Hk|]. intros x Hx. by rewrite (proj2 (String.eqb_neq _ _) Hx). }
    assert (H1 : Forall (fun x => Name x <> Name n) l1).
    { apply Forall_forall. intros x Hx E. apply (Hd (Name x)); [by apply list_elem_of_fmap_2|]. rewrite E, <- Hm. by left. }
    assert (H2 : Forall (fun x => Name x <> Name n) l2).
    { apply Forall_forall. intros x Hx E. apply Hm2. rewrite Hm, <- E. by apply list_elem_of_fmap_2. }
    rewrite map_app, filter_app. cbn [map]. rewrite filter_cons, decide_False by tauto.
    rewrite (proj2 (String.eqb_eq _ _) Hm). destruct (Ho l1 H1) as [-> ->], (Ho l2 H2) as [-> ->].
    by rewrite Permutation_middle.
  - exists None. rewrite (list_filter_all _ l).
    + by rewrite Permutation_app_comm.
    + intros x Hx E. apply not_true_iff_false in He. apply He, existsb_exists.
      exists x. split; [by apply list_elem_of_In|by apply String.eqb_eq].
Qed.

Lemma ips_ok n l : node_violation n l = None ->
  NState n ∈ states_allowed /\ (MgmtIP n ∉ MgmtIP <$> others n l).
Proof.
  unfold node_violation. destruct (_ || _) eqn:Hc; [done|]. apply orb_false_elim in Hc as [Hst _].
  apply negb_false_iff, existsb_exists in Hst as (st & Hst%list_elem_of_In & <-%String.eqb_eq).
  destruct (existsb _ l) eqn:He; [done|]. intros _. split; [done|].
  intros (m & Hm & [Hne Hin]%list_elem_of_filter)%list_elem_of_fmap.
  apply not_true_iff_false in He. apply He, existsb_exists. exists m. split; [by apply list_elem_of_In|].
  rewrite (proj2 (String.eqb_neq _ _) Hne), Hm. by rewrite String.eqb_refl.
Qed.

(** A saved node gives a good inventory when it is valid, violates no constraint
    and is the only data host. *)
Lemma saved_ok n l : inventory_ok l -> valideNode n = None -> node_violation n l = None ->
  (has_role RoleData n = true -> data_nodes (others n l) = []) -> inventory_ok (upsert_node n l).
Proof.
  intros Hok Hv Hc Hd. pose proof (ips_ok n l Hc) as [Hst Hip].
  destruct (upsert_node_perm n l (ok_names _ Hok)) as [e ->].
  destruct (inventory_ok_others n l Hok) as [H1 H2 H3 H4].
  split; rewrite ?fmap_cons.
  - apply NoDup_cons. split; [|done]. intros (m & Hm & [Hne _]%list_elem_of_filter)%list_elem_of_fmap. by apply Hne.
  - by apply NoDup_cons.
  - by constructor.
  - unfold data_nodes in *. rewrite filter_cons. case_decide as Hr; [|done]. by rewrite Hd.
Qed.

Lemma upsert_names n l m : m ∈ l -> Name m ∈ Name <$> upsert_node n l.
Proof.
  intros Hm. unfold upsert_node, upsert. destruct (existsb _ l).
  - change (map ?f l) with (f <$> l). rewrite <- list_fmap_compose.
    apply list_elem_of_fmap. exists m. split; [|done]. simpl. case_match eqn:E; [|done]. by apply String.eqb_eq in E.
  - rewrite fmap_app. apply elem_of_app. left. by apply list_elem_of_fmap_2.
Qed.

(** The nodes nothing but a creation changes the role or the address of. *)
Definition protected (n : Node) : Prop := has_role RoleData n = true \/ NState n = "ready"%string.

(** ** The routes, over a database nobody else writes *)

Section Kept.
Context {X : Type} {HC : Crypto} {HO : Collation}.
Context (rfc3339 : string -> option Z) (show_time stamp : Z -> string).
Abbreviation W := (cworld X).

Lemma or_db_LoadNodes (w : W) : quiet_w w -> or_db LoadNodes w = (inr (merge_sort (by1 Name) (nodes (db w))), w).
Proof. intros Hq. unfold or_db, attempt, at_pg, zoom, LoadNodes. rewrite all_rows_quiet by done. by destruct w. Qed.

Lemma or_db_LoadSettings (w : W) : quiet_w w -> or_db LoadSettings w = (inr (settings (db w)), w).
Proof. intros Hq. unfold LoadSettings. by rewrite or_db_query. Qed.

Lemma or_db_SaveSettings s seeded (w : W) : quiet_w w ->
  or_db (SaveSettings s seeded) w =
  let s := settings_defaults s in
  if settings_fit s then (inr s, with_db (set_settings (settings_row s (settings (db w)) seeded) (db w)) w)
  else (inl (dbErr (Err "value is greater than maximum value for int4")), w).
Proof.
  intros Hq. unfold or_db, attempt, at_pg, zoom, SaveSettings. cbn zeta.
  destruct (settings_fit _); [|by destruct w]. erewrite M_bind_ok by (by apply Exec__quiet). done.
Qed.

(** The node [SaveNode] writes. *)
Definition stated (n : Node) : Node := if bool_decide (NState n = EmptyString) then Inventory.with_state "planned" n else n.

Lemma or_db_SaveNode n (w : W) : quiet_w w ->
  or_db (SaveNode n) w =
  match node_violation (stated n) (nodes (db w)) with
  | Some e => (inl (dbErr e), w)
  | None => (inr tt, with_db (set_nodes (upsert_node (stated n) (nodes (db w))) (db w)) w)
  end.
Proof. intros Hq. unfold SaveNode. fold (stated n). rewrite or_db_exec by done. by destruct (node_violation _ _). Qed.

Lemma stated_same n : valideNode (stated n) = valideNode n /\ Roles (stated n) = Roles n /\ Name (stated n) = Name n.
Proof. unfold stated. by case_bool_decide. Qed.

Lemma stated_twice n : stated (stated n) = stated n.
Proof. unfold stated at 2 3. case_bool_decide as H; [done|]. unfold stated. by rewrite bool_decide_false. Qed.

(** What a request may do to the nodes: nothing, save one valid node under its
    name, or remove one that is neither the data host nor in service. *)
Definition one_change (l l' : list Node) : Prop :=
  l' = l \/ (exists n, valideNode n = None /\ l' = upsert_node n l) \/
  (exists n, n ∈ l /\ ~ protected n /\ l' = others n l).

(** The data hosts are still there, with their roles. *)
Definition data_kept (l l' : list Node) : Prop :=
  forall m, m ∈ l -> has_role RoleData m = true -> exists m', m' ∈ l' /\ Name m' = Name m /\ Roles m' = Roles m.

(** What a route may do to the inventory. *)
Definition keeps_inventory (d d' : cdb) : Prop :=
  inventory_ok (nodes d') /\ one_change (nodes d) (nodes d') /\
  forall n, n ∈ nodes d -> protected n -> Name n ∈ Name <$> nodes d'.

Lemma data_kept_refl l : data_kept l l.
Proof. intros m Hm _. by exists m. Qed.

Lemma keeps_same d d' : inventory_ok (nodes d) -> nodes d' = nodes d -> keeps_inventory d d' /\ data_kept (nodes d) (nodes d').
Proof.
  intros H E. unfold keeps_inventory. rewrite E. split_and!; [done|by left| |apply data_kept_refl]. intros n Hn _. by apply list_elem_of_fmap_2.
Qed.

(** A node saved with the roles it had. *)
Lemma upsert_data_kept n c l : NoDup (Name <$> l) -> c ∈ l -> Name n = Name c -> Roles n = Roles c -> data_kept l (upsert_node n l).
Proof.
  intros Hnd Hc Hn Hr m Hm _. destruct (upsert_node_perm n l Hnd) as [e Hp]. setoid_rewrite Hp.
  destruct (decide (Name m = Name n)) as [E|E].
  - assert (m = c) as ->.
    { pose proof (proj2 (by_id_NoDup Name (Name n) l m Hnd) (conj Hm E)) as H1.
      pose proof (proj2 (by_id_NoDup Name (Name n) l c Hnd) (conj Hc (eq_sym Hn))) as H2. congruence. }
    eexists. split; [left|]. by split.
  - exists m. split; [right; by apply list_elem_of_filter|done].
Qed.

Ltac same := cbn [snd]; split; [done|first [by apply keeps_same|by eapply proj1, keeps_same]].

Lemma createNode_keeps r p (w : W) : quiet_w w -> inventory_ok (nodes (db w)) ->
  let w' := (served (createNode rfc3339 show_time r p) w).2 in quiet_w w' /\ keeps_inventory (db w) (db w').
Proof.
  intros Hq Hok. unfold served, createNode, decode. rewrite HM_bind_eq.
  destruct (q_body r) as [e|v]; [same|]. destruct (dec_node rfc3339 v) as [n|]; [|same]. cbn [mret HM_ret].
  destruct (valideNode n) as [msg|] eqn:Hv; [same|]. fold (stated n).
  rewrite HM_bind_eq.
  assert (Hcount : exists x, (if porte (Roles n) RoleData
       then c ← tried (at_pg (QueryRow count_data));
            require (negb (0 <? match c with inr k => k | inl _ => 0%nat end)%nat)
              (Error 409 "conflict" "un hôte data existe déjà : control suppose une instance unique")
       else mret tt) w = (x, w) /\ (x = inr tt -> has_role RoleData n = true -> data_nodes (nodes (db w)) = [])).
  { change (porte (Roles n) RoleData) with (has_role RoleData n). destruct (has_role RoleData n); [|by eexists].
    rewrite HM_bind_eq, tried_query by done. unfold count_data. fold (data_nodes (nodes (db w))). rewrite require_eq.
    destruct (data_nodes (nodes (db w))); cbn [length Nat.ltb Nat.leb negb]; by eexists. }
  destruct Hcount as (x & -> & Hx). destruct x as [a|[]]; [same|].
  rewrite HM_bind_eq, or_db_SaveNode by done. rewrite stated_twice.
  destruct (node_violation _ _) as [e|] eqn:Hc; [same|]. h_step. cbn [snd].
  destruct (stated_same n) as (Hv' & Hr & Hn). split; [done|]. unfold keeps_inventory. cbn.
  split_and!; [|right; left; exists (stated n); by rewrite Hv'|intros m Hm _; by apply upsert_names]. apply saved_ok; [done|by rewrite Hv'|done|].
  unfold has_role in *. rewrite Hr. intros Hd. rewrite data_others. unfold others. by rewrite (Hx eq_refl Hd).
Qed.

Lemma find_node_inv name l n : find_node name l = Some n -> n ∈ l /\ Name n = name.
Proof. unfold find_node. intros H%last_Some_elem_of. apply list_elem_of_filter in H. tauto. Qed.

(** The data host is unique: without it no node has the role. *)
Lemma data_alone n l : inventory_ok l -> n ∈ l -> has_role RoleData n = true -> data_nodes (others n l) = [].
Proof.
  intros Hok Hin Hd. rewrite data_others. pose proof (ok_data _ Hok) as H1.
  assert (H : n ∈ data_nodes l) by (by apply list_elem_of_filter).
  destruct (data_nodes l) as [|m [|]] eqn:E; [done| |simpl in H1; lia]. apply list_elem_of_singleton in H as ->.
  unfold others. by rewrite filter_cons, decide_False by tauto.
Qed.

Lemma patchNode_keeps r p (w : W) : quiet_w w -> inventory_ok (nodes (db w)) ->
  let w' := (served (patchNode show_time r p) w).2 in
  quiet_w w' /\ keeps_inventory (db w) (db w') /\ data_kept (nodes (db w)) (nodes (db w')).
Proof.
  intros Hq Hok. unfold served, patchNode. rewrite HM_bind_eq, or_db_LoadNodes by done.
  destruct (find_node _ _) as [cur|] eqn:Hf; [|same]. apply find_node_inv in Hf as [Hin _].
  rewrite merge_sort_Permutation in Hin. unfold decode. rewrite HM_bind_eq.
  destruct (q_body r) as [e|v]; [same|]. destruct (dec_patch v) as [i|]; [|same]. cbn [mret HM_ret].
  destruct (valideNode (patched i cur)) as [msg|] eqn:Hv; [same|]. fold (stated (patched i cur)).
  rewrite HM_bind_eq, or_db_SaveNode by done.
  destruct (node_violation _ _) as [e|] eqn:Hc; [same|]. h_step. cbn [snd].
  destruct (stated_same (patched i cur)) as (Hv' & Hr & Hn). split; [done|]. unfold keeps_inventory. cbn.
  split; [split_and!; [|right; left; exists (stated (patched i cur)); by rewrite Hv'|intros m Hm _; by apply upsert_names]|
    by apply (upsert_data_kept _ cur); [apply ok_names| | |]]. apply saved_ok; [done|by rewrite Hv'|done|].
  intros Hd. unfold others. rewrite Hn. apply (data_alone cur); [done..|]. revert Hd. unfold has_role. by rewrite Hr.
Qed.

Lemma deleteNode_keeps r p (w : W) : quiet_w w -> inventory_ok (nodes (db w)) ->
  let w' := (served (deleteNode r p) w).2 in
  quiet_w w' /\ keeps_inventory (db w) (db w') /\ data_kept (nodes (db w)) (nodes (db w')).
Proof.
  intros Hq Hok. unfold served, deleteNode. h_step.
  destruct (by_id Name _ (nodes (db w))) as [n|] eqn:Hn; [|same]. rewrite HM_bind_eq, require_eq.
  destruct (porte (Roles n) RoleData) eqn:Hd; [same|]. cbn [negb]. rewrite HM_bind_eq, require_eq.
  destruct (String.eqb_spec (NState n) "ready"); [same|]. cbn [negb]. h_step. h_step. cbn [snd].
  apply by_id_elem in Hn as [Hin Hname]. split; [done|]. unfold keeps_inventory. cbn.
  rewrite <- Hname. fold (others n (nodes (db w))).
  assert (Hnp : ~ protected n) by (intros [|]; [unfold has_role, porte in *; congruence|done]).
  assert (Hk : forall m, m ∈ nodes (db w) -> protected m -> m ∈ others n (nodes (db w))).
  2:{ split; [split_and!; [by apply inventory_ok_others|right; right; by exists n|]|].
      - intros m Hm Hp. apply list_elem_of_fmap_2, Hk; done.
      - intros m Hm Hr. exists m. split; [|done]. apply Hk; [done|by left]. }
  intros m Hm Hp. apply list_elem_of_filter. split; [|done].
  intros E. assert (m = n) as ->; [|destruct Hp; [unfold has_role, porte in *; congruence|done]].
  pose proof (proj2 (by_id_NoDup Name (Name n) (nodes (db w)) m (ok_names _ Hok)) (conj Hm E)) as H1.
  pose proof (proj2 (by_id_NoDup Name (Name n) (nodes (db w)) n (ok_names _ Hok)) (conj Hin eq_refl)) as H2. congruence.
Qed.

Lemma putSettings_keeps r p (w : W) : quiet_w w -> inventory_ok (nodes (db w)) ->
  let w' := (served (putSettings r p) w).2 in
  quiet_w w' /\ keeps_inventory (db w) (db w') /\ data_kept (nodes (db w)) (nodes (db w')).
Proof.
  intros Hq Hok. unfold served, putSettings. rewrite HM_bind_eq, or_db_LoadSettings by done. unfold decode. rewrite HM_bind_eq.
  destruct (q_body r) as [e|v]; [same|]. destruct (dec_settings _ v) as [s|]; [|same]. cbn [mret HM_ret].
  rewrite HM_bind_eq, or_db_SaveSettings by done. cbn zeta. destruct (settings_fit (settings_defaults s)); [|same].
  h_step. cbn [snd].
  split; [done|]. by apply keeps_same.
Qed.

Lemma served_platform (h : @handler X) r (w : W) : quiet_w w ->
  (exists p w1, quiet_w w1 /\ nodes (db w1) = nodes (db w) /\ entitled (db w) r p /\ p_platform p = true /\
     served (platform h r) w = served (h r p) w1) \/
  (quiet_w (served (platform h r) w).2 /\ nodes (db (served (platform h r) w).2) = nodes (db w)).
Proof.
  intros Hq. assert (Ht : forall d, touched (db w) d -> nodes d = nodes (db w)) by (by intros d [->|[[i ->]|(a & b & ->)]]).
  destruct (platform_guard h r w Hq) as [(p & w1 & Ha & He & Hp & E)|(a & w1 & E & _ & Htw & Hq1)].
  - left. destruct (authenticate_touches _ _ _ _ Hq Ha) as [Hq1 Htw]. exists p, w1. split_and!; try done; [by apply Ht|].
    unfold served. by rewrite E.
  - right. unfold served. rewrite E. cbn [snd]. split; [done|by apply Ht].
Qed.

(** Claim C10: whatever is asked of the inventory's routes, as they are mounted
    and when the database answers, the nodes keep distinct names and addresses,
    valid contents and at most one data host.  A request changes nothing, saves
    one valid node under its name, or removes one that is neither the data host
    nor in service: the row of a node that is, under its name, never goes away.
    Only a creation can change the roles of the data host: any other route leaves
    them to it.  Only the platform changes anything.  A creation under the name
    of the data host does change its roles, which leaves an inventory that cannot
    be generated: see [createNode_takes_data]. *)
Theorem inventory_kept pattern h r (w : W) :
  (pattern, h) ∈ registerInventory rfc3339 show_time stamp -> quiet_w w -> inventory_ok (nodes (db w)) ->
  let w' := (served (platform h r) w).2 in
  quiet_w w' /\ inventory_ok (nodes (db w')) /\
  one_change (nodes (db w)) (nodes (db w')) /\
  (forall n, n ∈ nodes (db w) -> protected n -> Name n ∈ Name <$> nodes (db w')) /\
  (pattern <> "POST /v1/nodes"%string -> data_kept (nodes (db w)) (nodes (db w'))) /\
  (nodes (db w') = nodes (db w) \/ exists p, entitled (db w) r p /\ p_platform p = true).
Proof.
  intros Hh Hq Hok. destruct (served_platform h r w Hq) as [(p & w1 & Hq1 & Hn & He & Hp & ->)|[Hq1 Hn]]; cbn zeta.
  2:{ split; [done|]. destruct (keeps_same _ _ Hok Hn) as [(H1 & H2 & H3) H4]. split_and!; [done..|by left]. }
  rewrite <- Hn in Hok |- *.
  assert (H : quiet_w (served (h r p) w1).2 /\ keeps_inventory (db w1) (db (served (h r p) w1).2) /\
      (pattern <> "POST /v1/nodes"%string -> data_kept (nodes (db w1)) (nodes (db (served (h r p) w1).2))));
    [|destruct H as (H0 & (H1 & H2 & H3) & H4); split_and!; [done..|right; by exists p]].
  assert (Hall : h = createNode rfc3339 show_time /\ pattern = "POST /v1/nodes"%string \/
      (quiet_w (served (h r p) w1).2 /\ keeps_inventory (db w1) (db (served (h r p) w1).2) /\
       data_kept (nodes (db w1)) (nodes (db (served (h r p) w1).2))));
    [|destruct Hall as [[-> ->]|(H0 & H1 & H2)]; [destruct (createNode_keeps r p w1 Hq1 Hok); by split_and!|by split_and!]].
  repeat (apply elem_of_cons in Hh as [[= -> ->]|Hh]); [right|left|right..|by apply elem_of_nil in Hh].
  - unfold served, listNodes. rewrite HM_bind_eq, or_db_LoadNodes by done. same.
  - done.
  - by apply patchNode_keeps.
  - by apply deleteNode_keeps.
  - unfold served, getSettings. rewrite HM_bind_eq, or_db_LoadSettings by done. same.
  - by apply putSettings_keeps.
  - unfold served, getInventory. rewrite HM_bind_eq. unfold attempt, at_pg, zoom, Generate, LoadSettings.
    erewrite M_bind_ok by (by apply QueryRow_quiet). erewrite M_bind_ok by (by apply all_rows_quiet).
    destruct w1; unfold lift_err; destruct (Render _ _ _); same.
Qed.

(** ** The generated file *)

Lemma groupe_length role l : Forall (fun n => NoDup (Roles n)) l ->
  length (groupe role l) = length (base.filter (fun n => has_role role n = true) l).
Proof.
  induction 1 as [|n l Hn Hl IH]; [done|].
  change (groupe role (n :: l)) with (((fun _ => n) <$> base.filter (fun r => r = role) (Roles n)) ++ groupe role l).
  rewrite length_app, length_fmap, IH, filter_cons.
  assert (H : length (base.filter (fun r => r = role) (Roles n)) = if decide (has_role role n = true) then 1%nat else 0%nat); [|rewrite H; by case_decide].
  unfold has_role. clear -Hn. induction Hn as [|r rs Hr Hrs IH]; [done|]. rewrite filter_cons. cbn [existsb].
  destruct (decide (r = role)) as [->|Hne].
  - rewrite String.eqb_refl, (list_filter_none _ rs) by (by intros x Hx ->). done.
  - rewrite (proj2 (String.eqb_neq _ _)) by congruence. exact IH.
Qed.

Definition scalar (a : any) : bool := match a with AOther _ => false | _ => true end.

Lemma render_extra_ok l :
  match render_extra l with
  | inr _ => forallb (fun p => scalar p.2) l = true
  | inl e => (exists m, e = Err m) /\ forallb (fun p => scalar p.2) l = false
  end.
Proof.
  induction l as [|[k v] l IH]; [done|]. cbn [render_extra forallb snd].
  destruct v; cbn [yamlScalar scalar andb]; try (destruct (render_extra l); exact IH). split; [by eexists|done].
Qed.

Lemma Render_code now s l : Forall (fun n => NoDup (Roles n)) l ->
  match Render now s l with
  | inr _ => length (data_nodes l) = 1%nat /\ forallb (fun p => scalar p.2) (ExtraVars s) = true
  | inl (ErrIncomplete _) => length (data_nodes l) <> 1%nat
  | inl (Err _) => length (data_nodes l) = 1%nat /\ forallb (fun p => scalar p.2) (ExtraVars s) = false
  | inl _ => False
  end.
Proof.
  intros Hnd. pose proof (groupe_length RoleData l Hnd) as Hg. fold (data_nodes l) in Hg. rewrite <- Hg. unfold Render.
  destruct (groupe RoleData l) as [|g [|]]; [done| |done].
  assert (Hs : forallb (fun p => scalar p.2) (key_sorted (ExtraVars s)) = forallb (fun p => scalar p.2) (ExtraVars s)).
  { unfold key_sorted. apply eq_true_iff_eq. rewrite !forallb_forall. setoid_rewrite <- list_elem_of_In.
    split; intros H x Hx; apply H; by rewrite merge_sort_Permutation in *. }
  pose proof (render_extra_ok (key_sorted (ExtraVars s))) as Hr. rewrite Hs in Hr.
  destruct (render_extra _) as [e|t]; [destruct Hr as [[m ->] Hr]|]; done.
Qed.

Lemma getInventory_code r p (w : W) : quiet_w w -> Forall (fun n => NoDup (Roles n)) (nodes (db w)) ->
  (served (getInventory stamp r p) w).2 = w /\
  r_code (served (getInventory stamp r p) w).1 =
    if negb (bool_decide (length (data_nodes (nodes (db w))) = 1%nat)) then 409
    else if forallb (fun x => scalar x.2) (ExtraVars (settings (db w))) then 200 else 500.
Proof.
  intros Hq Hnd. unfold served, getInventory. rewrite HM_bind_eq. unfold attempt, at_pg, zoom, Generate, LoadSettings.
  erewrite M_bind_ok by (by apply QueryRow_quiet). erewrite M_bind_ok by (by apply all_rows_quiet). unfold lift_err.
  set (l := merge_sort _ _). assert (Hl : l ≡ₚ nodes (tables (cw_pg w))) by apply merge_sort_Permutation.
  change (tables (cw_pg w)) with (db w) in *. clearbody l.
  pose proof (Render_code (stamp (q_now r)) (settings (db w)) l) as Hr. rewrite Hl in Hr at 1. specialize (Hr Hnd).
  assert (Hdl : length (data_nodes l) = length (data_nodes (nodes (db w)))) by (unfold data_nodes; by rewrite Hl).
  rewrite Hdl in Hr. split; [by destruct w, (Render _ _ _)|].
  destruct (Render _ _ _) as [[]|y]; cbn [fst r_code]; try done;
    try (destruct Hr as [Hne ->]; rewrite bool_decide_true by done; done). by rewrite bool_decide_false.
Qed.

Lemma ok_roles l : inventory_ok l -> Forall (fun n => NoDup (Roles n)) l.
Proof.
  intros Hok. eapply Forall_impl; [apply (ok_nodes _ Hok)|]. intros n [Hv _]. by apply valideNode_inv in Hv as (_ & Hnd & _).
Qed.

(** An inventory the routes leave is generated: [getInventory] answers
    200 when it has a data host and the free settings are scalars, says that it
    is incomplete exactly when it has none, and changes nothing. *)
Theorem inventory_generated r p (w : W) : quiet_w w -> inventory_ok (nodes (db w)) ->
  (served (getInventory stamp r p) w).2 = w /\
  r_code (served (getInventory stamp r p) w).1 =
    if bool_decide (data_nodes (nodes (db w)) = []) then 409
    else if forallb (fun x => scalar x.2) (ExtraVars (settings (db w))) then 200 else 500.
Proof.
  intros Hq Hok. destruct (getInventory_code r p w Hq (ok_roles _ Hok)) as [-> ->]. split; [done|].
  pose proof (ok_data _ Hok). by destruct (data_nodes (nodes (db w))) as [|? [|? ?]]; [| |simpl in *; lia].
Qed.

(** A creation that nothing refuses. *)
Lemma createNode_saves r p (w : W) v n : q_body r = inr v -> dec_node rfc3339 v = Some n -> valideNode n = None ->
  (has_role RoleData n = true ->
     exists w1 k, tried (at_pg (QueryRow count_data)) w = (inr k, w1) /\ quiet_w w1 /\ db w1 = db w /\
       match k with inr k => k | inl _ => 0%nat end = 0%nat) ->
  (has_role RoleData n = false -> quiet_w w) ->
  node_violation (stated n) (nodes (db w)) = None ->
  let a := served (createNode rfc3339 show_time r p) w in
  r_code a.1 = 201 /\ quiet_w a.2 /\ nodes (db a.2) = upsert_node (stated n) (nodes (db w)) /\ settings (db a.2) = settings (db w).
Proof.
  intros Hb Hdec Hv H1 H2 Hc. unfold served, createNode, decode. rewrite HM_bind_eq, Hb, Hdec. cbn [mret HM_ret].
  rewrite Hv. fold (stated n). change (porte (Roles n) RoleData) with (has_role RoleData n).
  assert (Hw : exists w1, quiet_w w1 /\ db w1 = db w /\ forall (k : unit -> @HM X resp),
    ((if has_role RoleData n
      then c ← tried (at_pg (QueryRow count_data));
           require (negb (0 <? match c with inr k => k | inl _ => 0%nat end)%nat)
             (Error 409 "conflict" "un hôte data existe déjà : control suppose une instance unique")
      else mret tt) ≫= k) w = k tt w1).
  { destruct (has_role RoleData n).
    - destruct (H1 eq_refl) as (w1 & k & Hk & Hq & Hd & H0). exists w1. split_and!; [done..|]. intros k'.
      rewrite HM_bind_eq, HM_bind_eq, Hk, require_eq, H0. reflexivity.
    - exists w. split_and!; [by apply H2|done|reflexivity]. }
  destruct Hw as (w1 & Hq & Hd & ->). rewrite HM_bind_eq, or_db_SaveNode by done. rewrite stated_twice, Hd, Hc.
  h_step. by split_and!.
Qed.

Lemma upsert_data n l : NoDup (Name <$> l) ->
  length (data_nodes (upsert_node n l)) =
    ((if has_role RoleData n then 1 else 0) + length (data_nodes (others n l)))%nat.
Proof.
  intros Hnd. destruct (upsert_node_perm n l Hnd) as [e He]. unfold data_nodes at 1. rewrite He, filter_cons.
  change (has_role RoleData (MkNode _ _ _ _ _ _ _)) with (has_role RoleData n). by destruct (has_role RoleData n).
Qed.

Lemma upsert_roles n l : NoDup (Name <$> l) -> valideNode n = None -> inventory_ok l ->
  Forall (fun n => NoDup (Roles n)) (upsert_node n l).
Proof.
  intros Hnd Hv Hok. destruct (upsert_node_perm n l Hnd) as [e ->]. constructor; [by apply valideNode_inv in Hv as (_ & H & _)|].
  by apply ok_roles, inventory_ok_others.
Qed.

Lemma data_of_stated n : has_role RoleData (stated n) = has_role RoleData n.
Proof. unfold has_role. by destruct (stated_same n) as (_ & -> & _). Qed.

(** The data host is counted by a query whose error is dropped: when
    it fails, a second data host is accepted, and the inventory is no longer
    generated. *)
Theorem createNode_blind e r p (w : W) v n m r' p' :
  sched (cw_pg w) = [(id, Refused e)] -> inventory_ok (nodes (db w)) ->
  m ∈ nodes (db w) -> has_role RoleData m = true -> Name m <> Name n ->
  q_body r = inr v -> dec_node rfc3339 v = Some n -> valideNode n = None -> has_role RoleData n = true ->
  node_violation (stated n) (nodes (db w)) = None ->
  let a := served (createNode rfc3339 show_time r p) w in
  r_code a.1 = 201 /\ length (data_nodes (nodes (db a.2))) = 2%nat /\
  r_code (served (getInventory stamp r' p') a.2).1 = 409.
Proof.
  intros Hs Hok Hm Hdm Hne Hb Hdec Hv Hdn Hc a.
  destruct (createNode_saves r p w v n Hb Hdec Hv) as (H1 & H2 & H3 & _); [| |done|].
  { intros _. exists (set_cw_pg (MkPg (db w) []) w), (inl e). destruct w as [[d l] rd kk t x]. cbn in Hs. subst l. done. }
  { congruence. }
  fold a in H1, H2, H3. destruct (stated_same n) as (Hv' & _ & Hn). pose proof (ok_names _ Hok) as Hnd.
  assert (Hlen : length (data_nodes (nodes (db a.2))) = 2%nat).
  { rewrite H3, upsert_data by done. rewrite data_of_stated, Hdn.
    assert (Hin : m ∈ data_nodes (others (stated n) (nodes (db w)))).
    { apply list_elem_of_filter. split; [done|]. apply list_elem_of_filter. by rewrite Hn. }
    pose proof (ok_data _ (inventory_ok_others (stated n) _ Hok)). by destruct (data_nodes _) as [|? [|? ?]]; [by apply elem_of_nil in Hin| |simpl in *; lia]. }
  split_and!; [done..|]. destruct (getInventory_code r' p' a.2 H2) as [_ ->]; [|by rewrite Hlen].
  rewrite H3. by apply upsert_roles; rewrite ?Hv'.
Qed.

(** A node is created over the one of that name: a creation under the
    name of the data host, with other roles, is answered 201 and leaves the
    inventory without data host. *)
Theorem createNode_takes_data r p (w : W) v n m r' p' :
  quiet_w w -> inventory_ok (nodes (db w)) ->
  m ∈ nodes (db w) -> has_role RoleData m = true -> Name m = Name n ->
  q_body r = inr v -> dec_node rfc3339 v = Some n -> valideNode n = None -> has_role RoleData n = false ->
  node_violation (stated n) (nodes (db w)) = None ->
  let a := served (createNode rfc3339 show_time r p) w in
  r_code a.1 = 201 /\ data_nodes (nodes (db a.2)) = [] /\
  r_code (served (getInventory stamp r' p') a.2).1 = 409.
Proof.
  intros Hq Hok Hm Hdm Hname Hb Hdec Hv Hdn Hc a.
  destruct (createNode_saves r p w v n Hb Hdec Hv) as (H1 & H2 & H3 & _); [congruence|done|done|].
  fold a in H1, H2, H3. destruct (stated_same n) as (Hv' & _ & Hn). pose proof (ok_names _ Hok) as Hnd.
  assert (Hlen : length (data_nodes (nodes (db a.2))) = 0%nat).
  { rewrite H3, upsert_data by done. rewrite data_of_stated, Hdn. unfold others. rewrite Hn, <- Hname. fold (others m (nodes (db w))).
    by rewrite data_alone. }
  split_and!; [done|by destruct (data_nodes _)|]. destruct (getInventory_code r' p' a.2 H2) as [_ ->]; [|by rewrite Hlen].
  rewrite H3. by apply upsert_roles; rewrite ?Hv'.
Qed.

End Kept.

(** ** The lines of the file *)

Lemma esc_ip_char a : ip_char a = true -> is_ascii a = true /\ esc_ascii a = str1 a.
Proof.
  intros Ha. assert (H : (negb (ip_char a) || (is_ascii a && String.eqb (esc_ascii a) (str1 a))) = true).
  { apply (all_ascii (fun a => negb (ip_char a) || (is_ascii a && String.eqb (esc_ascii a) (str1 a)))). vm_compute. reflexivity. }
  rewrite Ha in H. cbn [negb orb] in H. apply andb_prop in H as [H1 H2%String.eqb_eq]. done.
Qed.

Lemma yamlStr_address s : string_forall ip_char s = true -> yamlStr s = (dquote +:+ s +:+ dquote)%string.
Proof.
  intros Hs. unfold yamlStr, json_string. do 2 f_equal. induction s as [|a s IH]; [done|].
  cbn [string_forall] in Hs. apply andb_prop in Hs as [[Ha He]%esc_ip_char Hs]. cbn [json_escape].
  rewrite Ha, He, (IH Hs). done.
Qed.

Definition no_break (s : string) : bool := free_of (chr 10) s.

Lemma no_break_app s t : no_break (s +:+ t) = no_break s && no_break t.
Proof. apply string_forall_app. Qed.

Lemma no_break_impl p s : (forall a, negb (p a) || negb (Ascii.eqb a (chr 10)) = true) -> string_forall p s = true -> no_break s = true.
Proof. intros H. apply string_forall_impl. intros a Ha. specialize (H a). by rewrite Ha in H. Qed.

(** A node that [valideNode] accepts takes one line of the generated
    file and cannot leave it: its name is made of the characters of host names,
    its addresses are quoted as they are and hold neither quote nor break. *)
Theorem accepted_line n : valideNode n = None ->
  string_forall node_tail (Name n) = true /\ (1 <= String.length (Name n) <= 63)%nat /\
  exists rest, host_line n = line ("        " +:+ Name n +:+ ": { ansible_host: " +:+ dquote +:+ MgmtIP n +:+ dquote +:+ rest)%string /\
    no_break ("        " +:+ Name n +:+ ": { ansible_host: " +:+ dquote +:+ MgmtIP n +:+ dquote +:+ rest)%string = true /\
    string_forall ip_char (MgmtIP n) = true /\ string_forall ip_char (MgmtIP6 n) = true.
Proof.
  intros (Hname & _ & (ip & [H4 _]%ParseIP_inv) & H6)%valideNode_inv.
  assert (Hs6 : string_forall ip_char (MgmtIP6 n) = true) by (destruct H6 as [->|(? & [? _]%ParseIP_inv & _)]; done).
  assert (Hn : string_forall node_tail (Name n) = true /\ (1 <= String.length (Name n) <= 63)%nat).
  { unfold nomNode in Hname. destruct (Name n) as [|a t]; [done|]. apply andb_prop in Hname as [[Ha Ht]%andb_prop Hl%Nat.leb_le].
    cbn [string_forall String.length]. split; [|lia]. apply andb_true_intro. split; [|done]. unfold node_tail. by rewrite Ha. }
  split_and!; [apply Hn..|]. unfold host_line. rewrite !yamlStr_address by done. 
  eexists. split; [rewrite !string_app_assoc; reflexivity|]. split; [|done].
  assert (B1 : no_break (Name n) = true) by (eapply (no_break_impl node_tail), Hn; apply all_ascii; vm_compute; reflexivity).
  assert (B2 : forall s, string_forall ip_char s = true -> no_break s = true) by (intros s; apply no_break_impl, all_ascii; vm_compute; reflexivity).
  rewrite !no_break_app, B1, (B2 _ H4). case_bool_decide; [reflexivity|]. rewrite !no_break_app, (B2 _ Hs6). reflexivity.
Qed.

(** ** The settings *)

Lemma field_absent k l : members k l = [] -> Dataplane.field k l = JNull.
Proof.
  unfold members, Dataplane.field. generalize JNull. induction l as [|[x v] l IH]; intros acc; [done|].
  cbn [foldl]. rewrite filter_cons. cbn [fst]. case_decide as H; [done|]. apply not_true_is_false in H. rewrite H. apply IH.
Qed.

Lemma put_key_keys {A} k (v : A) m x : x ∈ fst <$> m -> x ∈ fst <$> put_key k v m.
Proof.
  intros Hx. unfold put_key, upsert. destruct (existsb _ m); [|rewrite fmap_app; apply elem_of_app; by left].
  apply list_elem_of_fmap in Hx as ([y z] & -> & Hin). cbn [fst].
  change (map ?f m) with (f <$> m). rewrite <- list_fmap_compose. apply list_elem_of_fmap. exists (y, z). split; [|done].
  cbn. destruct (String.eqb_spec y k); by subst.
Qed.

Lemma over_map_keys m v m' : over_map m v = Some m' -> v <> JNull -> forall x, x ∈ fst <$> m -> x ∈ fst <$> m'.
Proof.
  destruct v as [| | | | |l]; try done. cbn [over_map]. intros H _ x Hx. revert m Hx H.
  induction l as [|[k v] l IH]; intros m Hx; cbn [foldl]; [by intros [= <-]|].
  cbn [mbind option_bind fst snd]. destruct (dec_any v) as [a|]; cbn [mbind option_bind].
  - apply IH. by apply put_key_keys.
  - intros H. exfalso. clear -H. induction l as [|? l IH]; [done|]. by apply IH.
Qed.

Lemma over_members_keys l m m' : over_members over_map m l = Some m' -> JNull ∉ l -> forall x, x ∈ fst <$> m -> x ∈ fst <$> m'.
Proof.
  unfold over_members. intros H Hn x. revert m H. induction l as [|v l IH]; intros m; cbn [foldl]; [by intros [= <-]|].
  cbn [mbind option_bind]. apply not_elem_of_cons in Hn as [Hv Hn]. destruct (over_map m v) as [m1|] eqn:E.
  - intros H Hx. eapply (IH Hn); [exact H|]. eapply over_map_keys; [exact E|congruence|done].
  - intros H. exfalso. clear -H. induction l as [|? l IH]; [done|]. by apply IH.
Qed.

(** A member the body does not name keeps its value. *)
Definition kept_unless (l : list (string * json)) (x y : string * json) : Prop :=
  x.1 = y.1 /\ (members x.1 l = [] -> x.1 <> "seeded_from_env"%string -> x.2 = y.2).

Ltac keep_field :=
  apply Forall2_cons; split;
  [ split; [reflexivity|]; cbn [fst snd]; let Hm := fresh in intros Hm _; let Hf := fresh in
    first
    [ pose proof (field_absent _ _ Hm) as Hf;
      match goal with Hx : over _ _ (Dataplane.field _ _) = Some _ |- _ =>
        rewrite Hf in Hx; cbn [over] in Hx; injection Hx as <- end
    | match goal with Hx : over_members _ _ (members _ _) = Some _ |- _ =>
        rewrite Hm in Hx; cbn [over_members foldl] in Hx; injection Hx as <- end ];
    cbn; try reflexivity; try congruence; try (match goal with |- context [bool_decide ?P] => by destruct (bool_decide P) end)
  | ].

Lemma dec_settings_keeps old l s : settings_defaults old = old -> dec_settings old (JObj l) = Some s ->
  Forall2 (kept_unless l) (settings_fields old) (settings_fields (settings_row (settings_defaults s) old false)) /\
  (JNull ∉ members "extra_vars" l -> forall k, k ∈ fst <$> ExtraVars old -> k ∈ fst <$> ExtraVars s).
Proof.
  intros Hdef Hs. unfold dec_settings, dec_obj in Hs. cbv zeta in Hs.
  repeat (apply bind_Some in Hs as (? & ? & Hs)). injection Hs as <-. split.
  2:{ intros Hn. cbn [ExtraVars]. by eapply over_members_keys. }
  assert (D1 : AnsibleUser (settings_defaults old) = AnsibleUser old) by (by rewrite Hdef).
  assert (D2 : QueuePort (settings_defaults old) = QueuePort old) by (by rewrite Hdef).
  assert (D3 : ControlPort (settings_defaults old) = ControlPort old) by (by rewrite Hdef).
  assert (D4 : DataplanePort (settings_defaults old) = DataplanePort old) by (by rewrite Hdef).
  cbn in D1, D2, D3, D4. unfold settings_fields. do 26 keep_field.
  apply Forall2_cons. split; [by split|constructor].
Qed.

Section Partial.
Context {X : Type} {HC : Crypto} {HO : Collation}.

(** [putSettings] changes only what the body names: a setting it does
    not name keeps its value, and a free setting can be changed or added but
    not removed, unless [extra_vars] is [null]; any other answer than 200 leaves
    the settings as they are. *)
Theorem putSettings_partial r p (w : cworld X) l :
  quiet_w w -> settings_defaults (settings (db w)) = settings (db w) -> q_body r = inr (JObj l) ->
  let a := served (putSettings r p) w in
  (r_code a.1 <> 200 -> a.2 = w) /\
  (r_code a.1 = 200 ->
     Forall2 (kept_unless l) (settings_fields (settings (db w))) (settings_fields (settings (db a.2))) /\
     (JNull ∉ members "extra_vars" l ->
        forall k, k ∈ fst <$> ExtraVars (settings (db w)) -> k ∈ fst <$> ExtraVars (settings (db a.2)))).
Proof.
  intros Hq Hdef Hb. unfold served, putSettings. rewrite HM_bind_eq, or_db_LoadSettings by done. unfold decode.
  rewrite HM_bind_eq, Hb. destruct (dec_settings _ _) as [s|] eqn:Hs; [|split; done]. cbn [mret HM_ret].
  rewrite HM_bind_eq, or_db_SaveSettings by done. cbn zeta. destruct (settings_fit (settings_defaults s)); [|split; done].
  h_step. split; [done|]. intros _. destruct (dec_settings_keeps _ _ _ Hdef Hs) as [H1 H2]. by split.
Qed.

End Partial.

(** ** Runs *)

Import AccessDemo.

Definition platform_db : cdb :=
  set_nodes demo_nodes (with_keys [MkApiKey "k0" None "initial-platform" (HashKey "root key") 0 None] demo).
Definition platform_world : cworld unit := MkCw (MkPg platform_db []) ["abc"; "def"; "ghi"]%string false 0 tt.
Definition platform_request (path : list (string * string)) (body : json) : http_request :=
  MkHttp "POST" {[ "Authorization" := "Bearer root key" ]}%string ∅ (list_to_map path) ∅ (inr body) "192.0.2.1" 1000.
Definition node_body (name role ip : string) : json :=
  JObj [("name", JStr name); ("roles", JArr [JStr role]); ("mgmt_ip", JStr ip)]%string.
Abbreviation create := (createNode (X := unit) (fun _ => None) FormatInt).
Abbreviation routes := (registerInventory (X := unit) (fun _ => None) FormatInt FormatInt).

Lemma platform_db_ok : inventory_ok (nodes platform_db).
Proof.
  split; [apply (bool_decide_unpack _); vm_compute; exact I..|].
  vm_compute. lia.
Qed.

Definition new_edge : http_request := platform_request [] (node_body "lb4" "edge" "2001:db8::4").

Lemma inventory_kept_witness :
  r_code (served (platform create new_edge) platform_world).1 = 201 /\
  one_change (nodes (db platform_world)) (nodes (db (served (platform create new_edge) platform_world).2)) /\
  inventory_ok (nodes (db (served (platform create new_edge) platform_world).2)).
Proof.
  split; [vm_compute; reflexivity|].
  destruct (inventory_kept (fun _ => None) FormatInt FormatInt "POST /v1/nodes" create new_edge platform_world) as (_ & Hok & Ho & _);
    [by right; left|reflexivity|exact platform_db_ok|]. by split.
Defined.

Lemma inventory_generated_witness :
  r_code (served (getInventory FormatInt new_edge no_one) platform_world).1 = 200.
Proof.
  destruct (inventory_generated FormatInt new_edge no_one platform_world eq_refl platform_db_ok) as [_ ->].
  vm_compute. reflexivity.
Defined.

Definition second_data : http_request := platform_request [] (node_body "data2" "data" "10.0.0.9").
Definition blind_world : cworld unit := set_cw_pg (MkPg platform_db [(id, Refused (Err "timeout"))]) platform_world.

Lemma createNode_blind_witness :
  r_code (served (create second_data no_one) platform_world).1 = 409 /\
  let a := served (create second_data no_one) blind_world in
  r_code a.1 = 201 /\ length (data_nodes (nodes (db a.2))) = 2%nat /\
  r_code (served (getInventory FormatInt new_edge no_one) a.2).1 = 409.
Proof.
  split; [vm_compute; reflexivity|].
  apply (createNode_blind (fun _ => None) FormatInt FormatInt (Err "timeout") second_data no_one blind_world
    (node_body "data2" "data" "10.0.0.9") (MkNode "data2" ["data"%string] "10.0.0.9" EmptyString EmptyString EmptyString None)
    (MkNode "data1" ["queue"; "data"]%string "10.0.0.3" EmptyString "ready" EmptyString None));
    try reflexivity; [exact platform_db_ok|by right; right; right; left|discriminate].
Defined.

Definition taken_data : http_request := platform_request [] (node_body "data1" "edge" "10.0.0.3").

Lemma createNode_takes_data_witness :
  let a := served (create taken_data no_one) platform_world in
  r_code a.1 = 201 /\ data_nodes (nodes (db a.2)) = [] /\
  r_code (served (getInventory FormatInt new_edge no_one) a.2).1 = 409.
Proof.
  apply (createNode_takes_data (fun _ => None) FormatInt FormatInt taken_data no_one platform_world
    (node_body "data1" "edge" "10.0.0.3") (MkNode "data1" ["edge"%string] "10.0.0.3" EmptyString EmptyString EmptyString None)
    (MkNode "data1" ["queue"; "data"]%string "10.0.0.3" EmptyString "ready" EmptyString None));
    try reflexivity; [exact platform_db_ok|by right; right; right; left].
Defined.

Definition good_node : Node := MkNode "lb-4.paris" ["edge"; "queue"]%string "10.0.0.4" "2001:db8::4" "planned" "a note" None.

Lemma accepted_line_witness :
  valideNode good_node = None /\
  string_forall node_tail (Name good_node) = true /\ (1 <= String.length (Name good_node) <= 63)%nat /\
  exists rest, host_line good_node = line ("        " +:+ Name good_node +:+ ": { ansible_host: " +:+ dquote +:+ MgmtIP good_node +:+ dquote +:+ rest)%string /\
    no_break ("        " +:+ Name good_node +:+ ": { ansible_host: " +:+ dquote +:+ MgmtIP good_node +:+ dquote +:+ rest)%string = true /\
    string_forall ip_char (MgmtIP good_node) = true /\ string_forall ip_char (MgmtIP6 good_node) = true.
Proof. split; [vm_compute; reflexivity|]. apply (accepted_line good_node). vm_compute. reflexivity. Defined.

Definition some_settings : Settings :=
  settings_row (settings_defaults default_settings) default_settings false.
Definition set_world : cworld unit := set_cw_pg (MkPg (set_settings some_settings platform_db) []) platform_world.
Definition settings_body : list (string * json) :=
  [("image_tag", JStr "v2"); ("extra_vars", JObj [("haproxy_ticket_rate_limit", JNum "5")])]%string.

Lemma putSettings_partial_witness :
  let a := served (putSettings (platform_request [] (JObj settings_body)) no_one) set_world in
  r_code a.1 = 200 /\ ImageTag (settings (db a.2)) = "v2"%string /\
  Forall2 (kept_unless settings_body) (settings_fields (settings (db set_world))) (settings_fields (settings (db a.2))).
Proof.
  destruct (putSettings_partial (platform_request [] (JObj settings_body)) no_one set_world settings_body eq_refl eq_refl eq_refl)
    as [_ H].
  assert (Hc : r_code (served (putSettings (platform_request [] (JObj settings_body)) no_one) set_world).1 = 200) by (vm_compute; reflexivity).
  cbv zeta. split; [exact Hc|split; [vm_compute; reflexivity|exact (proj1 (H Hc))]].
Defined.
