(* ===== verification/Enrol.v ===== *)
(** * The enrolment of a machine

    [control/internal/api/enroll.go].  An operator creates a token, a bare
    machine fetches the script that token opens and then announces itself with
    it.  What is proved: a token opens the script for a quarter of an hour and
    until it has served; what the announcement records; and that two
    announcements at once both succeed. *)
From Stdlib Require Import Ascii.
From S2P Require Import Prelude GoStr Json Httpx Dataplane Net Pg Inventory Access Reads Nodes.

Local Open Scope list_scope.
Local Open Scope Z_scope.

(** ** Tokens in the database *)

Definition with_tokens (l : list enroll_row) (d : cdb) : cdb :=
  set_extras (MkExtras l (acme_accounts (extras_ d)) (acme_challenges (extras_ d))) d.
Definition tokens (d : cdb) : list enroll_row := enroll_tokens (extras_ d).

Definition enrollTTL : Z := 900.

(** The script is written with [~] for the double quote. *)
Definition script_text (s : string) : string := string_map (fun a => if Ascii.eqb a "~"%char then chr 34 else a) s.

(** [scriptEnrolement]: the template of the shell script; [text/template] puts
    the values as they are. *)
Definition scriptEnrolement (user base token options key probe : string) : string :=
  (script_text "#!/bin/sh
# Flyc — enrôlement de cette machine.
#
# Crée le compte de déploiement " +:+ user +:+ script_text ", y installe la clé PUBLIQUE de l'hôte control, puis
# annonce la machine. Rien d'autre : l'installation des paquets et des services viendra ensuite,
# par Ansible, depuis control. Aucun secret ne figure dans ce script.
set -eu

USER=" +:+ user +:+ script_text "
HOME_DIR=/var/lib/$USER
CONTROL='" +:+ base +:+ script_text "'
TOKEN='" +:+ token +:+ script_text "'
CLE='" +:+ options +:+ key +:+ script_text "'

[ ~$(id -u)~ = 0 ] || { echo ~à lancer en root : curl -fsSL … | sudo sh~ >&2; exit 1; }
command -v curl >/dev/null 2>&1 || { echo ~curl est requis~ >&2; exit 1; }

id ~$USER~ >/dev/null 2>&1 || useradd --system --shell /bin/bash --home-dir ~$HOME_DIR~ --create-home ~$USER~
# Aucun mot de passe : ce compte ne s'ouvre qu'avec la clé.
passwd -l ~$USER~ >/dev/null 2>&1 || true

install -d -m 0700 -o ~$USER~ -g ~$USER~ ~$HOME_DIR/.ssh~
printf '%s\n' ~$CLE~ > ~$HOME_DIR/.ssh/authorized_keys~
chmod 0600 ~$HOME_DIR/.ssh/authorized_keys~
chown ~$USER:$USER~ ~$HOME_DIR/.ssh/authorized_keys~

# Configurer une machine suppose d'installer des paquets et d'écrire dans /etc : une liste blanche
# serait un décor. Les restrictions utiles portent sur la clé, ci-dessus, pas sur cette ligne.
cat > /etc/sudoers.d/$USER <<EOF
# Écrit à l'enrôlement, puis maintenu par Ansible (rôle common) : ne pas modifier à la main.
$USER ALL=(root) NOPASSWD: ALL
Defaults:$USER !requiretty
EOF
chmod 0440 /etc/sudoers.d/$USER
visudo -cf /etc/sudoers.d/$USER >/dev/null

# Adresses annoncées : celles par lesquelles cette machine joint control, donc celles par
# lesquelles control la joindra. Lecture seule, aucune configuration réseau n'est touchée.
CIBLE='" +:+ probe +:+ script_text "'
IP4=$(ip -4 route get ~$CIBLE~ 2>/dev/null | sed -n 's/.* src \([0-9.]*\).*/\1/p' | head -1)
[ -n ~$IP4~ ] || IP4=$(ip -4 route get 1.1.1.1 2>/dev/null | sed -n 's/.* src \([0-9.]*\).*/\1/p' | head -1)
# Une adresse construite sur la MAC (ff:fe au milieu) ou temporaire est rarement celle qu'on veut
# voir dans un inventaire : on préfère une adresse posée à la main quand il y en a une.
IP6=$(ip -6 -o addr show scope global 2>/dev/null | awk '$2 != ~lo~ {print $4}' | cut -d/ -f1 | grep -v 'ff:fe' | head -1)
[ -n ~$IP6~ ] || IP6=$(ip -6 -o addr show scope global 2>/dev/null | awk '$2 != ~lo~ {print $4}' | cut -d/ -f1 | head -1)
HOTE=$(hostname -s)

echo ~flyc : compte $USER prêt sur $HOTE ($IP4${IP6:+, $IP6})~
curl -fsS -X POST -H 'Content-Type: application/json' \
  -d ~{\~hostname\~:\~$HOTE\~,\~mgmt_ip\~:\~$IP4\~,\~mgmt_ip6\~:\~${IP6:-}\~}~ \
  ~$CONTROL/enroll/$TOKEN/done~ >/dev/null
echo ~flyc : machine annoncée à control, elle apparaît dans l'interface~
")%string.

Section Enrol.
Context {X : Type} {HC : Crypto} {HO : Collation}.
(** What a request carries besides what [http_request] holds: the length of its
    body, whether it came over TLS, its host. *)
Context (content_length : http_request -> Z) (tls : http_request -> bool) (host : http_request -> string).
(** [FLYC_PUBLIC_URL], the path of the deployment key and what reading that file
    gives, when the request is handled. *)
Context (public_url key_path : string) (key_file : http_request -> goerr + string).
(** Identifiers, texts of identifiers, how a time is shown. *)
Context (gen : cdb -> string) (uuid : string -> option string) (show_time : Z -> string).

Abbreviation W := (cworld X).
Abbreviation handlerE := (@handler X).
Abbreviation HME := (@HM X).

Definition deployPubkey (r : http_request) : goerr + string :=
  match key_file r with
  | inl e => inl e
  | inr b =>
      let k := TrimSpace b in
      if negb (HasPrefix k "ssh-") && negb (HasPrefix k "ecdsa-")
      then inl (Err (key_path +:+ " ne ressemble pas à une clé publique SSH")%string) else inr k
  end.

(** The roles of the body: [None] is the nil slice. *)
Definition dec_roles : json -> option (option (list string)) := dec_obj (fun l =>
  match Dataplane.field "roles" l with JNull => Some None | v => Some <$> dec_list dec_string v end).

Definition roles_json (roles : option (list string)) : json :=
  match roles with Some l => JArr (map JStr l) | None => JNull end.

(** The insertion: a nil slice is a null, which the column refuses. *)
Definition insert_token (hash : string) (roles : option (list string)) (by_ : string) (d : cdb) : goerr + ((string * Z) * cdb) :=
  match roles with
  | None => inl (ErrPg "23502" "roles")
  | Some roles =>
      if existsb (fun x => String.eqb (et_hash x) hash) (tokens d) then inl (ErrPg "23505" "enroll_tokens_token_hash_key")
      else let exp := clock d + enrollTTL in
           inr ((gen d, exp), with_tokens (tokens d ++
             [MkEnroll (gen d) hash roles by_ (clock d) exp None EmptyString EmptyString EmptyString]) d)
  end.

Definition enrollBase (r : http_request) : string :=
  let u := TrimRight1 "/"%char public_url in
  if bool_decide (u = EmptyString) then ((if tls r then "https" else "http") +:+ "://" +:+ host r)%string else u.

Definition actor (p : principal) : string :=
  match p_user p with
  | Some u => Email u
  | None => if bool_decide (p_keyID p = EmptyString) then "inconnu"%string else ("clé " +:+ p_keyID p)%string
  end.

Definition createEnrollToken : handlerE := fun r p =>
  roles ← (if 0 <? content_length r then decode r dec_roles else mret None);
  match deployPubkey r with
  | inl e => reply (Error 503 "no_deploy_key" ("clé de déploiement introuvable : " +:+ error_text e)%string)
  | inr _ =>
      brut ← drawn;
      let token := hex_encode brut in
      row ← or_db (Exec (insert_token (hashToken token) roles (actor p)));
      audit p "enroll.token" (JObj [("id", JStr row.1); ("roles", roles_json roles)]%string) ≫= fun _ =>
      let url := (enrollBase r +:+ "/enroll/" +:+ token)%string in
      mret (JSON 201 (JObj [("command", JStr ("curl -fsSL " +:+ url +:+ " | sudo sh"));
                            ("expires_at", JTime show_time row.2); ("id", JStr row.1); ("url", JStr url)]%string))
  end.

Definition newer : relation enroll_row := fun x y => et_created y <= et_created x.
#[export] Instance newer_dec : RelDecision newer.
Proof. intros x y. unfold newer. apply _. Defined.

Definition q_tokens (d : cdb) : list enroll_row :=
  take 50 (merge_sort newer (base.filter (fun x => is_Some (et_used x) \/ clock d < et_expires x) (tokens d))).

Definition token_item (x : enroll_row) : json :=
  JObj [("created_at", JTime show_time (et_created x)); ("created_by", JStr (et_by x)); ("expires_at", JTime show_time (et_expires x));
        ("hostname", JStr (et_hostname x)); ("id", JStr (et_id x)); ("mgmt_ip", JStr (et_ip x)); ("mgmt_ip6", JStr (et_ip6 x));
        ("roles", JArr (map JStr (et_roles x))); ("used_at", JOpt (JTime show_time) (et_used x))]%string.

(** The first row that does not scan answers; [rows.Err()] is not looked at. *)
Definition listEnrollTokens : handlerE := fun r p =>
  rows ← or_db (Query q_tokens);
  match scan_all rows.1 with
  | inl e => reply (dbErr e)
  | inr l => mret (JSON 200 (JArr (map token_item l)))
  end.

Definition delete_token (text : string) (d : cdb) : goerr + (bool * cdb) :=
  match uuid text with
  | None => inl (ErrPg "22P02" "invalid input syntax for type uuid")
  | Some i => inr (existsb (fun x => String.eqb (et_id x) i) (tokens d),
                   with_tokens (base.filter (fun x => et_id x <> i) (tokens d)) d)
  end.

Definition deleteEnrollToken : handlerE := fun r p =>
  found ← or_db (Exec (delete_token (PathValue "id" r)));
  require found (Error 404 "not_found" "aucun jeton de ce nom") ≫= fun _ =>
  audit p "enroll.token.delete" (JObj [("id"%string, JStr (PathValue "id" r))]) ≫= fun _ =>
  mret (MkResp 204 [] [] NoBody).

(** ** The routes without authentication *)

Definition token_live (now : Z) (x : enroll_row) : bool := bool_decide (et_used x = None) && (now <? et_expires x).

Definition q_token (hash : string) (d : cdb) : option string :=
  x ← by_id et_hash hash (tokens d); if token_live (clock d) x then Some (et_id x) else None.

Definition lookupToken (r : http_request) : M W string :=
  at_pg (QueryRow (q_token (hashToken (PathValue "token" r)))).

Definition enrollScript (r : http_request) : HME resp :=
  attempt (fun _ => http_Error ("# jeton inconnu, expiré ou déjà utilisé" +:+ newline +:+ "exit 1" +:+ newline)%string 404)
    (lookupToken r) ≫= fun _ =>
  match deployPubkey r with
  | inl _ => reply (http_Error ("# clé de déploiement indisponible sur l'hôte control" +:+ newline +:+ "exit 1" +:+ newline)%string 503)
  | inr key =>
      s ← attempt (fun _ => http_Error ("# réglages illisibles" +:+ newline +:+ "exit 1" +:+ newline)%string 500) (at_pg LoadSettings);
      let base := "no-agent-forwarding,no-port-forwarding,no-X11-forwarding,no-user-rc "%string in
      let options := if bool_decide (DeployFrom s = EmptyString) then base
                     else ("from=" +:+ dquote +:+ DeployFrom s +:+ dquote +:+ "," +:+ base)%string in
      let probe := if bool_decide (DeployFrom s = EmptyString) || Contains (DeployFrom s) "," then "1.1.1.1"%string else DeployFrom s in
      mret (MkResp 200 [("Content-Type", "text/x-shellscript; charset=utf-8")]%string []
              (BText (scriptEnrolement (AnsibleUser s) (enrollBase r) (PathValue "token" r) options key probe)))
  end.

Record enrollDoneInput : Type := MkDone { ed_hostname : string; ed_ip : string; ed_ip6 : string }.
Definition dec_done : json -> option enrollDoneInput := dec_obj (fun l =>
  h ← dec_string (Dataplane.field "hostname" l); i ← dec_string (Dataplane.field "mgmt_ip" l);
  j ← dec_string (Dataplane.field "mgmt_ip6" l); Some (MkDone h i j)).

(** The machine is recorded on the row of the token. *)
Definition announced (now : Z) (i : enrollDoneInput) (x : enroll_row) : enroll_row :=
  MkEnroll (et_id x) (et_hash x) (et_roles x) (et_by x) (et_created x) (et_expires x) (Some now)
    (ed_hostname i) (ed_ip i) (ed_ip6 i).
Definition use_token (id : string) (i : enrollDoneInput) (d : cdb) : cdb :=
  with_tokens (map (fun x => if String.eqb (et_id x) id then announced (clock d) i x else x) (tokens d)) d.

(** An address that is not one is dropped when it is the IPv6 one. *)
Definition clean_ip6 (i : enrollDoneInput) : enrollDoneInput :=
  if negb (bool_decide (ed_ip6 i = EmptyString)) && ipv6_fault (ed_ip6 i) then MkDone (ed_hostname i) (ed_ip i) EmptyString else i.

Definition enrollDone (r : http_request) : HME resp :=
  id ← attempt (fun e => match e with ErrNoRows => Error 404 "not_found" "jeton inconnu, expiré ou déjà utilisé" | _ => dbErr e end)
         (lookupToken r);
  i ← decode r dec_done;
  require (negb (bool_decide (ParseIP (ed_ip i) = None))) (Error 400 "invalid" "mgmt_ip n'est pas une adresse IP") ≫= fun _ =>
  let i := clean_ip6 i in
  or_db (Exec_ (use_token id i)) ≫= fun _ =>
  mret (JSON 200 (JObj [("hostname", JStr (ed_hostname i)); ("status", JStr "enrolled")]%string)).

(** As mounted: the three first behind [platform]. *)
Definition registerEnroll : list (string * handlerE) :=
  [("POST /v1/enroll/tokens", createEnrollToken); ("GET /v1/enroll/tokens", listEnrollTokens);
   ("DELETE /v1/enroll/tokens/{id}", deleteEnrollToken)]%string.

End Enrol.

(** ** The life of a token *)

Section Life.
Context {X : Type} {HC : Crypto} {HO : Collation}.
Context (content_length : http_request -> Z) (tls : http_request -> bool) (host : http_request -> string).
Context (public_url key_path : string) (key_file : http_request -> goerr + string).
Context (gen : cdb -> string) (show_time : Z -> string).

Abbreviation W := (cworld X).
Abbreviation create := (createEnrollToken (X := X) content_length tls host public_url key_path key_file gen show_time).
Abbreviation script := (enrollScript (X := X) tls host public_url key_path key_file).
Abbreviation base := (enrollBase tls host public_url).
Abbreviation pubkey := (deployPubkey key_path key_file).

Definition member_of (k : string) (a : resp) : json :=
  match r_body a with BJson (JObj l) => Dataplane.field k l | _ => JNull end.

Lemma create_inv r p (w : W) : quiet_w w -> r_code (served (create r p) w).1 = 201 ->
  exists key roles, pubkey r = inr key /\
    let token := hex_encode (default EmptyString (List.hd_error (cw_rand w))) in
    let w1 := (served (create r p) w).2 in
    quiet_w w1 /\ member_of "url" (served (create r p) w).1 = JStr (base r +:+ "/enroll/" +:+ token)%string /\
    member_of "id" (served (create r p) w).1 = JStr (gen (db w)) /\
    by_id et_hash (hashToken token) (tokens (db w)) = None /\
    tokens (db w1) = tokens (db w) ++ [MkEnroll (gen (db w)) (hashToken token) roles (actor p) (clock (db w))
      (clock (db w) + enrollTTL) None EmptyString EmptyString EmptyString].
Proof.
  intros Hq. unfold served, createEnrollToken.
  set (b := if 0 <? content_length r then _ else _).
  assert (Hb : exists x, b w = (x, w) /\ (forall a, x = inl a -> r_code a = 400)).
  { unfold b, decode. destruct (0 <? _); [|by eexists]. destruct (q_body r) as [e|v]; [eexists; split; [done|by intros a [= <-]]|].
    destruct (dec_roles v); eexists; (split; [reflexivity|]); [done|by intros a [= <-]]. }
  destruct Hb as (x & Hb & Hx). rewrite HM_bind_eq, Hb. destruct x as [a|roles]; [cbn [fst]; intros H; by rewrite (Hx a eq_refl) in H|].
  destruct (pubkey r) as [e|key] eqn:Hk; [done|]. rewrite HM_bind_eq, drawn_eq. rewrite HM_bind_eq, or_db_exec by done. rewrite db_draw.
  set (token := hex_encode _).
  destruct (insert_token gen (hashToken token) roles (actor p) (db w)) as [e|[row d']] eqn:Hi.
  { unfold insert_token in Hi. destruct roles; [destruct (existsb _ _); [|done]|]; by injection Hi as <-. }
  unfold insert_token in Hi. destruct roles as [roles|]; [|done]. destruct (existsb _ (tokens (db w))) eqn:He; [done|].
  injection Hi as <- <-. h_step. intros _. exists key, roles.
  assert (Hn : by_id et_hash (hashToken token) (tokens (db w)) = None).
  { apply by_id_None. intros (y & Hy & Hin)%list_elem_of_fmap. apply not_true_iff_false in He. apply He, existsb_exists. exists y.
    split; [by apply list_elem_of_In|]. by apply String.eqb_eq. }
  by split_and!.
Qed.

(** What a look at a token gives. *)
Lemma lookup_eq r (w : W) : quiet_w w ->
  lookupToken r w = (match q_token (hashToken (PathValue "token" r)) (db w) with Some i => inr i | None => inl ErrNoRows end, w).
Proof. intros Hq. unfold lookupToken. by rewrite at_pg_query. Qed.

Definition script_found (r : http_request) : Z := match pubkey r with inr _ => 200 | inl _ => 503 end.

Lemma script_code r (w : W) : quiet_w w ->
  served (script r) w = ((served (script r) w).1, w) /\
  r_code (served (script r) w).1 = match q_token (hashToken (PathValue "token" r)) (db w) with Some _ => script_found r | None => 404 end.
Proof.
  intros Hq. unfold script_found, served, enrollScript. rewrite HM_bind_eq. unfold attempt. rewrite lookup_eq by done.
  destruct (q_token _ _); [|done]. destruct (pubkey r); [done|]. rewrite HM_bind_eq. unfold LoadSettings. rewrite at_pg_query by done. done.
Qed.

Lemma by_id_used i id f l : (forall x, et_hash (f x) = et_hash x) ->
  by_id et_hash i (map (fun x => if String.eqb (et_id x) id then f x else x) l) =
  (fun x => if String.eqb (et_id x) id then f x else x) <$> by_id et_hash i l.
Proof.
  intros Hf. induction l as [|x l IH]; [done|]. cbn [map]. rewrite !by_id_cons, IH.
  assert (E : et_hash (if String.eqb (et_id x) id then f x else x) = et_hash x) by (destruct (String.eqb _ _); [apply Hf|done]).
  rewrite E. by case_decide.
Qed.

(** A machine that announces itself with a good address. *)
Lemma done_quiet r (w : W) v i id : quiet_w w -> q_body r = inr v -> dec_done v = Some i -> ParseIP (ed_ip i) <> None ->
  q_token (hashToken (PathValue "token" r)) (db w) = Some id ->
  r_code (served (enrollDone r) w).1 = 200 /\ quiet_w (served (enrollDone r) w).2 /\
  db (served (enrollDone r) w).2 = use_token id (clean_ip6 i) (db w).
Proof.
  intros Hq Hb Hd Hip Ht. unfold served, enrollDone. rewrite HM_bind_eq. unfold attempt. rewrite lookup_eq by done. rewrite Ht.
  unfold decode. rewrite HM_bind_eq, Hb, Hd. cbn [mret HM_ret]. rewrite HM_bind_eq, require_eq, bool_decide_false by done. cbn [negb].
  h_step. done.
Qed.

Lemma done_refused r (w : W) : quiet_w w -> q_token (hashToken (PathValue "token" r)) (db w) = None ->
  served (enrollDone r) w = (Error 404 "not_found" "jeton inconnu, expiré ou déjà utilisé", w).
Proof. intros Hq Ht. unfold served, enrollDone. rewrite HM_bind_eq. unfold attempt. rewrite lookup_eq by done. by rewrite Ht. Qed.

Lemma used_refused h id i d d2 : q_token h d = Some id -> tokens d2 = tokens (use_token id i d) -> q_token h d2 = None.
Proof.
  unfold q_token at 1. destruct (by_id et_hash h (tokens d)) as [x|] eqn:Hx; [|done]. cbn [mbind option_bind].
  destruct (token_live _ x); [|done]. intros [= <-] Ht. unfold q_token. rewrite Ht.
  change (tokens (use_token (et_id x) i d)) with (map (fun y => if String.eqb (et_id y) (et_id x) then announced (clock d) i y else y) (tokens d)).
  rewrite by_id_used by done. rewrite Hx. cbn. by rewrite String.eqb_refl.
Qed.

Lemma clean_keeps i : ed_hostname (clean_ip6 i) = ed_hostname i /\ ed_ip (clean_ip6 i) = ed_ip i.
Proof. unfold clean_ip6. by destruct (_ && _). Qed.

(** A token that serves no more, or does not serve yet: neither the script nor
    an announcement, and nothing changes. *)
Definition serves_nothing (token : string) (w : W) : Prop :=
  forall r, PathValue "token" r = token ->
    r_code (served (script r) w).1 = 404 /\ (served (script r) w).2 = w /\
    r_code (served (enrollDone r) w).1 = 404 /\ (served (enrollDone r) w).2 = w.

Lemma unknown_serves_nothing token (w : W) : quiet_w w -> q_token (hashToken token) (db w) = None -> serves_nothing token w.
Proof.
  intros Hq Hn r Hr. destruct (script_code r w Hq) as [-> Hc]. rewrite Hr, Hn in Hc.
  rewrite done_refused by (done || by rewrite Hr). by split_and!.
Qed.

Lemma by_id_without (f : enroll_row -> Prop) `{forall x, Decision (f x)} h l x : by_id et_hash h l = None -> ~ f x ->
  by_id et_hash h (base.filter f (l ++ [x])) = None.
Proof.
  intros Hn Hx. rewrite filter_app, filter_cons, decide_False, app_nil_r by done. apply by_id_None.
  intros (y & Hy & [_ Hin]%list_elem_of_filter)%list_elem_of_fmap. apply by_id_None in Hn. apply Hn, list_elem_of_fmap. by exists y.
Qed.

(** An operator who deletes the token by its identifier. *)
Lemma delete_quiet uuid r p (w : W) x : quiet_w w -> uuid (PathValue "id" r) = Some (et_id x) -> x ∈ tokens (db w) ->
  r_code (served (deleteEnrollToken uuid r p) w).1 = 204 /\ quiet_w (served (deleteEnrollToken uuid r p) w).2 /\
  tokens (db (served (deleteEnrollToken uuid r p) w).2) = base.filter (fun y => et_id y <> et_id x) (tokens (db w)).
Proof.
  intros Hq Hu Hx. unfold served, deleteEnrollToken. h_step. unfold delete_token. rewrite Hu.
  assert (E : existsb (fun y => String.eqb (et_id y) (et_id x)) (tokens (db w)) = true).
  { apply existsb_exists. exists x. split; [by apply list_elem_of_In|apply String.eqb_refl]. }
  rewrite HM_bind_eq, require_eq, E. h_step. done.
Qed.

(** Claim C22: before it is made a token serves nothing.  Once made, it opens the
    script and an announcement with it is recorded, for a quarter of an hour;
    afterwards, once it has been deleted by its identifier, and once an
    announcement has been answered, it serves nothing: the announcements are
    taken one after the other here, two at once are both recorded
    ([enrollDone_twice]).  What the machine announced is on the token's row. *)
Theorem token_life uuid r p (w : W) a w1 r2 (w2 : W) token v i (w3 : W) r4 p4 :
  quiet_w w -> served (create r p) w = (a, w1) -> r_code a = 201 ->
  token = hex_encode (default EmptyString (List.hd_error (cw_rand w))) ->
  quiet_w w2 -> tokens (db w2) = tokens (db w1) -> PathValue "token" r2 = token ->
  q_body r2 = inr v -> dec_done v = Some i -> ParseIP (ed_ip i) <> None ->
  quiet_w w3 -> tokens (db w3) = tokens (db (served (enrollDone r2) w2).2) ->
  member_of "id" a = JStr (PathValue "id" r4) -> uuid (PathValue "id" r4) = Some (PathValue "id" r4) ->
  let live := clock (db w2) <? clock (db w) + enrollTTL in
  serves_nothing token w /\
  member_of "url" a = JStr (base r +:+ "/enroll/" +:+ token)%string /\
  r_code (served (script r2) w2).1 = (if live then script_found r2 else 404) /\
  r_code (served (enrollDone r2) w2).1 = (if live then 200 else 404) /\
  (live = false -> serves_nothing token w2) /\
  (live = true ->
     (exists x, x ∈ tokens (db w3) /\ et_hash x = hashToken token /\ et_used x = Some (clock (db w2)) /\
        et_hostname x = ed_hostname i /\ et_ip x = ed_ip i) /\
     serves_nothing token w3) /\
  (let '(a4, w4) := served (deleteEnrollToken uuid r4 p4) w2 in
   r_code a4 = 204 /\ forall w5, quiet_w w5 -> tokens (db w5) = tokens (db w4) -> serves_nothing token w5).
Proof.
  intros Hq Hs Ha Htok Hq2 Ht2 Hp2 Hb Hd Hip Hq3 Ht3 Hid Huuid live.
  destruct (create_inv r p w Hq) as (key & roles & Hk & Hq1 & Hurl & Hrid & Hnone & Hadd); [by rewrite Hs|]. rewrite Hs in Hq1, Hurl, Hrid, Hadd.
  cbn [fst snd] in Hurl, Hrid, Hadd. rewrite <- Htok in Hurl, Hnone, Hadd. rewrite Hid in Hrid. injection Hrid as Hrid.
  set (x0 := MkEnroll _ _ _ _ _ _ _ _ _ _) in Hadd.
  assert (Hrow : by_id et_hash (hashToken token) (tokens (db w1)) = Some x0) by (by rewrite Hadd, by_id_app, Hnone, by_id_cons, decide_True).
  assert (Hqt : q_token (hashToken token) (db w2) = if live then Some (et_id x0) else None).
  { unfold q_token. rewrite Ht2, Hrow. cbn [mbind option_bind]. unfold token_live, live. by rewrite bool_decide_true. }
  split; [apply unknown_serves_nothing; [done|]; unfold q_token; by rewrite Hnone|].
  split; [done|]. split; [destruct (script_code r2 w2 Hq2) as [_ ->]; rewrite Hp2, Hqt; by destruct live|].
  assert (Hin : x0 ∈ tokens (db w2)) by (rewrite Ht2; by apply by_id_elem in Hrow as [Hin _]).
  assert (Hdone : live = true -> r_code (served (enrollDone r2) w2).1 = 200 /\ db (served (enrollDone r2) w2).2 = use_token (et_id x0) (clean_ip6 i) (db w2)).
  { intros Hl. rewrite Hl in Hqt. destruct (done_quiet r2 w2 v i (et_id x0) Hq2 Hb Hd Hip) as (H1 & _ & H2); [by rewrite Hp2|done]. }
  split; [|split; [|split]].
  - destruct live; [by apply Hdone|]. by rewrite done_refused by (done || by rewrite Hp2).
  - intros Hl. rewrite Hl in Hqt. by apply unknown_serves_nothing.
  - intros Hl. destruct (Hdone Hl) as [_ Hdb]. rewrite Hl in Hqt. rewrite Hdb in Ht3.
    split; [|apply unknown_serves_nothing; [done|by eapply used_refused]].
    destruct (clean_keeps i) as [Hc1 Hc2]. exists (announced (clock (db w2)) (clean_ip6 i) x0). split; [|by split_and!]. rewrite Ht3.
    apply (list_elem_of_fmap_2 (fun y => if String.eqb (et_id y) (et_id x0) then announced (clock (db w2)) (clean_ip6 i) y else y)) in Hin.
    rewrite String.eqb_refl in Hin. exact Hin.
  - destruct (delete_quiet uuid r4 p4 w2 x0 Hq2) as (Hc4 & _ & Ht4); [by rewrite Huuid, Hrid|done|].
    destruct (served (deleteEnrollToken uuid r4 p4) w2) as [a4 w4]. cbn [fst snd] in Hc4, Ht4. split; [done|].
    intros w5 Hq5 Ht5. apply unknown_serves_nothing; [done|]. unfold q_token. rewrite Ht5, Ht4, Ht2, Hadd.
    by rewrite by_id_without by (done || by intros H).
Qed.

(** The same world, with the tables [d] and nobody else on them. *)
Definition alone (w : W) (d : cdb) : W := set_cw_pg (MkPg d []) w.

(** The update that consumes a token does not look whether it has been
    used since it was looked up: of two announcements with the same token, one
    during the other, both are answered 200, and the row tells of the machine
    whose update came last. *)
Theorem enrollDone_twice r1 r2 (w w0 : W) token v1 v2 i1 i2 id :
  sched (cw_pg w) = [(Datatypes.id, Served); (fun d => db (served (enrollDone r2) (alone w0 d)).2, Served)] ->
  PathValue "token" r1 = token -> PathValue "token" r2 = token -> q_token (hashToken token) (db w) = Some id ->
  q_body r1 = inr v1 -> dec_done v1 = Some i1 -> ParseIP (ed_ip i1) <> None ->
  q_body r2 = inr v2 -> dec_done v2 = Some i2 -> ParseIP (ed_ip i2) <> None ->
  let a := served (enrollDone r1) w in
  r_code (served (enrollDone r2) (alone w0 (db w))).1 = 200 /\ r_code a.1 = 200 /\
  exists x, by_id et_hash (hashToken token) (tokens (db a.2)) = Some x /\ et_hostname x = ed_hostname i1 /\ et_ip x = ed_ip i1.
Proof.
  intros Hs Hp1 Hp2 Ht Hb1 Hd1 Hip1 Hb2 Hd2 Hip2.
  destruct (done_quiet r2 (alone w0 (db w)) v2 i2 id eq_refl Hb2 Hd2 Hip2) as (H2 & _ & Hdb); [by rewrite Hp2|].
  split; [done|]. set (other := fun d => db (served (enrollDone r2) (alone w0 d)).2) in *.
  assert (L : lookupToken r1 w = (inr id, set_cw_pg (MkPg (db w) [(other, Served)]) w)).
  { unfold lookupToken, at_pg, zoom, QueryRow, turn. rewrite Hs, Hp1. unfold Datatypes.id. fold (db w). by rewrite Ht. }
  unfold served, enrollDone. rewrite HM_bind_eq. unfold attempt. rewrite L.
  unfold decode. rewrite HM_bind_eq, Hb1, Hd1. cbn [mret HM_ret]. rewrite HM_bind_eq, require_eq, bool_decide_false by done. cbn [negb].
  rewrite HM_bind_eq. unfold or_db, attempt, at_pg, zoom, Exec_, Exec, turn. cbn [set_cw_pg cw_pg sched tables fst snd].
  split; [done|]. destruct (clean_keeps i1) as [<- <-]. change (db _) with (use_token id (clean_ip6 i1) (other (db w))).
  unfold q_token in Ht. destruct (by_id et_hash _ (tokens (db w))) as [x|] eqn:Hx; [|done]. cbn [mbind option_bind] in Ht.
  destruct (token_live _ x); [|done]. injection Ht as <-.
  exists (announced (clock (other (db w))) (clean_ip6 i1) (announced (clock (db w)) (clean_ip6 i2) x)). split; [|done].
  unfold use_token. change (tokens (with_tokens ?l ?d)) with l. rewrite by_id_used by done.
  change (other (db w)) with (db (served (enrollDone r2) (alone w0 (db w))).2). rewrite Hdb.
  change (tokens (use_token (et_id x) (clean_ip6 i2) (db (alone w0 (db w))))) with
    (map (fun y => if String.eqb (et_id y) (et_id x) then announced (clock (db w)) (clean_ip6 i2) y else y) (tokens (db w))).
  rewrite by_id_used by done. rewrite Hx. cbn. rewrite String.eqb_refl. cbn. by rewrite String.eqb_refl.
Qed.

(** The roles of a token are documented as optional; without them the
    nil slice is a null the column refuses, and the creation is answered 500. *)
Theorem create_needs_roles r p (w : W) key : quiet_w w -> content_length r = 0 -> pubkey r = inr key ->
  r_code (served (create r p) w).1 = 500 /\ db (served (create r p) w).2 = db w.
Proof.
  intros Hq Hl Hk. unfold served, createEnrollToken. rewrite Hl. rewrite HM_bind_eq. cbn [Z.ltb Z.compare mret HM_ret].
  rewrite Hk, HM_bind_eq, drawn_eq, HM_bind_eq, or_db_exec by done. done.
Qed.

End Life.

(** ** A run *)

Import AccessDemo.

Definition ops : principal := MkPrincipal "k0" EmptyString EmptyString true EmptyString None false.
Abbreviation toy_create := (createEnrollToken (X := unit) (fun _ => 20) (fun _ => true) (fun _ => "control.example"%string) EmptyString
  "/etc/flyc/deploy.pub" (fun _ => inr "ssh-ed25519 AAAA control"%string) (fun d => FormatInt (Z.of_nat (length (tokens d)))) FormatInt).
Abbreviation toy_script := (enrollScript (X := unit) (fun _ => true) (fun _ => "control.example"%string) EmptyString
  "/etc/flyc/deploy.pub" (fun _ => inr "ssh-ed25519 AAAA control"%string)).

Definition ask : http_request := platform_request [] (JObj [("roles"%string, JArr [JStr "edge"])]).
Definition enrolling : cworld unit := (served (toy_create ask ops) platform_world).2.
Definition toy_token : string := hex_encode "abc".
Definition announce_body (name ip : string) : json := JObj [("hostname", JStr name); ("mgmt_ip", JStr ip)]%string.
Definition announcing (name ip : string) : http_request := platform_request [("token"%string, toy_token)] (announce_body name ip).
Definition enrolled : cworld unit := (served (enrollDone (announcing "lb9" "10.0.0.9")) enrolling).2.

Definition dropped : cworld unit := (served (deleteEnrollToken Some (platform_request [("id", "0")]%string JNull) ops) enrolling).2.

Lemma token_life_witness :
  r_code (served (toy_create ask ops) platform_world).1 = 201 /\
  r_code (served (toy_script (announcing "lb9" "10.0.0.9")) enrolling).1 = 200 /\
  r_code (served (enrollDone (announcing "lb9" "10.0.0.9")) enrolling).1 = 200 /\
  r_code (served (toy_script (announcing "lb9" "10.0.0.9")) enrolled).1 = 404 /\
  r_code (served (toy_script (announcing "lb9" "10.0.0.9")) dropped).1 = 404.
Proof.
  assert (H0 : r_code (served (toy_create ask ops) platform_world).1 = 201) by (vm_compute; reflexivity).
  pose proof (token_life (X := unit) (fun _ => 20) (fun _ => true) (fun _ => "control.example"%string) EmptyString
    "/etc/flyc/deploy.pub" (fun _ => inr "ssh-ed25519 AAAA control"%string) (fun d => FormatInt (Z.of_nat (length (tokens d)))) FormatInt
    Some ask ops platform_world (served (toy_create ask ops) platform_world).1 enrolling
    (announcing "lb9" "10.0.0.9") enrolling toy_token (announce_body "lb9" "10.0.0.9") (MkDone "lb9" "10.0.0.9" EmptyString)
    enrolled (platform_request [("id", "0")]%string JNull) ops
    eq_refl (surjective_pairing _) H0 eq_refl eq_refl eq_refl eq_refl eq_refl eq_refl) as H.
  destruct H as (_ & _ & H1 & H2 & _ & H3 & H4); [discriminate|reflexivity|reflexivity|vm_compute; reflexivity|reflexivity|].
  split; [exact H0|]. split; [exact H1|]. split; [exact H2|]. split.
  - apply (proj2 (H3 eq_refl) (announcing "lb9" "10.0.0.9")). reflexivity.
  - assert (Hq4 : quiet_w dropped) by reflexivity. revert Hq4 H4. unfold dropped.
    destruct (served (deleteEnrollToken Some _ ops) enrolling) as [a4 w4]. cbn [snd]. intros Hq4 [_ H4].
    apply (H4 w4 Hq4 eq_refl (announcing "lb9" "10.0.0.9") eq_refl).
Defined.

Definition raced : cworld unit :=
  set_cw_pg (MkPg (db enrolling) [(Datatypes.id, Served);
    (fun d => db (served (enrollDone (announcing "intruder" "192.0.2.66")) (alone platform_world d)).2, Served)]) enrolling.

Lemma enrollDone_twice_witness :
  r_code (served (enrollDone (announcing "intruder" "192.0.2.66")) (alone platform_world (db raced))).1 = 200 /\
  r_code (served (enrollDone (announcing "lb9" "10.0.0.9")) raced).1 = 200.
Proof.
  destruct (enrollDone_twice (X := unit) (announcing "lb9" "10.0.0.9") (announcing "intruder" "192.0.2.66") raced platform_world
    toy_token (announce_body "lb9" "10.0.0.9") (announce_body "intruder" "192.0.2.66")
    (MkDone "lb9" "10.0.0.9" EmptyString) (MkDone "intruder" "192.0.2.66" EmptyString) "0") as (H1 & H2 & _);
    try reflexivity; try discriminate; split; assumption.
Defined.

Lemma create_needs_roles_witness :
  r_code (served (createEnrollToken (X := unit) (fun _ => 0) (fun _ => true) (fun _ => "control.example"%string) EmptyString
    "/etc/flyc/deploy.pub" (fun _ => inr "ssh-ed25519 AAAA control"%string) (fun d => EmptyString) FormatInt ask ops) platform_world).1 = 500.
Proof.
  apply (create_needs_roles (X := unit) (fun _ => 0) (fun _ => true) (fun _ => "control.example"%string) EmptyString
    "/etc/flyc/deploy.pub" (fun _ => inr "ssh-ed25519 AAAA control"%string) (fun d => EmptyString) FormatInt ask ops platform_world
    "ssh-ed25519 AAAA control"); reflexivity.
Defined.

(** The script, with the values of the run at their places. *)
Example script_lines :
  match r_body (served (toy_script (announcing "lb9" "10.0.0.9")) enrolling).1 with
  | BText s => Contains s "CONTROL='https://control.example'" && Contains s "TOKEN='616263'"
               && Contains s "no-user-rc ssh-ed25519 AAAA control'" && Contains s "CIBLE='1.1.1.1'" = true
  | _ => False
  end.
Proof. vm_compute. reflexivity. Qed.
