(* ===== verification/JobsApi.v ===== *)
(** * The routes of the operations and the streaming of a journal

    [control/internal/api/jobs.go], and [Tail] and [waitForLog] of
    [control/internal/jobs/jobs.go].  The journal is a file the runner appends
    to while it is read; its lines go to the browser as events.  What is
    proved: the events do not depend on how the journal is cut into reads; what
    has been sent when the stream ends; that it ends; and that the end of a journal may be
    missed. *)
From Stdlib Require Import Ascii.
From S2P Require Import Prelude GoStr F64 Json Httpx Dataplane Pg Inventory Jobs Access Reads Nodes Enrol.

Local Open Scope list_scope.
Local Open Scope Z_scope.

(** ** Events: [sseWriter] *)

(** The connection: what has been sent, and how the next writes fare. *)
Record conn : Type := MkConn { sent : string; wfaults : list (option goerr) }.
Record sse : Type := MkSse { rest : string; out : conn }.

Definition put (s : string) : M conn unit := fun c =>
  match wfaults c with
  | Some e :: l => (inl e, MkConn (sent c) l)
  | None :: l => (inr tt, MkConn (sent c +:+ s) l)
  | [] => (inr tt, MkConn (sent c +:+ s) [])
  end.

Definition set_out (c : conn) (s : sse) : sse := MkSse (rest s) c.
Definition send (s : string) : M sse unit := zoom out set_out (put s).

(** The loop of [Write]: [n] turns at most. *)
Fixpoint write_lines (n : nat) : M sse unit := fun s =>
  match n with
  | O => (inl ErrLoop, s)
  | S n =>
      match GoStr.Cut (chr 10) (rest s) with
      | None => (inr tt, s)
      | Some (line, r) =>
          (send "data: " ≫= fun _ => send line ≫= fun _ => send (newline +:+ newline) ≫= fun _ => write_lines n)
            (MkSse r (out s))
      end
  end.

Definition Write (p : string) : M sse unit := fun s =>
  let r := (rest s +:+ p)%string in write_lines (S (String.length r)) (MkSse r (out s)).

(** ** Reading a journal that grows: [Tail] *)

(** [stuck] is the answer of a loop that is given too few turns, which
    [Tail_returns] shows is not the case. *)
Section Tail.
Context (uuid : string -> option string) (stuck : goerr).

(** What ends a wait. *)
Inductive wake : Type := Cancelled | Deadline | Tick.

Record tail_world : Type := MkTail { tw_jobs : jobs_world; tw_sse : sse; tw_wakes : list wake }.

Definition at_jobs {A} (m : M jobs_world A) : M tail_world A := zoom tw_jobs (fun j w => MkTail j (tw_sse w) (tw_wakes w)) m.
Definition at_sse {A} (m : M sse A) : M tail_world A := zoom tw_sse (fun s w => MkTail (tw_jobs w) s (tw_wakes w)) m.

(** A request that is over wakes nobody else. *)
Definition wait : M tail_world wake := fun w =>
  match tw_wakes w with
  | [] => (inr Cancelled, w)
  | k :: l => (inr k, MkTail (tw_jobs w) (tw_sse w) l)
  end.

Definition canceled : goerr := Err "context canceled".

(** [os.Open] and [f.Read] into 16 KiB at an offset; an empty answer is the end
    of the file. *)
Definition buf_size : nat := 16384.
Definition read_at (id : string) (off : nat) : M dir string :=
  syscall (fun t => (match t !! LogPath id with
                     | Some (Raw s) => inr (String.substring off buf_size s)
                     | Some _ => inr EmptyString
                     | None => inl enoent
                     end, t)) (fun _ t => t).
Definition IsNotExist (e : goerr) : bool := match e with Err m => String.eqb m "no such file or directory" | _ => false end.

(** The turns of [waitForLog]; 30 seconds of ticks are a hundred of them. *)
Fixpoint waitForLog (n : nat) (id : string) : M tail_world unit :=
  match n with
  | O => mfail stuck
  | S n =>
      k ← wait;
      match k with
      | Cancelled => mfail canceled
      | Deadline => mfail (Err ("le runner n'a pas démarré la tâche " +:+ id)%string)
      | Tick => fun w =>
          match at_jobs (on_dir (Stat (LogPath id))) w with
          | (inr _, w1) => (inr tt, w1)
          | (inl _, w1) =>
              match at_jobs (on_pg (Get uuid id)) w1 with
              | (inr j, w2) => if Done j then (inl (Err ("tâche " +:+ id +:+ " terminée sans journal")%string), w2)
                               else waitForLog n id w2
              | (inl _, w2) => waitForLog n id w2
              end
          end
      end
  end.

(** At the end of the file: the stream ends when the operation has, and goes on
    after a wait otherwise. *)
Definition at_end (id : string) (again : M tail_world unit) : M tail_world unit := fun w =>
  let idle := (k ← wait; match k with Cancelled => mfail canceled | _ => again end) in
  match at_jobs (on_pg (Get uuid id)) w with
  | (inr j, w1) => if Done j then (inr tt, w1) else idle w1
  | (inl _, w1) => idle w1
  end.

(** The loop of [Tail], from an offset of the file. *)
Fixpoint tail_loop (n : nat) (id : string) (off : nat) : M tail_world unit :=
  match n with
  | O => mfail stuck
  | S n =>
      at_jobs (on_dir (read_at id off)) ≫= fun s =>
      if bool_decide (s = EmptyString) then at_end id (tail_loop n id off)
      else at_sse (Write s) ≫= fun _ => tail_loop n id (off + String.length s)
  end.

Definition Tail (n : nat) (id : string) : M tail_world unit := fun w =>
  match at_jobs (on_dir (Stat (LogPath id))) w with
  | (inr _, w1) => tail_loop n id 0 w1
  | (inl e, w1) => if IsNotExist e then (waitForLog n id ≫= fun _ => tail_loop n id 0) w1 else (inl e, w1)
  end.

End Tail.

(** ** The routes *)

Section Routes.
Context {HC : Crypto} {HO : Collation}.
Context (gen : cdb -> string) (uuid : string -> option string) (show_time stamp : Z -> string).
(** Whether a runner is set up; whether the connection can be flushed. *)
Context (runner flusher : bool).

Abbreviation W := (cworld dir).
Abbreviation handlerJ := (@handler dir).
Abbreviation HMJ := (@HM dir).

Definition at_manager {A} (m : M jobs_world A) : M W A :=
  zoom (fun w => MkJw (cw_pg w) (cw_rest w)) (fun j w => MkCw (jw_pg j) (cw_rand w) (cw_kick w) (cw_triggers w) (jw_dir j)) m.

Definition dec_request : json -> option Request := dec_obj (fun l =>
  k ← dec_string (Dataplane.field "kind" l); pb ← dec_string (Dataplane.field "playbook" l);
  av ← dec_list dec_string (Dataplane.field "argv" l); li ← dec_string (Dataplane.field "limit" l);
  tg ← dec_string (Dataplane.field "tags" l); ck ← dec_bool (Dataplane.field "check" l);
  ev ← over_members over_map [] (members "extra_vars" l); inv ← dec_string (Dataplane.field "inventory" l);
  Some (MkRequest k pb av li tg ck ev inv)).
Definition dec_job_input : json -> option (string * Request) := dec_obj (fun l =>
  k ← dec_string (Dataplane.field "kind" l); rq ← dec_request (Dataplane.field "request" l); Some (k, rq)).

Definition omit_if {A} (k : string) (f : A -> json) (b : bool) (a : A) : list (string * json) := if b then [] else [(k, f a)].

Definition request_json (r : Request) : json :=
  JObj ([("kind"%string, JStr (RKind r))] ++ omit_str "playbook" (Playbook r)
        ++ omit_if "argv" (fun l => JArr (map JStr l)) (bool_decide (Argv r = [])) (Argv r)
        ++ omit_str "limit" (Limit r) ++ omit_str "tags" (Tags r) ++ omit_if "check" JBool (negb (Check_ r)) (Check_ r)
        ++ omit_if "extra_vars" (fun l => JObj (map (fun p => (p.1, any_json p.2)) (key_sorted l)))
             (match ExtraVars_ r with [] => true | _ => false end) (ExtraVars_ r)
        ++ omit_str "inventory" (Inventory r)).

Definition job_json (j : job_row) : json :=
  JObj ([("id"%string, JStr (j_id j)); ("kind"%string, JStr (j_kind j)); ("status"%string, JStr (j_status j))]
        ++ omit_opt "exit_code" JInt (j_exit_code j) ++ omit_str "detail" (j_detail j) ++ omit_str "created_by" (j_created_by j)
        ++ [("created_at"%string, JTime show_time (j_created j))] ++ omit_opt "started_at" (JTime show_time) (j_started j)
        ++ omit_opt "finished_at" (JTime show_time) (j_finished j)
        ++ [("request"%string, request_json (default zero_request (j_request j)))]).

Definition with_inventory (y : string) (r : Request) : Request :=
  MkRequest (RKind r) (Playbook r) (Argv r) (Limit r) (Tags r) (Check_ r) (ExtraVars_ r) y.

(** A request without an inventory takes the one of the database. *)
Definition completed (now : Z) (rq : Request) : HMJ Request :=
  if bool_decide (Inventory rq = EmptyString) then
    y ← attempt (fun e => match e with ErrIncomplete m => Error 409 "incomplete" m | _ => dbErr e end) (at_pg (Generate (stamp now)));
    mret (with_inventory y rq)
  else mret rq.

Definition createJob : handlerJ := fun r p =>
  require runner (Error 503 "no_runner" "aucun runner configuré sur cet hôte") ≫= fun _ =>
  i ← decode r dec_job_input;
  require (negb (bool_decide (i.1 = EmptyString))) (Error 400 "invalid" "kind requis") ≫= fun _ =>
  rq ← completed (q_now r) i.2;
  j ← attempt (fun e => match e with
                        | ErrBusy => Error 409 "busy" "une tâche est déjà en cours : attendre sa fin"
                        | _ => Error 500 "job" (error_text e)
                        end) (at_manager (Submit gen uuid i.1 rq (actor p)));
  audit p "job.create" (JObj [("id", JStr (j_id j)); ("kind", JStr i.1)]%string) ≫= fun _ =>
  mret (JSON 201 (job_json j)).

Definition listJobs : handlerJ := fun r p =>
  if negb runner then mret (JSON 200 (JArr []))
  else l ← or_db (List_ (ParseIntV (Query_Get "limit" r))); mret (JSON 200 (JArr (map job_json l))).

Definition getJob : handlerJ := fun r p =>
  require runner (Error 404 "not_found" "aucune tâche") ≫= fun _ =>
  j ← attempt (fun e => match e with ErrNoRows => Error 404 "not_found" "tâche inconnue" | _ => dbErr e end)
        (at_pg (Get uuid (PathValue "id" r)));
  mret (JSON 200 (job_json j)).

(** The headers of the stream, and its last event. *)
Definition stream_headers : list (string * string) :=
  [("Content-Type", "text/event-stream"); ("Cache-Control", "no-store"); ("X-Accel-Buffering", "no")]%string.
Definition end_event : string := ("event: end" +:+ newline +:+ "data: {}" +:+ newline +:+ newline)%string.

(** The whole stream, for a connection that fares as [faults] says and waits that
    end as [wakes] says; [n] bounds the turns. *)
Definition streamed (n : nat) (faults : list (option goerr)) (wakes : list wake) (id : string) : HMJ resp := fun w =>
  let t := (Tail uuid ErrLoop n id (MkTail (MkJw (cw_pg w) (cw_rest w)) (MkSse EmptyString (MkConn EmptyString faults)) wakes)).2 in
  let j := tw_jobs t in
  (inr (MkResp 200 stream_headers [] (BText (sent (put end_event (out (tw_sse t))).2))),
   MkCw (jw_pg j) (cw_rand w) (cw_kick w) (cw_triggers w) (jw_dir j)).

Definition jobLog (n : nat) (faults : list (option goerr)) (wakes : list wake) : handlerJ := fun r p =>
  let id := PathValue "id" r in
  require runner (Error 404 "not_found" "aucune tâche") ≫= fun _ =>
  attempt (fun _ => Error 404 "not_found" "tâche inconnue") (at_pg (Get uuid id)) ≫= fun _ =>
  require flusher (Error 500 "no_stream" "diffusion impossible") ≫= fun _ => streamed n faults wakes id.

Definition registerJobs (n : nat) (faults : list (option goerr)) (wakes : list wake) : list (string * handlerJ) :=
  [("POST /v1/jobs", createJob); ("GET /v1/jobs", listJobs); ("GET /v1/jobs/{id}", getJob);
   ("GET /v1/jobs/{id}/log", jobLog n faults wakes)]%string.

End Routes.

(** ** The events do not depend on how the journal is cut *)

(** The events of the complete lines of a text, and its last, unfinished line. *)
Definition event_of (line : string) : string := ("data: " +:+ line +:+ newline +:+ newline)%string.
Fixpoint events_of (l : list string) : string * string :=
  match l with
  | [] => (EmptyString, EmptyString)
  | [x] => (EmptyString, x)
  | x :: l => let '(e, r) := events_of l in ((event_of x +:+ e)%string, r)
  end.
Definition events (log : string) : string := (events_of (Split (chr 10) log)).1.
Definition unfinished (log : string) : string := (events_of (Split (chr 10) log)).2.

Lemma Split_not_nil c s : Split c s <> [].
Proof. destruct s as [|a s]; [done|]. cbn [Split]. destruct (Ascii.eqb a c); [done|]. by destruct (Split c s). Qed.

Lemma Cut_None_Split c s : GoStr.Cut c s = None -> Split c s = [s].
Proof.
  induction s as [|a s IH]; [done|]. cbn [GoStr.Cut Split]. destruct (Ascii.eqb a c); [done|].
  destruct (GoStr.Cut c s) as [[b r]|]; [done|]. intros _. by rewrite IH.
Qed.

Lemma events_cons x l : l <> [] -> events_of (x :: l) = ((event_of x +:+ (events_of l).1)%string, (events_of l).2).
Proof. destruct l; [done|]. intros _. cbn [events_of]. by destruct (match l with [] => _ | _ => _ end). Qed.

Lemma events_split s b r : GoStr.Cut (chr 10) s = Some (b, r) ->
  events s = (event_of b +:+ events r)%string /\ unfinished s = unfinished r /\ (String.length r < String.length s)%nat.
Proof.
  intros H. apply Cut_inv in H as [-> Hb]. unfold events, unfinished. rewrite (Split_app (chr 10) b r) by exact Hb.
  rewrite events_cons by apply Split_not_nil. split_and!; [done..|]. rewrite length_sapp. cbn [String.length]. lia.
Qed.

(** A connection that does not fail. *)
Definition healthy (s : sse) : Prop := wfaults (out s) = [].
Definition emitted (t : string) (s : sse) : sse :=
  MkSse (unfinished (rest s +:+ t)) (MkConn (sent (out s) +:+ events (rest s +:+ t)) []).

Lemma send_ok t r o : send t (MkSse r (MkConn o [])) = (inr tt, MkSse r (MkConn (o +:+ t) [])).
Proof. done. Qed.

Lemma write_lines_ok n : forall r c, (String.length r < n)%nat -> wfaults c = [] ->
  write_lines n (MkSse r c) = (inr tt, MkSse (unfinished r) (MkConn (sent c +:+ events r) [])).
Proof.
  induction n as [|n IH]; intros r c Hn Hc; [lia|]. cbn [write_lines rest].
  destruct (GoStr.Cut (chr 10) r) as [[b t]|] eqn:Hcut.
  - apply events_split in Hcut as (-> & -> & Hl). destruct c as [o f]. cbn [wfaults] in Hc. subst f. cbn [out].
    do 3 (erewrite M_bind_ok by apply send_ok). rewrite IH by (lia || done). cbn [sent].
    unfold event_of. by rewrite !string_app_assoc.
  - apply Cut_None_Split in Hcut. unfold events, unfinished. rewrite Hcut. cbn. rewrite string_app_nil_r.
    destruct c as [o f]. cbn in *. by subst.
Qed.

Lemma Write_ok p s : healthy s -> Write p s = (inr tt, emitted p s).
Proof. intros Hs. unfold Write. by rewrite write_lines_ok by (lia || done). Qed.

Lemma events_app s t : events (s +:+ t) = (events s +:+ events (unfinished s +:+ t))%string /\
  unfinished (s +:+ t) = unfinished (unfinished s +:+ t).
Proof.
  remember (String.length s) as n eqn:Hn. revert s Hn. induction n as [n IH] using lt_wf_ind. intros s ->.
  destruct (GoStr.Cut (chr 10) s) as [[b r]|] eqn:Hc.
  - pose proof (events_split _ _ _ Hc) as (E1 & E2 & Hl). apply Cut_inv in Hc as [Hs Hb].
    assert (Hc' : GoStr.Cut (chr 10) (s +:+ t) = Some (b, r +:+ t)).
    { rewrite Hs, string_app_assoc. cbn. rewrite append_cons. by apply Cut_app. }
    apply events_split in Hc' as (-> & -> & _). rewrite E1, E2. destruct (IH _ Hl r eq_refl) as [-> ->].
    by rewrite string_app_assoc.
  - apply Cut_None_Split in Hc.
    assert (E : events s = EmptyString /\ unfinished s = s) by (unfold events, unfinished; by rewrite Hc).
    by destruct E as [-> ->].
Qed.

Lemma emitted_twice p q s : emitted q (emitted p s) = emitted (p +:+ q) s.
Proof.
  unfold emitted. cbn [rest out sent]. rewrite <- !string_app_assoc.
  destruct (events_app (rest s +:+ p) q) as [-> ->]. by rewrite string_app_assoc.
Qed.

Fixpoint writes (l : list string) : M sse unit :=
  match l with [] => mret tt | p :: l => Write p ≫= fun _ => writes l end.

Definition no_event : sse := MkSse EmptyString (MkConn EmptyString []).

Lemma writes_ok l : forall s, healthy s -> writes l s = (inr tt, s) /\ l = [] \/
  writes l s = (inr tt, emitted (foldr String.append EmptyString l) s).
Proof.
  induction l as [|p l IH]; intros s Hs; [by left|]. right. cbn [writes foldr]. unfold mbind, M_bind. rewrite Write_ok by done.
  destruct (IH (emitted p s) eq_refl) as [[-> ->]| ->].
  - cbn [foldr]. by rewrite string_app_nil_r.
  - by rewrite emitted_twice.
Qed.

(** The events of a journal do not depend on how it is cut into reads:
    over a connection that does not fail, each complete line is one event, in
    order, and what follows the last line break is kept for later. *)
Theorem writes_chunks l :
  let log := foldr String.append EmptyString l in
  writes l no_event = (inr tt, MkSse (unfinished log) (MkConn (events log) [])).
Proof. by destruct (writes_ok l no_event eq_refl) as [[-> ->]| ->]. Qed.

(** ** What the stream has sent when it ends *)

Section Stream.
Context (uuid : string -> option string) (stuck : goerr) (id : string).

(** The journal of a directory, and a directory whose other users only append
    to it. *)
Definition journal (t : tree) : string := match t !! LogPath id with Some (Raw s) => s | _ => EmptyString end.
Definition logged (t : tree) : Prop := match t !! LogPath id with Some (Raw _) | None => True | _ => False end.
Definition grows (f : tree -> tree) : Prop := forall t, logged t -> logged (f t) /\ exists u, journal (f t) = (journal t +:+ u)%string.
(** The part [p] of the journal has been read. *)
Record read_up_to (p : string) (d : dir) : Prop := {
  ru_logged : logged (files d);
  ru_grows : Forall (fun x => grows x.1) (dsched d);
  ru_prefix : exists q, journal (files d) = (p +:+ q)%string
}.

Lemma dturn_read p d t o l : read_up_to p d -> dturn d = (t, o, l) -> read_up_to p (MkDir t l).
Proof.
  intros [Hl Hg [q Hq]]. unfold dturn. destruct (dsched d) as [|[f o'] l'] eqn:Hs; intros [= <- <- <-].
  - split; [done|by constructor|by exists q].
  - apply Forall_cons in Hg as [Hf Hg]. cbn [fst] in Hf. destruct (Hf _ Hl) as [Hl' [u Hu]]. split; [done|done|].
    exists (q +:+ u)%string. cbn [files]. by rewrite Hu, Hq, string_app_assoc.
Qed.

Lemma Stat_read p d n r d' : read_up_to p d -> Stat n d = (r, d') -> read_up_to p d'.
Proof.
  intros H. unfold Stat, syscall. destruct (dturn d) as [[t o] l] eqn:Ht. pose proof (dturn_read _ _ _ _ _ H Ht) as H1.
  destruct o as [|e c].
  - by destruct (t !! n); intros [= _ <-].
  - by destruct c; intros [= _ <-].
Qed.

Lemma substring_at (p q : string) n : String.substring (String.length p) n (p +:+ q) = String.substring 0 n q.
Proof. induction p as [|a p IH]; [done|]. rewrite append_cons. exact IH. Qed.

Lemma substring_0 n : forall q, exists u, q = (String.substring 0 n q +:+ u)%string /\
  (String.substring 0 n q = EmptyString -> n <> 0%nat -> u = EmptyString).
Proof.
  induction n as [|n IH]; intros q; [by exists q; destruct q|]. destruct q as [|a q]; [by exists EmptyString|].
  destruct (IH q) as (u & Hu & _). exists u. cbn [String.substring]. rewrite append_cons, <- Hu. by split.
Qed.

Lemma substring_whole s : forall n, (String.length s <= n)%nat -> String.substring 0 n s = s.
Proof.
  induction s as [|a s IH]; intros [|n] H; cbn [String.length String.substring] in *; [done..|lia|]. by rewrite IH by lia.
Qed.

Lemma substring_end s n : String.substring (String.length s) n s = EmptyString.
Proof. rewrite <- (string_app_nil_r s) at 2. rewrite substring_at. by destruct n. Qed.

Lemma read_at_read p d r d' : read_up_to p d -> read_at id (String.length p) d = (r, d') ->
  read_up_to p d' /\ forall s, r = inr s -> read_up_to (p +:+ s) d' /\ (s = EmptyString -> journal (files d') = p).
Proof.
  intros H. unfold read_at, syscall. destruct (dturn d) as [[t o] l] eqn:Ht. pose proof (dturn_read _ _ _ _ _ H Ht) as H1.
  destruct o as [|e c]; [|by destruct c; intros [= <- <-]].
  pose proof H1 as [Hl Hg [q Hq]]. cbn [files] in Hl, Hq. unfold logged in Hl. pose proof Hq as Hj. unfold journal in Hj.
  destruct (t !! LogPath id) as [[rq|v|j]|] eqn:Hf; [done|done| |intros [= <- <-]; by split]. subst j.
  intros [= <- <-]. split; [done|]. intros s [= <-].
  rewrite substring_at. destruct (substring_0 buf_size q) as (u & Hu & He). split.
  - split; [by unfold logged; cbn [files]; rewrite Hf|done|]. exists u. cbn [files]. rewrite Hq, string_app_assoc. by rewrite <- Hu.
  - intros E. cbn [files]. rewrite Hq. rewrite E in Hu. rewrite (He E) in Hu by done. rewrite Hu. apply string_app_nil_r.
Qed.

(** A write over any connection, whose failures are [l0] and is at [l]: all of it
    is sent, or a failure ends it and a part of it is. *)
Section Failing.
Context (l0 : list (option goerr)).
Abbreviation left l := (l `suffix_of` l0).

Definition cut_short (whole : string) (e : goerr) (c : conn) : Prop := Some e ∈ l0 /\ exists t, whole = (sent c +:+ t)%string.

Lemma send_any t r o l : left l ->
  (exists l', left l' /\ send t (MkSse r (MkConn o l)) = (inr tt, MkSse r (MkConn (o +:+ t) l'))) \/
  (exists e l', Some e ∈ l0 /\ send t (MkSse r (MkConn o l)) = (inl e, MkSse r (MkConn o l'))).
Proof.
  intros Hl. unfold send, zoom, put, set_out. cbn [out wfaults sent rest]. destruct l as [|[e|] l].
  - left. by exists [].
  - right. exists e, l. split; [|done]. destruct Hl as [k ->]. apply elem_of_app. right. left.
  - left. exists l. split; [|done]. etrans; [|exact Hl]. by exists [None].
Qed.

Lemma write_lines_any n : forall r o l, (String.length r < n)%nat -> left l ->
  (exists l', left l' /\ write_lines n (MkSse r (MkConn o l)) = (inr tt, MkSse (unfinished r) (MkConn (o +:+ events r) l'))) \/
  (exists e x, write_lines n (MkSse r (MkConn o l)) = (inl e, x) /\ cut_short (o +:+ events r) e (out x)).
Proof.
  induction n as [|n IH]; intros r o l Hn Hl; [lia|]. cbn [write_lines rest].
  destruct (GoStr.Cut (chr 10) r) as [[b t]|] eqn:Hcut.
  - apply events_split in Hcut as (-> & -> & Hlt). cbn [out]. unfold event_of, mbind, M_bind.
    destruct (send_any "data: " t o l Hl) as [(l1 & H1 & ->)|(e & l' & He & ->)];
      [|right; exists e; eexists; split; [done|split; [done|by eexists]]].
    destruct (send_any b t (o +:+ "data: ")%string l1 H1) as [(l2 & H2 & ->)|(e & l' & He & ->)];
      [|right; exists e; eexists; split; [done|split; [done|]]; cbn [out sent]; eexists; by rewrite !string_app_assoc].
    destruct (send_any (newline +:+ newline)%string t ((o +:+ "data: ") +:+ b)%string l2 H2) as [(l3 & H3 & ->)|(e & l' & He & ->)];
      [|right; exists e; eexists; split; [done|split; [done|]]; cbn [out sent]; eexists; by rewrite !string_app_assoc].
    destruct (IH t (((o +:+ "data: ") +:+ b) +:+ newline +:+ newline)%string l3) as [(l4 & H4 & ->)|(e & x & -> & Hx)]; [lia|done| |].
    + left. exists l4. split; [done|]. by rewrite !string_app_assoc.
    + right. exists e, x. split; [done|]. by rewrite !string_app_assoc in *.
  - apply Cut_None_Split in Hcut. left. exists l. split; [done|]. unfold events, unfinished. rewrite Hcut. cbn.
    by rewrite string_app_nil_r.
Qed.

(** The writer once the events of [p] have been sent. *)
Definition shows (p : string) (s : sse) : Prop := exists l, left l /\ s = MkSse (unfinished p) (MkConn (events p) l).

Lemma shows_more p t s r s' : shows p s -> Write t s = (r, s') ->
  match r with inr _ => shows (p +:+ t)%string s' | inl e => cut_short (events (p +:+ t)) e (out s') end.
Proof.
  intros (l & Hl & ->). unfold Write. cbn [rest out]. destruct (events_app p t) as [E1 E2].
  destruct (write_lines_any (S (String.length (unfinished p +:+ t))) (unfinished p +:+ t) (events p) l) as [(l' & Hl' & ->)|(e & x & -> & Hx)];
    [lia|done|intros [= <- <-]..].
  - exists l'. split; [done|]. by rewrite E1, E2.
  - by rewrite E1.
Qed.

(** The state of a stream that has sent the events of [p]. *)
Definition streaming (p : string) (w : tail_world) : Prop := read_up_to p (jw_dir (tw_jobs w)) /\ shows p (tw_sse w).

Lemma streaming_pg {A} p w (m : M pg A) r w' : streaming p w -> at_jobs (on_pg m) w = (r, w') -> streaming p w'.
Proof.
  intros [H1 H2]. unfold at_jobs, zoom. destruct (on_pg m (tw_jobs w)) as [x j] eqn:E. apply on_pg_dir in E.
  intros [= _ <-]. split; [|done]. cbn [tw_jobs]. by rewrite E.
Qed.

Lemma streaming_wait p w k w' : streaming p w -> wait w = (k, w') -> streaming p w'.
Proof. intros H. unfold wait. by destruct (tw_wakes w); intros [= _ <-]. Qed.

Lemma streaming_dir {A} p w (m : M dir A) r w' : streaming p w -> at_jobs (on_dir m) w = (r, w') ->
  exists d', m (jw_dir (tw_jobs w)) = (r, d') /\ jw_dir (tw_jobs w') = d' /\ shows p (tw_sse w').
Proof.
  intros [H1 H2]. unfold at_jobs, on_dir, zoom. destruct (m (jw_dir (tw_jobs w))) as [x d']. intros [= <- <-]. by exists d'.
Qed.

(** What a stream that has ended has sent. *)
Definition ended (r : goerr + unit) (w : tail_world) : Prop :=
  exists p, read_up_to p (jw_dir (tw_jobs w)) /\
    (shows p (tw_sse w) \/ exists e, r = inl e /\ cut_short (events p) e (out (tw_sse w))) /\
    (r = inr tt -> journal (files (jw_dir (tw_jobs w))) = p).

Lemma ended_with p w r : streaming p w -> (r = inr tt -> journal (files (jw_dir (tw_jobs w))) = p) -> ended r w.
Proof. intros [H1 H2] Hr. exists p. split; [done|]. split; [by left|done]. Qed.

Lemma ended_early p w e : streaming p w -> ended (inl e) w.
Proof. intros H. by apply (ended_with p). Qed.

Lemma tail_loop_ended n : forall p w r w', streaming p w -> tail_loop uuid stuck n id (String.length p) w = (r, w') -> ended r w'.
Proof.
  induction n as [|n IH]; intros p w r w' Hw; cbn [tail_loop]; [intros [= <- <-]; by eapply ended_early|].
  unfold mbind at 1, M_bind at 1. destruct (at_jobs _ w) as [x w1] eqn:E1.
  destruct (streaming_dir _ _ _ _ _ Hw E1) as (d' & Hrd & Hd' & Hs). apply read_at_read in Hrd as [Hr1 Hr2]; [|apply Hw].
  subst d'. assert (H1 : streaming p w1) by done.
  destruct x as [e|s]; [intros [= <- <-]; by eapply ended_early|]. destruct (Hr2 s eq_refl) as [Hr3 Hend].
  assert (Hidle : forall w2, streaming p w2 -> (k ← wait; match k with Cancelled => mfail canceled | _ => tail_loop uuid stuck n id (String.length p) end) w2 = (r, w') -> ended r w').
  { intros w2 H2. unfold mbind, M_bind. destruct (wait w2) as [[e'|k] w3] eqn:E3; pose proof (streaming_wait _ _ _ _ H2 E3) as H3;
      [intros [= <- <-]; by eapply ended_early|]. destruct k; [intros [= <- <-]; by eapply ended_early|by apply (IH p)..]. }
  case_bool_decide as Hs0.
  - unfold at_end. destruct (at_jobs _ w1) as [[e|j] w2] eqn:E2; pose proof (streaming_pg _ _ _ _ _ H1 E2) as H2; [by apply Hidle|].
    destruct (Done j); [|by apply Hidle]. intros [= <- <-]. apply (ended_with p); [done|]. intros _.
    revert E2. unfold at_jobs, zoom. destruct (on_pg _ _) as [y j2] eqn:Ep. apply on_pg_dir in Ep. intros [= _ <-].
    cbn [tw_jobs]. rewrite Ep. by apply Hend.
  - unfold mbind, M_bind, at_sse, zoom. destruct (Write s (tw_sse w1)) as [y s'] eqn:Ew. pose proof (shows_more _ _ _ _ _ Hs Ew) as Hm.
    destruct y as [e|[]]; intros H.
    + injection H as <- <-. exists (p +:+ s)%string. split; [done|]. split; [|done]. right. by exists e.
    + eapply (IH (p +:+ s)%string); [|rewrite length_sapp; exact H]. done.
Qed.

Lemma waitForLog_streams n : forall w r w', streaming EmptyString w -> waitForLog uuid stuck n id w = (r, w') -> streaming EmptyString w'.
Proof.
  induction n as [|n IH]; intros w r w' Hw; cbn [waitForLog]; [by intros [= <- <-]|].
  unfold mbind, M_bind. destruct (wait w) as [[e|k] w1] eqn:E1; pose proof (streaming_wait _ _ _ _ Hw E1) as H1; [by intros [= <- <-]|].
  destruct k; [by intros [= <- <-]..|].
  destruct (at_jobs (on_dir _) w1) as [x w2] eqn:E2. destruct (streaming_dir _ _ _ _ _ H1 E2) as (d' & Hst & <- & Hs).
  apply (Stat_read EmptyString) in Hst; [|apply H1]. assert (H2 : streaming EmptyString w2) by done.
  destruct x as [e|[]]; [|by intros [= <- <-]].
  destruct (at_jobs (on_pg _) w2) as [[e'|j] w3] eqn:E3; pose proof (streaming_pg _ _ _ _ _ H2 E3) as H3; [by apply IH|].
  destruct (Done j); [by intros [= <- <-]|by apply IH].
Qed.

End Failing.

(** Claim C28: whatever the runner appends while a journal is streamed, however
    the writes to the connection fare and however the stream ends, what has been
    sent is a beginning of the events of the complete lines of a part [p] of the
    journal, and all of them unless a write has failed, with the last, unfinished
    line kept for later.  When the stream ends because the operation has, [p] is
    the journal as it was at the last read, all of whose events have been sent:
    what the runner appends after that read is not sent ([Tail_misses]), nor is a
    last line without line break. *)
Theorem Tail_sends n w r w' :
  rest (tw_sse w) = EmptyString -> sent (out (tw_sse w)) = EmptyString ->
  logged (files (jw_dir (tw_jobs w))) -> Forall (fun x => grows x.1) (dsched (jw_dir (tw_jobs w))) ->
  Tail uuid stuck n id w = (r, w') ->
  exists p q t, journal (files (jw_dir (tw_jobs w'))) = (p +:+ q)%string /\ events p = (sent (out (tw_sse w')) +:+ t)%string /\
    (Forall (fun x => x = None) (wfaults (out (tw_sse w))) -> t = EmptyString /\ rest (tw_sse w') = unfinished p) /\
    (r = inr tt -> q = EmptyString /\ t = EmptyString).
Proof.
  intros Hs1 Hs2 Hl Hg H. set (l0 := wfaults (out (tw_sse w))).
  assert (Hw : streaming l0 EmptyString w).
  { split; [split; [done..|by eexists]|]. exists l0. split; [done|]. unfold l0. destruct (tw_sse w) as [a [b c]]. cbn in *. by subst. }
  assert (E : ended l0 r w').
  { unfold Tail in H. destruct (at_jobs (on_dir _) w) as [x w1] eqn:E1. destruct (streaming_dir _ _ _ _ _ _ Hw E1) as (d' & Hst & <- & Hsh).
    apply (Stat_read EmptyString) in Hst; [|apply Hw]. assert (H1 : streaming l0 EmptyString w1) by done.
    destruct x as [e|[]]; [|by apply (tail_loop_ended l0 n EmptyString w1)].
    destruct (IsNotExist e); [|injection H as <- <-; by eapply ended_early].
    unfold mbind, M_bind in H. destruct (waitForLog uuid stuck n id w1) as [[e'|[]] w2] eqn:E2; pose proof (waitForLog_streams _ _ _ _ _ H1 E2) as H2.
    - injection H as <- <-. by eapply ended_early.
    - by apply (tail_loop_ended l0 n EmptyString w2). }
  destruct E as (p & [_ _ [q Hq]] & Hsh & Hr). exists p, q.
  assert (Hend : r = inr tt -> q = EmptyString).
  { intros Hr1. specialize (Hr Hr1). rewrite Hr in Hq. apply (string_app_inv_l p). by rewrite string_app_nil_r, <- Hq. }
  destruct Hsh as [(l & _ & ->)|(e & -> & He & t & Ht)].
  - exists EmptyString. cbn [out sent rest]. rewrite string_app_nil_r. split_and!; [done..|]. intros Hr1. by split; [apply Hend|].
  - exists t. split_and!; [done|done| |done]. intros Hn. rewrite Forall_forall in Hn. by specialize (Hn _ He).
Qed.

(** ** How many turns are enough *)

(** The journal once everything the schedule holds has been appended. *)
Definition final (d : dir) : tree := foldl (fun t x => x.1 t) (files d) (dsched d).
Definition final_length (d : dir) : nat := String.length (journal (final d)).

Lemma dturn_final d t o l : dturn d = (t, o, l) -> final (MkDir t l) = final d.
Proof. unfold dturn, final. by destruct (dsched d) as [|[f o'] l'] eqn:E; intros [= <- <- <-]; rewrite ?E. Qed.

Lemma Stat_final d n r d' : Stat n d = (r, d') -> final d' = final d.
Proof.
  unfold Stat, syscall. destruct (dturn d) as [[t o] l] eqn:Ht. apply dturn_final in Ht.
  destruct o as [|e c]; [destruct (t !! n)|destruct c]; by intros [= _ <-].
Qed.

Lemma read_final d off r d' : read_at id off d = (r, d') -> final d' = final d.
Proof.
  unfold read_at, syscall. destruct (dturn d) as [[t o] l] eqn:Ht. apply dturn_final in Ht.
  destruct o as [|e c]; [|destruct c]; by intros [= _ <-].
Qed.

Lemma read_length p d : read_up_to p d -> (String.length p <= final_length d)%nat.
Proof.
  destruct d as [t l]. unfold final_length, final. cbn [files dsched]. revert t p.
  induction l as [|[f o] l IH]; intros t p [Hl Hg [q Hq]]; cbn [files dsched foldl fst] in *.
  - rewrite Hq, length_sapp. lia.
  - apply Forall_cons in Hg as [Hf Hg]. cbn [fst] in Hf. destruct (Hf _ Hl) as [Hl' [u Hu]]. apply IH. split; [done|done|].
    exists (q +:+ u)%string. cbn [files]. by rewrite Hu, Hq, string_app_assoc.
Qed.

Definition at_offset (off : nat) (d : dir) : Prop := exists p, read_up_to p d /\ String.length p = off.
(** What is left to read and to wait for. *)
Definition left_over (off : nat) (w : tail_world) : nat :=
  (final_length (jw_dir (tw_jobs w)) - off + length (tw_wakes w))%nat.

Lemma at_pg_dir {A} (m : M pg A) w r w' : at_jobs (on_pg m) w = (r, w') ->
  jw_dir (tw_jobs w') = jw_dir (tw_jobs w) /\ tw_wakes w' = tw_wakes w.
Proof.
  unfold at_jobs, zoom. destruct (on_pg m (tw_jobs w)) as [x j] eqn:E. apply on_pg_dir in E. by intros [= _ <-].
Qed.

Lemma at_dir_eq {A} (m : M dir A) w r w' : at_jobs (on_dir m) w = (r, w') ->
  m (jw_dir (tw_jobs w)) = (r, jw_dir (tw_jobs w')) /\ tw_wakes w' = tw_wakes w.
Proof. unfold at_jobs, on_dir, zoom. destruct (m (jw_dir (tw_jobs w))) as [x d']. by intros [= <- <-]. Qed.

Lemma wait_spec w k w' : wait w = (k, w') -> k = inr Cancelled \/
  tw_jobs w' = tw_jobs w /\ length (tw_wakes w) = S (length (tw_wakes w')).
Proof. unfold wait. destruct (tw_wakes w) as [|x l] eqn:E; intros [= <- <-]; [by left|right; by rewrite ?E]. Qed.

Lemma at_end_same k1 k2 w :
  (forall w1, jw_dir (tw_jobs w1) = jw_dir (tw_jobs w) -> length (tw_wakes w) = S (length (tw_wakes w1)) -> k1 w1 = k2 w1) ->
  at_end uuid id k1 w = at_end uuid id k2 w.
Proof.
  intros H. unfold at_end. destruct (at_jobs _ w) as [x w1] eqn:E. apply at_pg_dir in E as [Ed Ew].
  assert (Hidle : (k ← wait; match k with Cancelled => mfail canceled | _ => k1 end) w1
                = (k ← wait; match k with Cancelled => mfail canceled | _ => k2 end) w1); [|by destruct x as [e|j]; [|destruct (Done j)]].
  unfold mbind, M_bind. destruct (wait w1) as [[e|k] w2] eqn:Ek; [done|]. apply wait_spec in Ek as [[= ->]|[Ej El]]; [done|].
  destruct k; [done|apply H; by rewrite ?Ej, ?Ed, <- ?Ew..].
Qed.

Lemma tail_loop_fuel stuck' n : forall m off w, at_offset off (jw_dir (tw_jobs w)) -> (left_over off w < n)%nat -> (left_over off w < m)%nat ->
  tail_loop uuid stuck n id off w = tail_loop uuid stuck' m id off w.
Proof.
  induction n as [|n IH]; intros [|m] off w Ho Hn Hm; [lia..|]. destruct Ho as (p & Hp & <-). cbn [tail_loop].
  unfold mbind at 1 3, M_bind at 1 3. destruct (at_jobs _ w) as [x w1] eqn:E1. apply at_dir_eq in E1 as [Hr Ew].
  pose proof (read_final _ _ _ _ Hr) as Hf. apply read_at_read in Hr as [Hp1 Hs]; [|done]. destruct x as [e|s]; [done|].
  destruct (Hs s eq_refl) as [Hp2 _]. assert (HL : final_length (jw_dir (tw_jobs w1)) = final_length (jw_dir (tw_jobs w))) by (unfold final_length; by rewrite Hf).
  unfold left_over in *. case_bool_decide as Hs0.
  - apply at_end_same. intros w2 Hd Hl. apply IH; [by rewrite Hd; exists p|idtac..].
    all: unfold left_over; rewrite Hd, HL; rewrite Ew in Hl; lia.
  - unfold mbind, M_bind, at_sse, zoom. destruct (Write s (tw_sse w1)) as [[e|[]] c]; [done|].
    pose proof (read_length _ _ Hp2) as Hlen. rewrite HL, length_sapp in Hlen.
    assert (String.length s <> 0%nat) by (by destruct s).
    apply IH; cbn [tw_jobs tw_wakes]; [exists (p +:+ s)%string; by rewrite length_sapp|idtac..].
    all: unfold left_over; cbn [tw_jobs tw_wakes]; rewrite HL, Ew.
    all: lia.
Qed.

Lemma waitForLog_fuel stuck' n : forall m w, (length (tw_wakes w) < n)%nat -> (length (tw_wakes w) < m)%nat ->
  waitForLog uuid stuck n id w = waitForLog uuid stuck' m id w.
Proof.
  induction n as [|n IH]; intros [|m] w Hn Hm; [lia..|]. cbn [waitForLog]. unfold mbind, M_bind.
  destruct (wait w) as [[e|k] w1] eqn:E1; [done|]. apply wait_spec in E1 as [[= ->]|[_ El]]; [done|]. destruct k; [done..|].
  destruct (at_jobs _ w1) as [[e|[]] w2] eqn:E2; apply at_dir_eq in E2 as [_ Ew2]; [|done].
  destruct (at_jobs _ w2) as [[e'|j] w3] eqn:E3; apply at_pg_dir in E3 as [_ Ew3]; [|destruct (Done j); [done|]].
  all: apply IH; rewrite Ew3, Ew2; lia.
Qed.

Lemma waitForLog_left n : forall w r w', read_up_to EmptyString (jw_dir (tw_jobs w)) -> waitForLog uuid stuck n id w = (r, w') ->
  read_up_to EmptyString (jw_dir (tw_jobs w')) /\ (left_over 0 w' <= left_over 0 w)%nat.
Proof.
  induction n as [|n IH]; intros w r w' Hw; cbn [waitForLog]; [by intros [= <- <-]|].
  unfold mbind, M_bind. destruct (wait w) as [[e|k] w1] eqn:E1; [unfold wait in E1; by destruct (tw_wakes w)|].
  assert (H1 : jw_dir (tw_jobs w1) = jw_dir (tw_jobs w) /\ (length (tw_wakes w1) <= length (tw_wakes w))%nat).
  { revert E1. unfold wait. destruct (tw_wakes w) as [|y l] eqn:E; intros [= _ <-]; rewrite ?E; cbn; split; [done|lia|done|lia]. }
  destruct H1 as [Hd1 Hl1]. assert (H1 : (left_over 0 w1 <= left_over 0 w)%nat) by (unfold left_over; rewrite Hd1; lia).
  rewrite <- Hd1 in Hw. destruct k; [by intros [= <- <-]..|].
  destruct (at_jobs _ w1) as [x w2] eqn:E2. apply at_dir_eq in E2 as [E2 Ew2].
  pose proof (Stat_final _ _ _ _ E2) as Hf2. apply (Stat_read EmptyString) in E2; [|done].
  assert (H2 : (left_over 0 w2 <= left_over 0 w)%nat) by (revert H1; unfold left_over, final_length; rewrite Hf2, Ew2; lia).
  destruct x as [e|[]]; [|by intros [= <- <-]].
  destruct (at_jobs _ w2) as [y w3] eqn:E3. apply at_pg_dir in E3 as [Ed3 Ew3].
  assert (H3 : read_up_to EmptyString (jw_dir (tw_jobs w3)) /\ (left_over 0 w3 <= left_over 0 w)%nat)
    by (unfold left_over in *; by rewrite Ed3, Ew3).
  destruct H3 as [H3 Hl3]. destruct y as [e'|j]; [|destruct (Done j); [by intros [= <- <-]|]].
  all: intros H; apply IH in H as [Hr Hl]; [split; [done|lia]|done].
Qed.

(** A journal's stream ends: with more turns than there are bytes the
    journal will ever have and waits the connection lives through, the answer no
    longer depends on the number of turns, nor on what running out of turns
    would answer.  Each turn reads something or spends a wait. *)
Theorem Tail_returns stuck' n m w :
  logged (files (jw_dir (tw_jobs w))) -> Forall (fun x => grows x.1) (dsched (jw_dir (tw_jobs w))) ->
  (final_length (jw_dir (tw_jobs w)) + length (tw_wakes w) < n)%nat ->
  (final_length (jw_dir (tw_jobs w)) + length (tw_wakes w) < m)%nat ->
  Tail uuid stuck n id w = Tail uuid stuck' m id w.
Proof.
  intros Hl Hg Hn Hm. assert (Hw : read_up_to EmptyString (jw_dir (tw_jobs w))) by (split; [done..|by eexists]).
  unfold Tail. destruct (at_jobs _ w) as [x w1] eqn:E1. apply at_dir_eq in E1 as [E1 Ew1].
  pose proof (Stat_final _ _ _ _ E1) as Hf1. apply (Stat_read EmptyString) in E1; [|done].
  assert (H1 : left_over 0 w1 = (final_length (jw_dir (tw_jobs w)) + length (tw_wakes w))%nat)
    by (unfold left_over, final_length; rewrite Hf1, Ew1; lia).
  destruct x as [e|[]]; [destruct (IsNotExist e); [|done]|].
  2:{ apply tail_loop_fuel; [by exists EmptyString|lia..]. }
  unfold mbind, M_bind. rewrite <- (waitForLog_fuel stuck' n m) by (rewrite Ew1; lia).
  destruct (waitForLog uuid stuck n id w1) as [[e'|[]] w2] eqn:E2; [done|].
  apply waitForLog_left in E2 as [H2 Hl2]; [|done]. apply tail_loop_fuel; [by exists EmptyString|lia..].
Qed.

(** An append to the journal. *)
Definition append (u : string) (t : tree) : tree := <[LogPath id := Raw (journal t +:+ u)]> t.

Lemma append_grows u : grows (append u).
Proof.
  intros t _. unfold logged, journal, append. rewrite !lookup_insert_eq. split; [done|]. by exists u.
Qed.

(** The end of a journal may be missed.  When the runner writes its
    last lines and its result after the stream has found the end of the file
    and before it asks whether the operation is over, the stream ends without
    them. *)
Theorem Tail_misses n w t s u l j w1 :
  jw_dir (tw_jobs w) = MkDir t (replicate 3 (fun t => t, Fine) ++ (append u, Fine) :: l) ->
  t !! LogPath id = Some (Raw s) -> s <> EmptyString -> (String.length s <= buf_size)%nat -> tw_sse w = no_event ->
  Get uuid id (jw_pg (tw_jobs w)) = (inr j, w1) -> Done j = true -> (2 <= n)%nat ->
  exists w', Tail uuid stuck n id w = (inr tt, w') /\
    dturn (jw_dir (tw_jobs w')) = (append u t, Fine, l) /\ journal (append u t) = (s +:+ u)%string /\
    sent (out (tw_sse w')) = events s.
Proof.
  intros Hd Ht Hs Hb Hw Hg Hj Hn. destruct n as [|[|n]]; [lia..|]. destruct w as [[g d] c k]. cbn [jw_dir jw_pg tw_jobs tw_sse] in *. subst d c.
  assert (Hsub : String.substring 0 buf_size s = s) by by apply substring_whole.
  assert (Hend : String.substring (String.length s) buf_size s = EmptyString) by apply substring_end.
  eexists. split_and!.
  - unfold Tail, at_jobs at 1, zoom at 1, on_dir at 1, zoom at 1. unfold Stat, syscall, dturn. cbn [jw_dir tw_jobs dsched files replicate app]. rewrite Ht.
    cbn [tail_loop]. unfold mbind, M_bind. unfold at_jobs at 1, zoom at 1, on_dir at 1, zoom at 1. unfold read_at at 1, syscall, dturn.
    cbn [jw_dir tw_jobs dsched files]. rewrite Ht, Hsub. rewrite bool_decide_false by done.
    unfold at_sse at 1, zoom at 1. rewrite Write_ok by done. cbn [tw_jobs tw_sse tw_wakes Nat.add].
    unfold at_jobs at 1, zoom at 1, on_dir at 1, zoom at 1. unfold read_at, syscall, dturn.
    cbn [jw_dir tw_jobs dsched files]. rewrite Ht, Hend. rewrite bool_decide_true by done.
    unfold at_end, at_jobs, zoom at 1, on_pg, zoom at 1. cbn [jw_pg tw_jobs]. rewrite Hg, Hj. reflexivity.
  - reflexivity.
  - unfold journal, append at 1. rewrite lookup_insert_eq. unfold journal. by rewrite Ht.
  - reflexivity.
Qed.

End Stream.

(** ** Runs *)

Definition done_job : job_row := MkJob "7" "deploy" "succeeded" (Some 0) EmptyString "ops@example" 1000 (Some 1001) (Some 1002) None.
Definition done_tables : cdb := set_jobs [done_job] no_jobs.

(** A journal of a line and a half, completed while it is read. *)
Definition half_log : tree := <["7.log"%string := Raw ("start" +:+ newline +:+ "la")]> ∅.
Definition nothing : (tree -> tree) * fault := (fun t => t, Fine).
Definition half_run (l : list ((tree -> tree) * fault)) : tail_world :=
  MkTail (MkJw (MkPg done_tables []) (MkDir half_log l)) no_event [Tick; Tick].
Definition last_line : string := ("st" +:+ newline)%string.

Lemma half_logged : logged "7" half_log.
Proof. vm_compute. exact I. Qed.

Lemma nothing_grows id : grows id nothing.1.
Proof. intros t Ht. split; [done|]. exists EmptyString. by rewrite string_app_nil_r. Qed.

Lemma half_grows : Forall (fun x => grows "7" x.1) [nothing; nothing; (append "7" last_line, Fine)].
Proof. repeat (apply Forall_cons; split; [apply nothing_grows || apply append_grows|]). by apply Forall_nil. Qed.

(** The connection of the second run fails at its third write. *)
Definition broken_run : tail_world :=
  let w := half_run [nothing; nothing; (append "7" last_line, Fine)] in
  MkTail (tw_jobs w) (MkSse EmptyString (MkConn EmptyString [None; None; Some (Err "broken pipe")])) (tw_wakes w).

Lemma Tail_sends_witness :
  (exists p, sent (out (tw_sse (Tail demo_uuid ErrLoop 40 "7" (half_run [nothing; nothing; (append "7" last_line, Fine)])).2)) = events p /\
    p = ("start" +:+ newline +:+ "last" +:+ newline)%string) /\
  sent (out (tw_sse (Tail demo_uuid ErrLoop 40 "7" broken_run).2)) = "data: start"%string /\
  (exists p t, events p = ("data: start" +:+ t)%string).
Proof.
  split; [|split; [vm_compute; reflexivity|]].
  - set (w := half_run [nothing; nothing; (append "7" last_line, Fine)]).
    assert (H1 : (Tail demo_uuid ErrLoop 40 "7" w).1 = inr tt) by (vm_compute; reflexivity).
    destruct (Tail_sends demo_uuid ErrLoop "7" 40 w _ _ eq_refl eq_refl half_logged half_grows (surjective_pairing _)) as (p & q & t & Hj & Hs & _ & Hq).
    destruct (Hq H1) as [-> ->]. exists p. rewrite string_app_nil_r in Hj, Hs. split; [by symmetry|]. rewrite <- Hj. vm_compute. reflexivity.
  - destruct (Tail_sends demo_uuid ErrLoop "7" 40 broken_run _ _ eq_refl eq_refl half_logged half_grows (surjective_pairing _)) as (p & q & t & _ & Hs & _ & _).
    exists p, t. rewrite Hs. f_equal.
Defined.

Lemma Tail_returns_witness :
  Tail demo_uuid ErrLoop 40 "7" (half_run [nothing; nothing; (append "7" last_line, Fine)])
  = Tail demo_uuid (Err "other") 1000 "7" (half_run [nothing; nothing; (append "7" last_line, Fine)]).
Proof.
  apply (Tail_returns demo_uuid ErrLoop "7" (Err "other")); [exact half_logged|exact half_grows|apply Nat.ltb_lt; vm_compute; reflexivity..].
Defined.

(** The log [start / last] is sent as [start] only. *)
Lemma Tail_misses_witness :
  exists w', Tail demo_uuid ErrLoop 2 "7" (half_run (replicate 3 nothing ++ [(append "7" last_line, Fine)])) = (inr tt, w') /\
    sent (out (tw_sse w')) = ("data: start" +:+ newline +:+ newline)%string.
Proof.
  destruct (Tail_misses demo_uuid ErrLoop "7" 2 (half_run (replicate 3 nothing ++ [(append "7" last_line, Fine)])) half_log
    ("start" +:+ newline +:+ "la") last_line [] (shown done_job) (MkPg done_tables []))
    as (w' & Hr & _ & _ & Hs); [reflexivity|vm_compute; reflexivity|discriminate|apply Nat.leb_le; vm_compute; reflexivity|reflexivity
      |vm_compute; reflexivity|reflexivity|lia|].
  exists w'. split; [exact Hr|]. rewrite Hs. vm_compute. reflexivity.
Defined.
