(* ===== verification/Oidc.v ===== *)
(** * Login through an identity provider

    [control/internal/auth/oidc.go], and the routes [oidcStart] and
    [oidcCallback] of [control/internal/api/session.go].  The provider is
    reached through two libraries, whose calls are parameters.  What is proved:
    a login consumes a state that was asked for, less than a quarter of an hour
    before, with the nonce it was asked for with, and opens one session, for the
    account the provider names; the same state does not serve twice; the account
    is found by an address the provider may not have verified, and its password
    and second factor are not asked for. *)
From Stdlib Require Import Ascii.
From S2P Require Import Prelude GoStr Json Base64 Httpx Mux Dataplane Pg Access Account.

Local Open Scope list_scope.
Local Open Scope Z_scope.

(** ** Where a redirection goes: [http.Redirect] for a URL that starts with a slash *)

(** Bytes outside ASCII are written in hexadecimal. *)
Fixpoint hexEscapeNonASCII (s : string) : string :=
  match s with
  | EmptyString => EmptyString
  | String a s' => if is_ascii a then String a (hexEscapeNonASCII s') else ("%" +:+ hex_byte a +:+ hexEscapeNonASCII s')%string
  end.

Definition clean_url (url : string) : string :=
  let '(p, query) := match GoStr.Cut "?"%char url with Some (p, q) => (p, ("?" +:+ q)%string) | None => (url, EmptyString) end in
  let c := Clean p in
  ((if HasSuffix p "/" && negb (HasSuffix c "/") then c +:+ "/" else c) +:+ query)%string.

(** ** The provider *)

Record id_token : Type := MkIdToken { it_nonce : string; it_subject : string; it_claims : json }.
Record Claims : Type := MkClaims { Subject : string; cl_Email : string; Name : string }.

(** The fields the code reads of the claims; [email_verified] is one of them. *)
Record raw_claims : Type := MkRaw { rc_email : string; rc_verified : bool; rc_name : string; rc_preferred : string }.
Definition dec_claims : json -> option raw_claims := dec_obj (fun l =>
  e ← dec_string (Dataplane.field "email" l); v ← dec_bool (Dataplane.field "email_verified" l);
  n ← dec_string (Dataplane.field "name" l); p ← dec_string (Dataplane.field "preferred_username" l);
  Some (MkRaw e v n p)).

(** The addresses promoted administrators, from [FLYC_OIDC_ADMIN_EMAILS]. *)
Definition admin_emails (s : string) : gset string :=
  list_to_set (base.filter (fun e => e <> EmptyString) (map (fun e => ToLower (TrimSpace e)) (Split ","%char s))).

Record OIDC : Type := MkOIDC { Enabled : bool; Issuer : string; ClientID : string; RedirectURL : string; AdminEmails : gset string }.

(** [reachable]: whether [gooidc.NewProvider] answers. *)
Definition NewOIDC (reachable : bool) (issuer clientID redirectURL adminEmails : string) : OIDC :=
  MkOIDC (negb (bool_decide (issuer = EmptyString)) && negb (bool_decide (clientID = EmptyString)) && reachable)
    issuer clientID redirectURL (admin_emails adminEmails).

Section Oidc.
Context {HC : Crypto} {X : Type} (gen : cdb -> string) (o : OIDC).
(** [oauth2.Config.AuthCodeURL]; [oauth2.Config.Exchange], which gives the
    [id_token] of the answer when it is a string; the verifier of the tokens. *)
Context (auth_url : string -> string -> string).
Context (code_exchange : string -> M (cworld X) (option string)) (verify_token : string -> M (cworld X) id_token).
(** Whether [url.Parse] accepts a URL and gives it neither scheme nor host. *)
Context (relative : string -> bool).

Abbreviation HMO := (@HM X).

Definition Location (url : string) : string := hexEscapeNonASCII (if relative url then clean_url url else url).

Definition AuthURL (state nonce : string) : string := auth_url state nonce.

Definition Exchange (code nonce : string) : M (cworld X) Claims :=
  tok ← code_exchange code;
  match tok with
  | None => mfail (Err "pas d'ID token dans la réponse")
  | Some raw =>
      idt ← verify_token raw;
      if negb (String.eqb (it_nonce idt) nonce) then mfail (Err "nonce invalide") else
      match dec_claims (it_claims idt) with
      | None => mfail (Err "json: cannot unmarshal")
      | Some c =>
          if bool_decide (rc_email c = EmptyString) then mfail (Err "le fournisseur n'a pas renvoyé d'email") else
          mret (MkClaims (it_subject idt) (ToLower (rc_email c))
                  (if bool_decide (rc_name c = EmptyString) then rc_preferred c else rc_name c))
      end
  end.

(** ** The routes *)

Definition with_states (l : list oidc_row) (d : cdb) : cdb :=
  let a := accounts_ d in set_accounts (MkAccounts (users a) (memberships a) (api_keys a) (sessions a) l) d.

Definition insert_state (state nonce redirect : string) (d : cdb) : goerr + (unit * cdb) :=
  if existsb (fun x => String.eqb (oi_state x) state) (oidc_states (accounts_ d)) then inl (ErrPg "23505" "oidc_states_pkey")
  else inr (tt, with_states (oidc_states (accounts_ d) ++ [MkOidc state nonce redirect (clock d)]) d).

Definition oidcStart (r : http_request) : HMO resp :=
  require (Enabled o) (Error 404 "oidc_disabled" "OIDC n'est pas configuré") ≫= fun _ =>
  s ← drawn; n ← drawn;
  let state := encode RawURLEncoding s in
  let nonce := encode RawURLEncoding n in
  let redirect := if HasPrefix (Query_Get "redirect" r) "/" then Query_Get "redirect" r else "/"%string in
  attempt (fun e => Error 500 "db" (error_text e)) (at_pg (Exec (insert_state state nonce redirect))) ≫= fun _ =>
  mret (Redirect (AuthURL state nonce) 302).

(** [delete from oidc_states where ... returning nonce, redirect]. *)
Definition live_state (state : string) (d : cdb) (x : oidc_row) : bool :=
  String.eqb (oi_state x) state && (clock d - 900 <? oi_created x).
Definition take_state (state : string) (d : cdb) : goerr + (oidc_row * cdb) :=
  match list_find (fun x => live_state state d x = true) (oidc_states (accounts_ d)) with
  | Some (_, x) => inr (x, with_states (base.filter (fun y => live_state state d y = false) (oidc_states (accounts_ d))) d)
  | None => inl ErrNoRows
  end.

Definition matches (c : Claims) (u : user_row) : bool :=
  bool_decide (u_subject u = Some (Subject c)) || String.eqb (ToLower (u_email u)) (cl_Email c).
Definition q_user (c : Claims) (d : cdb) : option string :=
  (fun x => u_id x.2) <$> list_find (fun u => matches c u = true) (users (accounts_ d)).

Definition subject_taken (s : string) (l : list user_row) : bool := existsb (fun u => bool_decide (u_subject u = Some s)) l.

Definition insert_oidc_user (c : Claims) (d : cdb) : goerr + (string * cdb) :=
  if subject_taken (Subject c) (users (accounts_ d)) then inl (ErrPg "23505" "users_oidc_subject_key")
  else if email_taken (cl_Email c) d then inl (ErrPg "23505" "users_email_idx")
  else inr (gen d, with_users (users (accounts_ d) ++
         [MkUser (gen d) (cl_Email c) None (Some (Subject c)) None false (bool_decide (cl_Email c ∈ AdminEmails o)) false (Name c)
            (clock d) None]) d).

Definition linked (c : Claims) (u : user_row) : user_row :=
  MkUser (u_id u) (u_email u) (u_hash u) (Some (Subject c)) (u_totp u) (u_totp_on u) (u_admin u) (u_must_change u)
    (if bool_decide (u_display u = EmptyString) then Name c else u_display u) (u_created u) (u_login u).
Definition link_user (id : string) (c : Claims) (d : cdb) : goerr + (unit * cdb) :=
  if subject_taken (Subject c) (base.filter (fun u => u_id u <> id) (users (accounts_ d)))
  then inl (ErrPg "23505" "users_oidc_subject_key") else inr (tt, update_user id (linked c) d).

Definition promoted (u : user_row) : user_row :=
  MkUser (u_id u) (u_email u) (u_hash u) (u_subject u) (u_totp u) (u_totp_on u) true (u_must_change u)
    (u_display u) (u_created u) (u_login u).

(** The account of the claims: found, and then brought up to date, or created. *)
Definition account_of (c : Claims) : HMO string :=
  let failed e := Error 500 "db" (error_text e) in
  found ← tried (at_pg (QueryRow (q_user c)));
  match found with
  | inl ErrNoRows => attempt failed (at_pg (Exec (insert_oidc_user c)))
  | inl e => reply (failed e)
  | inr id =>
      quietly_ (at_pg (Exec (link_user id c))) ≫= fun _ =>
      (if bool_decide (cl_Email c ∈ AdminEmails o) then quietly_ (at_pg (Exec_ (update_user id promoted))) else mret tt) ≫= fun _ =>
      mret id
  end.

Definition login_error (msg : string) : resp := Redirect ("/#/login?error=" +:+ QueryEscape msg)%string 302.

Definition oidcCallback (r : http_request) : HMO resp :=
  require (Enabled o) (Error 404 "oidc_disabled" "OIDC n'est pas configuré") ≫= fun _ =>
  st ← attempt (fun _ => login_error "état OIDC invalide ou expiré") (at_pg (Exec (take_state (Query_Get "state" r))));
  c ← attempt (fun _ => login_error "connexion OIDC refusée") (Exchange (Query_Get "code" r) (oi_nonce st));
  id ← account_of c;
  tok ← attempt (fun e => Error 500 "session" (error_text e)) (Create r id);
  audit no_one "auth.oidc" (JObj [("email"%string, JStr (cl_Email c))]) ≫= fun _ =>
  mret (add_cookie CookieName tok (Redirect (Location (oi_redirect st)) 302)).

End Oidc.

(** ** What a login does *)

Section Login.
Context {HC : Crypto} {X : Type} (gen : cdb -> string) (o : OIDC).
Context (code_exchange : string -> M (cworld X) (option string)) (verify_token : string -> M (cworld X) id_token).
Context (relative : string -> bool).
(** The provider's libraries do not act on control. *)
Hypothesis keeps_exchange : forall P code, untouched P -> preserves P (code_exchange code).
Hypothesis keeps_verify : forall P raw, untouched P -> preserves P (verify_token raw).

Abbreviation Exchange := (Exchange code_exchange verify_token).
Abbreviation oidcCallback := (oidcCallback gen o code_exchange verify_token relative).
Abbreviation account_of := (account_of gen o).

Lemma Exchange_keeps P code nonce : untouched P -> preserves P (Exchange code nonce).
Proof.
  intros HP. apply preserves_bind; [by apply keeps_exchange|]. intros [raw|]; [|by intros w Hw].
  apply preserves_bind; [by apply keeps_verify|]. intros idt. destruct (negb _); [by intros w Hw|].
  destruct (dec_claims _) as [c|]; [|by intros w Hw]. by case_bool_decide; intros w Hw.
Qed.

Definition same_db (d : cdb) (w : cworld X) : Prop := quiet_w w /\ db w = d.

Lemma same_db_untouched d : untouched (same_db d).
Proof. by intros x w Hw. Qed.

Lemma take_state_spec state d :
  match take_state state d with
  | inr (st, d') => st ∈ oidc_states (accounts_ d) /\ oi_state st = state /\ clock d - 900 < oi_created st /\
      d' = with_states (base.filter (fun y => live_state state d y = false) (oidc_states (accounts_ d))) d
  | inl e => forall y, y ∈ oidc_states (accounts_ d) -> live_state state d y = false
  end.
Proof.
  unfold take_state. destruct (list_find _ _) as [[i st]|] eqn:E.
  - apply list_find_Some in E as (Hi & Hl & _). unfold live_state in Hl. apply andb_prop in Hl as [H1%String.eqb_eq H2%Z.ltb_lt].
    split_and!; [by eapply list_elem_of_lookup_2|done|done|done].
  - intros y Hy. apply list_find_None in E. rewrite Forall_forall in E. by apply not_true_is_false, E.
Qed.

(** The account a login is for, in the accounts the login found: the first one
    with the subject or the address of the claims or, when there is none, an
    account that did not exist, made with that subject and that address. *)
Definition chosen (c : Claims) (id : string) (old new : list user_row) : Prop :=
  match base.filter (fun u => matches c u = true) old with
  | u :: _ => id = u_id u /\ u_id <$> new = u_id <$> old
  | [] => exists u, u_id u = id /\ u_email u = cl_Email c /\ u_subject u = Some (Subject c) /\ u_hash u = None /\ u ∈ new /\ u_id <$> new = (u_id <$> old) ++ [id]
  end.

Lemma q_user_chosen c d : match q_user c d with
  | Some id => exists u l, base.filter (fun u => matches c u = true) (users (accounts_ d)) = u :: l /\ id = u_id u
  | None => base.filter (fun u => matches c u = true) (users (accounts_ d)) = []
  end.
Proof.
  unfold q_user. induction (users (accounts_ d)) as [|u l IH]; [done|]. cbn [list_find]. rewrite filter_cons.
  destruct (decide (matches c u = true)); [by eexists _, _|]. by destruct (list_find _ l) as [[i v]|].
Qed.

Lemma update_user_ids id f d : (forall u, u_id (f u) = u_id u) ->
  u_id <$> users (accounts_ (update_user id f d)) = u_id <$> users (accounts_ d).
Proof.
  intros Hf. cbn. induction (users (accounts_ d)) as [|u l IH]; [done|]. cbn. rewrite IH. f_equal.
  destruct (String.eqb _ _); [apply Hf|done].
Qed.

Lemma account_of_spec c (w : cworld X) res w' : quiet_w w -> account_of c w = (res, w') ->
  quiet_w w' /\ sessions (accounts_ (db w')) = sessions (accounts_ (db w)) /\
  oidc_states (accounts_ (db w')) = oidc_states (accounts_ (db w)) /\ clock (db w') = clock (db w) /\
  match res with inr id => chosen c id (users (accounts_ (db w))) (users (accounts_ (db w'))) | inl a => r_cookies a = [] end.
Proof.
  intros Hq. unfold Oidc.account_of. rewrite HM_bind_eq, tried_query by done. unfold chosen.
  pose proof (q_user_chosen c (db w)) as Hch. destruct (q_user c (db w)) as [id|] eqn:Hu; [destruct Hch as (u & l & Hch & ->)|]; rewrite Hch.
  - rewrite HM_bind_eq. unfold quietly_ at 1. rewrite at_pg_exec by done.
    set (d1 := match link_user (u_id u) c (db w) with inr (_, d) => d | inl _ => db w end).
    assert (H1 : exists w1, (match link_user (u_id u) c (db w) with inl e => (inl e, w) | inr (a, d') => (inr a, set_cw_pg (MkPg d' []) w) end : (goerr + unit) * cworld X).2 = w1
        /\ quiet_w w1 /\ db w1 = d1).
    { unfold d1. destruct (link_user _ _ _) as [e|[[] d]]; by eexists. }
    destruct H1 as (w1 & -> & Hq1 & Hd1).
    assert (Hs1 : sessions (accounts_ d1) = sessions (accounts_ (db w)) /\ oidc_states (accounts_ d1) = oidc_states (accounts_ (db w)) /\
        clock d1 = clock (db w) /\ u_id <$> users (accounts_ d1) = u_id <$> users (accounts_ (db w))).
    { unfold d1, link_user. destruct (subject_taken _ _); [done|]. split_and!; [done..|]. by apply update_user_ids. }
    destruct Hs1 as (Hs1 & Ho1 & Hc1 & Hn1). rewrite <- Hd1 in Hs1, Ho1, Hc1, Hn1.
    rewrite HM_bind_eq. case_bool_decide.
    + rewrite quietly_exec_ by done. intros [= <- <-]. split_and!; [done..|]. by rewrite db_with_db, update_user_ids.
    + intros [= <- <-]. done.
  - unfold attempt. rewrite at_pg_exec by done. unfold insert_oidc_user.
    destruct (subject_taken _ _); [by intros [= <- <-]|]. destruct (email_taken _ _); [by intros [= <- <-]|]. intros [= <- <-].
    split_and!; [done..|]. eexists. split_and!;
      [| | | |cbn; apply elem_of_app; right; left|cbn; by rewrite fmap_app]; reflexivity.
Qed.

Lemma chosen_logged c id j now old d : chosen c id old (users (accounts_ d)) ->
  chosen c id old (users (accounts_ (update_user j (logged_in now) d))).
Proof.
  unfold chosen. rewrite update_user_ids by done. destruct (base.filter _ old); [|done].
  intros (u & Hi & He & Hs & Hh & Hin & Hids). exists (if String.eqb (u_id u) j then logged_in now u else u).
  split_and!; [by destruct (String.eqb _ _)..| |done]. cbn. apply list_elem_of_In, in_map_iff. exists u. split; [done|by apply list_elem_of_In].
Qed.

Lemma Exchange_sound code nonce c (w w' : cworld X) : Exchange code nonce w = (inr c, w') ->
  exists raw idt rc w1, code_exchange code w = (inr (Some raw), w1) /\ verify_token raw w1 = (inr idt, w') /\
    it_nonce idt = nonce /\ dec_claims (it_claims idt) = Some rc /\ rc_email rc <> EmptyString /\
    Subject c = it_subject idt /\ cl_Email c = ToLower (rc_email rc).
Proof.
  unfold Oidc.Exchange, mbind, M_bind. destruct (code_exchange code w) as [[e|[raw|]] w1]; [done| |done].
  destruct (verify_token raw w1) as [[e|idt] w2] eqn:Ev; [done|].
  destruct (String.eqb (it_nonce idt) nonce) eqn:En; [|done]. cbn [negb]. destruct (dec_claims _) as [rc|] eqn:Ed; [|done].
  case_bool_decide as He; [done|]. intros [= <- <-]. exists raw, idt, rc, w1. by apply String.eqb_eq in En.
Qed.

(** Claim C23: a login through the provider opens a session only with a state
    control gave less than a quarter of an hour before, which it consumes, and
    for a token the verifier of the provider accepts for the code presented,
    whose nonce is the one given with that state.  The session is the only one
    opened; it is for the account that, before the login wrote anything, had the
    subject or the address of the token (the first one in the order of the
    table) or, when there was none, for an account made at once with that
    subject, that address and no password.  Any other answer opens none. *)
Theorem oidc_sound r (w : cworld X) : quiet_w w ->
  let '(a, w') := served (oidcCallback r) w in
  (exists st raw idt rc c tok s w1 w2 w3, st ∈ oidc_states (accounts_ (db w)) /\ oi_state st = Query_Get "state" r /\
     clock (db w) - 900 < oi_created st /\ (st ∉ oidc_states (accounts_ (db w'))) /\
     code_exchange (Query_Get "code" r) w1 = (inr (Some raw), w2) /\ verify_token raw w2 = (inr idt, w3) /\
     it_nonce idt = oi_nonce st /\ dec_claims (it_claims idt) = Some rc /\ rc_email rc <> EmptyString /\
     Subject c = it_subject idt /\ cl_Email c = ToLower (rc_email rc) /\
     chosen c (ss_user s) (users (accounts_ (db w))) (users (accounts_ (db w'))) /\
     sessions (accounts_ (db w')) = sessions (accounts_ (db w)) ++ [s] /\ ss_id s = hashToken tok /\
     (CookieName, tok) ∈ r_cookies a) \/
  (r_cookies a = [] /\ sessions (accounts_ (db w')) = sessions (accounts_ (db w))).
Proof.
  intros Hq. unfold served, Oidc.oidcCallback. rewrite HM_bind_eq, require_eq. destruct (Enabled o); [|by right].
  rewrite HM_bind_eq. unfold attempt at 1. rewrite at_pg_exec by done. pose proof (take_state_spec (Query_Get "state" r) (db w)) as Hst.
  destruct (take_state _ _) as [e|[st d]]; [by right|]. destruct Hst as (Hin & Hs & Ht & ->).
  set (d := with_states _ _). set (w1 := set_cw_pg _ w). rewrite HM_bind_eq. unfold attempt at 1.
  assert (H1 : same_db d w1) by done.
  pose proof (Exchange_keeps _ (Query_Get "code" r) (oi_nonce st) (same_db_untouched d) w1 H1) as H2.
  destruct (Exchange _ _ w1) as [[e|c] w2] eqn:Ex; destruct H2 as [Hq2 Hd2]; [right; cbn [snd] in *; by rewrite Hd2|]. cbn [snd] in *.
  rewrite HM_bind_eq. destruct (account_of c w2) as [res w3] eqn:Ea. apply account_of_spec in Ea as (Hq3 & Hs3 & Ho3 & _ & Hres); [|done].
  rewrite Hd2 in Hs3, Ho3. destruct res as [a|id]; [by right|]. rewrite HM_bind_eq. unfold attempt at 1.
  destruct (Create r id w3) as [[e|tok] w4] eqn:Ec.
  { apply Create_fails in Ec as [_ Hd4]; [|done]. right. by rewrite Hd4. }
  apply Create_quiet in Ec as (s & _ & Hid & Hus & _ & Hq4 & _ & _ & _ & Hd4); [|done].
  rewrite HM_bind_eq. destruct (audit_quiet no_one "auth.oidc" (JObj [("email"%string, JStr (cl_Email c))]) w4 Hq4) as [au ->].
  left. apply Exchange_sound in Ex as (raw & idt & rc & w1' & Hce & Hv & Hn & Hdc & Hne & Hsu & Hem).
  exists st, raw, idt, rc, c, tok, s, w1, w1', w2. cbn [mret HM_ret].
  rewrite db_with_db, accounts_audit. split_and!; [done|done|done| |done|done|done|done|done|done|done| | |done|cbn; left].
  - rewrite Hd4. cbn. rewrite Ho3. unfold d. cbn. rewrite list_elem_of_filter. intros [Hl _]. unfold live_state in Hl.
    rewrite Hs, String.eqb_refl in Hl. apply Z.ltb_ge in Hl. lia.
  - rewrite Hd4, Hus. apply (chosen_logged c id id (clock (db w3))) in Hres. by rewrite Hd2 in Hres.
  - rewrite Hd4. cbn. by rewrite Hs3.
Qed.

Lemma callback_states r (w : cworld X) a w' : quiet_w w -> Enabled o = true -> served (oidcCallback r) w = (a, w') ->
  quiet_w w' /\ clock (db w') = clock (db w) /\
  oidc_states (accounts_ (db w')) =
    base.filter (fun y => live_state (Query_Get "state" r) (db w) y = false) (oidc_states (accounts_ (db w))).
Proof.
  intros Hq He. unfold served, Oidc.oidcCallback. rewrite HM_bind_eq, require_eq, He.
  rewrite HM_bind_eq. unfold attempt at 1. rewrite at_pg_exec by done. pose proof (take_state_spec (Query_Get "state" r) (db w)) as Hst.
  destruct (take_state _ _) as [e|[st d]]; [intros [= _ <-]; by rewrite list_filter_all|].
  destruct Hst as (_ & _ & _ & ->). set (d := with_states _ _). set (w1 := set_cw_pg _ w). rewrite HM_bind_eq. unfold attempt at 1.
  assert (H1 : same_db d w1) by done.
  pose proof (Exchange_keeps _ (Query_Get "code" r) (oi_nonce st) (same_db_untouched d) w1 H1) as H2.
  destruct (Exchange _ _ w1) as [[e|c] w2]; destruct H2 as [Hq2 Hd2]; cbn [snd] in *; [intros [= _ <-]; by rewrite Hd2|].
  rewrite HM_bind_eq. destruct (account_of c w2) as [res w3] eqn:Ea. apply account_of_spec in Ea as (Hq3 & _ & Ho3 & Hc3 & _); [|done].
  rewrite Hd2 in Ho3, Hc3. destruct res as [b|id]; [by intros [= _ <-]|]. rewrite HM_bind_eq. unfold attempt at 1.
  destruct (Create r id w3) as [[e|tok] w4] eqn:Ec.
  { apply Create_fails in Ec as [Hq4 Hd4]; [|done]. intros [= _ <-]. by rewrite Hd4. }
  apply Create_quiet in Ec as (s & _ & _ & _ & _ & Hq4 & _ & _ & _ & Hd4); [|done].
  rewrite HM_bind_eq. destruct (audit_quiet no_one "auth.oidc" (JObj [("email"%string, JStr (cl_Email c))]) w4 Hq4) as [au ->].
  intros [= _ <-]. rewrite db_with_db, accounts_audit. split; [done|]. rewrite Hd4. cbn. by rewrite Ho3, Hc3.
Qed.

(** A state serves once: whatever the answer to a login, the same state
    presented again sends back to the login page, opens no session and changes
    nothing. *)
Theorem oidc_state_once r r2 (w w2 : cworld X) : quiet_w w -> Enabled o = true -> Query_Get "state" r2 = Query_Get "state" r ->
  quiet_w w2 -> oidc_states (accounts_ (db w2)) = oidc_states (accounts_ (db (served (oidcCallback r) w).2)) ->
  clock (db w) <= clock (db w2) ->
  served (oidcCallback r2) w2 = (login_error "état OIDC invalide ou expiré", w2).
Proof.
  intros Hq He Hr Hq2 Ho Hc. destruct (callback_states r w _ _ Hq He (surjective_pairing _)) as (_ & _ & Hs). rewrite Hs in Ho.
  unfold served, Oidc.oidcCallback. rewrite HM_bind_eq, require_eq, He, HM_bind_eq. unfold attempt at 1. rewrite at_pg_exec, Hr by done.
  pose proof (take_state_spec (Query_Get "state" r) (db w2)) as Hst. destruct (take_state _ _) as [e|[st d]]; [done|].
  destruct Hst as (Hin & H1 & H2 & _). rewrite Ho in Hin. apply list_elem_of_filter in Hin as [Hl _].
  unfold live_state in Hl. rewrite H1, String.eqb_refl in Hl. apply Z.ltb_ge in Hl. lia.
Qed.

(** An account that is found is brought up to date: only its subject, its name
    and, for the addresses of administrators, its rights change. *)
Definition updated (c : Claims) (u : user_row) : user_row :=
  if bool_decide (cl_Email c ∈ AdminEmails o) then promoted (linked c u) else linked c u.

Lemma update_user_in id f u d : u ∈ users (accounts_ d) -> u_id u = id -> f u ∈ users (accounts_ (update_user id f d)).
Proof.
  intros Hu Hi. cbn. apply list_elem_of_In, in_map_iff. exists u. rewrite Hi, String.eqb_refl. by rewrite <- list_elem_of_In.
Qed.

Lemma account_of_found c u (w : cworld X) : quiet_w w -> q_user c (db w) = Some (u_id u) -> u ∈ users (accounts_ (db w)) ->
  subject_taken (Subject c) (base.filter (fun v => u_id v <> u_id u) (users (accounts_ (db w)))) = false ->
  exists w', account_of c w = (inr (u_id u), w') /\ quiet_w w' /\ updated c u ∈ users (accounts_ (db w')) /\
    sessions (accounts_ (db w')) = sessions (accounts_ (db w)) /\ cw_rand w' = cw_rand w.
Proof.
  intros Hq Hf Hu Ht. unfold Oidc.account_of. rewrite HM_bind_eq, tried_query, Hf by done.
  rewrite HM_bind_eq. unfold quietly_ at 1. rewrite at_pg_exec by done. unfold link_user. rewrite Ht. cbn [snd].
  pose proof (update_user_in (u_id u) (linked c) u (db w) Hu eq_refl) as H1.
  rewrite HM_bind_eq. unfold updated. case_bool_decide.
  - rewrite quietly_exec_ by done. eexists. split; [reflexivity|]. split_and!; [done| |done|done].
    rewrite db_with_db. by apply (update_user_in (u_id u) promoted (linked c u)).
  - eexists. split; [reflexivity|]. done.
Qed.

Lemma q_user_only c u d : u ∈ users (accounts_ d) -> matches c u = true ->
  (forall v, v ∈ users (accounts_ d) -> matches c v = true -> v = u) -> q_user c d = Some (u_id u).
Proof.
  intros Hu Hm Hall. unfold q_user. destruct (list_find _ _) as [[i v]|] eqn:E.
  - apply list_find_Some in E as (Hi & Hv & _). apply list_elem_of_lookup_2 in Hi. cbn. by rewrite (Hall v Hi Hv).
  - apply list_find_None in E. rewrite Forall_forall in E. by destruct (E u Hu).
Qed.

Lemma Create_works r i (w : cworld X) : quiet_w w -> i ∈ u_id <$> users (accounts_ (db w)) ->
  (hashToken (encode RawURLEncoding (default EmptyString (List.hd_error (cw_rand w)))) ∉ ss_id <$> sessions (accounts_ (db w))) ->
  exists tok w', Create r i w = (inr tok, w').
Proof.
  intros Hq Hi Hf. destruct (Create r i w) as [[e|tok] w'] eqn:E; [|by eexists _, _]. exfalso. revert E.
  unfold Create. unfold mbind at 1, M_bind at 1. change (RandomToken w) with (inr (encode RawURLEncoding (default EmptyString (List.hd_error (cw_rand w)))) : goerr + string, (draw w).2).
  unfold mbind, M_bind. rewrite at_pg_exec by done. unfold insert_session. cbn [ss_id ss_user]. change (db (draw w).2) with (db w).
  assert (E1 : existsb (fun x => String.eqb (ss_id x) (hashToken (encode RawURLEncoding (default EmptyString (List.hd_error (cw_rand w))))))
    (sessions (accounts_ (db w))) = false).
  { apply not_true_iff_false. intros (x & Hx%list_elem_of_In & Hs%String.eqb_eq)%existsb_exists. apply Hf, list_elem_of_fmap. by exists x. }
  assert (E2 : existsb (fun u => String.eqb (u_id u) i) (users (accounts_ (db w))) = true).
  { apply list_elem_of_fmap in Hi as (u & -> & Hu). apply existsb_exists. exists u. split; [by apply list_elem_of_In|apply String.eqb_refl]. }
  by rewrite E1, E2.
Qed.

Lemma callback_found r (w : cworld X) st c : quiet_w w -> Enabled o = true ->
  st ∈ oidc_states (accounts_ (db w)) -> oi_state st = Query_Get "state" r -> clock (db w) - 900 < oi_created st ->
  (forall y, y ∈ oidc_states (accounts_ (db w)) -> oi_state y = oi_state st -> y = st) ->
  (forall v, Exchange (Query_Get "code" r) (oi_nonce st) v = (inr c, v)) ->
  exists w1, quiet_w w1 /\ users (accounts_ (db w1)) = users (accounts_ (db w)) /\
    sessions (accounts_ (db w1)) = sessions (accounts_ (db w)) /\ cw_rand w1 = cw_rand w /\
    oidcCallback r w = (id ← account_of c;
      tok ← attempt (fun e => Error 500 "session" (error_text e)) (Create r id);
      audit no_one "auth.oidc" (JObj [("email"%string, JStr (cl_Email c))]) ≫= fun _ =>
      mret (add_cookie CookieName tok (Redirect (Location relative (oi_redirect st)) 302))) w1.
Proof.
  intros Hq He Hin Hs Ht Huniq Hx. unfold Oidc.oidcCallback. rewrite HM_bind_eq, require_eq, He, HM_bind_eq. unfold attempt at 1.
  rewrite at_pg_exec by done. pose proof (take_state_spec (Query_Get "state" r) (db w)) as Hst. destruct (take_state _ _) as [e|[st' d]].
  { specialize (Hst st Hin). unfold live_state in Hst. rewrite Hs, String.eqb_refl in Hst. apply Z.ltb_ge in Hst. lia. }
  destruct Hst as (Hin' & Hs' & _ & ->). assert (st' = st) as -> by (apply Huniq; [done|congruence]).
  eexists. rewrite HM_bind_eq. unfold attempt at 1. rewrite Hx.
  split; [|split; [|split; [|split; [|reflexivity]]]]; done.
Qed.

(** The account is found by the address alone: whoever the provider
    gives a token to for the address of an account, verified or not, is logged
    in as that account; neither its password nor its second factor is asked for,
    and the subject of the token becomes the account's. *)
Theorem oidc_takes_account r (w : cworld X) st u raw sub claims email name pref :
  quiet_w w -> Enabled o = true ->
  st ∈ oidc_states (accounts_ (db w)) -> oi_state st = Query_Get "state" r -> clock (db w) - 900 < oi_created st ->
  (forall y, y ∈ oidc_states (accounts_ (db w)) -> oi_state y = oi_state st -> y = st) ->
  (forall v, code_exchange (Query_Get "code" r) v = (inr (Some raw), v)) ->
  (forall v, verify_token raw v = (inr (MkIdToken (oi_nonce st) sub claims), v)) ->
  dec_claims claims = Some (MkRaw email false name pref) -> email <> EmptyString ->
  u ∈ users (accounts_ (db w)) -> ToLower (u_email u) = ToLower email ->
  (forall v, v ∈ users (accounts_ (db w)) -> u_subject v <> Some sub /\ (ToLower (u_email v) = ToLower email -> v = u)) ->
  (hashToken (encode RawURLEncoding (default EmptyString (List.hd_error (cw_rand w)))) ∉ ss_id <$> sessions (accounts_ (db w))) ->
  let '(a, w') := served (oidcCallback r) w in
  r_code a = 302 /\ (exists tok s, (CookieName, tok) ∈ r_cookies a /\ sessions (accounts_ (db w')) = sessions (accounts_ (db w)) ++ [s] /\
     ss_id s = hashToken tok /\ ss_user s = u_id u) /\
  exists u', u' ∈ users (accounts_ (db w')) /\ u_id u' = u_id u /\ u_subject u' = Some sub /\
    u_hash u' = u_hash u /\ u_totp u' = u_totp u /\ u_totp_on u' = u_totp_on u.
Proof.
  intros Hq He Hin Hs Ht Huniq Hcode Hver Hdec Hemail Hu Hue Hall Hfresh.
  set (c := MkClaims sub (ToLower email) (if bool_decide (name = EmptyString) then pref else name)).
  destruct (callback_found r w st c Hq He Hin Hs Ht Huniq) as (w1 & Hq1 & Hu1 & Hs1 & Hr1 & Hcb).
  { intros v. unfold Oidc.Exchange, mbind, M_bind. rewrite Hcode, Hver. cbn [it_nonce it_claims it_subject]. rewrite String.eqb_refl.
    cbn [negb]. rewrite Hdec. cbn [rc_email rc_name rc_preferred]. by rewrite bool_decide_false. }
  unfold served. rewrite Hcb, HM_bind_eq. rewrite <- Hu1 in Hu, Hall. rewrite <- Hr1, <- Hs1 in Hfresh.
  assert (Hmatch : forall v, v ∈ users (accounts_ (db w1)) -> matches c v = true -> v = u).
  { intros v Hv Hm. destruct (Hall v Hv) as [Hv1 Hv2]. apply Hv2. unfold matches in Hm. cbn [c Subject cl_Email] in Hm.
    rewrite bool_decide_false in Hm by done. by apply String.eqb_eq in Hm. }
  destruct (account_of_found c u w1 Hq1) as (w2 & -> & Hq2 & Hup & Hs2 & Hr2); [|done| |].
  { apply q_user_only; [done| |done]. unfold matches. cbn [c cl_Email]. by rewrite Hue, String.eqb_refl, orb_true_r. }
  { apply not_true_iff_false. intros (v & [_ Hv]%list_elem_of_In%list_elem_of_filter & Hx%bool_decide_eq_true)%existsb_exists.
    by destruct (Hall v Hv). }
  rewrite <- Hr2, <- Hs2 in Hfresh. rewrite HM_bind_eq. unfold attempt at 1.
  assert (Hid : u_id (updated c u) = u_id u) by (unfold updated; by case_bool_decide).
  destruct (Create_works r (u_id u) w2 Hq2) as (tok & w3 & Ec); [rewrite <- Hid; by apply list_elem_of_fmap_2|done|]. rewrite Ec.
  apply Create_quiet in Ec as (s & _ & Hsid & Hus & _ & Hq3 & _ & _ & _ & Hd3); [|done].
  rewrite HM_bind_eq. destruct (audit_quiet no_one "auth.oidc" (JObj [("email"%string, JStr (cl_Email c))]) w3 Hq3) as [au ->].
  cbn [mret HM_ret]. rewrite db_with_db, accounts_audit. split; [done|]. split.
  - exists tok, s. split; [cbn; left|]. split; [|done]. rewrite Hd3. cbn. by rewrite Hs2, Hs1.
  - exists (logged_in (clock (db w2)) (updated c u)). split.
    + rewrite Hd3. by apply (update_user_in (u_id u) (logged_in (clock (db w2))) (updated c u)).
    + unfold updated. by case_bool_decide.
Qed.

End Login.

(** ** A run: the account of Ann, whose second factor is on *)

Module OidcDemo.
Import AccessDemo.

Definition demo_state : oidc_row := MkOidc "state" "nonce" "/#/queues" 900.
Definition asked : cworld unit :=
  MkCw (MkPg (with_states [demo_state] demo) []) ["session token"]%string false 0 tt.
Definition ann_claims : json :=
  JObj [("email", JStr "Ann@acme.example"); ("email_verified", JBool false); ("name", JStr "Mallory")]%string.
Definition back : http_request :=
  MkHttp "GET" ∅ ∅ ∅ (list_to_map [("state", "state"); ("code", "code")]%string) (inr JNull) "192.0.2.9" 1000.
Definition demo_oidc : OIDC := NewOIDC true "https://id.example" "flyc" "https://control.example/auth/oidc/callback" " Root@acme.example,".
Definition demo_code : string -> M (cworld unit) (option string) := fun _ => mret (Some "raw"%string).
Definition demo_verify : string -> M (cworld unit) id_token := fun _ => mret (MkIdToken "nonce" "sub-9" ann_claims).
Abbreviation demo_callback := (oidcCallback (fun _ => "u9"%string) demo_oidc demo_code demo_verify (fun _ => true)).

Lemma demo_code_keeps P code : untouched P -> preserves P (demo_code code).
Proof. by intros _ w Hw. Qed.
Lemma demo_verify_keeps P raw : untouched P -> preserves P (demo_verify raw).
Proof. by intros _ w Hw. Qed.

Lemma oidc_sound_witness :
  r_code (served (demo_callback back) asked).1 = 302 /\
  exists s, sessions (accounts_ (db (served (demo_callback back) asked).2)) = sessions (accounts_ demo) ++ [s] /\ ss_user s = "u1"%string.
Proof.
  split; [vm_compute; reflexivity|].
  pose proof (oidc_sound (fun _ => "u9"%string) demo_oidc demo_code demo_verify (fun _ => true) demo_code_keeps demo_verify_keeps back asked eq_refl) as H.
  assert (E : r_cookies (served (demo_callback back) asked).1 <> []) by (vm_compute; discriminate).
  destruct (served (demo_callback back) asked) as [a w'] eqn:Es. cbn [fst snd] in *.
  destruct H as [(st & raw & idt & rc & c & tok & s & w1 & w2 & w3 & _ & _ & _ & _ & _ & _ & _ & _ & _ & _ & _ & _ & Hs & _ & _)|[H _]]; [|by destruct E].
  exists s. split; [exact Hs|].
  assert (Es2 : w' = (served (demo_callback back) asked).2) by (by rewrite Es). rewrite Es2 in Hs. revert Hs.
  vm_compute. intros Hs. by injection Hs as <-.
Defined.

Lemma oidc_state_once_witness :
  served (demo_callback back) (served (demo_callback back) asked).2
  = (login_error "état OIDC invalide ou expiré", (served (demo_callback back) asked).2).
Proof.
  apply (oidc_state_once (fun _ => "u9"%string) demo_oidc demo_code demo_verify (fun _ => true) demo_code_keeps demo_verify_keeps back back asked);
    [reflexivity|reflexivity|reflexivity|vm_compute; reflexivity|reflexivity|vm_compute; discriminate].
Defined.

Lemma oidc_takes_account_witness :
  u_totp_on ann = true /\ r_code (served (demo_callback back) asked).1 = 302 /\
  exists u', u' ∈ users (accounts_ (db (served (demo_callback back) asked).2)) /\ u_id u' = "u1"%string /\ u_subject u' = Some "sub-9"%string.
Proof.
  split; [reflexivity|].
  pose proof (oidc_takes_account (fun _ => "u9"%string) demo_oidc demo_code demo_verify (fun _ => true)
    back asked demo_state ann "raw" "sub-9" ann_claims "Ann@acme.example" "Mallory" EmptyString eq_refl eq_refl) as H.
  destruct (served (demo_callback back) asked) as [a w']. cbn [fst snd].
  destruct H as (Hc & _ & u' & Hu & Hi & Hs & _); [by left|reflexivity|vm_compute; reflexivity| |reflexivity|reflexivity|reflexivity|discriminate
    |by left|vm_compute; reflexivity| | |split; [exact Hc|]; by exists u'].
  - intros y [->|[]%not_elem_of_nil]%elem_of_cons _. reflexivity.
  - intros v [->|[->|[]%not_elem_of_nil]%elem_of_cons]%elem_of_cons; (split; [discriminate|]); [done|vm_compute; discriminate].
  - apply (bool_decide_unpack _). vm_compute. exact I.
Defined.

End OidcDemo.
