(* ===== verification/Migrate.v ===== *)
(** * The migrations of the schema

    [control/internal/db/migrate.go].  The schema is an abstract state and the
    execution of an SQL file on it a parameter; what is kept of PostgreSQL is
    that a transaction takes effect as a whole or not at all, that a name is
    recorded once, and that a call may fail before or after it takes effect.
    What is proved: wherever a run stops, the next one goes on from there, and
    in the end each file has been executed once, in order. *)
From S2P Require Import Prelude GoStr Json Room.

Local Open Scope list_scope.

Section Migrate.
Context {A : Type}.
(** The embedded files: their names and contents; what executing one does. *)
Context (files : list (string * string)) (exec : string -> A -> goerr + A).

(** The schema, and the names recorded in [schema_migrations] when that table
    exists. *)
Record mdb : Type := MkMdb { recorded : option (list string); schema : A }.

(** How the next calls fare: they succeed, fail without effect, or take effect
    although an error is returned. *)
Inductive call : Type := Done | Refused (e : goerr) | Lost (e : goerr).
Record mworld : Type := MkMw { mw_db : mdb; mw_calls : list call }.

Definition next (w : mworld) : call * list call :=
  match mw_calls w with [] => (Done, []) | c :: l => (c, l) end.

(** A statement outside a transaction. *)
Definition stmt {B} (f : mdb -> (goerr + B) * mdb) : M mworld B := fun w =>
  let '(c, l) := next w in
  match c with
  | Done => let '(r, d) := f (mw_db w) in (r, MkMw d l)
  | Refused e => (inl e, MkMw (mw_db w) l)
  | Lost e => (inl e, MkMw (f (mw_db w)).2 l)
  end.

Definition create_table : M mworld unit :=
  stmt (fun d => (inr tt, MkMdb (Some (default [] (recorded d))) (schema d))).

Definition no_table : goerr := ErrPg "42P01" "schema_migrations".
Definition is_done (name : string) : M mworld bool :=
  stmt (fun d => (match recorded d with Some l => inr (bool_decide (name ∈ l)) | None => inl no_table end, d)).

(** The insertion of a name, which is the primary key. *)
Definition record (name : string) (d : mdb) : goerr + mdb :=
  match recorded d with
  | None => inl no_table
  | Some l => if bool_decide (name ∈ l) then inl (ErrPg "23505" "schema_migrations_pkey")
              else inr (MkMdb (Some (l ++ [name])) (schema d))
  end.

(** The calls of a transaction: the database it has made so far is kept beside
    the one the others see, which the commit replaces. *)
Definition in_transaction (f : mdb -> goerr + mdb) : M (mworld * mdb) unit := fun p =>
  let '(w, d) := p in
  let '(c, l) := next w in
  match c with
  | Done => match f d with inl e => (inl e, (MkMw (mw_db w) l, d)) | inr d' => (inr tt, (MkMw (mw_db w) l, d')) end
  | Refused e | Lost e => (inl e, (MkMw (mw_db w) l, d))
  end.

Definition exec_file (sql : string) (d : mdb) : goerr + mdb :=
  match exec sql (schema d) with inl e => inl e | inr s => inr (MkMdb (recorded d) s) end.

Definition rollback (w : mworld) : mworld := MkMw (mw_db w) (next w).2.

(** [Begin], the file, its name, [Commit]; an error of one of the two statements
    is followed by [Rollback], whose own error is dropped. *)
Definition apply_file (name sql : string) : M mworld unit := fun w =>
  let '(c, l) := next w in
  match c with
  | Refused e | Lost e => (inl e, MkMw (mw_db w) l)
  | Done =>
      match in_transaction (exec_file sql) (MkMw (mw_db w) l, mw_db w) with
      | (inl e, (w1, _)) => (inl (wrap ("migration " +:+ name)%string e), rollback w1)
      | (inr _, p1) =>
          match in_transaction (record name) p1 with
          | (inl e, (w2, _)) => (inl e, rollback w2)
          | (inr _, (w2, d2)) => stmt (fun _ => (inr tt, d2)) w2
          end
      end
  end.

Fixpoint apply_all (l : list (string * string)) : M mworld unit :=
  match l with
  | [] => mret tt
  | (name, sql) :: l =>
      done ← is_done name;
      (if done : bool then mret tt else apply_file name sql) ≫= fun _ => apply_all l
  end.

(** [sort.Strings] of the names of the directory. *)
Definition name_le (x y : string * string) : Prop := String.le x.1 y.1.
#[export] Instance name_le_dec : RelDecision name_le.
Proof. intros x y. unfold name_le. apply _. Defined.
Definition sorted_files : list (string * string) := merge_sort name_le files.

Definition Migrate : M mworld unit :=
  fun w => match create_table w with
           | (inl e, w1) => (inl (wrap "schema_migrations" e), w1)
           | (inr _, w1) => apply_all sorted_files w1
           end.

(** ** What remains to be done *)

(** The files whose names are not recorded, and their execution in order. *)
Definition names (d : mdb) : list string := default [] (recorded d).
Definition remaining (d : mdb) (l : list (string * string)) : list (string * string) :=
  base.filter (fun x => x.1 ∉ names d) l.
Fixpoint run (l : list (string * string)) (s : A) : goerr + A :=
  match l with
  | [] => inr s
  | (_, sql) :: l => match exec sql s with inl e => inl e | inr s' => run l s' end
  end.

(** A database from which the remaining files lead to [s]. *)
Definition leads_to (s : A) (d : mdb) : Prop := run (remaining d sorted_files) (schema d) = inr s.

Lemma remaining_cons d x l : remaining d (x :: l) = if decide (x.1 ∈ names d) then remaining d l else x :: remaining d l.
Proof. unfold remaining. rewrite filter_cons. by repeat case_decide. Qed.

(** A name that is not in a list does not change what remains of it. *)
Lemma remaining_other d d' n l : names d' = names d ++ [n] -> n ∉ l.*1 -> remaining d' l = remaining d l.
Proof.
  intros Hn Hl. induction l as [|x l IH]; [done|]. rewrite fmap_cons, not_elem_of_cons in Hl. destruct Hl as [Hx Hl].
  rewrite !remaining_cons, (IH Hl), Hn. destruct (decide (x.1 ∈ names d)) as [Hd|Hd].
  - by rewrite decide_True by set_solver.
  - rewrite decide_False; [done|]. set_solver.
Qed.

Lemma is_done_db n w r w' : is_done n w = (r, w') -> mw_db w' = mw_db w /\
  forall b : bool, r = inr b -> b = bool_decide (n ∈ names (mw_db w)).
Proof.
  unfold is_done, stmt, names. destruct (next w) as [c l]. destruct c; [|by intros [= <- <-]..].
  destruct (recorded (mw_db w)); intros [= <- <-]; split; try done. by intros b [= <-].
Qed.

(** A file takes effect with the record of its name, or not at all. *)
Lemma apply_file_cases n sql w r w' : apply_file n sql w = (r, w') ->
  (mw_db w' = mw_db w /\ exists e, r = inl e) \/
  (exists s', exec sql (schema (mw_db w)) = inr s' /\ n ∉ names (mw_db w) /\
     names (mw_db w') = names (mw_db w) ++ [n] /\ schema (mw_db w') = s').
Proof.
  unfold apply_file. destruct (next w) as [c l]. destruct c; [|intros [= <- <-]; left; eauto..].
  unfold in_transaction at 1. destruct (next _) as [c1 l1]. destruct c1; [|intros [= <- <-]; left; eauto..].
  unfold exec_file. destruct (exec sql _) as [e|s'] eqn:Ee; [intros [= <- <-]; left; eauto|].
  unfold in_transaction. destruct (next _) as [c2 l2]. destruct c2; [|intros [= <- <-]; left; eauto..].
  unfold record, names. cbn [recorded schema mw_db]. destruct (recorded (mw_db w)) as [ns|]; [|intros [= <- <-]; left; eauto].
  case_bool_decide as Hn; [intros [= <- <-]; left; eauto|]. unfold stmt. destruct (next _) as [c3 l3].
  destruct c3; intros [= <- <-]; [right|left; eauto|right]; by exists s'.
Qed.

(** What a list of files does from a database to another one. *)
Record progress (l : list (string * string)) (d d' : mdb) (finished : Prop) (part : list (string * string)) : Prop := {
  pg_split : remaining d l = part ++ remaining d' l;
  pg_names : names d' = names d ++ part.*1;
  pg_run : run part (schema d) = inr (schema d');
  pg_end : finished -> remaining d' l = []
}.

Lemma progress_none l d d' : names d' = names d -> schema d' = schema d -> progress l d d' False [].
Proof. intros Hn Hs. split; [|by rewrite Hn, app_nil_r|by cbn; rewrite Hs|done]. unfold remaining. by rewrite Hn. Qed.

Lemma progress_skip x l d d' F part : progress l d d' F part -> x.1 ∈ names d -> progress (x :: l) d d' F part.
Proof.
  intros [H1 H2 H3 H4] Hx. split; [|done|done|]; rewrite !remaining_cons, ?(decide_True (P := x.1 ∈ names d)) by done.
  all: rewrite decide_True by (rewrite H2; set_solver); done.
Qed.

Lemma progress_one n sql l d d1 d' F part s' : n ∉ l.*1 -> n ∉ names d -> exec sql (schema d) = inr s' ->
  names d1 = names d ++ [n] -> schema d1 = s' -> progress l d1 d' F part -> progress ((n, sql) :: l) d d' F ((n, sql) :: part).
Proof.
  intros Hl Hn He Hn1 Hs1 [H1 H2 H3 H4]. split.
  - rewrite !remaining_cons. cbn [fst]. rewrite decide_False by done. rewrite decide_True by (rewrite H2, Hn1; set_solver).
    rewrite <- (remaining_other d d1 n l) by done. by rewrite H1.
  - by rewrite H2, Hn1, <- app_assoc.
  - cbn [run]. rewrite He, <- Hs1. exact H3.
  - intros HF. rewrite remaining_cons. cbn [fst]. rewrite decide_True by (rewrite H2, Hn1; set_solver). by apply H4.
Qed.

Lemma apply_all_progress l : forall w r w', NoDup l.*1 -> apply_all l w = (r, w') ->
  exists part, progress l (mw_db w) (mw_db w') (r = inr tt) part.
Proof.
  induction l as [|[n sql] l IH]; intros w r w' Hnd.
  { intros [= <- <-]. exists []. split; try done. by rewrite app_nil_r. }
  rewrite fmap_cons in Hnd. apply NoDup_cons in Hnd as [Hn Hnd]. cbn [apply_all]. unfold mbind at 1, M_bind at 1.
  destruct (is_done n w) as [x w1] eqn:Ed. apply is_done_db in Ed as [Hdb Hb].
  assert (Hstop : forall e, exists part, progress ((n, sql) :: l) (mw_db w) (mw_db w1) (inl e = inr tt :> goerr + unit) part).
  { intros e. exists []. destruct (progress_none ((n, sql) :: l) (mw_db w) (mw_db w1)) as [? ? ? _]; [by rewrite Hdb..|]. by split. }
  destruct x as [e|b]; [intros [= <- <-]; apply Hstop|]. specialize (Hb b eq_refl). subst b. case_bool_decide as Hin.
  - unfold mbind, M_bind. cbn. intros H. apply IH in H as [part H]; [|done]. rewrite Hdb in H. exists part. by apply progress_skip.
  - unfold mbind, M_bind. destruct (apply_file n sql w1) as [y w2] eqn:Ea.
    apply apply_file_cases in Ea as [[Hw2 [e ->]]|(s' & He & _ & Hn2 & Hs2)].
    + intros [= <- <-]. rewrite Hw2. apply Hstop.
    + rewrite Hdb in He, Hn2. destruct y as [e|[]].
      * intros [= <- <-]. exists [(n, sql)]. eapply progress_one; [done..|].
        destruct (progress_none l (mw_db w2) (mw_db w2) eq_refl eq_refl) as [? ? ? _]. by split.
      * intros H. apply IH in H as [part H]; [|done]. exists ((n, sql) :: part). by eapply progress_one.
Qed.

Lemma create_table_db w r w' : create_table w = (r, w') -> names (mw_db w') = names (mw_db w) /\ schema (mw_db w') = schema (mw_db w).
Proof.
  unfold create_table, stmt, names. destruct (next w) as [c l]. destruct c; intros [= <- <-]; [|done|]; cbn; split; done.
Qed.

Lemma sorted_NoDup : NoDup files.*1 -> NoDup sorted_files.*1.
Proof. intros H. unfold sorted_files. by rewrite merge_sort_Permutation. Qed.

Lemma Migrate_progress w r w' : NoDup files.*1 -> Migrate w = (r, w') ->
  exists part, progress sorted_files (mw_db w) (mw_db w') (r = inr tt) part.
Proof.
  intros Hnd. unfold Migrate. destruct (create_table w) as [x w1] eqn:Ec. apply create_table_db in Ec as [Hn Hs].
  destruct x as [e|[]].
  - intros [= <- <-]. exists []. destruct (progress_none sorted_files _ _ Hn Hs) as [? ? ? _]. by split.
  - intros H. apply apply_all_progress in H as [part [H1 H2 H3 H4]]; [|by apply sorted_NoDup]. exists part.
    assert (Hr : forall l, remaining (mw_db w1) l = remaining (mw_db w) l) by (intros l; unfold remaining; by rewrite Hn).
    split; [by rewrite <- Hr|by rewrite <- Hn|by rewrite <- Hs|done].
Qed.

Lemma run_app l1 l2 s s1 : run l1 s = inr s1 -> run (l1 ++ l2) s = run l2 s1.
Proof.
  revert s. induction l1 as [|[n q] l1 IH]; intros s; [by intros [= ->]|]. cbn. destruct (exec q s); [done|]. apply IH.
Qed.

(** Claim C24: whatever the calls of a run do, it executes a first part of the files
    whose names are not recorded, in the order of their names, each with the
    record of its name, so that the next run goes on from there: the state the
    files lead to is the same after it as before; a run that succeeds has
    executed them all. *)
Theorem Migrate_resumes w r w' : NoDup files.*1 -> Migrate w = (r, w') ->
  exists part, remaining (mw_db w) sorted_files = part ++ remaining (mw_db w') sorted_files /\
    names (mw_db w') = names (mw_db w) ++ part.*1 /\ run part (schema (mw_db w)) = inr (schema (mw_db w')) /\
    (forall s, leads_to s (mw_db w) -> leads_to s (mw_db w') /\ (r = inr tt -> schema (mw_db w') = s)).
Proof.
  intros Hnd H. apply Migrate_progress in H as [part [H1 H2 H3 H4]]; [|done]. exists part. split_and!; [done..|].
  intros s Hs. unfold leads_to in *. rewrite H1, (run_app _ _ _ _ H3) in Hs. split; [done|]. intros Hr. rewrite (H4 Hr) in Hs.
  by injection Hs.
Qed.

(** A run that succeeds has recorded every name. *)
Lemma Migrate_all w w' : NoDup files.*1 -> Migrate w = (inr tt, w') -> forall x, x ∈ files -> x.1 ∈ names (mw_db w').
Proof.
  intros Hnd H x Hx. apply Migrate_progress in H as (part & [_ _ _ H4]); [|done].
  destruct (decide (x.1 ∈ names (mw_db w'))) as [Hd|Hd]; [done|]. exfalso.
  assert (Hin : x ∈ remaining (mw_db w') sorted_files).
  { apply list_elem_of_filter. split; [done|]. unfold sorted_files. by rewrite merge_sort_Permutation. }
  rewrite (H4 eq_refl) in Hin. by apply not_elem_of_nil in Hin.
Qed.

Lemma quiet_file n sql w s' : mw_calls w = [] -> is_Some (recorded (mw_db w)) -> n ∉ names (mw_db w) -> exec sql (schema (mw_db w)) = inr s' ->
  apply_file n sql w = (inr tt, MkMw (MkMdb (Some (names (mw_db w) ++ [n])) s') []).
Proof.
  destruct w as [[rc sc] cs]. cbn. intros -> [ns ->] Hn He. unfold apply_file, names in *. cbn in *.
  unfold exec_file. cbn. rewrite He. unfold record. cbn. by rewrite bool_decide_false.
Qed.

Lemma apply_all_quiet l : forall w s, NoDup l.*1 -> mw_calls w = [] -> is_Some (recorded (mw_db w)) ->
  run (remaining (mw_db w) l) (schema (mw_db w)) = inr s -> exists w', apply_all l w = (inr tt, w').
Proof.
  induction l as [|[n sql] l IH]; intros w s Hnd Hc Hr Hrun; [by eexists|].
  rewrite fmap_cons in Hnd. apply NoDup_cons in Hnd as [Hn Hnd]. cbn [apply_all]. unfold mbind at 1, M_bind at 1.
  assert (E : is_done n w = (inr (bool_decide (n ∈ names (mw_db w))), w)).
  { destruct w as [[rc sc] cs], Hr as [ns Hr]. cbn in Hc, Hr. by subst. }
  rewrite E. rewrite remaining_cons in Hrun. cbn [fst] in Hrun. unfold mbind, M_bind. case_bool_decide as Hin.
  - rewrite decide_True in Hrun by done. by apply (IH _ s).
  - rewrite decide_False in Hrun by done. cbn [run] in Hrun. destruct (exec sql _) as [e|s'] eqn:He; [done|].
    rewrite (quiet_file _ _ _ s') by done. apply (IH _ s); [done|done|by eexists|].
    by rewrite (remaining_other (mw_db w) _ n).
Qed.

(** When no call fails and the files that remain execute, a run
    succeeds, and leaves the state they lead to with every name recorded. *)
Theorem Migrate_completes w s : NoDup files.*1 -> mw_calls w = [] -> leads_to s (mw_db w) ->
  exists w', Migrate w = (inr tt, w') /\ schema (mw_db w') = s /\ (forall x, x ∈ files -> x.1 ∈ names (mw_db w')).
Proof.
  intros Hnd Hc Hs. destruct (Migrate w) as [r w'] eqn:E. pose proof E as Hp. apply Migrate_progress in Hp as (part & [H1 H2 H3 H4]); [|done].
  assert (Hok : r = inr tt).
  { destruct w as [[rc sc] cs]. cbn in Hc. subst cs.
    change (Migrate (MkMw (MkMdb rc sc) [])) with (apply_all sorted_files (MkMw (MkMdb (Some (default [] rc)) sc) [])) in E.
    destruct (apply_all_quiet sorted_files (MkMw (MkMdb (Some (default [] rc)) sc) []) s) as [v Hv]; [by apply sorted_NoDup|done|by eexists|done|].
    rewrite Hv in E. by injection E. }
  exists w'. rewrite Hok. split; [done|]. specialize (H4 Hok). split.
  - unfold leads_to in Hs. rewrite H1, (run_app _ _ _ _ H3), H4 in Hs. by injection Hs.
  - apply (Migrate_all w w' Hnd). by rewrite <- Hok.
Qed.

End Migrate.

(** ** A run that breaks off, and the next *)

Definition demo_files : list (string * string) := [("0002_b.sql", "b"); ("0001_a.sql", "a"); ("0003_c.sql", "c")]%string.
Definition demo_exec (sql : string) (s : list string) : goerr + list string := inr (s ++ [sql]).
Definition fresh : @mdb (list string) := MkMdb None [].
(** The commit of the second file is executed but its answer lost. *)
Definition broken : list call := replicate 10 Done ++ [Lost (Err "connection reset")].
Definition stopped : @mworld (list string) := (Migrate demo_files demo_exec (MkMw fresh broken)).2.

Lemma demo_NoDup : NoDup demo_files.*1.
Proof. apply (bool_decide_unpack _). vm_compute. exact I. Qed.

Lemma Migrate_resumes_witness :
  (Migrate demo_files demo_exec (MkMw fresh broken)).1 = inl (Err "connection reset") /\
  schema (mw_db stopped) = ["a"; "b"]%string /\ leads_to demo_files demo_exec ["a"; "b"; "c"]%string (mw_db stopped).
Proof.
  split; [vm_compute; reflexivity|]. split; [vm_compute; reflexivity|].
  destruct (Migrate_resumes demo_files demo_exec (MkMw fresh broken) _ _ demo_NoDup (surjective_pairing _)) as (part & _ & _ & _ & H).
  refine (proj1 (H ["a"; "b"; "c"]%string _)). vm_compute. reflexivity.
Defined.

Lemma Migrate_completes_witness :
  exists w, Migrate demo_files demo_exec (MkMw (mw_db stopped) []) = (inr tt, w) /\ schema (mw_db w) = ["a"; "b"; "c"]%string.
Proof.
  destruct (Migrate_completes demo_files demo_exec (MkMw (mw_db stopped) []) ["a"; "b"; "c"]%string demo_NoDup eq_refl) as (w & H1 & H2 & _);
    [vm_compute; reflexivity|].
  exists w. split; [exact H1|exact H2].
Defined.
