(* ===== verification/Keeps.v ===== *)
(** * What a computation leaves as it was

    A handler of the control plane acts on the database and on one part of the
    rest of the world.  [reads m] says that a call of the database only reads;
    [keeps R m] that a computation, run over a quiet database, moves the world
    along [R], a preorder.  Both follow the text of a handler construct by
    construct; [Routes] uses them on the whole table. *)
From Stdlib Require Import Ascii.
From S2P Require Import Prelude GoStr Json Httpx Dataplane Pg Inventory Jobs Access Reads Nodes Enrol JobsApi.

Local Open Scope list_scope.
Local Open Scope Z_scope.

(** ** What a computation leaves as it was *)

(** A call that only reads. *)
Definition reads {A} (m : M pg A) : Prop := forall p, quiet p -> (m p).2 = p.

Lemma reads_QueryRow {A} (q : cdb -> option A) : reads (QueryRow q).
Proof. intros [d l]. unfold quiet, QueryRow, turn. simpl. by intros ->. Qed.
Lemma reads_Query {A} (q : cdb -> list A) : reads (Query q).
Proof. intros p Hp. by rewrite Query_quiet. Qed.
Lemma reads_Listed {A} f (q : cdb -> list A) : reads (Listed f q).
Proof. intros [d l]. unfold quiet, Listed, turn. simpl. by intros ->. Qed.
Lemma reads_bind {A B} (m : M pg A) (f : A -> M pg B) : reads m -> (forall a, reads (f a)) -> reads (m ≫= f).
Proof. intros Hm Hf p Hp. apply (preserves_bind (fun p' => p' = p)); [|intros a|done]; intros ? ->; [by apply Hm|by apply Hf]. Qed.
Lemma reads_lift {A} (r : goerr + A) : reads (lift_err r).
Proof. done. Qed.

Create HintDb keeps.
#[export] Hint Resolve reads_QueryRow reads_Query reads_Listed reads_lift : keeps.

Section Keeping.
Context {X : Type} (R : relation (cworld X)) `{!PreOrder R}.

(** A computation that stays within [R], the database being quiet; a
    computation over the world is [HM] or [M]. *)
Definition keeps {T} (m : cworld X -> T * cworld X) : Prop := forall w, quiet_w w -> quiet_w (m w).2 /\ R w (m w).2.

Lemma keeps_still {T} (m : cworld X -> T * cworld X) : (forall w, quiet_w w -> (m w).2 = w) -> keeps m.
Proof. intros Hm w Hw. by rewrite Hm. Qed.

Lemma keeps_ret {A} (a : A) : keeps (mret a : @HM X A).
Proof. by apply keeps_still. Qed.
Lemma keeps_reply {A} a : keeps (reply a : @HM X A).
Proof. by apply keeps_still. Qed.
Lemma keeps_require b a : keeps (require b a : @HM X unit).
Proof. apply keeps_still. by destruct b. Qed.
Lemma keeps_decode {A} r (dec : json -> option A) : keeps (decode (X := X) r dec).
Proof. apply keeps_still. intros w _. unfold decode. repeat case_match; done. Qed.

Lemma keeps_then {T U} (m : cworld X -> T * cworld X) (f : T -> cworld X -> U * cworld X) :
  keeps m -> (forall t, keeps (f t)) -> keeps (fun w => let '(t, w') := m w in f t w').
Proof.
  intros Hm Hf w Hw. destruct (Hm w Hw) as [Hq Hr]. destruct (m w) as [t w1]. cbn [snd] in *.
  destruct (Hf t w1 Hq) as [Hq' Hr']. split; [done|]. by etrans.
Qed.

Lemma keeps_bind {A B} (m : @HM X A) (f : A -> @HM X B) : keeps m -> (forall a, keeps (f a)) -> keeps (m ≫= f).
Proof.
  intros Hm Hf w Hw. rewrite HM_bind_eq. destruct (Hm w Hw) as [Hq Hr]. destruct (m w) as [[a|a] w1]; [done|].
  cbn [snd] in *. destruct (Hf a w1 Hq) as [Hq' Hr']. split; [done|]. by etrans.
Qed.

Lemma keeps_M_bind {A B} (m : M (cworld X) A) (f : A -> M (cworld X) B) : keeps m -> (forall a, keeps (f a)) -> keeps (m ≫= f).
Proof.
  intros Hm Hf w Hw. unfold mbind, M_bind. destruct (Hm w Hw) as [Hq Hr]. destruct (m w) as [[a|a] w1]; [done|].
  cbn [snd] in *. destruct (Hf a w1 Hq) as [Hq' Hr']. split; [done|]. by etrans.
Qed.

Lemma keeps_M_ret {A} (a : A) : keeps (mret a : M (cworld X) A).
Proof. by apply keeps_still. Qed.
Lemma keeps_fail {A} e : keeps (mfail e : M (cworld X) A).
Proof. by apply keeps_still. Qed.
Lemma keeps_lift {A} (r : goerr + A) : keeps (lift_err r : M (cworld X) A).
Proof. by apply keeps_still. Qed.

Lemma keeps_attempt {A} k (m : M (cworld X) A) : keeps m -> keeps (attempt k m).
Proof. intros Hm w Hw. specialize (Hm w Hw). unfold attempt. by destruct (m w) as [[]]. Qed.
Lemma keeps_tried {A} (m : M (cworld X) A) : keeps m -> keeps (tried m).
Proof. intros Hm w Hw. specialize (Hm w Hw). unfold tried. by destruct (m w). Qed.
Lemma keeps_quietly {A} (m : M (cworld X) A) : keeps m -> keeps (quietly_ m).
Proof. intros Hm w Hw. exact (Hm w Hw). Qed.
Lemma keeps_drop {A} (m : M (cworld X) A) : keeps m -> keeps (drop_err m).
Proof. intros Hm w Hw. exact (Hm w Hw). Qed.
Lemma keeps_served (h : @HM X resp) : keeps h -> keeps (served h).
Proof. intros Hm w Hw. specialize (Hm w Hw). unfold served. by destruct (h w) as [[]]. Qed.

Lemma keeps_reads {A} (m : M pg A) : reads m -> keeps (at_pg m).
Proof.
  intros Hm. apply keeps_still. intros w Hw. unfold at_pg, zoom. specialize (Hm (cw_pg w) Hw).
  destruct (m (cw_pg w)) as [a p]. cbn [snd] in *. subst p. by destruct w.
Qed.
Lemma keeps_or_db {A} (m : M pg A) : keeps (at_pg m) -> keeps (or_db m).
Proof. apply keeps_attempt. Qed.

End Keeping.

#[export] Hint Resolve keeps_ret keeps_reply keeps_require keeps_decode keeps_M_ret keeps_fail keeps_lift keeps_attempt
  keeps_tried keeps_quietly keeps_drop keeps_or_db keeps_reads : keeps.

(** Follows the text of a handler. *)
Ltac keeps_step :=
  first
  [ apply keeps_bind; [apply _|keeps_step|intros ?; keeps_step]
  | apply keeps_M_bind; [apply _|keeps_step|intros ?; keeps_step]
  | progress (cbv zeta); keeps_step
  | solve [auto 8 with keeps typeclass_instances]
  | match goal with
    | |- keeps _ (or_db _) => apply keeps_or_db
    | |- keeps _ (attempt _ _) => apply keeps_attempt
    | |- keeps _ (tried _) => apply keeps_tried
    | |- keeps _ (quietly_ _) => apply keeps_quietly
    | |- keeps _ (drop_err _) => apply keeps_drop
    end; keeps_step
  | match goal with |- keeps _ (match ?x with _ => _ end) => destruct x; keeps_step end
  | match goal with |- keeps _ (if ?x then _ else _) => destruct x; keeps_step end
  | idtac ].

(** ** The routes that only read *)

Lemma reads_refused {A} e : reads (Exec (A := A) (fun _ => inl e)).
Proof. intros [d l]. unfold quiet, Exec, turn. simpl. by intros ->. Qed.
Lemma reads_ret {A} (a : A) : reads (mret a).
Proof. done. Qed.
Lemma reads_fail {A} e : reads (mfail e : M pg A).
Proof. done. Qed.
#[export] Hint Resolve reads_refused reads_ret reads_fail : keeps.
Lemma reads_all_rows {A} (q : cdb -> list A) : reads (all_rows q).
Proof. unfold all_rows. apply reads_bind; [auto with keeps|]. intros a. apply reads_bind; [auto with keeps|]. intros l. by destruct (a.2). Qed.
#[export] Hint Resolve reads_all_rows : keeps.
Lemma reads_Get uuid i : reads (Jobs.Get uuid i).
Proof. unfold Jobs.Get. case_match; [|apply reads_refused]. apply reads_bind; [apply reads_all_rows|]. by intros [|j l]. Qed.
Lemma reads_List n : reads (Jobs.List_ n).
Proof. unfold Jobs.List_. apply reads_bind; [apply reads_all_rows|]. done. Qed.
Lemma reads_Generate `{Collation} now : reads (Generate now).
Proof.
  unfold Generate, LoadSettings. apply reads_bind; [auto with keeps|]. intros s. apply reads_bind; [apply reads_all_rows|].
  intros l. apply reads_lift.
Qed.
#[export] Hint Resolve reads_Get reads_List reads_Generate : keeps.

(** The stream of a journal only reads the database. *)
Section Stream.
Context (uuid : string -> option string) (stuck : goerr) (id : string) (p : pg) (Hp : quiet p).

Definition same_pg (w : tail_world) : Prop := jw_pg (tw_jobs w) = p.

Lemma same_at_dir {A} (m : M dir A) : preserves same_pg (at_jobs (Jobs.on_dir m)).
Proof. intros w Hw. unfold at_jobs, Jobs.on_dir, zoom, same_pg. simpl. by destruct (m _). Qed.
Lemma same_at_sse {A} (m : M sse A) : preserves same_pg (at_sse m).
Proof. intros w Hw. unfold at_sse, zoom, same_pg. by destruct (m _). Qed.
Lemma same_at_pg {A} (m : M pg A) : reads m -> preserves same_pg (at_jobs (Jobs.on_pg m)).
Proof.
  intros Hm w Hw. unfold at_jobs, Jobs.on_pg, zoom, same_pg in *. simpl. specialize (Hm _ (eq_ind_r quiet Hp Hw)).
  destruct (m _) as [a p1]. simpl in *. congruence.
Qed.
Lemma same_wait : preserves same_pg wait.
Proof. intros w Hw. unfold wait. by destruct (tw_wakes w). Qed.

Lemma same_waitForLog n : preserves same_pg (waitForLog uuid stuck n id).
Proof.
  induction n as [|n IH]; [by intros w Hw|]. cbn [waitForLog]. apply preserves_bind; [apply same_wait|]. intros [| |]; [by intros w Hw..|].
  intros w Hw. pose proof (same_at_dir (Stat (LogPath id)) w Hw) as H1.
  destruct (at_jobs _ w) as [[e|[]] w1]; [|done]. pose proof (same_at_pg _ (reads_Get uuid id) w1 H1) as H2.
  destruct (at_jobs _ w1) as [[e'|j] w2]; [by apply IH|]. destruct (Done j); [done|by apply IH].
Qed.

Lemma same_tail_loop n off : preserves same_pg (tail_loop uuid stuck n id off).
Proof.
  revert off. induction n as [|n IH]; intros off; [by intros w Hw|]. cbn [tail_loop]. apply preserves_bind; [apply same_at_dir|]. intros s.
  case_bool_decide; [|by apply preserves_bind; [apply same_at_sse|]].
  assert (Hidle : preserves same_pg (k ← wait; match k with Cancelled => mfail canceled | _ => tail_loop uuid stuck n id off end)).
  { apply preserves_bind; [apply same_wait|]. intros [| |]; [by intros w Hw|apply IH..]. }
  intros w Hw. unfold JobsApi.at_end. pose proof (same_at_pg _ (reads_Get uuid id) w Hw) as H1.
  destruct (at_jobs _ w) as [[e|j] w1]; [by apply Hidle|]. destruct (Done j); [done|by apply Hidle].
Qed.

Lemma same_Tail n : preserves same_pg (Tail uuid stuck n id).
Proof.
  intros w Hw. unfold Tail. pose proof (same_at_dir (Stat (LogPath id)) w Hw) as H1.
  destruct (at_jobs _ w) as [[e|[]] w1]; [|by apply same_tail_loop]. destruct (IsNotExist e); [|done].
  eapply (preserves_bind same_pg); [apply same_waitForLog|intros []; apply same_tail_loop|done].
Qed.
End Stream.
