(* ===== verification/Routes.v ===== *)
(** * The whole API of the control plane

    [Register] of [control/internal/api/api.go], [registerAuth] of [session.go],
    the routes [main] adds ([control/cmd/flyc-control/main.go]) and the embedded
    interface ([control/internal/ui/ui.go]): the table of every route with its
    guard, and what answers a request.  What is proved: no route is shadowed; a
    guarded route runs only for someone entitled to it; a request a page of
    another site can make a browser send changes nothing, but for a few routes;
    and no request at all changes the sites of a tenant unless it comes from
    someone entitled to act for it, or from the platform. *)
From Stdlib Require Import Ascii.
From S2P Require Import Prelude GoStr Json Httpx Mux Dataplane Queueclient Pg Pass Haproxy Site Inventory Reconcile Settle Jobs Access Account Tenant Ownership Reads Bootstrap Nodes Enrol JobsApi Keeps Acme Oidc.

Local Open Scope list_scope.
Local Open Scope Z_scope.

(** Who a route is for. *)
Inductive guard : Type :=
| Anyone
| Connected                    (* [a.session] *)
| Member (minRole : string)    (* [a.tenant(minRole, ...)] *)
| Platform.                    (* [a.platform] *)
#[export] Instance guard_eq_dec : EqDecision guard.
Proof. solve_decision. Defined.

(** ** The parts of the world *)

(** What the handlers see besides the database: the reconciler with the load
    balancers and the queue hosts, the directory of the runner, the signing key
    the API holds, and the provider of identities. *)
Record parts (St Q Y : Type) : Type := MkParts {
  pt_rest : @Tenant.rest St Q; pt_dir : dir; pt_sign : Result; pt_other : Y
}.
Arguments MkParts {St Q Y}.
Arguments pt_rest {St Q Y}.
Arguments pt_dir {St Q Y}.
Arguments pt_sign {St Q Y}.
Arguments pt_other {St Q Y}.

Section Part.
Context {X Z : Type} (get : X -> Z) (put : Z -> X -> X).

Definition within (w : cworld X) : cworld Z := MkCw (cw_pg w) (cw_rand w) (cw_kick w) (cw_triggers w) (get (cw_rest w)).
Definition without (w : cworld X) (v : cworld Z) : cworld X :=
  MkCw (cw_pg v) (cw_rand v) (cw_kick v) (cw_triggers v) (put (cw_rest v) (cw_rest w)).

(** A handler that sees one part of the world. *)
Definition on_part {A} (m : @HM Z A) : @HM X A := fun w => let '(a, v) := m (within w) in (a, without w v).
Definition part (h : @handler Z) : @handler X := fun r p => on_part (h r p).

End Part.

(** ** The parameters *)

(** The settings of the process: the master key, the issuer of the TOTP
    applications, the token of the internal calls, [FLYC_PUBLIC_URL],
    [FLYC_WAIT_HOST], the deployment key; whether ACME and a runner are set up; the
    provider of identities; the version. *)
Record config : Type := MkConfig {
  cf_key : string; cf_issuer : string; cf_internal : string; cf_public_url : string; cf_wait_host : string;
  cf_key_path : string; cf_key_file : http_request -> goerr + string; cf_acme : bool; cf_runner : bool; cf_oidc : OIDC; cf_version : string
}.

(** The code outside the repository, and what a request or a connection is
    besides what the handlers read: as in the files that use it. *)
Record outside_code (W SK PK : Type) : Type := MkOutside {
  o_gen : cdb -> string; o_uuid : string -> option string; o_rfc3339 : string -> option Z;
  o_show_time : Z -> string; o_stamp : Z -> string; o_key_name : Z -> string; o_month : Z -> string;
  o_flusher : bool; o_turns : nat; o_faults : list (option goerr); o_wakes : list wake;
  o_qr_png : string -> goerr + string; o_pem_encode : string -> string -> string; o_pem_decode : string -> option string;
  o_generate : string -> goerr + SK; o_marshal_ec : SK -> goerr + string; o_marshal_pkix : SK -> goerr + string;
  o_parse_pkix : string -> goerr + option PK; o_coords : PK -> Z * Z;
  o_ecdsa_verify : PK -> string -> Z -> Z -> bool; o_unmarshal_payload : string -> goerr + Payload;
  o_content_length : http_request -> Z; o_tls : http_request -> bool; o_host : http_request -> string;
  o_auth_url : string -> string -> string; o_relative : string -> bool;
  o_code_exchange : string -> M W (option string); o_verify_token : string -> M W id_token;
  o_ping : W -> option string;              (* [pool.Ping] *)
  o_metrics : W -> string;
  o_static : string -> option string;       (* the embedded files *)
  o_relocate : http_request -> string -> string   (* the address of a redirection, as [URL.String] writes it *)
}.
Arguments o_gen {W SK PK}.
Arguments o_uuid {W SK PK}.
Arguments o_rfc3339 {W SK PK}.
Arguments o_show_time {W SK PK}.
Arguments o_stamp {W SK PK}.
Arguments o_key_name {W SK PK}.
Arguments o_month {W SK PK}.
Arguments o_flusher {W SK PK}.
Arguments o_turns {W SK PK}.
Arguments o_faults {W SK PK}.
Arguments o_wakes {W SK PK}.
Arguments o_qr_png {W SK PK}.
Arguments o_pem_encode {W SK PK}.
Arguments o_pem_decode {W SK PK}.
Arguments o_generate {W SK PK}.
Arguments o_marshal_ec {W SK PK}.
Arguments o_marshal_pkix {W SK PK}.
Arguments o_parse_pkix {W SK PK}.
Arguments o_coords {W SK PK}.
Arguments o_ecdsa_verify {W SK PK}.
Arguments o_unmarshal_payload {W SK PK}.
Arguments o_content_length {W SK PK}.
Arguments o_tls {W SK PK}.
Arguments o_host {W SK PK}.
Arguments o_auth_url {W SK PK}.
Arguments o_relative {W SK PK}.
Arguments o_code_exchange {W SK PK}.
Arguments o_verify_token {W SK PK}.
Arguments o_ping {W SK PK}.
Arguments o_metrics {W SK PK}.
Arguments o_static {W SK PK}.
Arguments o_relocate {W SK PK}.

(** ** The table *)

Section Table.
Context {St Q Y : Type} {HD : DataplaneHTTP St} {HQ : QueueHTTP Q} {HM_ : MapOrder} {HO : Collation} {HC : Crypto} {SK PK : Type}.
Abbreviation X := (parts St Q Y).
Abbreviation W := (cworld X).
Abbreviation HMW := (@HM X).
Abbreviation handlerW := (@handler X).

Context (cfg : config) (lib : outside_code W SK PK).
Abbreviation key := (cf_key cfg).
Abbreviation issuer := (cf_issuer cfg).
Abbreviation internal_token := (cf_internal cfg).
Abbreviation public_url := (cf_public_url cfg).
Abbreviation wait_host := (cf_wait_host cfg).
Abbreviation key_path := (cf_key_path cfg).
Abbreviation key_file := (cf_key_file cfg).
Abbreviation acme_enabled := (cf_acme cfg).
Abbreviation runner := (cf_runner cfg).
Abbreviation oidc := (cf_oidc cfg).
Abbreviation version := (cf_version cfg).
Abbreviation gen := (o_gen lib).
Abbreviation uuid := (o_uuid lib).
Abbreviation rfc3339 := (o_rfc3339 lib).
Abbreviation show_time := (o_show_time lib).
Abbreviation stamp := (o_stamp lib).
Abbreviation key_name := (o_key_name lib).
Abbreviation month := (o_month lib).
Abbreviation flusher := (o_flusher lib).
Abbreviation turns := (o_turns lib).
Abbreviation faults := (o_faults lib).
Abbreviation wakes := (o_wakes lib).
Abbreviation qr_png := (o_qr_png lib).
Abbreviation pem_encode := (o_pem_encode lib).
Abbreviation pem_decode := (o_pem_decode lib).
Abbreviation generate := (o_generate lib).
Abbreviation marshal_ec := (o_marshal_ec lib).
Abbreviation marshal_pkix := (o_marshal_pkix lib).
Abbreviation parse_pkix := (o_parse_pkix lib).
Abbreviation coords := (o_coords lib).
Abbreviation ecdsa_verify := (o_ecdsa_verify lib).
Abbreviation unmarshal_payload := (o_unmarshal_payload lib).
Abbreviation content_length := (o_content_length lib).
Abbreviation tls := (o_tls lib).
Abbreviation host := (o_host lib).
Abbreviation auth_url := (o_auth_url lib).
Abbreviation relative := (o_relative lib).
Abbreviation code_exchange := (o_code_exchange lib).
Abbreviation verify_token := (o_verify_token lib).
Abbreviation ping := (o_ping lib).
Abbreviation metrics := (o_metrics lib).
Abbreviation static := (o_static lib).
Abbreviation relocate := (o_relocate lib).

Definition on_rest {A} : @HM (@Tenant.rest St Q) A -> HMW A :=
  on_part pt_rest (fun x w => MkParts x (pt_dir w) (pt_sign w) (pt_other w)).
Definition on_runner {A} : @HM dir A -> HMW A :=
  on_part pt_dir (fun x w => MkParts (pt_rest w) x (pt_sign w) (pt_other w)).
Definition on_sign {A} : @HM Result A -> HMW A :=
  on_part pt_sign (fun x w => MkParts (pt_rest w) (pt_dir w) x (pt_other w)).

Record endpoint : Type := MkEndpoint { en_guard : guard; en_handler : string -> handlerW }.

Definition route : Type := string * endpoint.
Definition bare (pattern : string) (h : http_request -> HMW resp) : route := (pattern, MkEndpoint Anyone (fun _ r _ => h r)).
Definition mount (g : guard) (pattern : string) (h : handlerW) : route := (pattern, MkEndpoint g (fun _ => h)).
Definition mount_rest (g : guard) (pattern : string) (h : @handler (@Tenant.rest St Q)) : route := mount g pattern (fun r p => on_rest (h r p)).

(** [GET /auth/config]. *)
Definition authConfig (r : http_request) : HMW resp :=
  mret (JSON 200 (JObj [("oidc", JBool (Enabled oidc)); ("oidc_issuer", JStr (Issuer oidc)); ("wait_host", JStr wait_host)]%string)).

Definition registerAuth : list route :=
  [bare "GET /auth/config" authConfig; bare "POST /auth/login" (login key); bare "POST /auth/logout" logout;
   bare "GET /auth/oidc/start" (oidcStart oidc auth_url);
   bare "GET /auth/oidc/callback" (oidcCallback gen oidc code_exchange verify_token relative);
   mount_rest Connected "GET /v1/account" Reads.account; mount Connected "POST /v1/account/password" changePassword;
   mount Connected "POST /v1/account/totp/setup" (totpSetup key issuer);
   mount_rest Connected "GET /v1/account/totp/qr.png" (totpQR key issuer qr_png);
   mount Connected "POST /v1/account/totp/enable" (totpEnable key); mount Connected "POST /v1/account/totp/disable" totpDisable;
   mount_rest Platform "GET /v1/users" (listUsers show_time); mount Platform "POST /v1/users" (createUser gen);
   mount Platform "DELETE /v1/users/{id}" (deleteUser uuid); mount Platform "POST /v1/users/{id}/password" (resetUserPassword uuid);
   mount_rest Platform "GET /v1/tenants/{slug}/members" listMembers; mount Platform "PUT /v1/tenants/{slug}/members" putMember;
   mount Platform "DELETE /v1/tenants/{slug}/members/{email}" deleteMember;
   mount_rest Platform "GET /v1/tenants/{slug}/api-keys" (listTenantKeysPlatform show_time);
   mount_rest Platform "GET /v1/keys" (listSigningKeys show_time);
   mount Platform "POST /v1/keys/rotate" (fun r p => on_sign
     (rotateSigningKey generate marshal_ec marshal_pkix pem_encode pem_decode parse_pkix coords month key r p))].

Definition registerRooms : list route :=
  [mount_rest (Member "viewer") "GET /v1/domains" (listDomains show_time);
   mount_rest (Member "admin") "POST /v1/domains" (createDomain gen);
   mount_rest (Member "admin") "DELETE /v1/domains/{fqdn}" deleteDomain;
   mount_rest (Member "viewer") "GET /v1/domains/{fqdn}/certificate" (domainCert show_time);
   mount_rest (Member "admin") "POST /v1/domains/{fqdn}/certificate/renew" (renewCert acme_enabled);
   mount_rest (Member "viewer") "GET /v1/backends" listBackends;
   mount_rest (Member "admin") "POST /v1/backends" (upsertBackend gen);
   mount_rest (Member "admin") "PUT /v1/backends/{name}" (upsertBackend gen);
   mount_rest (Member "admin") "DELETE /v1/backends/{name}" deleteBackend;
   mount_rest (Member "viewer") "GET /v1/rooms" (listRooms show_time);
   mount_rest (Member "admin") "POST /v1/rooms" (upsertRoom gen rfc3339);
   mount_rest (Member "admin") "PUT /v1/rooms/{slug}" (upsertRoom gen rfc3339);
   mount_rest (Member "admin") "DELETE /v1/rooms/{slug}" deleteRoom;
   mount_rest (Member "operator") "POST /v1/rooms/{slug}/state" (roomState key);
   mount_rest (Member "viewer") "GET /v1/rooms/{slug}/stats" roomStats;
   mount_rest (Member "operator") "POST /v1/rooms/{slug}/flush" roomFlush;
   mount_rest (Member "viewer") "POST /v1/pass/verify" (verifyPass pem_decode parse_pkix ecdsa_verify unmarshal_payload);
   mount_rest (Member "admin") "GET /v1/api-keys" (listTenantKeys show_time);
   mount (Member "admin") "POST /v1/api-keys" (createOwnTenantKey gen key_name);
   mount (Member "admin") "DELETE /v1/api-keys/{id}" (deleteTenantKey uuid)].

(** [API.Register]. *)
Definition Register : list route :=
  [bare "GET /v1/me" me; mount Platform "POST /v1/tenants" (createTenant gen); mount_rest Platform "GET /v1/tenants" (listTenants show_time);
   mount Platform "POST /v1/tenants/{slug}/api-keys" (createTenantKey gen key_name);
   mount_rest Platform "GET /v1/edges" (listEdges show_time); mount_rest Platform "DELETE /v1/edges/{name}" deleteEdge;
   mount_rest Platform "GET /v1/queue-hosts" (listQueueHosts show_time);
   mount_rest Platform "DELETE /v1/queue-hosts/{name}" deleteQueueHost]
  ++ map (fun x => mount Platform x.1 (fun r p => on_runner (x.2 r p))) (registerJobs gen uuid show_time stamp runner flusher turns faults wakes)
  ++ map (fun x => mount Platform x.1 x.2) (registerInventory rfc3339 show_time stamp)
  ++ map (fun x => mount Platform x.1 x.2)
       (registerEnroll content_length tls host public_url key_path key_file gen uuid show_time)
  ++ [bare "GET /enroll/{token}" (enrollScript tls host public_url key_path key_file);
      bare "POST /enroll/{token}/done" enrollDone; mount_rest Platform "POST /v1/sync" (syncNow key)]
  ++ registerRooms ++ registerAuth
  ++ [bare "GET /.well-known/jwks.json" (fun r => on_sign (jwks pem_decode parse_pkix coords r));
      bare "GET /.well-known/flyc-pass.pem" (fun r => on_sign (passPEM r));
      bare "GET /internal/signing-key" (fun r => on_sign (signingKey internal_token r))].

(** ** The rest of the routes of the process *)

Definition types : list (string * string) :=
  [("index.html", "text/html; charset=utf-8"); ("app.js", "text/javascript; charset=utf-8"); ("app.css", "text/css; charset=utf-8")]%string.

(** [ui.Handler]: the files of the interface, and nothing else. *)
Definition uiHandler (path : string) : resp :=
  let name := TrimPrefix path "/" in
  let name := if bool_decide (name = EmptyString) then "index.html"%string else name in
  match by_id fst name types with
  | None => NotFound
  | Some (_, ct) =>
      match static ("static/" +:+ name) with
      | None => NotFound
      | Some data =>
          MkResp 200 [("Content-Type", ct); ("Cache-Control", if String.eqb name "index.html" then "no-store" else "no-cache");
                      ("X-Frame-Options", "DENY"); ("Referrer-Policy", "same-origin")]%string [] (BText data)
      end
  end.

Definition healthz : HMW resp := fun w => (inr (HealthHandler [("postgres"%string, ping w)]), w).
Definition versionz (r : http_request) : HMW resp :=
  mret (JSON 200 (JObj [("service", JStr "flyc-control"); ("version", JStr version)]%string)).
Definition metricz : HMW resp := fun w => (inr (MkResp 200 [] [] (BText (metrics w))), w).

(** The routes of [main]. *)
Definition table : list (pattern * endpoint) :=
  map (fun x => (parse_pattern x.1, x.2))
    ([bare "GET /healthz" (fun _ => healthz); bare "GET /version" versionz; bare "GET /metrics" (fun _ => metricz);
      ("GET /.well-known/acme-challenge/"%string,
       MkEndpoint Anyone (fun path _ _ w => let '(a, w') := Acme.Handler path w in (inr a, w')))]
     ++ Register ++ [("GET /"%string, MkEndpoint Anyone (fun path _ _ => mret (uiHandler path)))]).

Definition guarded (g : guard) (h : handlerW) (r : http_request) : HMW resp :=
  match g with
  | Anyone => h r no_one
  | Connected => session h r
  | Member minRole => tenant minRole h r
  | Platform => platform h r
  end.

(** [Request.SetPathValue] for each wildcard. *)
Definition with_values (p : pattern) (vs : list string) (r : http_request) : http_request :=
  MkHttp (q_method r) (q_headers r) (q_cookies r) (list_to_map (zip (names (pt_path p)) vs)) (q_query r) (q_body r)
    (q_remote r) (q_now r).

(** A request for the path [path], as it is written. *)
Definition serve (path : string) (r : http_request) : W -> resp * W := fun w =>
  match findHandler table (q_method r) path with
  | Found p e vs => served (guarded (en_guard e) (en_handler e (pathUnescape path)) (with_values p vs r)) w
  | Moved target => (Redirect (relocate r target) 301, w)
  | NotAllowed methods => (add_header "Allow" (Join methods ", ") (http_Error "Method Not Allowed" 405), w)
  | Missing => (NotFound, w)
  end.

(** ** Lemmas: the parts *)

Definition calm (w w' : W) : Prop :=
  cw_pg w' = cw_pg w /\ cw_kick w' = cw_kick w /\ cw_triggers w' = cw_triggers w /\
  rs_rec (pt_rest (cw_rest w')) = rs_rec (pt_rest (cw_rest w)) /\ rs_lbs (pt_rest (cw_rest w')) = rs_lbs (pt_rest (cw_rest w)) /\
  rs_issues (pt_rest (cw_rest w')) = rs_issues (pt_rest (cw_rest w)) /\
  pt_sign (cw_rest w') = pt_sign (cw_rest w) /\ pt_other (cw_rest w') = pt_other (cw_rest w).

#[local] Instance calm_preorder : PreOrder calm.
Proof. split; [by intros w|]. intros w1 w2 w3 H12 H23. unfold calm in *. destruct_and!. split_and!; by etrans. Qed.

(** What a route that asks the queue service may change. *)
Definition asking (w w' : cworld (@Tenant.rest St Q)) : Prop := exists q,
  w' = MkCw (cw_pg w) (cw_rand w) (cw_kick w) (cw_triggers w)
         (MkRest (rs_rec (cw_rest w)) (rs_lbs (cw_rest w)) q (rs_issues (cw_rest w))).

#[local] Instance asking_preorder : PreOrder asking.
Proof.
  split; [intros [p r k t []]; by eexists|]. intros w1 w2 w3 [q ->] [q' ->]. by exists q'.
Qed.

Lemma calm_on_rest {A} (m : @HM (@Tenant.rest St Q) A) : keeps asking m -> keeps calm (on_rest m).
Proof.
  intros Hm w Hw. unfold on_rest, on_part. destruct (Hm (within pt_rest w) Hw) as [Hq [q E]]. destruct (m _) as [a v].
  cbn [snd] in *. subst v. split; [done|]. by split_and!.
Qed.
Lemma calm_on_sign {A} (m : @HM Result A) : keeps eq m -> keeps calm (on_sign m).
Proof.
  intros Hm w Hw. unfold on_sign, on_part. destruct (Hm (within pt_sign w) Hw) as [Hq E]. destruct (m _) as [a v].
  cbn [snd] in *. subst v. split; [done|]. by split_and!.
Qed.

Definition shelved (w w' : cworld dir) : Prop := cw_pg w' = cw_pg w /\ cw_kick w' = cw_kick w /\ cw_triggers w' = cw_triggers w.
#[local] Instance shelved_preorder : PreOrder shelved.
Proof. split; [by intros w|]. intros w1 w2 w3 H12 H23. unfold shelved in *. destruct_and!. split_and!; by etrans. Qed.
Lemma calm_on_runner {A} (m : @HM dir A) : keeps shelved m -> keeps calm (on_runner m).
Proof.
  intros Hm w Hw. unfold on_runner, on_part. destruct (Hm (within pt_dir w) Hw) as [Hq (E1 & E2 & E3)]. destruct (m _) as [a v].
  split; [done|]. by split_and!.
Qed.

(** *** The handlers *)

Lemma asks_queue method path : keeps asking (call_queue method path).
Proof.
  intros w Hw. unfold call_queue. destruct (Queueclient.Call _ _ _ _) as [x q]. split; [done|]. by exists q.
Qed.
Lemma asks_health h : keeps asking (check_queue h).
Proof. intros w Hw. unfold check_queue. destruct (Queueclient.Healthy _ _) as [x q]. split; [done|]. by exists q. Qed.
#[local] Hint Resolve asks_queue asks_health : keeps.

Lemma asks_hosts l : keeps asking (host_items show_time l).
Proof. induction l as [|x l IH]; cbn [host_items]; keeps_step. Qed.
Lemma asks_backends slug l : keeps asking (backend_items slug l).
Proof. induction l as [|x l IH]; cbn [backend_items]; keeps_step. Qed.
#[local] Hint Resolve asks_hosts asks_backends : keeps.

Tactic Notation "rest_route" reference(h) := unfold h; apply calm_on_rest; keeps_step.

Lemma calm_tenant r p :
  keeps calm (on_rest (listDomains show_time r p)) /\ keeps calm (on_rest (domainCert show_time r p)) /\
  keeps calm (on_rest (listBackends r p)) /\ keeps calm (on_rest (listRooms show_time r p)) /\
  keeps calm (on_rest (roomStats r p)) /\ keeps calm (on_rest (listTenantKeys show_time r p)).
Proof.
  split_and!; [rest_route listDomains|rest_route domainCert|rest_route listBackends|rest_route listRooms|rest_route roomStats|].
  unfold listTenantKeys. rest_route listKeysFor.
Qed.

Lemma calm_account r p :
  keeps calm (on_rest (Reads.account r p)) /\ keeps calm (on_rest (totpQR key issuer qr_png r p)).
Proof. split; [rest_route Reads.account|rest_route totpQR]. Qed.

Lemma calm_platform r p :
  keeps calm (on_rest (listTenants show_time r p)) /\ keeps calm (on_rest (listEdges show_time r p)) /\
  keeps calm (on_rest (listQueueHosts show_time r p)) /\ keeps calm (on_rest (listUsers show_time r p)) /\
  keeps calm (on_rest (listMembers r p)) /\ keeps calm (on_rest (listTenantKeysPlatform show_time r p)) /\
  keeps calm (on_rest (listSigningKeys show_time r p)).
Proof.
  split_and!; [rest_route listTenants|rest_route listEdges|rest_route listQueueHosts|rest_route listUsers|rest_route listMembers| |
    rest_route listSigningKeys].
  unfold listKeysFor. rest_route listTenantKeysPlatform.
Qed.

Lemma calm_inventory r p :
  keeps calm (listNodes show_time r p : HMW resp) /\ keeps calm (getSettings r p : HMW resp) /\
  keeps calm (getInventory stamp r p : HMW resp) /\ keeps calm (listEnrollTokens show_time r p : HMW resp).
Proof.
  split_and!; [unfold listNodes, LoadNodes|unfold getSettings, LoadSettings|unfold getInventory|unfold listEnrollTokens]; keeps_step.
Qed.

Lemma shelved_streamed id : keeps shelved (streamed uuid turns faults wakes id).
Proof.
  intros w Hw. unfold streamed. set (t := Tail _ _ _ _ _).
  assert (Ht : jw_pg (tw_jobs t.2) = cw_pg w) by (by apply (same_Tail uuid ErrLoop id (cw_pg w) Hw)).
  split; [unfold quiet_w; cbn [snd cw_pg]; by rewrite Ht|by split_and!].
Qed.
#[local] Hint Resolve shelved_streamed : keeps.

Lemma calm_jobs r p :
  keeps calm (on_runner (listJobs show_time runner r p)) /\ keeps calm (on_runner (getJob uuid show_time runner r p)) /\
  keeps calm (on_runner (jobLog uuid runner flusher turns faults wakes r p)).
Proof.
  split_and!; apply calm_on_runner; [unfold listJobs|unfold getJob|unfold jobLog]; keeps_step.
Qed.

Lemma calm_open r path :
  keeps calm (enrollScript tls host public_url key_path key_file r : HMW resp) /\
  keeps calm (on_sign (jwks pem_decode parse_pkix coords r)) /\ keeps calm (on_sign (passPEM r)) /\
  keeps calm (on_sign (signingKey internal_token r)) /\ keeps calm (authConfig r) /\
  keeps calm (fun w : W => let '(a, w') := Acme.Handler path w in (@inr resp resp a, w')).
Proof.
  split_and!.
  - unfold enrollScript, lookupToken, LoadSettings. keeps_step.
  - apply calm_on_sign. unfold jwks. keeps_step.
  - apply calm_on_sign, keeps_still; [apply _|]. by intros w _.
  - apply calm_on_sign. apply keeps_still; [apply _|]. intros w _. unfold signingKey. by destruct (String.eqb _ _).
  - apply keeps_still; [apply _|]. by intros w _.
  - apply keeps_still; [apply _|]. intros w Hw. unfold Acme.Handler. rewrite at_pg_query by done. by destruct (q_challenge _ _).
Qed.

(** *** The guards *)

(** What authenticating, and a route that only reads, may do to the world. *)
Definition mild (w w' : W) : Prop :=
  quiet_w w' /\ touched (db w) (db w') /\ cw_kick w' = cw_kick w /\ cw_triggers w' = cw_triggers w /\
  rs_rec (pt_rest (cw_rest w')) = rs_rec (pt_rest (cw_rest w)) /\ rs_lbs (pt_rest (cw_rest w')) = rs_lbs (pt_rest (cw_rest w)) /\
  rs_issues (pt_rest (cw_rest w')) = rs_issues (pt_rest (cw_rest w)) /\
  pt_sign (cw_rest w') = pt_sign (cw_rest w) /\ pt_other (cw_rest w') = pt_other (cw_rest w).

Definition only_pg (w w' : W) : Prop := w' = set_cw_pg (cw_pg w') w.
#[local] Instance only_pg_preorder : PreOrder only_pg.
Proof.
  split; [by intros []|]. intros w1 w2 w3 H12 H23. unfold only_pg in *. rewrite H23 at 1. by rewrite H12 at 1.
Qed.

Lemma only_pg_at_pg {A} (m : M pg A) w : only_pg w (at_pg m w).2.
Proof. unfold at_pg, zoom, only_pg. by destruct (m (cw_pg w)). Qed.

Ltac pg_done := first [done | reflexivity | by etrans].

Ltac pg_call H :=
  match goal with |- context [at_pg ?m ?w] => pose proof (only_pg_at_pg m w) as H; destruct (at_pg m w) as [[?|[? ?]] ?] end.

Lemma Current_only_pg r w : only_pg w (Current r w).2.
Proof.
  unfold Current. case_bool_decide; [pg_done|]. pg_call H1; cbn [snd] in *; repeat case_match; try pg_done.
  etrans; [exact H1|]. apply only_pg_at_pg.
Qed.

Lemma authenticateSession_only_pg r w : only_pg w (authenticateSession r w).2.
Proof.
  unfold authenticateSession. pose proof (Current_only_pg r w) as H1. destruct (Current r w) as [[e|[u|]] w1]; [pg_done| |pg_done].
  destruct (_ && _); [pg_done|]. destruct (PlatformAdmin u).
  - case_bool_decide; [pg_done|]. pg_call H2 ; pg_done.
  - match goal with |- context [at_pg ?m ?w] => pose proof (only_pg_at_pg m w) as H2; destruct (at_pg m w) as [[x|[[i s] role]] w2] end.
    + destruct x; try pg_done. case_bool_decide; pg_done.
    + pg_done.
Qed.

Lemma authenticate_only_pg r w : only_pg w (authenticate r w).2.
Proof.
  unfold authenticate. destruct (bearer_key r); [|apply authenticateSession_only_pg]. pg_call H1; [pg_done|]. cbn [snd] in H1.
  match goal with |- context [at_pg (Exec_ ?f) ?w] => pose proof (only_pg_at_pg (Exec_ f) w) as H2 end.
  assert (H3 : only_pg w (at_pg (Exec_ (key_used (ak_id a))) c).2) by by etrans.
  destruct (ak_tenant a); [pg_done|]. case_bool_decide; [pg_done|]. pg_call H4 ; pg_done.
Qed.

Lemma mild_only_pg w w' : only_pg w w' -> quiet_w w' -> touched (db w) (db w') -> mild w w'.
Proof. intros Ho Hq Ht. split_and!; [done|done|..]; by rewrite Ho. Qed.

Lemma mild_calm w w1 w2 : mild w w1 -> calm w1 w2 -> quiet_w w2 -> mild w w2.
Proof.
  unfold mild, calm. intros. destruct_and!. split_and!; try (by etrans). unfold db in *. congruence.
Qed.

Lemma mild_refl w : quiet_w w -> mild w w.
Proof. intros Hq. split_and!; try done. by left. Qed.

Lemma authenticate_mild r w : quiet_w w -> mild w (authenticate r w).2.
Proof.
  intros Hq. pose proof (authenticate_only_pg r w) as Ho. destruct (authenticate r w) as [res w1] eqn:E.
  apply authenticate_touches in E as [Hq1 Ht]; [|done]. by apply mild_only_pg.
Qed.
Lemma authenticateSession_mild r w : quiet_w w -> mild w (authenticateSession r w).2.
Proof.
  intros Hq. pose proof (authenticateSession_only_pg r w) as Ho. destruct (authenticateSession r w) as [res w1] eqn:E.
  apply authenticateSession_touches in E as [Hq1 Ht]; [|done]. by apply mild_only_pg.
Qed.

(** How a guard finds out who a request comes from, and whom it lets through. *)
Definition identify (g : guard) (r : http_request) : M W principal :=
  match g with Anyone => mret no_one | Connected => authenticateSession r | _ => authenticate r end.
Definition permits (g : guard) (p : principal) : Prop :=
  match g with
  | Anyone | Connected => True
  | Member minRole => p_tenantID p <> EmptyString /\
      (p_session p = true -> p_platform p = false -> roleRank minRole <= roleRank (p_role p))
  | Platform => p_platform p = true
  end.

Lemma guarded_runs g (h : handlerW) r w : quiet_w w -> g <> Anyone ->
  (exists p w1, identify g r w = (inr p, w1) /\ entitled (db w) r p /\ permits g p /\ mild w w1 /\ guarded g h r w = h r p w1) \/
  (exists a w1, guarded g h r w = (inl a, w1) /\ r_code a ∈ [400; 401; 403] /\ mild w w1).
Proof.
  intros Hq Hg. pose proof (authenticate_mild r w Hq) as Hm. pose proof (authenticateSession_mild r w Hq) as Hms.
  destruct g as [| |minRole|]; [done|..]; unfold guarded, session, tenant, platform, attempt, require; rewrite HM_bind_eq; cbn [identify].
  - destruct (authenticateSession r w) as [[e|p] w1] eqn:E; cbn [snd] in *.
    + right. exists (unauthorized e), w1. split_and!; [done|set_solver|done].
    + left. exists p, w1. apply authenticateSession_sound in E as (_ & _ & He); [|done]. by split_and!.
  - destruct (authenticate r w) as [[e|p] w1] eqn:E; cbn [snd] in *.
    { right. exists (unauthorized e), w1. split_and!; [done|set_solver|done]. }
    apply authenticate_sound in E as E'; [|done]. destruct E' as (_ & _ & He). rewrite HM_bind_eq.
    case_bool_decide as Hn; cbn [negb].
    { right. eexists _, w1. split_and!; [done|set_solver|done]. }
    cbn. destruct (allows p minRole) eqn:Hal.
    + left. exists p, w1. split_and!; [done..| |done|done]. unfold allows in Hal. intros Hs Hp.
      rewrite Hs, Hp in Hal. by apply Z.leb_le in Hal.
    + right. eexists _, w1. split_and!; [done|set_solver|done].
  - destruct (authenticate r w) as [[e|p] w1] eqn:E; cbn [snd] in *.
    { right. exists (unauthorized e), w1. split_and!; [done|set_solver|done]. }
    apply authenticate_sound in E as E'; [|done]. destruct E' as (_ & _ & He). rewrite HM_bind_eq.
    destruct (p_platform p) eqn:Hp.
    + left. exists p, w1. by split_and!.
    + right. eexists _, w1. split_and!; [done|set_solver|done].
Qed.

(** *** The table *)

(** The routes no guard is before, and those of them that act. *)
Definition open_routes : list string :=
  ["GET /healthz"; "GET /version"; "GET /metrics"; "GET /.well-known/acme-challenge/"; "GET /v1/me"; "GET /enroll/{token}";
   "POST /enroll/{token}/done"; "GET /auth/config"; "POST /auth/login"; "POST /auth/logout"; "GET /auth/oidc/start";
   "GET /auth/oidc/callback"; "GET /.well-known/jwks.json"; "GET /.well-known/flyc-pass.pem"; "GET /internal/signing-key"; "GET /"]%string.
Definition doors : list string :=
  ["POST /enroll/{token}/done"; "POST /auth/login"; "POST /auth/logout"; "GET /auth/oidc/start"; "GET /auth/oidc/callback"]%string.

Lemma table_open p e : (p, e) ∈ table -> en_guard e = Anyone -> p ∈ parse_pattern <$> open_routes.
Proof.
  assert (Hall : forallb (fun x => negb (bool_decide (en_guard x.2 = Anyone)) || bool_decide (x.1 ∈ parse_pattern <$> open_routes)) table = true)
    by (vm_compute; reflexivity).
  intros Hin%list_elem_of_In Hg. apply (proj1 (forallb_forall _ _) Hall) in Hin as [Hn|Hp]%orb_true_iff; simpl in *.
  - by rewrite bool_decide_true in Hn.
  - by apply bool_decide_eq_true in Hp.
Qed.

Lemma table_listed p e : (p, e) ∈ table -> List.In p table.*1.
Proof. intros Hin. apply list_elem_of_In, list_elem_of_fmap. exists (p, e). split; [reflexivity|exact Hin]. Qed.

(** A route only reads, or only someone identified gets to it, with another
    method than [GET], or it is one of the doors. *)
Definition tame (x : pattern * endpoint) : Prop :=
  x.1 ∈ parse_pattern <$> doors \/ (pt_method x.1 <> "GET"%string /\ en_guard x.2 <> Anyone) \/
  (forall path r p, keeps calm (en_handler x.2 path r p)) \/
  (en_guard x.2 = Anyone /\ forall path r p w, quiet_w w -> mild w (en_handler x.2 path r p w).2).

Lemma me_mild r w : quiet_w w -> mild w (me r w : (resp + resp) * W).2.
Proof.
  intros Hq. pose proof (authenticate_mild r w Hq) as Hm. unfold me, attempt. rewrite HM_bind_eq.
  by destruct (authenticate r w) as [[e|p] w1].
Qed.

Lemma table_tame : Forall tame table.
Proof.
  assert (Hget : forall x, (forall path r p, keeps calm (en_handler x.2 path r p)) -> tame x) by (intros x Hx; right; right; by left).
  unfold table, Register, registerRooms, registerAuth, registerJobs, registerInventory, registerEnroll. cbn [map app].
  repeat (apply Forall_cons; split;
    [first [ right; left; split; done
           | unfold tame; left; match goal with |- ?P => refine (bool_decide_eq_true_1 P _) end; vm_compute; reflexivity
           | right; right; right; split; [reflexivity|]; intros path r p w Hq; by apply me_mild
           | apply Hget; intros path r p; cbn [mount_rest mount bare snd en_handler];
             first [ apply calm_tenant | apply calm_account | apply calm_platform | apply calm_inventory | apply calm_jobs
                   | eapply (calm_open r path) | apply keeps_still; [apply _|]; by intros w _ ] ]|]).
  apply Forall_nil. done.
Qed.

(** *** The sites *)

Definition apart {Z} (w w' : cworld Z) : Prop := same_sites (db w) (db w').
#[local] Instance apart_preorder {Z} : PreOrder (@apart Z).
Proof.
  split; [intros w; apply same_sites_refl|]. intros w1 w2 w3. unfold apart, same_sites. intros. destruct_and!. split_and!; by etrans.
Qed.

Lemma apart_calm (m : HMW resp) : keeps calm m -> keeps apart m.
Proof.
  intros Hm w Hw. destruct (Hm w Hw) as [Hq (Hpg & _)]. split; [done|]. unfold apart, db. rewrite Hpg. apply same_sites_refl.
Qed.
Lemma apart_mild (m : HMW resp) : (forall w, quiet_w w -> mild w (m w).2) -> keeps apart m.
Proof. intros Hm w Hw. destruct (Hm w Hw) as (Hq & Ht & _). split; [done|]. by apply touched_sites. Qed.

Lemma apart_Exec {Z A} (f : cdb -> goerr + (A * cdb)) :
  (forall d a d', f d = inr (a, d') -> same_sites d d') -> keeps (@apart Z) (at_pg (Exec f)).
Proof.
  intros Hf w Hw. rewrite at_pg_exec by done. destruct (f (db w)) as [e|[a d']] eqn:E; (split; [done|]); [apply same_sites_refl|by eapply Hf].
Qed.
Lemma apart_Exec_ {Z} (f : cdb -> cdb) : (forall d, same_sites d (f d)) -> keeps (@apart Z) (at_pg (Exec_ f)).
Proof. intros Hf. apply apart_Exec. by intros d a d' [= _ <-]. Qed.
Lemma apart_drawn {Z} : keeps (@apart Z) drawn.
Proof. intros w Hw. split; [done|]. apply same_sites_refl. Qed.
Lemma apart_draw {Z} : keeps (@apart Z) draw.
Proof. intros w Hw. split; [done|]. apply same_sites_refl. Qed.
#[local] Hint Resolve apart_drawn apart_draw : keeps.
#[local] Hint Extern 2 (keeps apart (at_pg (Exec_ _))) => apply apart_Exec_; intros ?; by split_and! : keeps.

Lemma apart_audit {Z} p action diff : keeps (@apart Z) (audit p action diff).
Proof. unfold audit. auto with keeps. Qed.
Lemma apart_Create {Z} r id : keeps (@apart Z) (Create r id).
Proof.
  unfold Create, RandomToken. keeps_step. apply apart_Exec. intros d x d'. unfold insert_session. intros. repeat case_match; simplify_eq; by split_and!.
Qed.
Lemma apart_Destroy {Z} r : keeps (@apart Z) (Destroy r).
Proof. unfold Destroy. keeps_step. Qed.
Lemma apart_DestroyAll {Z} id : keeps (@apart Z) (DestroyAll id).
Proof. unfold DestroyAll. keeps_step. Qed.
#[local] Hint Resolve apart_audit apart_Create apart_Destroy apart_DestroyAll : keeps.

Lemma apart_login r : keeps apart (login key r : HMW resp).
Proof. unfold login, second_factor. keeps_step. Qed.

Ltac apart_exec := apply apart_Exec; intros; repeat case_match; simplify_eq; by split_and!.

Lemma apart_logout r : keeps apart (logout r : HMW resp).
Proof. unfold logout. keeps_step. Qed.
Lemma apart_enrollDone r : keeps apart (enrollDone r : HMW resp).
Proof. unfold enrollDone, lookupToken. keeps_step. Qed.
Lemma apart_oidcStart r : keeps apart (oidcStart oidc auth_url r : HMW resp).
Proof. unfold oidcStart. keeps_step. unfold insert_state. apart_exec. Qed.

Lemma apart_account r p :
  keeps apart (changePassword r p : HMW resp) /\ keeps apart (totpSetup key issuer r p : HMW resp) /\
  keeps apart (totpEnable key r p : HMW resp) /\ keeps apart (totpDisable r p : HMW resp).
Proof.
  split_and!; [unfold changePassword, read_hash|unfold totpSetup|unfold totpEnable, read_totp|unfold totpDisable, read_hash]; keeps_step.
Qed.

Lemma apart_keys r p :
  keeps apart (createOwnTenantKey gen key_name r p : HMW resp) /\ keeps apart (deleteTenantKey uuid r p : HMW resp).
Proof.
  split; [unfold createOwnTenantKey, fresh_key|unfold deleteTenantKey]; keeps_step; [unfold insert_key|unfold remove_key]; apart_exec.
Qed.

Lemma apart_on_rest {A} (m : @HM (@Tenant.rest St Q) A) : keeps apart m -> keeps apart (on_rest m).
Proof.
  intros Hm w Hw. unfold on_rest, on_part. destruct (Hm (within pt_rest w) Hw) as [Hq E]. by destruct (m _) as [a v].
Qed.

Lemma apart_asks (m : @HM (@Tenant.rest St Q) resp) : keeps asking m -> keeps apart m.
Proof. intros Hm w Hw. destruct (Hm w Hw) as [Hq [q E]]. split; [done|]. unfold apart, db. rewrite E. apply same_sites_refl. Qed.

Lemma apart_call method path : keeps apart (call_queue method path : @HM (@Tenant.rest St Q) _).
Proof. intros w Hw. destruct (asks_queue method path w Hw) as [Hq [q E]]. split; [done|]. unfold apart, db. rewrite E. apply same_sites_refl. Qed.
Lemma apart_issue id fqdn : keeps apart (start_issue id fqdn : @HM (@Tenant.rest St Q) _).
Proof. intros w Hw. split; [done|]. apply same_sites_refl. Qed.
#[local] Hint Resolve apart_call apart_issue : keeps.

Lemma apart_tenant r p :
  keeps apart (on_rest (renewCert acme_enabled r p)) /\ keeps apart (on_rest (roomFlush r p)) /\
  keeps apart (on_rest (verifyPass pem_decode parse_pkix ecdsa_verify unmarshal_payload r p)).
Proof.
  split_and!; apply apart_on_rest; [unfold renewCert|unfold roomFlush|unfold verifyPass]; keeps_step.
Qed.

Section Provider.
Hypothesis exchange_apart : forall code, keeps apart (code_exchange code).
Hypothesis verify_apart : forall raw, keeps apart (verify_token raw).

Lemma apart_oidcCallback r : keeps apart (oidcCallback gen oidc code_exchange verify_token relative r).
Proof.
  unfold oidcCallback, Exchange, account_of. keeps_step; try apply exchange_apart; try apply verify_apart.
  - unfold take_state. apart_exec.
  - unfold insert_oidc_user. apart_exec.
  - unfold link_user. apart_exec.
Qed.

(** A route of the platform, a route that leaves the sites alone, or a writing
    route of the tenants. *)
Definition secluded (x : pattern * endpoint) : Prop :=
  en_guard x.2 = Platform \/ (forall path r p, keeps apart (en_handler x.2 path r p)) \/
  exists pattern minRole h, (pattern, minRole, h) ∈ mounted key gen rfc3339 /\
    x.2 = MkEndpoint (Member minRole) (fun _ r p => on_rest (h r p)).

Lemma table_secluded : Forall secluded table.
Proof.
  assert (Happ : forall x, (forall path r p, keeps apart (en_handler x.2 path r p)) -> secluded x) by (intros x Hx; right; by left).
  assert (Hmount : forall pt g pattern h, (pattern, g, h) ∈ mounted key gen rfc3339 ->
    secluded (pt, MkEndpoint (Member g) (fun _ r p => on_rest (h r p)))) by (intros; right; right; eauto).
  unfold table, Register, registerRooms, registerAuth, registerJobs, registerInventory, registerEnroll. cbn [map app].
  repeat (apply Forall_cons; split;
    [first [ left; reflexivity
           | apply Happ; intros path r p; cbn [mount_rest mount bare snd en_handler];
             first [ apply apart_calm; first [ apply calm_tenant | apply calm_account | eapply (calm_open r path)
                                             | apply keeps_still; [apply _|]; by intros w _ ]
                   | apply apart_mild; intros w Hw; by apply me_mild
                   | apply apart_login | apply apart_logout | apply apart_enrollDone | apply apart_oidcStart
                   | apply apart_oidcCallback | apply apart_account | apply apart_keys | apply apart_tenant ]
           | eapply Hmount; unfold mounted; repeat first [ apply list_elem_of_here | apply list_elem_of_further ] ]|]).
  by apply Forall_nil.
Qed.
End Provider.

(** ** Theorems *)

(** Claim C17: no route hides another: a clean path that matches the pattern of a
    route, asked with its method, is answered by that route, with what the
    wildcards of the pattern stand for; the two patterns that end with a slash
    take what is left.  And [net/http] accepts the table. *)
Theorem routes_reachable p e path vs r w :
  (p, e) ∈ table -> last (pt_path p) <> Some Rest -> q_method r = pt_method p -> cleanPath path = path ->
  match_one (pt_path p) (elements path) = Some vs ->
  compatible_all table.*1 = true /\
  serve path r w = served (guarded (en_guard e) (en_handler e (pathUnescape path)) (with_values p vs r)) w.
Proof.
  intros Hin Hlast Hmeth Hclean Hm.
  assert (Hc : compatible_all table.*1 = true) by (vm_compute; reflexivity). split; [exact Hc|]. clear Hc.
  assert (Hall : forallb (fun p => bool_decide (last (pt_path p) = Some Rest) || foremost p table.*1) table.*1 = true)
    by (vm_compute; reflexivity).
  assert (Hnd : NoDup table.*1) by (apply (bool_decide_unpack _); vm_compute; exact I).
  assert (Hmet : forallb (fun p => negb (bool_decide (pt_method p = "CONNECT"%string))) table.*1 = true) by (vm_compute; reflexivity).
  assert (Hp : List.In p table.*1) by exact (table_listed p e Hin).
  apply (proj1 (forallb_forall _ _) Hall) in Hp as Hfor. apply (proj1 (forallb_forall _ _) Hmet) in Hp.
  rewrite bool_decide_false in Hfor by done. rewrite negb_true_iff, bool_decide_eq_false in Hp.
  unfold serve. by rewrite Hmeth, (findHandler_foremost table p e path vs).
Qed.

Lemma entitled_values d p vs r pr : entitled d (with_values p vs r) pr -> entitled d r pr.
Proof.
  intros [k1 k2 H1|k1 k2 H1|u H1|u m H1|u H1] *;
    [eapply by_tenant_key|eapply by_platform_key|eapply by_admin|eapply by_member|eapply by_account]; try exact H1; done.
Qed.

(** An answer given without running any handler. *)
Definition turned_away (w : W) (a : resp) (w' : W) : Prop :=
  r_code a ∈ [301; 400; 401; 403; 404; 405] /\ mild w w'.

(** Claim C4: every request is served by one of the open routes, or by a route
    whose guard lets it through, run for someone the request is entitled to act
    as, or is turned away and changes nothing but the last use of its key or the
    end of its session. *)
Theorem api_guarded path r w a w' : quiet_w w -> serve path r w = (a, w') ->
  (exists p e vs, findHandler table (q_method r) path = Found p e vs /\ (p, e) ∈ table /\
     (p ∈ parse_pattern <$> open_routes \/
      exists pr w1, entitled (db w) r pr /\ permits (en_guard e) pr /\ mild w w1 /\
        served (en_handler e (pathUnescape path) (with_values p vs r) pr) w1 = (a, w'))) \/
  turned_away w a w'.
Proof.
  intros Hq. unfold serve. destruct (findHandler table (q_method r) path) as [p e vs|target|ms|] eqn:Hf.
  2-4: intros [= <- <-]; right; split; [simpl; set_solver|by apply mild_refl].
  apply findHandler_sound in Hf as Hs. destruct Hs as (Hin & _). intros E.
  destruct (decide (en_guard e = Anyone)) as [Hg|Hg].
  { left. exists p, e, vs. split_and!; [done|done|]. left. by eapply table_open. }
  destruct (guarded_runs (en_guard e) (en_handler e (pathUnescape path)) (with_values p vs r) w Hq Hg)
    as [(pr & w1 & _ & He & Hp & Hm & Hrun)|(a1 & w1 & Hrun & Hcode & Hm)]; unfold served in E; rewrite Hrun in E.
  - left. exists p, e, vs. split_and!; [done|done|]. right. exists pr, w1. split_and!; try done. by apply entitled_values in He.
  - right. injection E as <- <-. split; [clear -Hcode; set_solver|done].
Qed.

(** What the page of another site can make a browser send: its cookies, and no
    header of the application's own. *)
Definition forged (r : http_request) : Prop := bearer_key r = None /\ head "X-Requested-With" r <> "flyc"%string.

Lemma forged_unknown g r w : forged r -> q_method r <> "GET"%string -> g <> Anyone -> exists e, (identify g r w).1 = inl e.
Proof.
  intros [Hb Hx] Hm Hg. assert (Hses : exists e, (authenticateSession r w).1 = inl e).
  { unfold authenticateSession. destruct (Current r w) as [[e|[u|]] w1]; [by eexists| |by eexists].
    rewrite (proj2 (String.eqb_neq _ _) Hm), (proj2 (String.eqb_neq _ _) Hx). by eexists. }
  destruct g; [done|exact Hses|..]; unfold identify, authenticate; by rewrite Hb.
Qed.

(** Claim C21: a request that a page of another site makes a browser send, with
    the session of whoever looks at that page, changes nothing but the end of
    that session, unless it is for one of five open routes: logging in, logging
    out, the two steps of the login through a provider, and the announcement of
    a machine that holds a token. *)
Theorem cross_site_harmless path r w : quiet_w w -> forged r ->
  (exists p e vs, findHandler table (q_method r) path = Found p e vs /\ p ∈ parse_pattern <$> doors) \/
  mild w (serve path r w).2.
Proof.
  intros Hq Hr. unfold serve. destruct (findHandler table (q_method r) path) as [p e vs|target|ms|] eqn:Hf.
  2-4: right; by apply mild_refl.
  apply findHandler_sound in Hf as Hs. destruct Hs as (Hin & _ & Hmeth).
  destruct (proj1 (Forall_forall _ _) table_tame (p, e) Hin) as [Hd|Ht]; [left; by exists p, e, vs|right].
  set (r' := with_values p vs r). set (h := en_handler e (pathUnescape path)).
  assert (Hserved : forall m : HMW resp, (served m w).2 = (m w).2) by (intros m; unfold served; by destruct (m w) as [[]]).
  rewrite Hserved. destruct (decide (en_guard e = Anyone)) as [Hg|Hg].
  { rewrite Hg. cbn [guarded]. destruct Ht as [[_ Hn]|[Hc|[_ Hm]]]; [done| |by apply Hm].
    destruct (Hc (pathUnescape path) r' no_one w Hq) as [Hq' Hcalm]. eapply mild_calm; [by apply mild_refl|done..]. }
  destruct (guarded_runs (en_guard e) h r' w Hq Hg) as [(pr & w1 & Hid & He & Hp & Hm & Hrun)|(a1 & w1 & Hrun & Hcode & Hm)];
    rewrite Hrun; [|done].
  destruct Ht as [[Hn _]|[Hc|[Ha _]]]; [|destruct (Hc (pathUnescape path) r' pr w1) as [Hq' Hcalm]; [by destruct Hm|by eapply mild_calm]|done].
  exfalso. destruct (forged_unknown (en_guard e) r' w) as [e1 He1]; [exact Hr| |done|by rewrite Hid in He1].
  intros Hget. change (q_method r = "GET"%string) in Hget. rewrite Hget in Hmeth.
  destruct Hmeth as [Hpm|[Hpm|[Hpm _]]]; [done| |done].
  assert (Hne : forallb (fun p => negb (bool_decide (pt_method p = EmptyString))) table.*1 = true) by (vm_compute; reflexivity).
  pose proof (table_listed p e Hin) as Hin'.
  apply (proj1 (forallb_forall _ _) Hne) in Hin'. by rewrite bool_decide_true in Hin'.
Qed.

(** A mild change leaves the sites alone. *)
Lemma mild_sites w w' : mild w w' -> owned (db w) -> quiet_w w' /\ owned (db w') /\ same_sites (db w) (db w').
Proof. intros (Hq & Ht%touched_sites & _) Ho. split_and!; [done|by eapply owned_sites|done]. Qed.

Lemma served_snd (m : HMW resp) w : (served m w).2 = (m w).2.
Proof. unfold served. by destruct (m w) as [[]]. Qed.

(** A writing route of the tenants, seen from the whole world. *)
Lemma mounted_on_rest pattern minRole h r pr w : (pattern, minRole, h) ∈ mounted key gen rfc3339 ->
  quiet_w w -> (forall d, fresh gen d) -> owned (db w) ->
  let w' := (on_rest (h r pr) w).2 in
  quiet_w w' /\ owned (db w') /\ foreign (p_tenantID pr) (db w') = foreign (p_tenantID pr) (db w).
Proof.
  intros Hm Hq Hf Ho w'.
  assert (Hh : h ∈ tenant_routes key gen rfc3339) by (apply list_elem_of_fmap; by exists (pattern, minRole, h)).
  pose proof (handler_isolates key gen rfc3339 h r pr (within pt_rest w) Hh Hq Hf Ho) as Hi.
  unfold w', on_rest, on_part. unfold served in Hi. destruct (h r pr (within pt_rest w)) as [[a|a] v]; exact Hi.
Qed.

(** Who changes the sites of whom. *)
Lemma request_isolated path r w :
  (forall code, keeps apart (code_exchange code)) -> (forall raw, keeps apart (verify_token raw)) ->
  quiet_w w -> (forall d, fresh gen d) -> owned (db w) ->
  let w' := (serve path r w).2 in
  (exists p e vs pr, findHandler table (q_method r) path = Found p e vs /\ en_guard e = Platform /\
     entitled (db w) r pr /\ p_platform pr = true) \/
  quiet_w w' /\ owned (db w') /\
  (same_sites (db w) (db w') \/
   exists pr, entitled (db w) r pr /\ p_tenantID pr <> EmptyString /\
     foreign (p_tenantID pr) (db w') = foreign (p_tenantID pr) (db w)).
Proof.
  intros Hex Hve Hq Hf Ho w'. subst w'. unfold serve.
  destruct (findHandler table (q_method r) path) as [p e vs|target|ms|] eqn:Hfind.
  2-4: right; split_and!; [done..|left; apply same_sites_refl].
  apply findHandler_sound in Hfind as Hs. destruct Hs as (Hin & _ & _).
  pose proof (proj1 (Forall_forall _ _) (table_secluded Hex Hve) (p, e) Hin) as Hsec. unfold secluded in Hsec; cbn [snd] in Hsec.
  rewrite served_snd. set (r' := with_values p vs r). set (h := en_handler e (pathUnescape path)).
  assert (Hfree : forall pr w1, mild w w1 -> keeps apart (h r' pr) ->
    quiet_w (h r' pr w1).2 /\ owned (db (h r' pr w1).2) /\ same_sites (db w) (db (h r' pr w1).2)).
  { intros pr w1 Hm Hk. destruct (mild_sites w w1 Hm Ho) as (Hq1 & Ho1 & Hs1). destruct (Hk w1 Hq1) as [Hq2 Hs2].
    split_and!; [done|by eapply owned_sites|]. by apply (transitivity (R := apart) (x := w) (y := w1)). }
  destruct (decide (en_guard e = Anyone)) as [Hg|Hg].
  - rewrite Hg in *. cbn [guarded]. right.
    destruct Hsec as [Hp|[Hk|(pattern & g & h' & _ & ->)]]; [done| |done].
    destruct (Hfree no_one w (mild_refl w Hq) (Hk _ _ _)) as (H1 & H2 & H3). split_and!; [done..|by left].
  - destruct (guarded_runs (en_guard e) h r' w Hq Hg) as [(pr & w1 & _ & He%entitled_values & Hp & Hm & Hrun)|(a1 & w1 & Hrun & _ & Hm)];
      rewrite Hrun; cbn [snd].
    2:{ right. destruct (mild_sites w w1 Hm Ho) as (H1 & H2 & H3). split_and!; [done..|by left]. }
    destruct Hsec as [Hpl|[Hk|(pattern & g & h' & Hmount & Hen)]].
    + left. exists p, e, vs, pr. rewrite Hpl in Hp. by split_and!.
    + right. destruct (Hfree pr w1 Hm (Hk _ _ _)) as (H1 & H2 & H3). split_and!; [done..|by left].
    + right. destruct (mild_sites w w1 Hm Ho) as (Hq1 & Ho1 & Hs1). unfold h. rewrite Hen in Hp |- *. cbn [en_handler].
      destruct (mounted_on_rest pattern g h' r' pr w1 Hmount Hq1 Hf Ho1) as (Hq2 & Ho2 & Hfor).
      split_and!; [exact Hq2|exact Ho2|]. right. exists pr. split_and!; [exact He|apply Hp|].
      rewrite Hfor. apply foreign_sites, Hs1.
Qed.

(** Claim C2: the isolation of the tenants, for the whole API: whatever the
    request, it is for a route of the platform and comes from the platform; or it
    changes no table of the sites; or it comes from someone entitled to act for a
    tenant, and every row of the other tenants is as it was: their domains,
    backends, servers, queues and certificates.  The libraries that talk to the
    provider do not write to the sites. *)
Theorem api_isolation path r w :
  (forall code, keeps apart (code_exchange code)) -> (forall raw, keeps apart (verify_token raw)) ->
  quiet_w w -> (forall d, fresh gen d) -> owned (db w) ->
  let w' := (serve path r w).2 in
  (exists p e vs pr, findHandler table (q_method r) path = Found p e vs /\ en_guard e = Platform /\
     entitled (db w) r pr /\ p_platform pr = true) \/
  quiet_w w' /\ owned (db w') /\
  (same_sites (db w) (db w') \/
   exists pr, entitled (db w) r pr /\ p_tenantID pr <> EmptyString /\
     foreign (p_tenantID pr) (db w') = foreign (p_tenantID pr) (db w)).
Proof. apply request_isolated. Qed.

End Table.

(** ** Examples *)

Module RoutesDemo.
Import AccessDemo.

Definition demo_config : config :=
  MkConfig "0123456789abcdef0123456789abcdef" "Flyc" "token" EmptyString "wait.example" EmptyString (fun _ => inl (Err "no file")) false false
    (MkOIDC false EmptyString EmptyString EmptyString ∅) "1.0".

Abbreviation DX := (parts site unit unit).
Definition demo_lib : outside_code (cworld DX) unit unit := {|
  o_gen := toy_gen; o_uuid := Some; o_rfc3339 := fun _ => None; o_show_time := FormatInt; o_stamp := FormatInt;
  o_key_name := FormatInt; o_month := FormatInt; o_flusher := true; o_turns := 0; o_faults := []; o_wakes := [];
  o_qr_png := inr; o_pem_encode := fun _ s => s; o_pem_decode := Some; o_generate := fun _ => inr tt;
  o_marshal_ec := fun _ => inr EmptyString; o_marshal_pkix := fun _ => inr EmptyString; o_parse_pkix := fun _ => inr (Some tt);
  o_coords := fun _ => (1, 2); o_ecdsa_verify := fun _ _ _ _ => false; o_unmarshal_payload := fun _ => inl (Err "json");
  o_content_length := fun _ => 0; o_tls := fun _ => true; o_host := fun _ => "control.example"%string;
  o_auth_url := fun _ _ => "https://id.example"%string; o_relative := fun _ => true;
  o_code_exchange := fun _ => mret (Some "raw"%string); o_verify_token := fun _ => mret (MkIdToken EmptyString EmptyString JNull);
  o_ping := fun _ => None; o_metrics := fun _ => EmptyString; o_static := Some; o_relocate := fun _ s => s |}.

Definition demo_world : cworld DX :=
  MkCw (cw_pg shop) (cw_rand shop) (cw_kick shop) (cw_triggers shop)
    (MkParts (cw_rest shop) (MkDir ∅ []) (Bootstrap.MkResult "k1" "private" "public" JNull) tt).

Abbreviation demo_table := (@table site unit unit _ toy_queue _ _ _ unit unit demo_config demo_lib).
Abbreviation demo_serve := (@serve site unit unit _ toy_queue _ _ _ unit unit demo_config demo_lib).

(** A tenant's key adds a domain; the page of another site makes the browser of
    a member close a queue. *)
Definition adds_domain : http_request := key_request.
Definition closes_queue : http_request :=
  MkHttp "POST" ∅ {[ CookieName := "token"%string ]} ∅ ∅ (inr (JObj [("state"%string, JStr "closed")])) "192.0.2.9" 1000.

Lemma demo_world_owned : owned (db demo_world).
Proof. exact shop_owned. Qed.

Lemma routes_reachable_witness :
  match_one (pt_path (parse_pattern "POST /v1/rooms/{slug}/state")) (elements "/v1/rooms/a%20b/state") = Some ["a b"%string] /\
  compatible_all demo_table.*1 = true /\
  exists e, en_guard e = Member "operator" /\
    demo_serve "/v1/rooms/a%20b/state" closes_queue demo_world =
    served (guarded (en_guard e) (en_handler e "/v1/rooms/a b/state")
      (with_values (parse_pattern "POST /v1/rooms/{slug}/state") ["a b"%string] closes_queue)) demo_world.
Proof.
  split; [vm_compute; reflexivity|].
  pose (e := MkEndpoint (Member "operator") (fun _ r p => @on_rest site unit unit _ (@roomState _ _ _ toy_queue _ _ _ (cf_key demo_config) r p))).
  edestruct (@routes_reachable site unit unit _ toy_queue _ _ _ unit unit demo_config demo_lib
    (parse_pattern "POST /v1/rooms/{slug}/state") e "/v1/rooms/a%20b/state" ["a b"%string] closes_queue demo_world) as [Hc Hs];
    [|vm_compute; congruence|vm_compute; reflexivity..|].
  - unfold table. apply (list_elem_of_lookup_2 _ 42). reflexivity.
  - split; [exact Hc|]. exists e. split; [reflexivity|]. exact Hs.
Defined.

Lemma api_guarded_witness :
  r_code (demo_serve "/v1/domains" adds_domain demo_world).1 = 201 /\
  exists a w', demo_serve "/v1/domains" adds_domain demo_world = (a, w') /\
  ((exists p e vs, findHandler demo_table "POST" "/v1/domains" = Found p e vs /\ (p, e) ∈ demo_table /\
     (p ∈ parse_pattern <$> open_routes \/
      exists pr w1, entitled (db demo_world) adds_domain pr /\ permits (en_guard e) pr /\ mild demo_world w1 /\
        served (en_handler e "/v1/domains" (with_values p vs adds_domain) pr) w1 = (a, w'))) \/
   turned_away demo_world a w').
Proof.
  split; [vm_compute; reflexivity|]. destruct (demo_serve "/v1/domains" adds_domain demo_world) as [a w'] eqn:E.
  exists a, w'. split; [reflexivity|].
  apply (@api_guarded site unit unit _ toy_queue _ _ _ unit unit demo_config demo_lib "/v1/domains" adds_domain demo_world a w');
    [reflexivity|exact E].
Defined.

Lemma cross_site_harmless_witness :
  r_code (demo_serve "/v1/rooms/main/state" closes_queue demo_world).1 = 401 /\
  ((exists p e vs, findHandler demo_table "POST" "/v1/rooms/main/state" = Found p e vs /\ p ∈ parse_pattern <$> doors) \/
   mild demo_world (demo_serve "/v1/rooms/main/state" closes_queue demo_world).2).
Proof.
  split; [vm_compute; reflexivity|].
  apply (@cross_site_harmless site unit unit _ toy_queue _ _ _ unit unit demo_config demo_lib "/v1/rooms/main/state" closes_queue demo_world);
    [reflexivity|split; [reflexivity|vm_compute; congruence]].
Defined.

Lemma api_isolation_witness :
  r_code (demo_serve "/v1/domains" adds_domain demo_world).1 = 201 /\
  let w' := (demo_serve "/v1/domains" adds_domain demo_world).2 in
  (exists p e vs pr, findHandler demo_table "POST" "/v1/domains" = Found p e vs /\ en_guard e = Platform /\
     entitled (db demo_world) adds_domain pr /\ p_platform pr = true) \/
  quiet_w w' /\ owned (db w') /\
  (same_sites (db demo_world) (db w') \/
   exists pr, entitled (db demo_world) adds_domain pr /\ p_tenantID pr <> EmptyString /\
     foreign (p_tenantID pr) (db w') = foreign (p_tenantID pr) (db demo_world)).
Proof.
  split; [vm_compute; reflexivity|].
  apply (@api_isolation site unit unit _ toy_queue _ _ _ unit unit demo_config demo_lib "/v1/domains" adds_domain demo_world).
  - intros code. by apply keeps_M_ret, apart_preorder.
  - intros raw. by apply keeps_M_ret, apart_preorder.
  - reflexivity.
  - apply toy_gen_fresh.
  - exact demo_world_owned.
Defined.

End RoutesDemo.
