(* ===== verification/Views.v ===== *)
(** * What a tenant can see

    The routes of [Register] that show something to whoever acts for a tenant:
    the lists of [tenant.go] and [session.go], the check of a pass and the
    statistics of a queue ([control/internal/api]).  What is proved: what they show
    to one tenant is not changed by any request to the API that was not entitled to
    act for it, nor by the platform, and reading changes nothing; the statistics
    are whatever the queue service answers for a path that the name of the queue
    is written into as it is. *)
From Stdlib Require Import Ascii.
From S2P Require Import Prelude GoStr Json Httpx Mux Dataplane Queueclient Pg Pass Haproxy Site Compile Inventory Reconcile Settle Watch Jobs Access Account Tenant Ownership Reads Bootstrap Nodes Enrol JobsApi Keeps Acme Oidc Routes.

Local Open Scope list_scope.
Local Open Scope Z_scope.

(** ** What is not in the tables of the sites *)

(** The API keys of a tenant. *)
Definition own_keys (t : string) (d : cdb) : list apikey_row := base.filter (fun k => ak_tenant k = Some t) (api_keys (accounts_ d)).

(** The keys of the tenant [t], the keys passes are signed with, and the time. *)
Definition steady (t : string) (d d' : cdb) : Prop :=
  own_keys t d' = own_keys t d /\ signing_keys d' = signing_keys d /\ clock d' = clock d.

#[export] Instance steady_preorder t : PreOrder (steady t).
Proof. split; [by intros d|]. intros d1 d2 d3 (E1 & E2 & E3) (F1 & F2 & F3). split_and!; by etrans. Qed.

Lemma steady_edges t l d : steady t d (set_edges l d).
Proof. done. Qed.
Lemma steady_hosts t l d : steady t d (set_queue_hosts l d).
Proof. done. Qed.

Definition steadily {X} (t : string) (w w' : cworld X) : Prop := steady t (db w) (db w').
#[export] Instance steadily_preorder {X} t : PreOrder (@steadily X t).
Proof. split; [intros w; unfold steadily; reflexivity|]. intros w1 w2 w3. unfold steadily. apply transitivity. Qed.

(** ** Call by call *)

Section Calls.
Context (t : string).
Abbreviation still m := (frames (steady t) (fun _ => False) m).

Lemma still_bind {A B} (m : M pg A) (f : A -> M pg B) : still m -> (forall a, still (f a)) -> still (m ≫= f).
Proof. apply frames_bind, _. Qed.
Lemma still_in_tx {A} (m : M pg A) : still m -> still (in_tx m).
Proof. apply frames_in_tx, _. Qed.
Lemma still_Exec {A} (f : cdb -> goerr + (A * cdb)) : (forall d a d', f d = inr (a, d') -> steady t d d') -> still (Exec f).
Proof. apply frames_Exec, _. Qed.
Lemma still_Exec_ (f : cdb -> cdb) : (forall d, steady t d (f d)) -> still (Exec_ f).
Proof. apply frames_Exec_, _. Qed.
Lemma still_all_rows {A} (q : cdb -> list A) : still (all_rows q).
Proof. apply frames_all_rows, _. Qed.

Lemma steadily_at_pg {X A} (m : M pg A) : still m -> keeps (@steadily X t) (at_pg m).
Proof.
  intros Hm w Hw. assert (Ha : allowed (steady t) (fun _ => False) (sched (cw_pg w))) by (unfold quiet_w, quiet in Hw; rewrite Hw; apply allowed_nil).
  destruct (Hm (cw_pg w) Ha) as [Hr Hl]. unfold at_pg, zoom. destruct (m (cw_pg w)) as [a p]. cbn [snd] in *. split; [|exact Hr].
  exact (allowed_never _ _ _ Hl (fun _ x => x)).
Qed.
End Calls.

(** Follows the text of a call of the database, then of a handler. *)
Ltac still_step :=
  first
  [ apply frames_Query; apply _ | apply frames_QueryRow; apply _ | apply frames_ret; apply _ | apply frames_fail; apply _
  | apply frames_lift; apply _ | apply still_all_rows
  | apply still_bind; [still_step|intros ?; still_step]
  | apply still_in_tx; still_step
  | apply still_Exec_; intros ?; by split_and!
  | apply still_Exec; intros; repeat case_match; simplify_eq; by split_and!
  | progress (cbv zeta); still_step
  | match goal with |- frames _ _ (match ?x with _ => _ end) => destruct x; still_step end
  | idtac ].
Ltac steady_step := keeps_step; try (apply steadily_at_pg; still_step).

(** ** Who a request comes from *)

Section Guards.
Context {HO : Collation} {HC : Crypto} {X : Type} (t : string).
Abbreviation W := (cworld X).

(** Whoever may act for the tenant. *)
Definition acts_for (d : cdb) (r : http_request) : Prop := exists p, entitled d r p /\ p_tenantID p = t.

Lemma Current_steady r (w : W) : quiet_w w -> steady t (db w) (db (Current r w).2).
Proof.
  intros Hq. unfold Current. case_bool_decide; [done|]. rewrite at_pg_query by done.
  destruct (q_session _ _) as [[u exp]|]; [|done]. case_match; [|done]. by rewrite at_pg_exec_.
Qed.

Lemma authenticateSession_steady r (w : W) : quiet_w w -> steady t (db w) (db (authenticateSession r w).2).
Proof.
  intros Hq. unfold authenticateSession. pose proof (Current_steady r w Hq) as H1. destruct (Current r w) as [cur w1] eqn:E.
  apply Current_sound in E as (Hq1 & _); [|done]. cbn [snd] in H1.
  destruct cur as [e|[u|]]; [done| |done]. destruct (_ && _); [done|]. destruct (PlatformAdmin u).
  - case_bool_decide; [done|]. rewrite at_pg_query by done. by destruct (tenant_by_slug _ _) as [[i s]|].
  - rewrite at_pg_query by done. destruct (q_member _ _ _) as [[[i s] role]|]; [done|]. by case_bool_decide.
Qed.

(** Only a key of the tenant is dated by the request that bears it. *)
Lemma key_used_steady k d : NoDup (ak_id <$> api_keys (accounts_ d)) -> k ∈ api_keys (accounts_ d) -> ak_tenant k <> Some t ->
  steady t d (key_used (ak_id k) d).
Proof.
  intros Hn Hk Ht. split_and!; [|done..]. unfold own_keys, key_used. cbn [accounts_ api_keys with_keys set_accounts].
  induction (api_keys (accounts_ d)) as [|x l IH]; [done|]. cbn [map]. rewrite fmap_cons in Hn. apply NoDup_cons in Hn as [Hx Hn].
  apply elem_of_cons in Hk as [->|Hk].
  - rewrite String.eqb_refl, !filter_cons. rewrite !decide_False by done. f_equal. rewrite <- (map_id l) at 2. apply map_ext_in.
    intros y Hy%list_elem_of_In. rewrite (proj2 (String.eqb_neq _ _)); [done|]. intros E. apply Hx. rewrite <- E. by apply list_elem_of_fmap_2.
  - rewrite (proj2 (String.eqb_neq (ak_id x) (ak_id k))) by (intros E; apply Hx; rewrite E; by apply list_elem_of_fmap_2).
    rewrite !filter_cons. case_decide; by rewrite IH.
Qed.

Lemma authenticate_steady r (w : W) : quiet_w w -> NoDup (ak_id <$> api_keys (accounts_ (db w))) ->
  steady t (db w) (db (authenticate r w).2) \/ acts_for (db w) r.
Proof.
  intros Hq Hn. unfold authenticate. destruct (bearer_key r) as [key|] eqn:Hb; [|left; by apply authenticateSession_steady].
  rewrite at_pg_query by done. destruct (q_key (HashKey key) (db w)) as [[k slug]|] eqn:Hk; [|by left].
  unfold q_key in Hk. destruct (by_id ak_hash _ _) as [k'|] eqn:Hi; [|done]. injection Hk as -> _. apply by_id_elem in Hi as [Hin Hh].
  rewrite at_pg_exec_ by done. cbn [snd]. set (w2 := set_cw_pg _ w). assert (Hq2 : quiet_w w2) by done.
  destruct (decide (ak_tenant k = Some t)) as [Ht|Ht].
  { right. exists (MkPrincipal (ak_id k) t slug false EmptyString None false). split; [|done]. by eapply by_tenant_key. }
  left. assert (H2 : steady t (db w) (db w2)) by by apply key_used_steady.
  destruct (ak_tenant k); [done|]. case_bool_decide; [done|].
  rewrite at_pg_query by done. by destruct (tenant_by_slug _ _) as [[i s]|].
Qed.

End Guards.

(** ** The handlers *)

Section Handlers.
Context {HO : Collation} {HC : Crypto} {X : Type} (t : string).
Abbreviation keeping m := (keeps (@steadily X t) m).

Lemma steady_drawn : keeping drawn.
Proof. by intros w Hw. Qed.
Lemma steady_draw : keeping draw.
Proof. by intros w Hw. Qed.
Lemma steady_Kick : keeping Kick.
Proof. by intros w Hw. Qed.
Lemma steady_Trigger : keeping Trigger.
Proof. by intros w Hw. Qed.
#[local] Hint Resolve steady_drawn steady_draw steady_Kick steady_Trigger : keeps.
Lemma steady_audit p action diff : keeping (audit p action diff).
Proof. unfold audit. steady_step. Qed.
Lemma steady_Create r id : keeping (Create r id).
Proof. unfold Create, RandomToken, insert_session. steady_step. Qed.
Lemma steady_Destroy r : keeping (Destroy r).
Proof. unfold Destroy. steady_step. Qed.
Lemma steady_DestroyAll id : keeping (DestroyAll id).
Proof. unfold DestroyAll. steady_step. Qed.
#[local] Hint Resolve steady_audit steady_Create steady_Destroy steady_DestroyAll : keeps.

Lemma steady_open key oidc auth_url r :
  keeping (login key r) /\ keeping (logout r) /\ keeping (enrollDone r) /\ keeping (oidcStart oidc auth_url r).
Proof.
  split_and!; [unfold login, second_factor|unfold logout|unfold enrollDone, lookupToken|unfold oidcStart, insert_state]; steady_step.
Qed.

Lemma steady_account key issuer r p :
  keeping (changePassword r p) /\ keeping (totpSetup key issuer r p) /\
  keeping (totpEnable key r p) /\ keeping (totpDisable r p).
Proof.
  split_and!; [unfold changePassword, read_hash|unfold totpSetup|unfold totpEnable, read_totp|unfold totpDisable, read_hash]; steady_step.
Qed.

(** The keys another tenant makes or deletes. *)
Lemma insert_key_steady gen u name hash d a d' : u <> t -> insert_key gen (Some u) name hash d = inr (a, d') -> steady t d d'.
Proof.
  intros Hu. unfold insert_key. destruct (existsb _ _); [done|]. intros [= _ <-]. split_and!; [|done..].
  unfold own_keys. cbn [accounts_ api_keys with_keys set_accounts]. rewrite filter_app, filter_cons, decide_False by (cbn; congruence).
  apply app_nil_r.
Qed.
Lemma remove_key_steady uuid text u d a d' : u <> t -> remove_key uuid text u d = inr (a, d') -> steady t d d'.
Proof.
  intros Hu. unfold remove_key. destruct (uuid text); [|done]. intros [= _ <-]. split_and!; [|done..].
  unfold own_keys. cbn [accounts_ api_keys with_keys set_accounts]. apply filter_filter_eq; [done|].
  intros k _ Hk. apply andb_false_iff. right. apply bool_decide_eq_false. congruence.
Qed.

Lemma steady_keys gen uuid key_name r p : p_tenantID p <> t ->
  keeping (createOwnTenantKey gen key_name r p) /\ keeping (deleteTenantKey uuid r p).
Proof.
  intros Hp. split; [unfold createOwnTenantKey, fresh_key|unfold deleteTenantKey]; steady_step; apply still_Exec; intros d0 a0 d1;
    [by apply insert_key_steady|by apply remove_key_steady].
Qed.

Section Provider.
Context (gen : cdb -> string) (o : OIDC) (relative : string -> bool).
Context (code_exchange : string -> M (cworld X) (option string)) (verify_token : string -> M (cworld X) id_token).
Hypothesis exchange_steady : forall code, keeping (code_exchange code).
Hypothesis verify_steady : forall raw, keeping (verify_token raw).
Lemma steady_oidcCallback r : keeping (oidcCallback gen o code_exchange verify_token relative r).
Proof.
  unfold oidcCallback, Exchange, account_of, take_state, insert_oidc_user, link_user.
  steady_step; try apply exchange_steady; try apply verify_steady.
Qed.
End Provider.
End Handlers.
#[local] Hint Resolve steady_drawn steady_draw steady_Kick steady_Trigger steady_audit : keeps.

Section Sites.
Context {St Q : Type} {HD : DataplaneHTTP St} {HQ : QueueHTTP Q} {HM_ : MapOrder} {HO : Collation} {HC : Crypto}.
Context (key : string) (gen : cdb -> string) (rfc3339 : string -> option Z) (t : string).
Abbreviation keeping m := (keeps (@steadily (@Tenant.rest St Q) t) m).

Lemma steady_call method path : keeping (call_queue method path).
Proof. intros w Hw. unfold call_queue. by destruct (Queueclient.Call _ _ _ _). Qed.
Lemma steady_issue id fqdn : keeping (start_issue id fqdn).
Proof. by intros w Hw. Qed.
Lemma steady_Once : keeping (rec_Once key).
Proof.
  intros w Hw. assert (Ha : allowed (steady t) (fun _ => False) (sched (w_pg (rec_world w)))) by (unfold quiet_w, quiet in Hw; cbn; rewrite Hw; apply allowed_nil).
  unfold rec_Once. destruct (Once_stages (steady t) (fun _ => False) (steady_edges t) (steady_hosts t)
    (fun enc => match Open key enc with inr s => Some s | inl _ => None end) sha256 true _ Ha) as [T Hl].
  cbn [snd]. split; [exact (allowed_never _ _ _ Hl (fun _ x => x))|exact T].
Qed.
#[local] Hint Resolve steady_call steady_issue steady_Once : keeps.

Lemma still_fitting l : frames (steady t) (fun _ => False) (fitting l).
Proof. unfold fitting. still_step. Qed.
Lemma still_servers id i l : frames (steady t) (fun _ => False) (insert_servers id i l).
Proof.
  revert i. induction l as [|s l IH]; intros i; [apply frames_ret, _|]. cbn [insert_servers].
  apply still_bind; [apply still_fitting|intros _]. apply still_bind; [unfold insert_server; still_step|intros _; apply IH].
Qed.

Lemma steady_domains acme_enabled r p :
  keeping (createDomain gen r p) /\ keeping (deleteDomain r p) /\ keeping (renewCert acme_enabled r p).
Proof. split_and!; [unfold createDomain, insert_domain|unfold deleteDomain, delete_domain|unfold renewCert]; steady_step. Qed.

Lemma steady_backends r p : keeping (upsertBackend gen r p) /\ keeping (deleteBackend r p).
Proof.
  split; [unfold upsertBackend, put_backend_tx|unfold deleteBackend, delete_backend]; steady_step; [|apply still_servers].
  unfold put_backend_row. still_step.
Qed.

Lemma steady_rooms r p :
  keeping (upsertRoom gen rfc3339 r p) /\ keeping (deleteRoom r p) /\ keeping (roomState key r p) /\ keeping (roomFlush r p).
Proof.
  split_and!; [unfold upsertRoom, Tenant.named, Tenant.opening|unfold deleteRoom, delete_room|unfold roomState, change_state, set_state|unfold roomFlush]; steady_step;
    [apply still_fitting|unfold put_room_row; still_step].
Qed.

Section Verify.
Context {PK : Type} (pem_decode : string -> option string) (parse_pkix : string -> goerr + option PK).
Context (ecdsa_verify : PK -> string -> Z -> Z -> bool) (unmarshal_payload : string -> goerr + Payload).
Lemma steady_verify r p : keeping (verifyPass pem_decode parse_pkix ecdsa_verify unmarshal_payload r p).
Proof. unfold verifyPass. steady_step. Qed.
End Verify.
End Sites.

(** ** The whole API *)

Section Table.
Context {St Q Y : Type} {HD : DataplaneHTTP St} {HQ : QueueHTTP Q} {HM_ : MapOrder} {HO : Collation} {HC : Crypto} {SK PK : Type}.
Abbreviation X := (parts St Q Y).
Abbreviation W := (cworld X).
Abbreviation HMW := (@HM X).
Abbreviation handlerR := (@handler (@Tenant.rest St Q)).
Context (cfg : config) (lib : outside_code W SK PK).
Abbreviation table := (Routes.table cfg lib).
Abbreviation serve := (Routes.serve cfg lib).

(** The routes [Register] has that show something to a tenant out of the database. *)
Definition tenant_reads : list handlerR :=
  [listDomains (o_show_time lib); domainCert (o_show_time lib); listBackends; listRooms (o_show_time lib);
   verifyPass (o_pem_decode lib) (o_parse_pkix lib) (o_ecdsa_verify lib) (o_unmarshal_payload lib);
   listTenantKeys (o_show_time lib)].

(** *** What they depend on *)

Definition same_view (t : string) (d1 d2 : cdb) : Prop := same_own t d1 d2 /\ steady t d2 d1.

Lemma existsb_own t f d : existsb (is_domain t f) (domains d) = existsb (is_domain t f) (own_domains t d).
Proof.
  unfold own_domains. induction (domains d) as [|x l IH]; [done|]. rewrite filter_cons. cbn [existsb]. rewrite IH.
  case_decide as Ht; [done|]. replace (is_domain t f x) with false; [done|]. symmetry. unfold is_domain.
  by rewrite (proj2 (String.eqb_neq _ _)).
Qed.

Lemma verifyPass_view r p (w1 w2 : cworld (@Tenant.rest St Q)) : quiet_w w1 -> quiet_w w2 -> same_view (p_tenantID p) (db w1) (db w2) ->
  let h := verifyPass (o_pem_decode lib) (o_parse_pkix lib) (o_ecdsa_verify lib) (o_unmarshal_payload lib) r p in
  (served h w1).1 = (served h w2).1 /\ db (served h w1).2 = db w1.
Proof.
  intros Hq1 Hq2 [Hs (_ & Hk & Hc)] h. subst h. unfold served, verifyPass, decode. rewrite !HM_bind_eq.
  destruct (q_body r) as [e|v]; [done|]. destruct (dec_pair _ _ v) as [i|]; [|done]. cbn [mret HM_ret].
  rewrite !HM_bind_eq, !or_db_rows by done. cbn [fst snd]. rewrite !scanned_inr.
  assert (Hp : q_pems (db w1) = q_pems (db w2)) by (unfold q_pems; by rewrite Hk, Hc).
  rewrite Hp. destruct (verify_any _ _ _ _ _ _ _ _ _) as [last|c]; [done|].
  rewrite !HM_bind_eq, !tried_query by done. rewrite !existsb_own, (so_domains _ _ _ Hs).
  destruct (existsb _ _); [|done]. by destruct (HasPrefix _ _).
Qed.

Lemma keys_view r p (w1 w2 : cworld (@Tenant.rest St Q)) : quiet_w w1 -> quiet_w w2 -> same_view (p_tenantID p) (db w1) (db w2) ->
  (served (listTenantKeys (o_show_time lib) r p) w1).1 = (served (listTenantKeys (o_show_time lib) r p) w2).1 /\
  db (served (listTenantKeys (o_show_time lib) r p) w1).2 = db w1.
Proof.
  intros Hq1 Hq2 [_ (Hk & _)]. unfold served, listTenantKeys, listKeysFor. rewrite !HM_bind_eq, !or_db_listed by done.
  unfold q_api_keys. unfold own_keys in Hk. rewrite Hk. done.
Qed.

Lemma reads_view hr r p (w1 w2 : cworld (@Tenant.rest St Q)) : hr ∈ tenant_reads -> quiet_w w1 -> quiet_w w2 ->
  owned (db w1) -> owned (db w2) -> same_view (p_tenantID p) (db w1) (db w2) ->
  (served (hr r p) w1).1 = (served (hr r p) w2).1 /\ db (served (hr r p) w1).2 = db w1.
Proof.
  intros Hh Hq1 Hq2 H1 H2 Hv. unfold tenant_reads in Hh. pose proof (proj1 Hv) as Hs.
  repeat (apply elem_of_cons in Hh as [->|Hh]); [..|by apply not_elem_of_nil in Hh].
  1-4: apply (reads_own (o_show_time lib)); try done; unfold site_reads; repeat first [by left|right].
  - by apply verifyPass_view.
  - by apply keys_view.
Qed.

(** *** The statistics of a queue *)

(** What the queue service answers to the one question [roomStats] asks. *)
Definition stats_path (r : http_request) (p : principal) : string :=
  ("/internal/rooms/" +:+ p_tenant p +:+ "." +:+ PathValue "slug" r)%string.
Definition queue_says (path : string) (w : cworld (@Tenant.rest St Q)) : goerr + (Z * string) :=
  (Queueclient.Call (rc_queue (rs_rec (cw_rest w))) "GET" path (rs_queues (cw_rest w))).1.
Definition stats_answer (x : goerr + (Z * string)) : resp :=
  match x with inl e => Error 503 "queue_unreachable" (error_text e) | inr x => forward x end.

Lemma roomStats_says r p (w : cworld (@Tenant.rest St Q)) :
  (served (roomStats r p) w).1 = stats_answer (queue_says (stats_path r p) w) /\ db (served (roomStats r p) w).2 = db w.
Proof.
  unfold served, roomStats, queue_says, stats_path. rewrite HM_bind_eq. unfold call_queue.
  destruct (Queueclient.Call _ _ _ _) as [[e|x] q]; done.
Qed.

(** *** A request *)

Section Tenant.
Context (t : string).
Abbreviation keeping m := (keeps (@steadily X t) m).
Hypothesis exchange_steady : forall code, keeping (o_code_exchange lib code).
Hypothesis verify_steady : forall raw, keeping (o_verify_token lib raw).

Lemma steady_part {Z A} (get : X -> Z) (set : Z -> X -> X) (m : @HM Z A) : keeps (@steadily Z t) m -> keeping (on_part get set m).
Proof. intros Hm w Hw. unfold on_part. destruct (Hm (within get w) Hw) as [Hq E]. by destruct (m _) as [a v]. Qed.

Lemma steady_calm (m : HMW resp) : keeps Routes.calm m -> keeping m.
Proof.
  intros Hm w Hw. destruct (Hm w Hw) as [Hq (Hpg & _)]. split; [done|]. unfold steadily, db. by rewrite Hpg.
Qed.

(** A route of the platform; the one that says who a request comes from; or one
    that leaves the tenant alone when it runs for another one. *)
Definition kept_apart (x : pattern * endpoint) : Prop :=
  en_guard x.2 = Platform \/ x.2 = MkEndpoint Anyone (fun _ r _ => me r) \/
  forall path r p, p_tenantID p <> t -> keeping (en_handler x.2 path r p).

Lemma table_apart : Forall kept_apart table.
Proof.
  unfold Routes.table, Register, registerRooms, registerAuth, registerJobs, registerInventory, registerEnroll. cbn [map app].
  repeat (apply Forall_cons; split;
    [first [ left; reflexivity | right; left; reflexivity
           | right; right; intros path r p Hp; cbn [mount_rest mount bare snd en_handler];
             first [ apply steady_calm; first [ apply (calm_tenant lib) | apply (calm_account cfg lib) | apply (calm_jobs cfg lib)
                                              | eapply (calm_open cfg lib r path) | apply keeps_still; [apply _|]; by intros w _ ]
                   | apply (steady_open t (cf_key cfg) (cf_oidc cfg) (o_auth_url lib)) | apply (steady_account t (cf_key cfg) (cf_issuer cfg))
                   | apply (steady_keys t (o_gen lib) (o_uuid lib) (o_key_name lib)); exact Hp
                   | by apply steady_oidcCallback
                   | apply steady_part; first [ apply (steady_domains (o_gen lib) t (cf_acme cfg)) | apply (steady_backends (o_gen lib))
                                              | apply (steady_rooms (cf_key cfg) (o_gen lib) (o_rfc3339 lib)) | apply steady_verify ] ] ]|]).
  by apply Forall_nil.
Qed.

Lemma guarded_at g (h : @handler X) r (w : W) : quiet_w w -> g <> Anyone ->
  (exists p, entitled (db w) r p /\ (g = Platform -> p_platform p = true) /\ guarded g h r w = h r p (identify g r w).2) \/
  (exists a, guarded g h r w = (inl a, (identify g r w).2)).
Proof.
  intros Hq. destruct g as [| |minRole|]; [done|..]; intros _; unfold guarded, session, tenant, platform, attempt, require; rewrite HM_bind_eq; cbn [identify].
  - destruct (authenticateSession r w) as [[e|p] w1] eqn:E; [right; by eexists|left; exists p].
    by apply authenticateSession_sound in E as (_ & _ & He).
  - destruct (authenticate r w) as [[e|p] w1] eqn:E; [right; by eexists|]. rewrite HM_bind_eq.
    case_bool_decide; cbn [negb]; [right; by eexists|]. cbn. destruct (allows p minRole); [left; exists p|right; by eexists].
    by apply authenticate_sound in E as (_ & _ & He).
  - destruct (authenticate r w) as [[e|p] w1] eqn:E; [right; by eexists|]. rewrite HM_bind_eq.
    destruct (p_platform p) eqn:Hp; [left; exists p|right; by eexists]. by apply authenticate_sound in E as (_ & _ & He).
Qed.

Lemma identify_steady g r (w : W) : quiet_w w -> NoDup (ak_id <$> api_keys (accounts_ (db w))) ->
  steady t (db w) (db (identify g r w).2) \/ acts_for t (db w) r.
Proof.
  intros Hq Hn. destruct g; cbn [identify]; [by left|left; exact (authenticateSession_steady t r w Hq)|exact (authenticate_steady t r w Hq Hn)..].
Qed.

Lemma acts_for_values d p vs r : acts_for t d (with_values p vs r) -> acts_for t d r.
Proof. intros (pr & He & Ht). exists pr. split; [by eapply entitled_values|done]. Qed.

(** A request of the platform, or one that may act for the tenant. *)
Definition its_own (path : string) (r : http_request) (d : cdb) : Prop :=
  (exists p e vs pr, findHandler table (q_method r) path = Found p e vs /\ en_guard e = Platform /\ entitled d r pr /\ p_platform pr = true) \/
  acts_for t d r.

Lemma request_steady path r (w : W) : t <> EmptyString -> quiet_w w -> NoDup (ak_id <$> api_keys (accounts_ (db w))) ->
  its_own path r (db w) \/ steady t (db w) (db (serve path r w).2).
Proof.
  intros Ht Hq Hn. unfold Routes.serve. destruct (findHandler table (q_method r) path) as [p e vs|target|ms|] eqn:Hfind; [|by right..].
  apply findHandler_sound in Hfind as Hs. destruct Hs as (Hin & _ & _). rewrite served_snd.
  set (r' := with_values p vs r). set (h := en_handler e (pathUnescape path)).
  pose proof (proj1 (Forall_forall _ _) table_apart (p, e) Hin) as Hk. unfold kept_apart in Hk. cbn [snd] in Hk.
  destruct (identify_steady (en_guard e) r' w Hq Hn) as [Hid|Hid]; [|left; right; by eapply acts_for_values].
  destruct (decide (en_guard e = Anyone)) as [Hg|Hg].
  { rewrite Hg. cbn [guarded]. destruct Hk as [Hk|[Hk|Hk]]; [congruence| |right; exact (proj2 (Hk (pathUnescape path) r' no_one (not_eq_sym Ht) w Hq))].
    unfold h. rewrite Hk. cbn [en_handler]. unfold me, attempt. rewrite HM_bind_eq.
    destruct (authenticate_steady t r' w Hq Hn) as [Hst|Ha]; [right|left; right; by eapply acts_for_values].
    by destruct (authenticate r' w) as [[e'|p'] w1]. }
  destruct (guarded_at (en_guard e) h r' w Hq Hg) as [(pr & He & Hp & ->)|(a & ->)]; [|by right].
  destruct (decide (p_tenantID pr = t)) as [Hpt|Hpt]; [left; right; exists pr; split; [by eapply entitled_values|done]|].
  destruct Hk as [Hk|[Hk|Hk]]; [|by rewrite Hk in Hg|].
  - left; left. exists p, e, vs, pr. split_and!; [done|done|by eapply entitled_values|by apply Hp].
  - right. assert (Hq1 : quiet_w (identify (en_guard e) r' w).2).
    { pose proof (authenticate_mild r' w Hq) as Hm. pose proof (authenticateSession_mild r' w Hq) as Hms.
      destruct (en_guard e); cbn [identify] in *; [done|apply Hms|apply Hm..]. }
    destruct (Hk (pathUnescape path) r' pr Hpt _ Hq1) as [_ H2]. by etrans.
Qed.

End Tenant.

(** Claim C5: what a tenant reads out of the database is its own, for the whole
    API.  Whatever the request, what a reading route shows someone acting for a
    tenant (its domains and their certificates, its backends, its queues, its API
    keys, the check of a pass) is the same before and after, unless the request
    came from someone entitled to act for that very tenant or was one of the
    platform's own; and reading changes nothing.  The statistics of a queue do not
    come from the database: they are what the queue service answers, at that time,
    for the one path that is the name in the request after that of the tenant, as
    it is written ([stats_of_another] says where such a name can lead).  The
    database answers, identifiers of keys are unique, and the libraries that talk
    to the provider do not write to the database. *)
Theorem tenant_reads_isolated path r (w : W) hr r' p' :
  (forall code, keeps apart (o_code_exchange lib code)) -> (forall raw, keeps apart (o_verify_token lib raw)) ->
  (forall t code, keeps (steadily t) (o_code_exchange lib code)) -> (forall t raw, keeps (steadily t) (o_verify_token lib raw)) ->
  quiet_w w -> (forall d, fresh (o_gen lib) d) -> owned (db w) -> NoDup (ak_id <$> api_keys (accounts_ (db w))) ->
  hr ∈ tenant_reads -> p_tenantID p' <> EmptyString ->
  let w' := (serve path r w).2 in
  let seen v := served (hr r' p') (within (@pt_rest St Q Y) v) in
  db (seen w).2 = db w /\
  (its_own (p_tenantID p') path r (db w) \/ (seen w').1 = (seen w).1) /\
  forall v, (served (roomStats r' p') (within (@pt_rest St Q Y) v)).1 = stats_answer (queue_says (stats_path r' p') (within (@pt_rest St Q Y) v)) /\
    db (served (roomStats r' p') (within (@pt_rest St Q Y) v)).2 = db v.
Proof.
  intros Hex Hve Hexs Hves Hq Hf Ho Hn Hh Ht w' seen.
  assert (Hqw : quiet_w (within pt_rest w)) by exact Hq.
  split; [by apply (reads_view hr r' p' (within pt_rest w) (within pt_rest w) Hh)|].
  split; [|intros v; apply roomStats_says].
  destruct (request_steady (p_tenantID p') (Hexs _) (Hves _) path r w Ht Hq Hn) as [Hown|Hst]; [by left|].
  destruct (request_isolated cfg lib path r w Hex Hve Hq Hf Ho) as [Hpl|(Hq' & Ho' & Hs)]; [left; by left|].
  assert (Hsame : acts_for (p_tenantID p') (db w) r \/ same_own (p_tenantID p') (db w') (db w)).
  { destruct Hs as [Hs|(pr & He & _ & Hfor)]; [right; by apply same_own_sites|].
    destruct (decide (p_tenantID pr = p_tenantID p')) as [Hp|Hp]; [left; by exists pr|right]. by apply (own_foreign (p_tenantID pr)). }
  destruct Hsame as [Ha|Hsame]; [left; by right|right].
  apply (reads_view hr r' p' (within pt_rest w') (within pt_rest w)); done.
Qed.

End Table.


(** ** A run: the keys of a tenant, before and after another one makes a key *)

Module ViewsDemo.
Import AccessDemo RoutesDemo.

(** The two tenants of an example and their sites. *)
Definition two_shops : cworld DX := with_db (set_tenants (tenants demo) (db demo_world)) demo_world.
Lemma two_shops_owned : owned (db two_shops).
Proof. destruct demo_world_owned. by split. Qed.

Definition other_key : http_request :=
  MkHttp "POST" {[ "Authorization" := "Bearer key two" ]}%string ∅ ∅ ∅ (inr (JObj [("name"%string, JStr "ci")])) "192.0.2.2" 1000.

Abbreviation DR := (@Tenant.rest site unit).
Abbreviation demo_own := (@its_own site unit unit _ toy_queue _ _ _ unit unit demo_config demo_lib).

Lemma tenant_reads_isolated_witness :
  r_code (demo_serve "/v1/api-keys" other_key two_shops).1 = 201 /\
  let w' := (demo_serve "/v1/api-keys" other_key two_shops).2 in
  let seen v := served (@listTenantKeys site unit FormatInt other_key ann_principal) (within (@pt_rest site unit unit) v) in
  db (seen two_shops).2 = db two_shops /\
  (demo_own "t1" "/v1/api-keys" other_key (db two_shops) \/ (seen w').1 = (seen two_shops).1) /\
  forall v : cworld DX,
    (served (@roomStats _ _ toy_queue other_key ann_principal) (within (@pt_rest site unit unit) v)).1 =
      stats_answer (@queue_says _ _ toy_queue (stats_path other_key ann_principal) (within (@pt_rest site unit unit) v)) /\
    db (served (@roomStats _ _ toy_queue other_key ann_principal) (within (@pt_rest site unit unit) v)).2 = db v.
Proof.
  split; [vm_compute; reflexivity|].
  apply (@tenant_reads_isolated site unit unit _ toy_queue _ _ _ unit unit demo_config demo_lib "/v1/api-keys" other_key two_shops
    (@listTenantKeys site unit FormatInt) other_key ann_principal).
  - intros code. by apply keeps_M_ret, apart_preorder.
  - intros raw. by apply keeps_M_ret, apart_preorder.
  - intros t code. by apply keeps_M_ret, steadily_preorder.
  - intros t raw. by apply keeps_M_ret, steadily_preorder.
  - reflexivity.
  - apply toy_gen_fresh.
  - exact two_shops_owned.
  - apply (bool_decide_unpack _). vm_compute. exact I.
  - unfold tenant_reads. do 5 right. left.
  - discriminate.
Defined.

(** The name of a queue may hold escaped slashes: for the tenant [acme] the path
    asked for [x%2F..%2Fother.main] is, once cleaned, the one of the queue [main]
    of the tenant [other].  The multiplexer of the queue service answers with a
    redirection to the cleaned path, and Go's client follows it with its token. *)
Definition traversal : http_request := with_values (parse_pattern "GET /v1/rooms/{slug}/stats") ["x/../other.main"]%string adds_domain.

Example stats_of_another :
  (exists e, findHandler demo_table "GET" "/v1/rooms/x%2F..%2Fother.main/stats" =
     Found (parse_pattern "GET /v1/rooms/{slug}/stats") e ["x/../other.main"]%string) /\
  stats_path traversal ann_principal = "/internal/rooms/acme.x/../other.main"%string /\
  cleanPath (stats_path traversal ann_principal) = "/internal/rooms/other.main"%string.
Proof. split; [eexists; vm_compute; reflexivity|split; vm_compute; reflexivity]. Qed.

End ViewsDemo.
