(* ===== verification/Notice.v ===== *)
(** * Every change made through the API is noticed

    The poll of the reconciler ([Watch]) rests on [config_version]: a write that
    changes what the compilation reads must increment it.  This file proves it of
    the whole control API: after any request to any route ([Routes]) the version is
    higher, or every query of the compilation answers as before; the rotation of
    the signing key, which no trigger follows, is the one exception. *)
From Stdlib Require Import Ascii.
From S2P Require Import Prelude GoStr Json Httpx Mux Dataplane Queueclient Pg Pass Haproxy Site Compile Inventory Reconcile Settle Watch Jobs Access Account Tenant Ownership Reads Bootstrap Nodes Enrol JobsApi Keeps Acme Oidc Routes.

Local Open Scope list_scope.
Local Open Scope Z_scope.

(** ** The relation, call by call *)

Section Noticed.
Context `{Collation}.

Definition noticed {X} (w w' : cworld X) : Prop := tracked (db w) (db w').

#[export] Instance noticed_preorder {X} : PreOrder (@noticed X).
Proof. split; [intros w; unfold noticed; reflexivity|]. intros w1 w2 w3. unfold noticed. apply transitivity. Qed.

Abbreviation tracks m := (frames tracked (fun _ => False) m).

Lemma tracks_bind {A B} (m : M pg A) (f : A -> M pg B) : tracks m -> (forall a, tracks (f a)) -> tracks (m ≫= f).
Proof. apply frames_bind, _. Qed.
Lemma tracks_in_tx {A} (m : M pg A) : tracks m -> tracks (in_tx m).
Proof. apply frames_in_tx, _. Qed.
Lemma tracks_Exec {A} (f : cdb -> goerr + (A * cdb)) : (forall d a d', f d = inr (a, d') -> tracked d d') -> tracks (Exec f).
Proof. apply frames_Exec, _. Qed.
Lemma tracks_Exec_ (f : cdb -> cdb) : (forall d, tracked d (f d)) -> tracks (Exec_ f).
Proof. apply frames_Exec_, _. Qed.
Lemma tracks_all_rows {A} (q : cdb -> list A) : tracks (all_rows q).
Proof. apply frames_all_rows, _. Qed.

Lemma noticed_at_pg {X A} (m : M pg A) : tracks m -> keeps (@noticed X) (at_pg m).
Proof.
  intros Hm w Hw. assert (Ha : allowed tracked (fun _ => False) (sched (cw_pg w))) by (unfold quiet_w, quiet in Hw; rewrite Hw; apply allowed_nil).
  destruct (Hm (cw_pg w) Ha) as [Hr Hl]. unfold at_pg, zoom. destruct (m (cw_pg w)) as [a p]. cbn [snd] in *. split; [|exact Hr].
  exact (allowed_never _ _ _ Hl (fun _ x => x)).
Qed.

(** A write that leaves alone what the compilation reads, and the version. *)
Lemma tracked_apart d d' : same_sites d d' -> signing_keys d' = signing_keys d -> clock d' = clock d -> version d' = version d ->
  tracked d d'.
Proof.
  intros (Ht & Hd & Hb & Hs & Hr & Hc) Hk Hn Hv. split; [lia|]. intros _. split_and!.
  - unfold q_backends. by rewrite Hb, Ht.
  - intros i. unfold q_servers. by rewrite Hs.
  - unfold q_rooms, join_room. by rewrite Hr, Ht, Hd, Hb.
  - unfold q_certs. by rewrite Hc.
  - unfold q_keys. by rewrite Hk, Hn.
Qed.

Lemma tracked_bump d d' : version d < version d' -> tracked d d'.
Proof. intros Hv. split; [lia|]. intros E. lia. Qed.

End Noticed.

(** ** Automation *)

Ltac tracked_step :=
  first [ reflexivity
        | apply tracked_apart; [by split_and!|reflexivity|reflexivity|reflexivity]
        | apply tracked_bump; cbn; lia ].

(** Follows the text of a call of the database. *)
Ltac tracks_step :=
  first
  [ apply frames_Query; apply _ | apply frames_QueryRow; apply _ | apply frames_ret; apply _ | apply frames_fail; apply _
  | apply frames_lift; apply _ | apply tracks_all_rows
  | apply tracks_bind; [tracks_step|intros ?; tracks_step]
  | apply tracks_in_tx; tracks_step
  | apply tracks_Exec_; intros ?; tracked_step
  | apply tracks_Exec; intros; repeat case_match; simplify_eq; tracked_step
  | progress (cbv zeta); tracks_step
  | match goal with |- frames _ _ (match ?x with _ => _ end) => destruct x; tracks_step end
  | idtac ].

Ltac noticed_step := keeps_step; try (apply noticed_at_pg; tracks_step).

Section Calls.
Context `{Collation} {HC : Crypto} {X : Type}.
Abbreviation keeping m := (keeps (@noticed _ X) m).

Lemma noticed_drawn : keeping drawn.
Proof. by intros w Hw. Qed.
Lemma noticed_draw : keeping draw.
Proof. by intros w Hw. Qed.
Lemma noticed_Kick : keeping Kick.
Proof. by intros w Hw. Qed.
Lemma noticed_Trigger : keeping Trigger.
Proof. by intros w Hw. Qed.
Lemma noticed_audit p action diff : keeping (audit p action diff).
Proof. unfold audit. noticed_step. Qed.
End Calls.
#[export] Hint Resolve noticed_drawn noticed_draw noticed_Kick noticed_Trigger noticed_audit : keeps.

Section Sessions.
Context `{Collation} {HC : Crypto} {X : Type}.
Abbreviation keeping m := (keeps (@noticed _ X) m).

Lemma noticed_Create r id : keeping (Create r id).
Proof. unfold Create, RandomToken, insert_session. noticed_step. Qed.
Lemma noticed_Destroy r : keeping (Destroy r).
Proof. unfold Destroy. noticed_step. Qed.
Lemma noticed_DestroyAll id : keeping (DestroyAll id).
Proof. unfold DestroyAll. noticed_step. Qed.
End Sessions.
#[export] Hint Resolve noticed_Create noticed_Destroy noticed_DestroyAll : keeps.

(** ** The handlers *)

Section Handlers.
Context `{Collation} {HC : Crypto} {X : Type}.
Abbreviation keeping m := (keeps (@noticed _ X) m).

Lemma noticed_open key oidc auth_url r :
  keeping (login key r) /\ keeping (logout r) /\ keeping (enrollDone r) /\ keeping (oidcStart oidc auth_url r).
Proof.
  split_and!; [unfold login, second_factor|unfold logout|unfold enrollDone, lookupToken|unfold oidcStart, insert_state]; noticed_step.
Qed.

Lemma noticed_account key issuer r p :
  keeping (changePassword r p) /\ keeping (totpSetup key issuer r p) /\
  keeping (totpEnable key r p) /\ keeping (totpDisable r p).
Proof.
  split_and!; [unfold changePassword, read_hash|unfold totpSetup|unfold totpEnable, read_totp|unfold totpDisable, read_hash]; noticed_step.
Qed.

Lemma noticed_users gen uuid r p :
  keeping (createUser gen r p) /\ keeping (deleteUser uuid r p) /\ keeping (resetUserPassword uuid r p) /\
  keeping (putMember r p) /\ keeping (deleteMember r p).
Proof.
  split_and!; [unfold createUser, initial_password, insert_user, insert_member|unfold deleteUser, on_user, remove_user
    |unfold resetUserPassword, initial_password, on_user, update_user|unfold putMember, put_member|unfold deleteMember, delete_member]; noticed_step.
Qed.

Lemma noticed_keys gen uuid key_name r p :
  keeping (createOwnTenantKey gen key_name r p) /\ keeping (deleteTenantKey uuid r p) /\ keeping (createTenantKey gen key_name r p).
Proof.
  split_and!; [unfold createOwnTenantKey, fresh_key, insert_key|unfold deleteTenantKey, remove_key|unfold createTenantKey, fresh_key, insert_key]; noticed_step.
Qed.

Lemma noticed_inventory rfc3339 show_time r p :
  keeping (createNode rfc3339 show_time r p) /\ keeping (patchNode show_time r p) /\ keeping (deleteNode r p) /\ keeping (putSettings r p).
Proof.
  split_and!; [unfold createNode, SaveNode|unfold patchNode, LoadNodes, SaveNode|unfold deleteNode|unfold putSettings, LoadSettings, SaveSettings]; noticed_step.
Qed.

End Handlers.

Section Enrolment.
Context `{Collation} {HC : Crypto} {X : Type}.
Abbreviation keeping m := (keeps (@noticed _ X) m).
Lemma noticed_enroll content_length tls host public_url key_path key_file gen uuid show_time r p :
  keeping (createEnrollToken content_length tls host public_url key_path key_file gen show_time r p) /\ keeping (deleteEnrollToken uuid r p).
Proof.
  split_and!; [unfold createEnrollToken, insert_token|unfold deleteEnrollToken, delete_token]; noticed_step.
Qed.
End Enrolment.

(** The directory of the runner is not the database. *)
Section Runner.
Context `{Collation} {HC : Crypto}.
Abbreviation keeping m := (keeps (@noticed _ dir) m).

Definition follows {A} (m : M jobs_world A) : Prop := forall w, quiet (jw_pg w) ->
  quiet (jw_pg (m w).2) /\ tracked (tables (jw_pg w)) (tables (jw_pg (m w).2)).

Lemma follows_pg {A} (m : M pg A) : frames tracked (fun _ => False) m -> follows (Jobs.on_pg m).
Proof.
  intros Hm w Hw. pose proof (noticed_at_pg (X := unit) m Hm (MkCw (jw_pg w) [] false 0 tt) Hw) as Hk.
  unfold Jobs.on_pg, at_pg, zoom in *. cbn [cw_pg] in Hk. by destruct (m (jw_pg w)).
Qed.
Lemma follows_dir {A} (m : M dir A) : follows (Jobs.on_dir m).
Proof. intros w Hw. unfold Jobs.on_dir, zoom. by destruct (m _). Qed.

Lemma follows_Submit gen uuid kind req by_ : follows (Submit gen uuid kind req by_).
Proof.
  intros w Hw. unfold Submit. destruct (marshals req); [cbn [negb]|done].
  assert (Hi : follows (Jobs.on_pg (Exec (insert_job gen kind req by_)))) by (apply follows_pg; unfold insert_job; tracks_step).
  destruct (Hi w Hw) as [Hq1 Ht1]. destruct (Jobs.on_pg _ w) as [[e|id] w1]; cbn [snd] in *; [by destruct e|].
  destruct (follows_dir (write id req) w1 Hq1) as [Hq2 Ht2]. destruct (Jobs.on_dir _ w1) as [[e|u] w2]; cbn [snd] in *.
  - assert (Hd : follows (Jobs.on_pg (Exec_ (delete_job id)))) by (apply follows_pg; tracks_step).
    destruct (Hd w2 Hq2) as [Hq3 Ht3]. unfold quietly. cbn [snd]. split; [done|]. by etrans; [|etrans].
  - assert (Hd : follows (Jobs.on_pg (Jobs.Get uuid id))) by (apply follows_pg; unfold Jobs.Get; tracks_step).
    destruct (Hd w2 Hq2) as [Hq3 Ht3]. split; [done|]. by etrans; [|etrans].
Qed.

Lemma noticed_at_manager {A} (m : M jobs_world A) : follows m -> keeping (at_manager m).
Proof.
  intros Hm w Hw. destruct (Hm (MkJw (cw_pg w) (cw_rest w)) Hw) as [Hq Ht]. unfold at_manager, zoom. by destruct (m _).
Qed.
#[local] Hint Resolve noticed_at_manager follows_Submit : keeps.

Lemma noticed_createJob gen uuid show_time stamp runner r p : keeping (createJob gen uuid show_time stamp runner r p).
Proof. unfold createJob, completed. noticed_step. Qed.
End Runner.

(** ** The routes of the tenants *)

Section Sites.
Context {St Q : Type} {HD : DataplaneHTTP St} {HQ : QueueHTTP Q} {HM_ : MapOrder} {HO : Collation} {HC : Crypto}.
Context (key : string) (gen : cdb -> string) (rfc3339 : string -> option Z).
Abbreviation keeping m := (keeps (@noticed _ (@Tenant.rest St Q)) m).

Lemma noticed_call method path : keeping (call_queue method path).
Proof. intros w Hw. unfold call_queue. by destruct (Queueclient.Call _ _ _ _). Qed.
Lemma noticed_issue id fqdn : keeping (start_issue id fqdn).
Proof. by intros w Hw. Qed.

(** A pass of the reconciler writes to the registers alone. *)
Lemma noticed_Once : keeping (rec_Once key).
Proof.
  intros w Hw. assert (Ha : allowed tracked (fun _ => False) (sched (w_pg (rec_world w)))) by (unfold quiet_w, quiet in Hw; cbn; rewrite Hw; apply allowed_nil).
  unfold rec_Once. destruct (Once_stages tracked (fun _ => False) tracked_edges tracked_hosts
    (fun enc => match Open key enc with inr s => Some s | inl _ => None end) sha256 true _ Ha) as [T Hl].
  cbn [snd]. split; [exact (allowed_never _ _ _ Hl (fun _ x => x))|exact T].
Qed.
#[local] Hint Resolve noticed_call noticed_issue noticed_Once : keeps.

Lemma tracks_fitting l : frames tracked (fun _ => False) (fitting l).
Proof. unfold fitting. tracks_step. Qed.
Lemma tracks_servers id i l : frames tracked (fun _ => False) (insert_servers id i l).
Proof.
  revert i. induction l as [|s l IH]; intros i; [apply frames_ret, _|]. cbn [insert_servers].
  apply tracks_bind; [apply tracks_fitting|intros _]. apply tracks_bind; [unfold insert_server; tracks_step|intros _; apply IH].
Qed.

Lemma noticed_domains acme_enabled r p :
  keeping (createDomain gen r p) /\ keeping (deleteDomain r p) /\ keeping (renewCert acme_enabled r p).
Proof. split_and!; [unfold createDomain, insert_domain|unfold deleteDomain, delete_domain|unfold renewCert]; noticed_step. Qed.

Lemma noticed_backends r p : keeping (upsertBackend gen r p) /\ keeping (deleteBackend r p).
Proof.
  split; [unfold upsertBackend, put_backend_tx|unfold deleteBackend, delete_backend]; noticed_step; [|apply tracks_servers].
  unfold put_backend_row. tracks_step.
Qed.

Lemma noticed_rooms r p :
  keeping (upsertRoom gen rfc3339 r p) /\ keeping (deleteRoom r p) /\ keeping (roomState key r p) /\ keeping (roomFlush r p).
Proof.
  split_and!; [unfold upsertRoom, Tenant.named, opening|unfold deleteRoom, delete_room|unfold roomState, change_state, set_state|unfold roomFlush]; noticed_step;
    [apply tracks_fitting|unfold put_room_row; tracks_step].
Qed.

Section Verify.
Context {PK : Type} (pem_decode : string -> option string) (parse_pkix : string -> goerr + option PK).
Context (ecdsa_verify : PK -> string -> Z -> Z -> bool) (unmarshal_payload : string -> goerr + Payload).
Lemma noticed_verify r p : keeping (verifyPass pem_decode parse_pkix ecdsa_verify unmarshal_payload r p).
Proof. unfold verifyPass. noticed_step. Qed.
End Verify.

Lemma noticed_registers r p : keeping (deleteEdge r p) /\ keeping (deleteQueueHost r p) /\ keeping (syncNow key r p).
Proof.
  split_and!; [unfold deleteEdge, delete_edge|unfold deleteQueueHost|unfold syncNow; noticed_step];
    intros w; cbv zeta; match goal with |- _ -> quiet_w (?m w).2 /\ _ => assert (Hk : keeping m) by noticed_step end; apply (Hk w).
Qed.

End Sites.

(** ** The whole API *)

Lemma omap_ext_in {A B} (f g : A -> option B) (l : list A) : (forall x, x ∈ l -> f x = g x) -> omap f l = omap g l.
Proof.
  induction l as [|x l IH]; intros Hfg; [done|]. cbn [omap list_omap]. rewrite (Hfg x) by (by left).
  fold (omap f l) (omap g l). by rewrite IH by (intros y Hy; apply Hfg; by right).
Qed.

(** A new tenant, when its identifier is none a row bears. *)
Lemma tracked_new_tenant `{Collation} t d : t_id t ∉ b_tenant <$> backends d -> t_id t ∉ r_tenant <$> rooms d ->
  tracked d (set_tenants (tenants d ++ [t]) d).
Proof.
  intros Hb Hr. split; [done|]. intros _.
  assert (Hid : forall i, i <> t_id t -> by_id t_id i (tenants d ++ [t]) = by_id t_id i (tenants d)).
  { intros i Hi. rewrite by_id_app, by_id_cons. by destruct (by_id t_id i (tenants d)); [|rewrite decide_False by congruence]. }
  assert (HB : forall b, b ∈ backends d -> by_id t_id (b_tenant b) (tenants d ++ [t]) = by_id t_id (b_tenant b) (tenants d)).
  { intros b Hin. apply Hid. intros E. apply Hb. rewrite <- E. by apply list_elem_of_fmap_2. }
  split_and!; [|done| |done|done].
  - unfold q_backends. cbn [backends tenants set_tenants]. f_equal. apply omap_ext_in. intros b Hin. by rewrite HB.
  - unfold q_rooms. cbn [rooms set_tenants]. f_equal. apply omap_ext_in. intros x Hin. unfold join_room. cbn [backends domains tenants set_tenants].
    rewrite Hid by (intros E; apply Hr; rewrite <- E; by apply list_elem_of_fmap_2).
    destruct (by_id t_id (r_tenant x) (tenants d)) as [t0|]; [|done]. cbn [mbind option_bind]. do 3 f_equal.
    destruct (r_backend x) as [i|]; [|done]. cbn [mbind option_bind]. destruct (by_id b_id i (backends d)) as [b|] eqn:Eb; [|done].
    cbn [mbind option_bind]. apply by_id_elem in Eb as [Hin' _]. by rewrite HB.
Qed.

Section Table.
Context {St Q Y : Type} {HD : DataplaneHTTP St} {HQ : QueueHTTP Q} {HM_ : MapOrder} {HO : Collation} {HC : Crypto} {SK PK : Type}.
Abbreviation X := (parts St Q Y).
Abbreviation W := (cworld X).
Abbreviation HMW := (@HM X).
Context (cfg : config) (lib : outside_code W SK PK).
Abbreviation table := (Routes.table cfg lib).
Abbreviation serve := (Routes.serve cfg lib).
Abbreviation keeping m := (keeps (@noticed _ X) m).

(** The libraries that talk to the provider leave the sites alone; a new
    identifier is no tenant's. *)
Hypothesis exchange_noticed : forall code, keeping (o_code_exchange lib code).
Hypothesis verify_noticed : forall raw, keeping (o_verify_token lib raw).
Hypothesis new_tenant : forall d, o_gen lib d ∉ (b_tenant <$> backends d) ++ (r_tenant <$> rooms d).

Lemma noticed_part {Z A} (get : X -> Z) (set : Z -> X -> X) (m : @HM Z A) : keeps (@noticed _ Z) m -> keeping (on_part get set m).
Proof. intros Hm w Hw. unfold on_part. destruct (Hm (within get w) Hw) as [Hq E]. by destruct (m _) as [a v]. Qed.

Lemma noticed_calm (m : HMW resp) : keeps calm m -> keeping m.
Proof.
  intros Hm w Hw. destruct (Hm w Hw) as [Hq (Hpg & _)]. split; [done|]. unfold noticed, db. by rewrite Hpg.
Qed.

Lemma touched_tracked d d' : touched d d' -> tracked d d'.
Proof. intros [-> |[[i ->]|(h & e & ->)]]; [done|unfold key_used|unfold prolong]; tracked_step. Qed.

Lemma noticed_me r : keeping (me r : HMW resp).
Proof. intros w Hw. destruct (me_mild r w Hw) as (Hq & Ht & _). split; [done|]. by apply touched_tracked. Qed.

Lemma noticed_createTenant r p : keeping (createTenant (o_gen lib) r p).
Proof.
  unfold createTenant, fresh_key, insert_key. noticed_step; (apply tracks_Exec; unfold insert_tenant; intros d a' d' Hi;
    repeat case_match; simplify_eq; pose proof (new_tenant d) as Hn; apply not_elem_of_app in Hn as [Hnb Hnr]; by apply tracked_new_tenant).
Qed.

Lemma noticed_oidcCallback r :
  keeping (oidcCallback (o_gen lib) (cf_oidc cfg) (o_code_exchange lib) (o_verify_token lib) (o_relative lib) r).
Proof.
  unfold oidcCallback, Exchange, account_of, take_state, insert_oidc_user, link_user.
  noticed_step; try apply exchange_noticed; try apply verify_noticed.
Qed.

Definition rotation : string := "POST /v1/keys/rotate".

Lemma table_noticed : Forall (fun x => x.1 = parse_pattern rotation \/ forall path r p, keeping (en_handler x.2 path r p)) table.
Proof.
  unfold Routes.table, Register, registerRooms, registerAuth, registerJobs, registerInventory, registerEnroll. cbn [map app].
  repeat (apply Forall_cons; split;
    [first [ left; reflexivity
           | right; intros path r p; cbn [mount_rest mount bare snd en_handler];
             first [ apply noticed_calm; first [ apply (calm_tenant lib) | apply (calm_account cfg lib) | apply (calm_platform lib) | apply (calm_inventory lib) | apply (calm_jobs cfg lib)
                                               | eapply (calm_open cfg lib r path) | apply keeps_still; [apply _|]; by intros w _ ]
                   | apply noticed_me | apply (noticed_open (cf_key cfg) (cf_oidc cfg) (o_auth_url lib)) | apply (noticed_account (cf_key cfg) (cf_issuer cfg)) | apply (noticed_users (o_gen lib) (o_uuid lib)) | apply (noticed_keys (o_gen lib) (o_uuid lib) (o_key_name lib))
                   | apply (noticed_inventory (o_rfc3339 lib) (o_show_time lib)) | apply (noticed_enroll (o_content_length lib) (o_tls lib) (o_host lib) (cf_public_url cfg) (cf_key_path cfg) (cf_key_file cfg) (o_gen lib) (o_uuid lib) (o_show_time lib))
                   | apply noticed_createTenant | apply noticed_oidcCallback
                   | apply noticed_part; first [ apply (noticed_domains (o_gen lib) (cf_acme cfg)) | apply (noticed_backends (o_gen lib)) | apply (noticed_rooms (cf_key cfg) (o_gen lib) (o_rfc3339 lib)) | apply noticed_verify
                                               | apply (noticed_registers (cf_key cfg)) | apply noticed_createJob ] ] ]|]).
  by apply Forall_nil.
Qed.

(** A request, but for the rotation of the signing key. *)
Lemma request_tracked path r w : quiet_w w ->
  (exists e vs, findHandler table (q_method r) path = Found (parse_pattern rotation) e vs) \/
  quiet_w (serve path r w).2 /\ tracked (db w) (db (serve path r w).2).
Proof.
  intros Hq. unfold Routes.serve. destruct (findHandler table (q_method r) path) as [p e vs|target|ms|] eqn:Hfind; [|right; by split..].
  apply findHandler_sound in Hfind as Hs. destruct Hs as (Hin & _ & _).
  destruct (proj1 (Forall_forall _ _) table_noticed (p, e) Hin) as [E|Hk]; cbn [fst snd] in *; [left; subst p; eauto|right].
  rewrite served_snd. set (r' := with_values p vs r). set (h := en_handler e (pathUnescape path)).
  destruct (decide (en_guard e = Anyone)) as [Hg|Hg]; [rewrite Hg; by apply Hk|].
  destruct (guarded_runs (en_guard e) h r' w Hq Hg) as [(pr & w1 & _ & _ & _ & Hm & Hrun)|(a1 & w1 & Hrun & _ & Hm)]; rewrite Hrun;
    destruct Hm as (Hq1 & Ht%touched_tracked & _); cbn [snd]; [|done].
  destruct (Hk (pathUnescape path) r' pr w1 Hq1) as [Hq2 Ht2]. split; [exact Hq2|by etrans].
Qed.

(** What a request does to the database, the rest of the process being [w]. *)
Definition serving (w : W) (x : string * http_request) (d : cdb) : cdb := db (serve x.1 x.2 (set_cw_pg (MkPg d []) w)).2.

(** The others are requests to the API, or nobody; no answer is cut. *)
Definition requests (sc : list ((cdb -> cdb) * outcome)) : Prop :=
  Forall (fun t => (t.1 = id \/ exists w x, t.1 = serving w x /\
                      forall e vs, findHandler table (q_method x.2) x.1 <> Found (parse_pattern rotation) e vs) /\ unbroken t.2) sc.

Lemma requests_orderly sc : requests sc -> allowed tracked unbroken sc.
Proof.
  intros Hsc. eapply Forall_impl; [exact Hsc|]. intros [f o] [[-> |(w & [path r] & E & Hne)] Ho]; [by split|]. cbn [fst snd] in *. subst f.
  split; [|done]. intros d. unfold serving. cbn [fst snd].
  destruct (request_tracked path r (set_cw_pg (MkPg d []) w) eq_refl) as [(e & vs & Hf)|[_ Ht]]; [by destruct (Hne e vs)|exact Ht].
Qed.

Section Loop.
Context {St' Q' : Type} {HD' : DataplaneHTTP St'} {HQ' : QueueHTTP Q'}.
Context (decrypt : string -> option string).
Abbreviation desired_of := (desired_of decrypt sha256).

(** Claim C7: no change asked of the API is missed by the reconciler.  Requests to
    any route but the rotation of the signing key may be served at any moment,
    during a pass or between two, and calls of the database may be refused or lost,
    none of its answers being cut off midway: when the poll finds the version it
    kept, what was last pushed is the desired state of the database; and the next
    poll ends there.  What a push leaves on each load balancer is said by
    [Watch.Run_misses_nothing]. *)
Theorem requests_noticed first l (s : @watch St' Q') :
  1 <= version (seen s) -> lastVer s = 0 -> requests first -> Forall (fun x => requests x.2) l ->
  let s1 := Watch.Run decrypt sha256 first l s in
  let s2 := Watch.poll decrypt sha256 (meanwhile [] s1) in
  (version (seen s1) = lastVer s1 -> rd_desired <$> wt_last s1 = Some (desired_of (seen s1))) /\
  alike (seen s1) (seen s2) /\ rd_desired <$> wt_last s2 = Some (desired_of (seen s2)).
Proof.
  intros Hv Hl Hf Hall s1 s2.
  destruct (Run_abreast decrypt sha256 first l s Hv Hl (requests_orderly _ Hf)) as (H1 & H2 & H3 & _); [|by split_and!].
  eapply Forall_impl; [exact Hall|]. intros x. apply requests_orderly.
Qed.

End Loop.
End Table.

(** ** An example *)

Module NoticeDemo.
Import AccessDemo RoutesDemo.

Abbreviation demo_run := (@Watch.Run site unit _ no_queue _ _ Some sha256).
Abbreviation demo_poll := (@Watch.poll site unit _ no_queue _ _ Some sha256).
Abbreviation demo_serving := (@serving site unit unit _ toy_queue _ _ _ unit unit demo_config demo_lib demo_world).

(** A tenant's key closes its queue while the first pass compiles. *)
Definition closes : string * http_request :=
  ("/v1/rooms/sale/state"%string,
   MkHttp "POST" (q_headers key_request) ∅ ∅ ∅ (inr (JObj [("state"%string, JStr "closed")])) "192.0.2.1" 1000).
Definition meeting : list ((cdb -> cdb) * outcome) := repeat (id, Served) 16 ++ [(demo_serving closes, Served)].
Definition starting : @watch site unit :=
  MkWatch (set_pg (MkPg (set_nodes lb_nodes (db demo_world)) []) first_world) (Some NewMetrics) None.
Definition after_first : @watch site unit := demo_run meeting [] starting.

Lemma demo_new d : o_gen demo_lib d ∉ (b_tenant <$> backends d) ++ (r_tenant <$> rooms d).
Proof.
  pose proof (toy_gen_new d) as H. intros Hin. apply H. apply elem_of_app. right. apply elem_of_app. by right.
Qed.

Definition found_pattern {A} (x : Mux.outcome A) : option pattern := match x with Found p _ _ => Some p | _ => None end.
Lemma meeting_requests : @requests site unit unit _ toy_queue _ _ _ unit unit demo_config demo_lib meeting.
Proof.
  apply Forall_app. split.
  - apply Forall_forall. intros t ->%list_elem_of_In%repeat_spec. split; [by left|done].
  - apply Forall_singleton. split; [right; exists demo_world, closes; split; [done|]|done].
    intros e vs Hf. assert (Hp : found_pattern (findHandler demo_table "POST" closes.1) = Some (parse_pattern "POST /v1/rooms/{slug}/state"))
      by (vm_compute; reflexivity).
    change (findHandler _ _ _) with (findHandler demo_table "POST" closes.1) in Hf. rewrite Hf in Hp. vm_compute in Hp. discriminate.
Qed.

Lemma requests_noticed_witness :
  (DStates ∘ rd_desired <$> wt_last after_first) = Some [MkEntry "acme.sale" "queue"] /\
  (DStates ∘ rd_desired <$> wt_last (demo_poll (meanwhile [] after_first))) = Some [MkEntry "acme.sale" "closed"] /\
  rd_desired <$> wt_last (demo_poll (meanwhile [] after_first)) =
    Some (desired_of Some sha256 (seen (demo_poll (meanwhile [] after_first)))).
Proof.
  split; [vm_compute; reflexivity|]. split; [vm_compute; reflexivity|].
  refine (proj2 (proj2 (@requests_noticed site unit unit _ toy_queue _ _ _ unit unit demo_config demo_lib _ _ demo_new
            site unit _ no_queue Some meeting [] starting _ eq_refl meeting_requests _))).
  - intros code. by apply keeps_M_ret, noticed_preorder.
  - intros raw. by apply keeps_M_ret, noticed_preorder.
  - vm_compute. discriminate.
  - by apply List.Forall_nil.
Defined.

End NoticeDemo.
