(* ===== verification/Start.v ===== *)
(** * The start of the control plane

    [control/cmd/flyc-control/main.go]: the flags, the environment, the wait for
    the database, the migrations, the first start, the command [mint-pass], the
    seed of the inventory and the settings given to the API.  The goroutines the
    command then starts are the components of the other files.  What is proved:
    the tables are not written to before every migration is recorded; a process
    that serves has gone through every step; the wait for the database ends; and
    the pass that [mint-pass] prints is accepted for the domain it was asked for. *)
From S2P Require Import Prelude GoStr F64 Flags Json Base64 Httpx Pass Pg Inventory Access Bootstrap Migrate Acme Oidc Routes.

Local Open Scope list_scope.
Local Open Scope Z_scope.

(** ** The wait for the database *)

(** An attempt: its error, and the time it takes, of which the context allows
    five seconds. *)
Record attempt : Type := MkAttempt { at_error : option goerr; at_time : Z }.

Definition next_attempt (l : list attempt) : attempt * list attempt :=
  match l with [] => (MkAttempt None 0, []) | a :: l => (a, l) end.
Definition time_of (a : attempt) : Z := Z.min (5 * second) (Z.max 0 (at_time a)).

(** The loop from attempt [i]: the pool or an exit code, the time it is, what is
    left of the attempts; [None] when [fuel] runs out. *)
Fixpoint connect_from (fuel : nat) (i clock : Z) (l : list attempt) : option (Z + unit) * Z * list attempt :=
  match fuel with
  | O => (None, clock, l)
  | S fuel =>
      let '(a, l) := next_attempt l in
      let clock := clock + time_of a in
      match at_error a with
      | None => (Some (inr tt), clock, l)
      | Some _ => if 60 <=? i then (Some (inl 1), clock, l) else connect_from fuel (i + 1) (clock + 3 * second) l
      end
  end.
Definition connectWithRetry (clock : Z) (l : list attempt) : option (Z + unit) * Z * list attempt := connect_from 60 1 clock l.

(** ** [mint-pass] *)

Section Mint.
Context {SK : Type} (pem_decode : string -> option string) (parse_ec : string -> goerr + SK).
Context (sha256 : string -> string) (ecdsa_sign : Z -> SK -> string -> goerr + (Z * Z)).

Definition mint_flags : gmap string value :=
  list_to_map [("dom", VString EmptyString); ("room", VString EmptyString); ("tenant", VString EmptyString);
               ("sub", VString EmptyString); ("ttl", VDuration (20 * minute))]%string.

(** The exit code and what is printed on the standard output. *)
Definition mintPass (sub8 : string) (nonce now : Z) (args : list string) (boot : Result) : Z * string :=
  match Flags.Parse mint_flags args with
  | Parsed vs _ =>
      if bool_decide (get_string vs "dom" = EmptyString) || bool_decide (get_string vs "room" = EmptyString) then (2, EmptyString)
      else match Mint pem_decode parse_ec sha256 ecdsa_sign sub8 nonce now (PrivatePEM boot) (KID boot)
                   (Pass.MkClaims (get_string vs "sub") (get_string vs "tenant") (get_string vs "dom") (get_string vs "room") (get_duration vs "ttl")) with
           | inl _ => (1, EmptyString)
           | inr tok => (0, (tok +:+ newline)%string)
           end
  | HelpWanted | Failed _ => (2, EmptyString)
  end.

End Mint.

(** ** The process *)

Section Main.
Context {HC : Crypto} {HO : Collation} {SK PK A : Type}.
(** As in the files whose parts are put together here. *)
Context (generate : string -> goerr + SK) (marshal_ec marshal_pkix : SK -> goerr + string).
Context (pem_encode : string -> string -> string) (pem_decode : string -> option string).
Context (parse_ec : string -> goerr + SK) (parse_pkix : string -> goerr + option PK) (coords : PK -> Z * Z).
Context (ecdsa_sign : Z -> SK -> string -> goerr + (Z * Z)).
Context (month : Z -> string) (gen : cdb -> string).
Context (migration_files : list (string * string)) (exec : string -> A -> goerr + A).
Context (unmarshal_seed : string -> goerr + Seed).
(** The environment; the files, at the start and when a request is handled;
    [filepath.Join]; the GET of the health check;
    whether the provider of identities answers; the version; the clock and what
    [mint-pass] draws. *)
Context (getenv : string -> string) (read_file : string -> goerr + string) (read_at : string -> http_request -> goerr + string)
  (path_join : string -> string -> string).
Context (get : string -> goerr + Z) (reachable : bool) (version : string) (now nonce : Z) (sub8 : string).

(** The database as the migrations see it and as the tables do, with the disk;
    what was printed. *)
Record machine : Type := MkMachine {
  mc_attempts : list attempt; mc_clock : Z; mc_schema : @mworld A; mc_tables : cworld disk; mc_out : string
}.

Inductive ended : Type :=
| Exit (code : Z)
| Serving (listen : string) (cfg : config).

(** A step of [main], which may end the process. *)
Definition P (T : Type) : Type := machine -> (ended + T) * machine.
#[export] Instance P_ret : MRet P := fun T a m => (inr a, m).
#[export] Instance P_bind : MBind P := fun S T f x m =>
  match x m with (inl e, m') => (inl e, m') | (inr a, m') => f a m' end.
Definition exit {T} (code : Z) : P T := fun m => (inl (Exit code), m).

Definition must (key : string) : P string :=
  match MustEnv getenv key with inl code => exit code | inr v => mret v end.
Definition connect : P unit := fun m =>
  let '(r, clock, l) := connectWithRetry (mc_clock m) (mc_attempts m) in
  let m' := MkMachine l clock (mc_schema m) (mc_tables m) (mc_out m) in
  match r with Some (inr _) => (inr tt, m') | Some (inl code) => (inl (Exit code), m') | None => (inl (Exit 1), m') end.

(** [if err := ...; err != nil { os.Exit(1) }], over the two views of the database. *)
Definition on_schema {T} (f : M (@mworld A) T) : P T := fun m =>
  let '(r, s) := f (mc_schema m) in
  (match r with inl _ => inl (Exit 1) | inr a => inr a end, MkMachine (mc_attempts m) (mc_clock m) s (mc_tables m) (mc_out m)).
Definition on_tables {T} (f : M (cworld disk) T) : P T := fun m =>
  let '(r, t) := f (mc_tables m) in
  (match r with inl _ => inl (Exit 1) | inr a => inr a end, MkMachine (mc_attempts m) (mc_clock m) (mc_schema m) t (mc_out m)).
Definition print (s : string) : P unit := fun m =>
  (inr tt, MkMachine (mc_attempts m) (mc_clock m) (mc_schema m) (mc_tables m) (mc_out m +:+ s)).

Definition at_seed (f : M pg unit) : M (cworld disk) unit := zoom cw_pg (fun p w => MkCw p (cw_rand w) (cw_kick w) (cw_triggers w) (cw_rest w)) f.

(** The settings of the API. *)
Definition publicURL : string := TrimRight1 (chr 47) (Env getenv "FLYC_PUBLIC_URL" ("https://" +:+ getenv "FLYC_CONTROL_HOST")).
Definition settings (mk internalToken : string) : config :=
  MkConfig mk "Flyc" internalToken (getenv "FLYC_PUBLIC_URL") (getenv "FLYC_WAIT_HOST")
    (Env getenv "FLYC_DEPLOY_PUBKEY_FILE" "/etc/flyc/deploy.pub") (read_at (Env getenv "FLYC_DEPLOY_PUBKEY_FILE" "/etc/flyc/deploy.pub"))
    (negb (bool_decide (getenv "FLYC_ACME_EMAIL" = EmptyString)))
    (negb (bool_decide (getenv "FLYC_JOBS_DIR" = EmptyString)))
    (NewOIDC reachable (getenv "FLYC_OIDC_ISSUER") (getenv "FLYC_OIDC_CLIENT_ID") (publicURL +:+ "/auth/oidc/callback")
       (getenv "FLYC_OIDC_ADMIN_EMAILS"))
    version.

Definition read_seed (path : string) : option string := match read_file path with inl _ => None | inr s => Some s end.

(** The preparation after the first start. *)
Definition prepare (listen masterKey : string) : P ended :=
  match Access.Parse masterKey with
  | inl _ => exit 1
  | inr mk =>
      internalToken ← must "FLYC_INTERNAL_TOKEN";
      on_tables (at_seed (Apply unmarshal_seed
        (Lire read_seed (getenv "FLYC_INVENTORY_SEED_FILE") (getenv "FLYC_INVENTORY_SEED")))) ≫= fun _ =>
      mret (Serving listen (settings mk internalToken))
  end.

(** What follows the first start: [mint-pass], or the preparation. *)
Definition after_start (listen masterKey : string) (rest : list string) (boot : Result) : P ended :=
  match rest with
  | [] => prepare listen masterKey
  | command :: args =>
      if negb (String.eqb command "mint-pass") then prepare listen masterKey else
      let '(code, out) := mintPass pem_decode parse_ec sha256 ecdsa_sign sub8 nonce now args boot in
      print out ≫= fun _ => exit code
  end.

(** [main], up to the listener. *)
Definition steps (args : list string) : P ended :=
  match Flags.Parse {["healthcheck"%string := VBool false]} args with
  | HelpWanted => exit 0
  | Failed _ => exit 2
  | Parsed vs rest =>
      let listen := Env getenv "FLYC_LISTEN" ":8090" in
      if get_bool vs "healthcheck" then exit (default 2 (Healthcheck get listen)) else
      must "FLYC_DATABASE_URL" ≫= fun _ =>
      masterKey ← must "FLYC_MASTER_KEY";
      let dataDir := Env getenv "FLYC_DATA_DIR" "/data" in
      connect ≫= fun _ =>
      on_schema (Migrate migration_files exec) ≫= fun _ =>
      boot ← on_tables (Bootstrap.Run generate marshal_ec marshal_pkix pem_encode pem_decode parse_pkix coords month gen dataDir
               (path_join dataDir "initial-admin-password.txt") (path_join dataDir "initial-platform-api-key.txt") now masterKey);
      after_start listen masterKey rest boot
  end.
Definition main (args : list string) (m : machine) : ended * machine :=
  match steps args m with (inl e, m') | (inr e, m') => (e, m') end.

End Main.

(** ** The wait ends *)

Definition succeeds (a : attempt) : bool := match at_error a with None => true | Some _ => false end.

Lemma time_of_bound a : 0 <= time_of a <= 5 * second.
Proof. unfold time_of, second. lia. Qed.

Lemma connect_from_spec n : forall i clock l, (1 <= n)%nat -> i + Z.of_nat n = 61 ->
  exists r clock' l', connect_from n i clock l = (Some r, clock', l') /\
    r = (if existsb succeeds (take n l) || (length l <? n)%nat then inr tt else inl 1) /\
    clock <= clock' <= clock + Z.of_nat n * (5 * second) + (Z.of_nat n - 1) * (3 * second).
Proof.
  induction n as [|n IH]; intros i clock l Hn Hi; [lia|]. cbn [connect_from].
  destruct l as [|a l]; cbn [next_attempt].
  - cbn [at_error]. exists (inr tt), (clock + time_of (MkAttempt None 0)), []. split; [done|]. split; [done|].
    pose proof (time_of_bound (MkAttempt None 0)). unfold second in *. nia.
  - pose proof (time_of_bound a) as Ht. destruct (at_error a) as [e|] eqn:Ha.
    + assert (Hs : succeeds a = false) by (unfold succeeds; by rewrite Ha). cbn [take existsb]. rewrite Hs. cbn [orb length].
      destruct (Z.leb_spec 60 i) as [H60|H60].
      * assert (n = 0%nat) as -> by lia. exists (inl 1), (clock + time_of a), l. split; [done|]. split; [done|]. unfold second in *. lia.
      * destruct (IH (i + 1) (clock + time_of a + 3 * second) l) as (r & clock' & l' & E & -> & Hc); [lia|lia|].
        eexists _, _, _. split; [exact E|]. split; [done|]. unfold second in *. lia.
    + assert (Hs : succeeds a = true) by (unfold succeeds; by rewrite Ha). cbn [take existsb]. rewrite Hs.
      exists (inr tt), (clock + time_of a), l. split; [done|]. split; [done|]. unfold second in *. nia.
Qed.

(** The wait for the database ends, after eight minutes at most: with the pool
    when one of the first sixty attempts succeeds, with the exit code 1
    otherwise. *)
Lemma connect_ends clock l : exists r clock' l', connectWithRetry clock l = (Some r, clock', l') /\
  r = (if existsb succeeds (take 60 l) || (length l <? 60)%nat then inr tt else inl 1) /\ clock <= clock' <= clock + 8 * minute.
Proof.
  destruct (connect_from_spec 60 1 clock l) as (r & clock' & l' & E & Hr & Hc); [lia|lia|]. exists r, clock', l'.
  split; [exact E|]. split; [done|]. unfold minute, second in *. lia.
Qed.

(** ** The pass of [mint-pass] *)

Section Usable.
Context {SK PK : Type} (pem_decode : string -> option string) (parse_ec : string -> goerr + SK) (parse_pkix : string -> goerr + option PK).
Context (sha256 : string -> string) (ecdsa_sign : Z -> SK -> string -> goerr + (Z * Z)) (ecdsa_verify : PK -> string -> Z -> Z -> bool).
Context (unmarshal_payload : string -> goerr + Payload).

Lemma mintPass_args sub8 nonce now d r n u size boot : d <> EmptyString -> r <> EmptyString -> 0 <= n -> (u, size) ∈ unitMap -> n * size < two63 ->
  mintPass pem_decode parse_ec sha256 ecdsa_sign sub8 nonce now ["--dom"; d; "--room"; r; "--ttl"; FormatInt n +:+ u]%string boot =
  match Mint pem_decode parse_ec sha256 ecdsa_sign sub8 nonce now (PrivatePEM boot) (KID boot) (Pass.MkClaims "" "" d r (n * size)) with
  | inl _ => (1, EmptyString)
  | inr tok => (0, (tok +:+ newline)%string)
  end.
Proof.
  intros Hd Hr Hn Hu Hs. unfold mintPass.
  change "--dom"%string with ("--" +:+ "dom")%string. change "--room"%string with ("--" +:+ "room")%string.
  change "--ttl"%string with ("--" +:+ "ttl")%string.
  rewrite (Parse_setting _ "dom" (VString EmptyString) d (VString d)) by done.
  rewrite (Parse_setting _ "room" (VString EmptyString) r (VString r)) by done.
  assert (Hset : Set_ (VDuration (20 * minute)) (FormatInt n +:+ u) = Some (VDuration (n * size))).
  { cbn [Set_]. by rewrite (ParseDuration_units n u size). }
  rewrite (Parse_setting _ "ttl" (VDuration (20 * minute)) (FormatInt n +:+ u)%string (VDuration (n * size))) by done.
  cbn [Flags.Parse].
  assert (Hvs : forall k, <["ttl" := VDuration (n * size)]> (<["room" := VString r]> (<["dom" := VString d]> mint_flags)) !! k =
    if String.eqb k "ttl" then Some (VDuration (n * size)) else if String.eqb k "room" then Some (VString r)
    else if String.eqb k "dom" then Some (VString d) else mint_flags !! k).
  { intros k. rewrite !lookup_insert. repeat case_decide; subst; rewrite ?String.eqb_refl; try done.
    all: repeat match goal with |- context [String.eqb ?x ?y] => destruct (String.eqb_spec x y); [congruence|] end; done. }
  unfold get_string, get_duration. rewrite !Hvs. cbn [String.eqb Ascii.eqb Bool.eqb].
  rewrite (bool_decide_false (d = EmptyString)), (bool_decide_false (r = EmptyString)) by done. done.
Qed.

(** Claim C31: the pass that [mint-pass] prints for a domain, a queue and a time is
    accepted with the public key of the platform, for that domain in any case,
    until that time is over, and for no other domain; nothing is printed when the
    key cannot sign, and the exit code says so. *)
Theorem mintPass_usable sub8 nonce now d r n u size boot code out : let c := Pass.MkClaims "" "" d r (n * size) in
  key_pair pem_decode parse_ec parse_pkix ecdsa_sign ecdsa_verify (PrivatePEM boot) (PublicPEM boot) ->
  unmarshal_payload (marshal (payload_json (minted sub8 now (KID boot) c))) = inr (minted sub8 now (KID boot) c) ->
  d <> EmptyString -> r <> EmptyString -> 0 < n -> (u, size) ∈ unitMap -> n * size < two63 -> in_int64 (now + trunc (duration_seconds (n * size))) = true ->
  mintPass pem_decode parse_ec sha256 ecdsa_sign sub8 nonce now ["--dom"; d; "--room"; r; "--ttl"; FormatInt n +:+ u]%string boot = (code, out) ->
  (code = 1 /\ out = EmptyString /\ exists e, Mint pem_decode parse_ec sha256 ecdsa_sign sub8 nonce now (PrivatePEM boot) (KID boot) c = inl e) \/
  (code = 0 /\ exists tok p, out = (tok +:+ newline)%string /\ p_Dom p = ToLower d /\ p_Rm p = r /\
     forall now' dom, Verify pem_decode parse_pkix sha256 ecdsa_verify unmarshal_payload now' (PublicPEM boot) tok dom =
       if now + trunc (duration_seconds (n * size)) <=? now' then inl (Err "pass expiré")
       else if bool_decide (dom = EmptyString) || bool_decide (ToLower d = ToLower dom) then inr p
       else inl (Err ("pass émis pour " +:+ ToLower d +:+ ", pas pour " +:+ dom)%string)).
Proof.
  intros c Hk Hun Hd Hr Hn Hu Hs H64. rewrite (mintPass_args sub8 nonce now d r n u size boot) by (done || lia). fold c.
  destruct (Mint _ _ _ _ _ _ _ _ _ c) as [e|tok] eqn:Em; intros [= <- <-]; [left; by eauto|right]. split; [done|].
  exists tok, (minted sub8 now (KID boot) c). split_and!; [done..|]. intros now' dom.
  rewrite (Mint_Verify pem_decode parse_ec parse_pkix sha256 ecdsa_sign ecdsa_verify unmarshal_payload sub8 nonce now _ _ (KID boot) c tok) by done.
  assert (Hpos : (n * size =? 0) = false).
  { apply unit_alone in Hu as (_ & _ & _ & _ & _ & Hpos). apply Z.eqb_neq. nia. }
  unfold minted at 1. cbn [p_Exp c_TTL c c_Dom]. rewrite Hpos, wrap64_id by done. done.
Qed.

End Usable.

(** ** The steps of a start *)

Section Steps.
Context {HC : Crypto} {HO : Collation} {SK PK A : Type}.
Context (generate : string -> goerr + SK) (marshal_ec marshal_pkix : SK -> goerr + string).
Context (pem_encode : string -> string -> string) (pem_decode : string -> option string).
Context (parse_ec : string -> goerr + SK) (parse_pkix : string -> goerr + option PK) (coords : PK -> Z * Z).
Context (ecdsa_sign : Z -> SK -> string -> goerr + (Z * Z)).
Context (month : Z -> string) (gen : cdb -> string).
Context (migration_files : list (string * string)) (exec : string -> A -> goerr + A).
Context (unmarshal_seed : string -> goerr + Seed).
Context (getenv : string -> string) (read_file : string -> goerr + string) (read_at : string -> http_request -> goerr + string)
  (path_join : string -> string -> string).
Context (get : string -> goerr + Z) (reachable : bool) (version : string) (now nonce : Z) (sub8 : string).

Abbreviation run_main := (main generate marshal_ec marshal_pkix pem_encode pem_decode parse_ec parse_pkix coords ecdsa_sign month gen
  migration_files exec unmarshal_seed getenv read_file read_at path_join get reachable version now nonce sub8).
Abbreviation dir := (Env getenv "FLYC_DATA_DIR" "/data").
Abbreviation first_start := (Bootstrap.Run generate marshal_ec marshal_pkix pem_encode pem_decode parse_pkix coords month gen dir
  (path_join dir "initial-admin-password.txt"%string) (path_join dir "initial-platform-api-key.txt"%string) now (getenv "FLYC_MASTER_KEY"%string)).
Abbreviation seeding := (at_seed (Apply unmarshal_seed
  (Lire (read_seed read_file) (getenv "FLYC_INVENTORY_SEED_FILE"%string) (getenv "FLYC_INVENTORY_SEED"%string)))).

(** Every migration is recorded. *)
Definition migrated (m : @machine A) : Prop := forall x, x ∈ migration_files -> x.1 ∈ names (mw_db (mc_schema m)).

Lemma must_cases key (m : @machine A) : (must getenv key m = (inl (Exit 2), m) /\ getenv key = EmptyString) \/
  (must getenv key m = (inr (getenv key), m) /\ getenv key <> EmptyString).
Proof. unfold must, MustEnv, exit, mret, P_ret. case_bool_decide; [left|right]; done. Qed.

Lemma connect_cases (m : @machine A) : exists r m1, connect m = (r, m1) /\ mc_schema m1 = mc_schema m /\ mc_tables m1 = mc_tables m /\
  (r = inr tt \/ r = inl (Exit 1)).
Proof.
  unfold connect. destruct (connect_ends (mc_clock m) (mc_attempts m)) as (r & clock' & l' & E & -> & _). rewrite E.
  destruct (_ || _); eexists _, _; (split; [reflexivity|]); auto.
Qed.

Lemma P_bind_eq {S T} (x : @P A S) (f : S -> @P A T) m : (x ≫= f) m = match x m with (inl e, m') => (inl e, m') | (inr a, m') => f a m' end.
Proof. done. Qed.

Lemma prepare_cases listen masterKey (m : @machine A) r m' : migrated m ->
  prepare unmarshal_seed getenv read_file read_at reachable version listen masterKey m = (r, m') ->
  migrated m' /\ forall listen' cfg, (r = inl (Serving listen' cfg) \/ r = inr (Serving listen' cfg)) ->
    listen' = listen /\ seeding (mc_tables m) = (inr tt, mc_tables m') /\ Access.Parse masterKey = inr (cf_key cfg) /\
    cf_internal cfg = getenv "FLYC_INTERNAL_TOKEN" /\ cf_internal cfg <> EmptyString.
Proof.
  intros Hm. unfold prepare. destruct (Access.Parse masterKey) as [er|mk]; [intros [= <- <-]; split; [done|by intros l cfg [?|?]]|].
  rewrite P_bind_eq. destruct (must_cases "FLYC_INTERNAL_TOKEN" m) as [[-> _]|[-> Hi]]; [intros [= <- <-]; split; [done|by intros l cfg [?|?]]|].
  rewrite P_bind_eq. unfold on_tables. destruct (seeding (mc_tables m)) as [[er|[]] t] eqn:Es; [intros [= <- <-]; split; [done|by intros l cfg [?|?]]|].
  intros [= <- <-]. split; [done|]. intros l cfg [?|[= <- <-]]; [done|]. done.
Qed.

Lemma after_start_cases listen masterKey rest boot (m : @machine A) r m' : migrated m ->
  after_start pem_decode parse_ec ecdsa_sign unmarshal_seed getenv read_file read_at reachable version now nonce sub8 listen masterKey rest boot m = (r, m') ->
  migrated m' /\ forall listen' cfg, (r = inl (Serving listen' cfg) \/ r = inr (Serving listen' cfg)) ->
    listen' = listen /\ seeding (mc_tables m) = (inr tt, mc_tables m') /\ Access.Parse masterKey = inr (cf_key cfg) /\
    cf_internal cfg = getenv "FLYC_INTERNAL_TOKEN" /\ cf_internal cfg <> EmptyString.
Proof.
  intros Hm. unfold after_start. destruct rest as [|command args]; [by apply prepare_cases|].
  destruct (negb _); [by apply prepare_cases|]. destruct (mintPass _ _ _ _ _ _ _ _ _) as [code out].
  intros [= <- <-]. split; [exact Hm|by intros l cfg [?|?]].
Qed.

(** Claim C25: the tables are not written to before every migration is recorded,
    whatever fails; and a process that serves has migrated the schema, gone
    through the first start, seeded the inventory, each with success and in this
    order, and serves with the master key and the internal token of its
    environment. *)
Theorem start_ordered args m e m' : NoDup migration_files.*1 -> run_main args m = (e, m') ->
  (mc_tables m' = mc_tables m \/ migrated m') /\
  (forall listen cfg, e = Serving listen cfg ->
     migrated m' /\ listen <> EmptyString /\
     (exists boot t, first_start (mc_tables m) = (inr boot, t) /\ seeding t = (inr tt, mc_tables m')) /\
     Access.Parse (getenv "FLYC_MASTER_KEY") = inr (cf_key cfg) /\
     cf_internal cfg = getenv "FLYC_INTERNAL_TOKEN" /\ cf_internal cfg <> EmptyString).
Proof.
  intros Hnd. unfold main, steps. destruct (Flags.Parse _ args) as [vs rest| |why]; [|by intros [= <- <-]; split; [left|]..].
  cbv zeta. destruct (get_bool vs "healthcheck"); [by intros [= <- <-]; split; [left|]|].
  rewrite P_bind_eq. destruct (must_cases "FLYC_DATABASE_URL" m) as [[-> _]|[-> _]]; [by intros [= <- <-]; split; [left|]|].
  rewrite P_bind_eq. destruct (must_cases "FLYC_MASTER_KEY" m) as [[-> _]|[-> _]]; [by intros [= <- <-]; split; [left|]|].
  rewrite P_bind_eq. destruct (connect_cases m) as (r & m1 & -> & Hs1 & Ht1 & [-> | ->]); [|by intros [= <- <-]; split; [left|]].
  rewrite P_bind_eq. unfold on_schema at 1. destruct (Migrate migration_files exec (mc_schema m1)) as [[er|[]] s2] eqn:Em;
    [by intros [= <- <-]; split; [left|]|].
  assert (Hmig : migrated (MkMachine (mc_attempts m1) (mc_clock m1) s2 (mc_tables m1) (mc_out m1))).
  { intros x Hx. by eapply Migrate_all. }
  rewrite P_bind_eq. unfold on_tables at 1. cbn [mc_tables]. rewrite Ht1.
  destruct (first_start (mc_tables m)) as [[er|boot] t] eqn:Eb; [by intros [= <- <-]; split; [right|]|].
  destruct (after_start _ _ _ _ _ _ _ _ _ _ _ _ _ _ _ _) as [r m3] eqn:Ea. apply after_start_cases in Ea as [Hm3 Hall]; [|exact Hmig].
  intros H. assert (He : r = inl e \/ r = inr e) by (destruct r; injection H as ->; auto).
  assert (m' = m3) as -> by (destruct r; by injection H). split; [by right|]. intros listen cfg ->. split; [done|].
  destruct (Hall listen cfg He) as (-> & Hs & Hp & Hi & Hne). split; [|split; [by exists boot, t|done]].
  unfold Env. by case_bool_decide.
Qed.

End Steps.

(** ** Examples *)

Module StartDemo.
Import AccessDemo.

Definition demo_boot : Result := MkResult "k1" "PEM:key" "PEM:key" JNull.
Definition demo_claims : Pass.Claims := Pass.MkClaims "" "" "Shop.example.com" "acme.shop" (15 * minute).
Definition demo_payload : Payload := minted "12345678" 1700000000 "k1" demo_claims.
Definition demo_unmarshal (s : string) : goerr + Payload :=
  if bool_decide (s = marshal (payload_json demo_payload)) then inr demo_payload else inl (Err "json").
Definition demo_args : list string := ["--dom"; "Shop.example.com"; "--room"; "acme.shop"; "--ttl"; "15m"]%string.
Definition demo_mint : Z * string := mintPass toy_pem toy_ec toy_sha toy_sign "12345678" 5 1700000000 demo_args demo_boot.

Lemma mintPass_usable_witness :
  demo_mint.1 = 0 /\
  exists tok p, demo_mint.2 = (tok +:+ newline)%string /\ p_Rm p = "acme.shop"%string /\
    Verify toy_pem toy_pkix toy_sha toy_verify demo_unmarshal 1700000899 "PEM:key" tok "shop.example.com" = inr p /\
    Verify toy_pem toy_pkix toy_sha toy_verify demo_unmarshal 1700000900 "PEM:key" tok "shop.example.com" = inl (Err "pass expiré").
Proof.
  split; [vm_compute; reflexivity|].
  destruct (mintPass_usable toy_pem toy_ec toy_pkix toy_sha toy_sign toy_verify demo_unmarshal "12345678" 5 1700000000
    "Shop.example.com" "acme.shop" 15 "m" minute demo_boot demo_mint.1 demo_mint.2) as [(Hc & _)|(_ & tok & p & Ho & _ & Hr & Hv)].
  - exact toy_pair.
  - vm_compute. reflexivity.
  - discriminate.
  - discriminate.
  - reflexivity.
  - unfold unitMap. repeat (first [left; reflexivity|right]).
  - reflexivity.
  - reflexivity.
  - vm_compute. reflexivity.
  - vm_compute in Hc. discriminate Hc.
  - exists tok, p. split; [exact Ho|]. split; [exact Hr|]. split; rewrite Hv; vm_compute; reflexivity.
Defined.

Definition demo_env (k : string) : string :=
  default EmptyString ((list_to_map [("FLYC_DATABASE_URL", "postgres://db"); ("FLYC_MASTER_KEY", toy_master); ("FLYC_INTERNAL_TOKEN", "token")]%string
    : gmap string string) !! k).
Abbreviation demo_main := (main (SK := string) (PK := string) inr inr inr (fun _ s => s) Some inr (fun s => inr (Some s)) (fun _ => (1, 2))
  (fun _ _ _ => inr (1, 2)) (fun _ => "2024-01"%string) (fun _ => "0c7a"%string) demo_files demo_exec (fun _ => inl (Err "seed")) demo_env
  (fun _ => inl (Err "no file")) (fun _ _ => inl (Err "no file")) (fun d f => (d +:+ "/" +:+ f)%string) (fun _ => inl (Err "refused")) false "1.0" 1000 5 "12345678").
(** The database answers at the second attempt. *)
Definition demo_machine (calls : list call) : @machine (list string) :=
  MkMachine [MkAttempt (Some (Err "connection refused")) second] 0 (MkMw fresh calls) blank EmptyString.

Lemma start_ordered_witness :
  (exists cfg, (demo_main [] (demo_machine [])).1 = Serving ":8090" cfg) /\
  (demo_main [] (demo_machine broken)).1 = Exit 1 /\
  migrated demo_files (demo_main [] (demo_machine [])).2 /\
  (mc_tables (demo_main [] (demo_machine broken)).2 = blank \/ migrated demo_files (demo_main [] (demo_machine broken)).2).
Proof.
  assert (E : exists cfg, (demo_main [] (demo_machine [])).1 = Serving ":8090" cfg) by (eexists; vm_compute; reflexivity).
  split; [exact E|]. split; [vm_compute; reflexivity|].
  pose proof (start_ordered (SK := string) (PK := string) inr inr inr (fun _ s => s) Some inr (fun s => inr (Some s)) (fun _ => (1, 2))
    (fun _ _ _ => inr (1, 2)) (fun _ => "2024-01"%string) (fun _ => "0c7a"%string) demo_files demo_exec (fun _ => inl (Err "seed")) demo_env
    (fun _ => inl (Err "no file")) (fun _ _ => inl (Err "no file")) (fun d f => (d +:+ "/" +:+ f)%string) (fun _ => inl (Err "refused")) false "1.0" 1000 5 "12345678" []) as H.
  split.
  - destruct E as [cfg E]. exact (proj1 (proj2 (H (demo_machine []) _ _ demo_NoDup (surjective_pairing _)) _ cfg E)).
  - exact (proj1 (H (demo_machine broken) _ _ demo_NoDup (surjective_pairing _))).
Defined.

End StartDemo.
