(* ===== verification/Load.v ===== *)
(** * The load generator

    [loadtest/cmd/flyc-load/main.go]: visitors that follow the way of a browser,
    a ticket, the stream of events until the admission, or a poll when the
    streams are degraded, then the passage to the protected site.  A visitor is a
    computation over its own HTTP client and clock; what it does to the shared
    counters is the list of its updates, so that any interleaving of the visitors
    is an interleaving of these lists.  What is proved: the report balances
    whatever fails and however the visitors are interleaved; a visitor ends with
    its timeout; and it reads, in the events the queue service writes, the
    address of its admission, however the stream is cut. *)
From Stdlib Require Import Ascii.
From S2P Require Import Prelude GoStr F64 Json Base64 Httpx Dataplane Room Hub QueueApi.

Local Open Scope list_scope.
Local Open Scope Z_scope.

(** ** The shared counters *)

Inductive counter : Type :=
| started | ticketOK | ticketErr | sseOpen | sseErr | admitted | goOK | goErr | finalOK | finalErr | degraded.
#[export] Instance counter_eq_dec : EqDecision counter.
Proof. solve_decision. Defined.

Record stats : Type := MkStats {
  counts : counter -> Z;
  ticketLat : list f64; admitLat : list f64; e2eLat : list f64;
  errs : gmap string Z; lastPending : Z
}.

Definition no_stats : stats := MkStats (fun _ => 0) [] [] [] ∅ 0.

(** [short]: the text from the last of the three phrases on, each looked for in
    what the one before has left, and 90 bytes at most. *)
Fixpoint from_index (sub s : string) : option string :=
  if HasPrefix s sub then Some s
  else match s with EmptyString => None | String _ s' => from_index sub s' end.
Definition short (m : string) : string :=
  String.substring 0 90 (foldl (fun m cut => default m (from_index cut m)) m ["dial tcp"; "read tcp"; "write tcp"]%string).

(** One change of the counters, each atomic or under the mutex. *)
Inductive update : Type :=
| Add (c : counter) (n : Z)
| Failure (kind : string) (e : goerr)
| SetPending (n : Z)
| TicketLat (x : f64)
| AdmitLat (x : f64)
| E2eLat (x : f64).

Definition err_key (kind : string) (e : goerr) : string := (kind +:+ ": " +:+ short (error_text e))%string.

Definition apply (st : stats) (u : update) : stats :=
  match u with
  | Add c n => MkStats (fun c' => if decide (c' = c) then wrap64 (counts st c' + n) else counts st c')
                 (ticketLat st) (admitLat st) (e2eLat st) (errs st) (lastPending st)
  | Failure kind e => MkStats (counts st) (ticketLat st) (admitLat st) (e2eLat st)
                        (<[err_key kind e := default 0 (errs st !! err_key kind e) + 1]> (errs st)) (lastPending st)
  | SetPending n => MkStats (counts st) (ticketLat st) (admitLat st) (e2eLat st) (errs st) n
  | TicketLat x => MkStats (counts st) (ticketLat st ++ [x]) (admitLat st) (e2eLat st) (errs st) (lastPending st)
  | AdmitLat x => MkStats (counts st) (ticketLat st) (admitLat st ++ [x]) (e2eLat st) (errs st) (lastPending st)
  | E2eLat x => MkStats (counts st) (ticketLat st) (admitLat st) (e2eLat st ++ [x]) (errs st) (lastPending st)
  end.

(** ** The client *)

(** The body of a response: the reads it comes in, none of them empty, each with
    the time it takes. *)
Record response : Type := MkResponse { rs_code : Z; rs_location : string; rs_reads : list (Z * string) }.

(** [http.Client.Do] of a method, a URL and a body, with the time it takes. *)
Class Browser (C : Type) : Type := {
  send : string -> string -> string -> C -> ((goerr + response) * Z) * C
}.

(** ** Reading a stream: [bufio.Scanner] *)

Definition max_token : Z := 1048576.
Definition drop_cr (s : string) : string :=
  let n := String.length s in
  if HasPrefix (String.substring (n - 1) 1 s) (str1 (chr 13)) then String.substring 0 (n - 1) s else s.

(** The lines of the text, and the one that is not complete. *)
Fixpoint cut_lines (l : list string) : list string * string :=
  match l with
  | [] => ([], EmptyString)
  | [x] => ([], x)
  | x :: l => let '(ls, r) := cut_lines l in (x :: ls, r)
  end.
Definition lines (s : string) : list string * string := cut_lines (Split (chr 10) s).

(** The lines of a stream, each with the time it is waited for; [extra] is the
    time after the last read.  What follows the last line break is a line when it
    is not empty. *)
Fixpoint scan (carry : string) (waited extra : Z) (reads : list (Z * string)) : list (Z * string) :=
  match reads with
  | [] => if bool_decide (carry = EmptyString) then [] else [(waited + extra, carry)]
  | (d, s) :: reads =>
      match lines (carry +:+ s) with
      | ([], r) => scan r (waited + d) extra reads
      | (x :: ls, r) => (waited + d, x) :: map (fun y => (0, y)) ls ++ scan r 0 extra reads
      end
  end.

(** A line that does not fit in the buffer ends the scan; whether none did. *)
Fixpoint fitting (l : list (Z * string)) : list (Z * string) * bool :=
  match l with
  | [] => ([], true)
  | (d, x) :: l =>
      if max_token <=? Z.of_nat (String.length x) then ([], false) else let '(r, b) := fitting l in ((d, drop_cr x) :: r, b)
  end.
Definition Scanner (extra : Z) (reads : list (Z * string)) : list (Z * string) * bool := fitting (scan EmptyString 0 extra reads).

(** The reads that come within [left], and what is left of it when the time runs
    out before the end. *)
Fixpoint in_time (left : Z) (reads : list (Z * string)) : list (Z * string) * option Z :=
  match reads with
  | [] => ([], None)
  | (d, s) :: reads =>
      let d := Z.max 0 d in
      if left <=? d then ([], Some left) else let '(r, o) := in_time (left - d) reads in ((d, s) :: r, o)
  end.

(** ** A visitor *)

Section Visitor.
Context {C : Type} {HB : Browser C}.
(** What [json.Unmarshal] leaves of a body in the three structures. *)
Context (dec_ticket : string -> string * string * string) (dec_go : string -> string) (dec_pending : string -> Z).
Context (dec_status : string -> string * string).

(** The clock of the visitor, in nanoseconds, and what [rand.Intn] gives. *)
Record vworld : Type := MkV { v_now : Z; v_client : C; v_rand : list Z }.

(** A computation with its updates. *)
Definition V (A : Type) : Type := vworld -> (A * list update) * vworld.
#[export] Instance V_ret : MRet V := fun A a w => ((a, []), w).
#[export] Instance V_bind : MBind V := fun A B f m w =>
  let '((a, l), w1) := m w in let '((b, l'), w2) := f a w1 in ((b, l ++ l'), w2).

Definition note (u : update) : V unit := fun w => ((tt, [u]), w).
Definition now : V Z := fun w => ((v_now w, []), w).
Definition Intn (n : Z) : V Z := fun w =>
  match v_rand w with [] => ((0, []), w) | x :: l => ((x mod n, []), MkV (v_now w) (v_client w) l) end.

(** The context of a visitor ends at [limit]. *)
Section Limited.
Context (limit : Z).

Definition deadline_exceeded : goerr := Err "context deadline exceeded".

(** [ctx.Err() != nil]. *)
Definition expired : V bool := fun w => ((limit <=? v_now w, []), w).

(** A request with the context: it fails when the context ends first. *)
Definition Do (method url body : string) : V (goerr + response) := fun w =>
  if limit <=? v_now w then ((inl deadline_exceeded, []), w)
  else let '((r, d), c) := send method url body (v_client w) in
       let t := v_now w + Z.max 0 d in
       if limit <=? t then ((inl deadline_exceeded, []), MkV limit c (v_rand w)) else ((r, []), MkV t c (v_rand w)).

(** [select { case <-ctx.Done(): ...; case <-time.After(d): }]: whether the
    context has ended first. *)
Definition sleep (d : Z) : V bool := fun w =>
  if limit <=? v_now w + d then ((true, []), MkV (Z.max limit (v_now w)) (v_client w) (v_rand w))
  else ((false, []), MkV (v_now w + d) (v_client w) (v_rand w)).

(** Time goes by, up to the end of the context. *)
Definition pass (d : Z) : V unit := fun w => ((tt, []), MkV (Z.min (v_now w + Z.max 0 d) (Z.max limit (v_now w))) (v_client w) (v_rand w)).

Definition to_the_end : V unit := fun w => ((tt, []), MkV (Z.max limit (v_now w)) (v_client w) (v_rand w)).

(** [io.ReadAll], its error dropped: what came before the end of the context. *)
Definition ReadAll (reads : list (Z * string)) : V string :=
  t ← now;
  let '(rs, cut) := in_time (limit - t) reads in
  pass (foldr Z.add (default 0 cut) rs.*1) ≫= fun _ => mret (foldr String.append EmptyString rs.*2).

(** [readSSE]: the address of the admission, and whether to open again. *)
Fixpoint read_lines (cut : bool) (event : string) (ls : list (Z * string)) : V (string * bool) :=
  match ls with
  | [] => (if cut then to_the_end else mret tt) ≫= fun _ =>
          late ← expired;
          if (late : bool) then note (Failure "sse" (Err "délai d'attente dépassé")) ≫= fun _ => mret (EmptyString, false)
          else mret (EmptyString, true)
  | (d, line) :: ls =>
      pass d ≫= fun _ =>
      match cut_prefix "event: " line with
      | Some e => read_lines cut e ls
      | None =>
          match cut_prefix "data: " line with
          | None => read_lines cut event ls
          | Some data =>
              if String.eqb event "admitted" then mret (dec_go data, false)
              else if String.eqb event "status" then note (SetPending (dec_pending data)) ≫= fun _ => read_lines cut event ls
              else if String.eqb event "closed" then note (Failure "sse" (Err "file fermée")) ≫= fun _ => mret (EmptyString, false)
              else read_lines cut event ls
          end
      end
  end.
Definition readSSE (reads : list (Z * string)) : V (string * bool) :=
  t ← now;
  let '(rs, cut) := in_time (limit - t) reads in
  let '(ls, whole) := Scanner (default 0 cut) rs in
  read_lines (bool_decide (is_Some cut) && whole) EmptyString ls.

(** [stuck] is what a loop given too few turns leaves, which [visitor_ends] shows
    is not the case. *)
Context (stuck : V string).

Fixpoint pollAdmission (n : nat) (base ticket : string) : V string :=
  match n with
  | O => stuck
  | S n =>
      x ← Intn 10; late ← sleep ((10 + x) * second);
      if (late : bool) then note (Failure "poll" (Err "délai d'attente dépassé")) ≫= fun _ => mret EmptyString else
      r ← Do "GET" (base +:+ "/status?t=" +:+ ticket)%string EmptyString;
      match r with
      | inl _ => pollAdmission n base ticket
      | inr rs =>
          data ← ReadAll (rs_reads rs);
          let '(st, go) := dec_status data in
          if String.eqb st "admitted" then mret go else pollAdmission n base ticket
      end
  end.

Fixpoint waitAdmission (n : nat) (base ticket : string) : V string :=
  match n with
  | O => stuck
  | S n' =>
      r ← Do "GET" (base +:+ "/events?t=" +:+ ticket)%string EmptyString;
      match r with
      | inl e => note (Add sseErr 1) ≫= fun _ => note (Failure "sse" e) ≫= fun _ => mret EmptyString
      | inr rs =>
          if rs_code rs =? 503 then note (Add degraded 1) ≫= fun _ => pollAdmission n base ticket
          else if negb (rs_code rs =? 200) then
            note (Add sseErr 1) ≫= fun _ => note (Failure "sse" (Err ("HTTP " +:+ FormatInt (rs_code rs)))) ≫= fun _ => mret EmptyString
          else
            note (Add sseOpen 1) ≫= fun _ =>
            x ← readSSE (rs_reads rs);
            note (Add sseOpen (-1)) ≫= fun _ =>
            if negb (String.eqb x.1 EmptyString) then mret x.1
            else if negb x.2 then mret EmptyString
            else k ← Intn 4; late ← sleep ((2 + k) * second);
                 if (late : bool) then mret EmptyString else waitAdmission n' base ticket
      end
  end.

(** The passage: the pass, then the page it opens. *)
Definition finish (start : Z) (waitBase host final goPath : string) : V unit :=
  let refused c kind e := note (Add c 1) ≫= fun _ => note (Failure kind e) in
  r ← Do "GET" (waitBase +:+ goPath)%string EmptyString;
  match r with
  | inl e => refused goErr "go"%string e
  | inr rs =>
      ReadAll (rs_reads rs) ≫= fun _ =>
      if negb (rs_code rs =? 302) || String.eqb (rs_location rs) EmptyString
      then refused goErr "go"%string (Err ("HTTP " +:+ FormatInt (rs_code rs))) else
      r ← Do "GET" (rs_location rs) EmptyString;
      match r with
      | inl e => refused goErr "__flyc/go"%string e
      | inr rs =>
          ReadAll (rs_reads rs) ≫= fun _ =>
          if negb (rs_code rs =? 302) then refused goErr "__flyc/go"%string (Err ("HTTP " +:+ FormatInt (rs_code rs))) else
          note (Add goOK 1) ≫= fun _ =>
          r ← Do "GET" ("https://" +:+ host +:+ final)%string EmptyString;
          match r with
          | inl e => refused finalErr "final"%string e
          | inr rs =>
              ReadAll (rs_reads rs) ≫= fun _ =>
              if negb (rs_code rs =? 200)
              then refused finalErr "final"%string (Err ("HTTP " +:+ FormatInt (rs_code rs) +:+ " (redirigé vers " +:+ rs_location rs +:+ ")"))
              else note (Add finalOK 1) ≫= fun _ => t ← now; note (E2eLat (duration_seconds (t - start)))
          end
      end
  end.

End Limited.

(** [visitor], with [turns] for its loops. *)
Definition visitor (stuck : V string) (turns : nat) (timeout : Z) (waitBase host room final : string) : V unit :=
  note (Add started 1) ≫= fun _ =>
  start ← now;
  let limit := start + timeout in
  let base := (waitBase +:+ "/q/" +:+ PathEscape room)%string in
  let body := marshal (JObj [("h", JStr host); ("r", JStr (encode StdEncoding final))]%string) in
  let refused e := note (Add ticketErr 1) ≫= fun _ => note (Failure "ticket" e) in
  r ← Do limit "POST" (base +:+ "/ticket")%string body;
  match r with
  | inl e => refused e
  | inr rs =>
      data ← ReadAll limit (rs_reads rs);
      if negb (rs_code rs =? 200) then refused (Err ("HTTP " +:+ FormatInt (rs_code rs) +:+ " " +:+ TrimSpace data)) else
      let '(tid, st, go) := dec_ticket data in
      t ← now;
      note (TicketLat (fmul (duration_seconds (t - start)) (of_int 1000))) ≫= fun _ =>
      note (Add ticketOK 1) ≫= fun _ =>
      goPath ← (if String.eqb st "admitted" then mret go else waitAdmission limit stuck turns base tid);
      if negb (String.eqb st "admitted") && String.eqb goPath EmptyString then mret tt else
      t ← now;
      note (AdmitLat (duration_seconds (t - start))) ≫= fun _ =>
      note (Add admitted 1) ≫= fun _ => finish limit start waitBase host final goPath
  end.

End Visitor.

(** ** The report *)

Definition float_le : relation f64 := fun x y => fleb x y = true.
#[export] Instance float_le_dec : RelDecision float_le.
Proof. intros x y. unfold float_le. apply _. Defined.

(** [pct]. *)
Definition pct (v : list f64) (p : f64) : option f64 :=
  match v with
  | [] => Some fzero
  | _ => merge_sort float_le v !! Z.to_nat (trunc (fmul (of_int (Z.of_nat (length v) - 1)) p))
  end.

Definition half : f64 := default fzero (ParseFloat "0.5").
Definition p95 : f64 := default fzero (ParseFloat "0.95").
Definition p99 : f64 := default fzero (ParseFloat "0.99").

Definition percentiles (v : list f64) (l : list (string * f64)) : option json :=
  JObj <$> mapM (fun x => y ← pct v x.2; Some (x.1, JNum (json_float y))) l.

Definition by_key : relation (string * Z) := fun x y => String.le x.1 y.1.
#[export] Instance by_key_dec : RelDecision by_key.
Proof. intros x y. unfold by_key. apply _. Defined.

(** [writeJSON]; [None] when an index is out of range.  A map is printed by key. *)
Definition writeJSON (name : string) (st : stats) (elapsed : Z) : option json :=
  let one := of_int 1 in
  ad ← percentiles (admitLat st) [("max", one); ("p50", half); ("p95", p95)]%string;
  e2e ← percentiles (e2eLat st) [("max", one); ("p50", half); ("p95", p95)]%string;
  tk ← percentiles (ticketLat st) [("max", one); ("p50", half); ("p95", p95); ("p99", p99)]%string;
  let count c := JInt (counts st c) in
  Some (JObj [("admission_s", ad); ("admitted", count admitted); ("degraded", count degraded);
              ("duration_s", JNum (json_float (duration_seconds elapsed))); ("e2e_s", e2e);
              ("errors", JObj (map (fun x => (x.1, JInt x.2)) (merge_sort by_key (map_to_list (errs st)))));
              ("final_err", count finalErr); ("final_ok", count finalOK); ("go_err", count goErr); ("source", JStr name);
              ("ticket_ms", tk); ("tickets_err", count ticketErr); ("tickets_ok", count ticketOK); ("users", count started)]%string).

(** ** What the updates add up to *)

Definition net1 (c : counter) (u : update) : Z := match u with Add c' n => if decide (c = c') then n else 0 | _ => 0 end.
Fixpoint net (c : counter) (l : list update) : Z := match l with [] => 0 | u :: l => net1 c u + net c l end.

Lemma net_app c l l' : net c (l ++ l') = net c l + net c l'.
Proof. induction l as [|u l IH]; [done|]. cbn [app net]. lia. Qed.
Lemma net_concat c ts : net c (concat ts) = foldr (fun l x => net c l + x) 0 ts.
Proof. induction ts as [|l ts IH]; [done|]. cbn [concat foldr]. by rewrite net_app, IH. Qed.
Lemma net_Permutation c l l' : l ≡ₚ l' -> net c l = net c l'.
Proof. induction 1; cbn [net]; lia. Qed.

(** How many latencies of each kind there are. *)
Definition lat1 (k : update) (u : update) : Z :=
  match k, u with TicketLat _, TicketLat _ | AdmitLat _, AdmitLat _ | E2eLat _, E2eLat _ => 1 | _, _ => 0 end.
Fixpoint lats (k : update) (l : list update) : Z := match l with [] => 0 | u :: l => lat1 k u + lats k l end.
Lemma lats_app k l l' : lats k (l ++ l') = lats k l + lats k l'.
Proof. induction l as [|u l IH]; [done|]. cbn [app lats]. lia. Qed.
Lemma lats_Permutation k l l' : l ≡ₚ l' -> lats k l = lats k l'.
Proof. induction 1; cbn [lats]; lia. Qed.
Lemma lats_concat k ts : lats k (concat ts) = foldr (fun l x => lats k l + x) 0 ts.
Proof. induction ts as [|l ts IH]; [done|]. cbn [concat foldr]. by rewrite lats_app, IH. Qed.

Lemma wrap64_add a b : wrap64 (wrap64 a + b) = wrap64 (a + b).
Proof.
  unfold wrap64. f_equal. replace ((a + 2 ^ 63) mod 2 ^ 64 - 2 ^ 63 + b + 2 ^ 63) with ((a + 2 ^ 63) mod 2 ^ 64 + b) by lia.
  rewrite Zplus_mod_idemp_l. f_equal. lia.
Qed.

Lemma counts_foldl l : forall st c, in_int64 (counts st c) = true -> counts (foldl apply st l) c = wrap64 (counts st c + net c l).
Proof.
  induction l as [|u l IH]; intros st c Hc; [cbn; by rewrite Z.add_0_r, wrap64_id|]. cbn [foldl net].
  destruct u as [c' n| | | | |]; try (rewrite IH by done; f_equal; cbn [net1 counts apply]; lia).
  rewrite IH; cbn [counts apply net1]; destruct (decide (c = c')); rewrite ?wrap64_range; try done.
  - rewrite wrap64_add. f_equal. lia.
Qed.

Lemma lats_foldl l : forall st, let st' := foldl apply st l in
  Z.of_nat (length (ticketLat st')) = Z.of_nat (length (ticketLat st)) + lats (TicketLat fzero) l /\
  Z.of_nat (length (admitLat st')) = Z.of_nat (length (admitLat st)) + lats (AdmitLat fzero) l /\
  Z.of_nat (length (e2eLat st')) = Z.of_nat (length (e2eLat st)) + lats (E2eLat fzero) l.
Proof.
  induction l as [|u l IH]; intros st; [cbn; lia|]. cbn [foldl lats]. specialize (IH (apply st u)). cbv zeta in IH.
  destruct u; cbn [ticketLat admitLat e2eLat apply lat1] in *; rewrite ?length_app in IH; cbn [length] in IH; lia.
Qed.

(** ** The updates of a visitor *)

Section Traces.
Context {C : Type} {HB : Browser C}.
Context (dec_ticket : string -> string * string * string) (dec_go : string -> string) (dec_pending : string -> Z).
Context (dec_status : string -> string * string).
Abbreviation VC := (@V C).

Definition leaves {A} (m : VC A) (P : A -> list update -> Prop) : Prop := forall w, P (m w).1.1 (m w).1.2.
Definition silent {A} (m : VC A) : Prop := leaves m (fun _ l => l = []).

Lemma leaves_bind {A B} (m : VC A) (f : A -> VC B) P Q :
  leaves m P -> (forall a l, P a l -> leaves (f a) (fun b l' => Q b (l ++ l'))) -> leaves (m ≫= f) Q.
Proof.
  intros Hm Hf w. specialize (Hm w). unfold mbind, V_bind. destruct (m w) as [[a l] w1]. specialize (Hf a l Hm w1).
  by destruct (f a w1) as [[b l'] w2].
Qed.
Lemma leaves_silent {A B} (m : VC A) (f : A -> VC B) Q : silent m -> (forall a, leaves (f a) Q) -> leaves (m ≫= f) Q.
Proof. intros Hm Hf. eapply leaves_bind; [exact Hm|]. intros a l ->. apply Hf. Qed.
Lemma leaves_note {B} u (f : unit -> VC B) Q : leaves (f tt) (fun b l => Q b (u :: l)) -> leaves (note u ≫= f) Q.
Proof. intros Hf. eapply (leaves_bind _ _ (fun _ l => l = [u])); [done|]. intros [] l ->. exact Hf. Qed.
Lemma leaves_ret {A} (a : A) (Q : A -> list update -> Prop) : Q a [] -> leaves (mret a : VC A) Q.
Proof. by intros HQ w. Qed.
Lemma leaves_last u (Q : unit -> list update -> Prop) : Q tt [u] -> leaves (note u : VC unit) Q.
Proof. by intros HQ w. Qed.
Lemma silent_ret {A} (a : A) : silent (mret a : VC A).
Proof. done. Qed.
Lemma silent_now : silent (now : VC Z).
Proof. done. Qed.
Lemma silent_Intn n : silent (Intn n : VC Z).
Proof. intros w. unfold Intn. by destruct (v_rand w). Qed.
Lemma silent_Do limit m u b : silent (Do limit m u b : VC _).
Proof. intros w. unfold Do. destruct (_ <=? _); [done|]. destruct (send _ _ _ _) as [[r d] c]. by destruct (_ <=? _). Qed.
Lemma silent_sleep limit d : silent (sleep limit d : VC _).
Proof. intros w. unfold sleep. by destruct (_ <=? _). Qed.
Lemma silent_pass limit d : silent (pass limit d : VC _).
Proof. done. Qed.
Lemma silent_end limit : silent (to_the_end limit : VC _).
Proof. done. Qed.
Lemma silent_expired limit : silent (expired limit : VC _).
Proof. done. Qed.
Lemma silent_ReadAll limit l : silent (ReadAll limit l : VC _).
Proof.
  unfold ReadAll. apply leaves_silent; [apply silent_now|]. intros t. destruct (in_time (limit - t) l) as [rs cut].
  apply leaves_silent; [apply silent_pass|done].
Qed.

Ltac quietly_by :=
  repeat first
  [ apply leaves_silent; [first [apply silent_now | apply silent_Intn | apply silent_Do | apply silent_sleep | apply silent_ReadAll | apply silent_ret]|intros ?]
  | apply leaves_note ].

(** What follows the passage. *)
Inductive passage : list update -> Prop :=
| no_pass k e : passage [Add goErr 1; Failure k e]
| no_page k e : passage [Add goOK 1; Add finalErr 1; Failure k e]
| all_done x : passage [Add goOK 1; Add finalOK 1; E2eLat x].

Lemma finish_leaves limit start waitBase host final goPath :
  leaves (finish limit start waitBase host final goPath : VC unit) (fun _ l => passage l).
Proof.
  unfold finish. quietly_by. destruct a as [e|rs]; [quietly_by; apply leaves_last; constructor|]. quietly_by.
  destruct (_ || _); [quietly_by; apply leaves_last; constructor|]. quietly_by.
  destruct a0 as [e|rs2]; [quietly_by; apply leaves_last; constructor|]. quietly_by.
  destruct (negb _); [quietly_by; apply leaves_last; constructor|]. quietly_by.
  destruct a1 as [e|rs3]; [quietly_by; apply leaves_last; constructor|]. quietly_by.
  destruct (negb _); [quietly_by; apply leaves_last; constructor|]. quietly_by. apply leaves_last. constructor.
Qed.

(** Updates that do not bear on the balance. *)
Definition aside (l : list update) : Prop :=
  (forall c, c <> sseErr -> c <> degraded -> net c l = 0) /\ (forall k, lats k l = 0).

Lemma aside_nil : aside [].
Proof. done. Qed.
Lemma aside_app l l' : aside l -> aside l' -> aside (l ++ l').
Proof.
  intros [H1 H2] [H1' H2']. split; [intros c Hc Hc'|intros k]; [rewrite net_app, H1, H1' by done|rewrite lats_app, H2, H2']; lia.
Qed.
Lemma aside_one u : (forall c, c <> sseErr -> c <> degraded -> net1 c u = 0) -> (forall k, lat1 k u = 0) -> aside [u].
Proof. intros H1 H2. split; [intros c Hc Hc'; cbn; rewrite H1 by done; lia|intros k; cbn; rewrite H2; lia]. Qed.
Lemma aside_Failure k e : aside [Failure k e].
Proof. apply aside_one; [done|by intros []]. Qed.
Lemma aside_Pending n : aside [SetPending n].
Proof. apply aside_one; [done|by intros []]. Qed.
Lemma aside_sseErr : aside [Add sseErr 1].
Proof. apply aside_one; [|by intros []]. intros c Hc _. cbn. by rewrite decide_False. Qed.
Lemma aside_degraded : aside [Add degraded 1].
Proof. apply aside_one; [|by intros []]. intros c _ Hc. cbn. by rewrite decide_False. Qed.
Lemma aside_open l : aside l -> aside (Add sseOpen 1 :: l ++ [Add sseOpen (-1)]).
Proof.
  intros [H1 H2]. split; [intros c Hc Hc'|intros k]; cbn [net lats]; [rewrite net_app, H1 by done|rewrite lats_app, H2; by destruct k].
  cbn. destruct (decide (c = sseOpen)); lia.
Qed.

Lemma aside_around l l' : aside l -> aside l' -> aside (Add sseOpen 1 :: l ++ Add sseOpen (-1) :: l').
Proof.
  intros Hl Hl'. replace (Add sseOpen 1 :: l ++ Add sseOpen (-1) :: l') with ((Add sseOpen 1 :: l ++ [Add sseOpen (-1)]) ++ l')
    by (cbn; by rewrite <- app_assoc). apply aside_app; [by apply aside_open|done].
Qed.

Definition leaves_aside {A} (m : VC A) : Prop := leaves m (fun _ l => aside l).
Lemma aside_bind {A B} (m : VC A) (f : A -> VC B) : leaves_aside m -> (forall a, leaves_aside (f a)) -> leaves_aside (m ≫= f).
Proof.
  intros Hm Hf. eapply leaves_bind; [exact Hm|]. intros a l Hl w. apply aside_app; [exact Hl|apply Hf].
Qed.
Lemma aside_silent {A} (m : VC A) : silent m -> leaves_aside m.
Proof. intros Hm w. rewrite Hm. apply aside_nil. Qed.
Lemma aside_note u : aside [u] -> leaves_aside (note u).
Proof. by intros Hu w. Qed.

Lemma aside_ret {A} (a : A) : leaves_aside (mret a).
Proof. by apply aside_silent, silent_ret. Qed.
Lemma aside_note_bind {B} u (f : unit -> VC B) : aside [u] -> leaves_aside (f tt) -> leaves_aside (note u ≫= f).
Proof. intros Hu Hf. apply aside_bind; [by apply aside_note|by intros []]. Qed.

Lemma aside_lines limit cut event ls : leaves_aside (read_lines dec_go dec_pending limit cut event ls).
Proof.
  revert event. induction ls as [|[d line] ls IH]; intros event; cbn [read_lines].
  - apply aside_bind; [by destruct cut|]. intros _. apply aside_bind; [apply aside_silent, silent_expired|]. intros [|]; [|apply aside_ret].
    apply aside_note_bind; [apply aside_Failure|apply aside_ret].
  - apply aside_bind; [apply aside_silent, silent_pass|]. intros _. destruct (cut_prefix "event: " line); [apply IH|].
    destruct (cut_prefix "data: " line); [|apply IH]. destruct (String.eqb event "admitted"); [apply aside_ret|].
    destruct (String.eqb event "status"); [apply aside_note_bind; [apply aside_Pending|apply IH]|].
    destruct (String.eqb event "closed"); [apply aside_note_bind; [apply aside_Failure|apply aside_ret]|apply IH].
Qed.

Lemma aside_readSSE limit reads : leaves_aside (readSSE dec_go dec_pending limit reads).
Proof.
  unfold readSSE. apply aside_bind; [apply aside_silent, silent_now|]. intros t. destruct (in_time _ _) as [rs cut].
  destruct (Scanner _ _) as [ls whole]. apply aside_lines.
Qed.

Section Loops.
Context (limit : Z) (stuck : VC string) (Hstuck : leaves_aside stuck).

Lemma aside_poll n base ticket : leaves_aside (pollAdmission dec_status limit stuck n base ticket).
Proof.
  induction n as [|n IH]; cbn [pollAdmission]; [exact Hstuck|].
  apply aside_bind; [apply aside_silent, silent_Intn|]. intros x. apply aside_bind; [apply aside_silent, silent_sleep|].
  intros [|]; [apply aside_note_bind; [apply aside_Failure|apply aside_ret]|].
  apply aside_bind; [apply aside_silent, silent_Do|]. intros [e|rs]; [apply IH|].
  apply aside_bind; [apply aside_silent, silent_ReadAll|]. intros data. destruct (dec_status data) as [st go].
  destruct (String.eqb st "admitted"); [apply aside_ret|apply IH].
Qed.

Lemma aside_wait n base ticket : leaves_aside (waitAdmission dec_go dec_pending dec_status limit stuck n base ticket).
Proof.
  induction n as [|n IH]; cbn [waitAdmission]; [exact Hstuck|].
  apply aside_bind; [apply aside_silent, silent_Do|]. intros [e|rs].
  { apply aside_note_bind; [apply aside_sseErr|]. apply aside_note_bind; [apply aside_Failure|apply aside_ret]. }
  destruct (rs_code rs =? 503); [apply aside_note_bind; [apply aside_degraded|apply aside_poll]|].
  destruct (negb _).
  { apply aside_note_bind; [apply aside_sseErr|]. apply aside_note_bind; [apply aside_Failure|apply aside_ret]. }
  assert (Hrest : forall x : string * bool, leaves_aside
    (if negb (String.eqb x.1 EmptyString) then mret x.1
     else if negb x.2 then mret EmptyString
     else k ← Intn 4; late ← sleep limit ((2 + k) * second);
          if (late : bool) then mret EmptyString
          else waitAdmission dec_go dec_pending dec_status limit stuck n base ticket)).
  { intros x. destruct (negb (String.eqb _ _)); [apply aside_ret|]. destruct (negb x.2); [apply aside_ret|].
    apply aside_bind; [apply aside_silent, silent_Intn|]. intros k. apply aside_bind; [apply aside_silent, silent_sleep|].
    intros [|]; [apply aside_ret|apply IH]. }
  apply leaves_note. eapply leaves_bind; [apply aside_readSSE|]. intros x l Hl. apply leaves_note.
  intros w. apply aside_around; [exact Hl|exact (Hrest x w)].
Qed.

(** The updates of one visitor. *)
Inductive visit : list update -> Prop :=
| no_ticket e : visit [Add started 1; Add ticketErr 1; Failure "ticket" e]
| not_admitted x l : aside l -> visit (Add started 1 :: TicketLat x :: Add ticketOK 1 :: l)
| through x l y l' : aside l -> passage l' ->
    visit (Add started 1 :: TicketLat x :: Add ticketOK 1 :: l ++ AdmitLat y :: Add admitted 1 :: l').

End Loops.

Lemma visitor_leaves stuck turns timeout waitBase host room final : leaves_aside stuck ->
  leaves (visitor dec_ticket dec_go dec_pending dec_status stuck turns timeout waitBase host room final) (fun _ l => visit l).
Proof.
  intros Hst. unfold visitor. apply leaves_note. apply leaves_silent; [apply silent_now|]. intros start. cbv zeta.
  apply leaves_silent; [apply silent_Do|]. intros [e|rs]; [apply leaves_note, leaves_last; constructor|].
  apply leaves_silent; [apply silent_ReadAll|]. intros data. destruct (negb _); [apply leaves_note, leaves_last; constructor|].
  destruct (dec_ticket data) as [[tid st] go]. apply leaves_silent; [apply silent_now|]. intros t.
  apply leaves_note, leaves_note.
  eapply (leaves_bind _ _ (fun _ l => aside l)).
  { destruct (String.eqb st "admitted"); [apply aside_ret|by apply aside_wait]. }
  intros goPath l Hl. destruct (_ && _); [apply leaves_ret; rewrite app_nil_r; by constructor|].
  apply leaves_silent; [apply silent_now|]. intros t'. apply leaves_note, leaves_note.
  intros w. apply through; [exact Hl|apply finish_leaves].
Qed.

(** The books of [n] visitors. *)
Record books (n : Z) (l : list update) : Prop := {
  all_start : net started l = n;
  all_ask : net ticketOK l + net ticketErr l = n;
  some_pass : net admitted l = net goOK l + net goErr l;
  some_enter : net goOK l = net finalOK l + net finalErr l;
  none_open : net sseOpen l = 0;
  some_wait : net admitted l <= net ticketOK l;
  none_below : 0 <= net ticketErr l /\ 0 <= net goErr l /\ 0 <= net finalOK l /\ 0 <= net finalErr l;
  all_lats : lats (TicketLat fzero) l = net ticketOK l /\ lats (AdmitLat fzero) l = net admitted l /\
             lats (E2eLat fzero) l = net finalOK l
}.

Lemma books_nil : books 0 [].
Proof. by split. Qed.

Lemma books_app n n' l l' : books n l -> books n' l' -> books (n + n') (l ++ l').
Proof. intros [] []. split; rewrite ?net_app, ?lats_app; destruct_and?; split_and?; lia. Qed.

Ltac decides := repeat first [rewrite decide_True by reflexivity | rewrite decide_False by discriminate].

Lemma books_visit l : visit l -> books 1 l.
Proof.
  intros [e|x l1 [H1 H2]|x l1 y l2 [H1 H2] Hf].
  - by split.
  - split; cbn [net lats net1 lat1]; rewrite ?H1, ?H2 by done; decides; split_and?; lia.
  - split; cbn [net lats net1 lat1]; rewrite ?net_app, ?lats_app; cbn [net lats net1 lat1]; rewrite ?H1, ?H2 by done;
      destruct Hf; cbn [net lats net1 lat1]; decides; split_and?; lia.
Qed.

Lemma books_visits ts : Forall visit ts -> books (Z.of_nat (length ts)) (concat ts).
Proof.
  induction 1 as [|l ts Hl _ IH]; [apply books_nil|]. cbn [length concat]. replace (Z.of_nat (S (length ts))) with (1 + Z.of_nat (length ts)) by lia.
  apply books_app; [by apply books_visit|exact IH].
Qed.

Lemma books_Permutation n l l' : l ≡ₚ l' -> books n l -> books n l'.
Proof.
  intros Hp []. assert (E : forall c, net c l' = net c l) by (intros c; symmetry; by apply net_Permutation).
  assert (E' : forall k, lats k l' = lats k l) by (intros k; symmetry; by apply lats_Permutation).
  split; rewrite ?E, ?E'; done.
Qed.

(** A run of the generator: what each visitor does to the counters, for some
    client, and an order of these updates. *)
Definition a_visit (l : list update) : Prop :=
  exists stuck turns timeout waitBase host room final w, leaves_aside stuck /\
    l = (visitor dec_ticket dec_go dec_pending dec_status stuck turns timeout waitBase host room final w).1.2.

(** Claim C15: the report balances: whatever the servers answer and however the
    visitors are interleaved, once they have all ended every visitor has got a
    ticket or an error, every admission a passage or an error, every passage a
    page or an error; no stream is left open; there is one latency for each
    ticket, admission and visit. *)
Theorem report_balances ts l :
  Forall a_visit ts -> Z.of_nat (length ts) < 2 ^ 62 -> l ≡ₚ concat ts ->
  let st := foldl apply no_stats l in
  counts st started = Z.of_nat (length ts) /\
  counts st ticketOK + counts st ticketErr = counts st started /\
  counts st goOK + counts st goErr = counts st admitted /\
  counts st finalOK + counts st finalErr = counts st goOK /\
  counts st sseOpen = 0 /\
  0 <= counts st finalOK /\ counts st finalOK <= counts st admitted /\ counts st admitted <= counts st ticketOK /\
  Z.of_nat (length (ticketLat st)) = counts st ticketOK /\
  Z.of_nat (length (admitLat st)) = counts st admitted /\
  Z.of_nat (length (e2eLat st)) = counts st finalOK.
Proof.
  intros Hts Hn Hp st.
  assert (Hv : Forall visit ts).
  { eapply Forall_impl; [exact Hts|]. intros x (stuck & turns & timeout & wb & host & room & final & w & Hst & ->).
    by apply visitor_leaves. }
  apply books_visits in Hv. symmetry in Hp. apply (books_Permutation _ _ _ Hp) in Hv.
  assert (Hc : forall c, 0 <= net c l <= Z.of_nat (length ts) -> counts st c = net c l).
  { intros c Hc. unfold st. rewrite counts_foldl by done. cbn [counts no_stats]. rewrite Z.add_0_l. apply wrap64_id, in_int64_spec.
    unfold min_int64, max_int64. lia. }
  destruct (lats_foldl l no_stats) as (L1 & L2 & L3). fold st in L1, L2, L3. cbn [ticketLat admitLat e2eLat no_stats length] in *.
  destruct Hv. destruct_and?. rewrite !Hc by lia. split_and!; lia.
Qed.

End Traces.

(** ** A visitor ends *)

Section Time.
Context {C : Type} {HB : Browser C}.
Context (dec_ticket : string -> string * string * string) (dec_go : string -> string) (dec_pending : string -> Z).
Context (dec_status : string -> string * string).
Abbreviation VC := (@V C).

Section Limit.
Context (limit : Z).

(** Time goes forward, and not past the end of the context. *)
Definition timely {A} (m : VC A) : Prop := forall w, v_now w <= v_now (m w).2 <= Z.max limit (v_now w).

Lemma timely_bind {A B} (m : VC A) (f : A -> VC B) : timely m -> (forall a, timely (f a)) -> timely (m ≫= f).
Proof.
  intros Hm Hf w. specialize (Hm w). unfold mbind, V_bind. destruct (m w) as [[a l] w1]. specialize (Hf a w1).
  destruct (f a w1) as [[b l'] w2]. cbn [snd] in *. lia.
Qed.
Lemma timely_same {A} (m : VC A) : (forall w, v_now (m w).2 = v_now w) -> timely m.
Proof. intros Hm w. rewrite Hm. lia. Qed.
Lemma timely_ret {A} (a : A) : timely (mret a).
Proof. by apply timely_same. Qed.
Lemma timely_note u : timely (note u).
Proof. by apply timely_same. Qed.
Lemma timely_now : timely now.
Proof. by apply timely_same. Qed.
Lemma timely_expired : timely (expired limit).
Proof. by apply timely_same. Qed.
Lemma timely_Intn n : timely (Intn n).
Proof. apply timely_same. intros w. unfold Intn. by destruct (v_rand w). Qed.
Lemma timely_pass d : timely (pass limit d).
Proof. intros w. cbn [pass snd v_now]. lia. Qed.
Lemma timely_end : timely (to_the_end limit).
Proof. intros w. cbn [to_the_end snd v_now]. lia. Qed.
Lemma timely_Do m u b : timely (Do limit m u b).
Proof.
  intros w. unfold Do. destruct (Z.leb_spec limit (v_now w)); [cbn; lia|]. destruct (send _ _ _ _) as [[r d] c].
  destruct (Z.leb_spec limit (v_now w + Z.max 0 d)); cbn; lia.
Qed.
Lemma timely_sleep d : 0 <= d -> timely (sleep limit d).
Proof. intros Hd w. unfold sleep. destruct (Z.leb_spec limit (v_now w + d)); cbn; lia. Qed.
Hint Resolve timely_ret timely_note timely_now timely_expired timely_Intn timely_pass timely_end timely_Do : core.

Lemma timely_ReadAll l : timely (ReadAll limit l).
Proof. unfold ReadAll. apply timely_bind; [done|]. intros t. destruct (in_time _ _) as [rs cut]. by apply timely_bind. Qed.
Hint Resolve timely_ReadAll : core.

Lemma timely_lines cut event ls : timely (read_lines dec_go dec_pending limit cut event ls).
Proof.
  revert event. induction ls as [|[d line] ls IH]; intros event; cbn [read_lines].
  - apply timely_bind; [by destruct cut|]. intros _. apply timely_bind; [done|]. intros [|]; [|done]. by apply timely_bind.
  - apply timely_bind; [done|]. intros _. destruct (cut_prefix "event: " line); [apply IH|].
    destruct (cut_prefix "data: " line); [|apply IH]. destruct (String.eqb event "admitted"); [done|].
    destruct (String.eqb event "status"); [by apply timely_bind|].
    destruct (String.eqb event "closed"); [by apply timely_bind|apply IH].
Qed.

Lemma timely_readSSE reads : timely (readSSE dec_go dec_pending limit reads).
Proof.
  unfold readSSE. apply timely_bind; [done|]. intros t. destruct (in_time _ _) as [rs cut].
  destruct (Scanner _ _) as [ls whole]. apply timely_lines.
Qed.
Hint Resolve timely_readSSE : core.

Lemma timely_finish start waitBase host final goPath : timely (finish limit start waitBase host final goPath).
Proof.
  unfold finish.
  repeat first [ done | apply timely_bind; [done|intros ?] | match goal with |- timely (match ?x with _ => _ end) => destruct x end
               | match goal with |- timely (if ?x then _ else _) => destruct x end ].
Qed.

(** Two computations that go the same way from [w]. *)
Lemma bind_same {A B} (m : VC A) (f g : A -> VC B) w :
  f (m w).1.1 (m w).2 = g (m w).1.1 (m w).2 -> (m ≫= f) w = (m ≫= g) w.
Proof. unfold mbind, V_bind. destruct (m w) as [[a l] w1]. cbn. by intros ->. Qed.

(** Turns enough for the time that is left: a turn of a loop that goes on has
    slept two seconds at least. *)
Definition enough (n : nat) (w : vworld (C := C)) : Prop := n <> O /\ limit - v_now w < Z.of_nat n * (2 * second).

Lemma sleep_goes_on d (w : vworld (C := C)) : (sleep limit d w).1.1 = false -> v_now (sleep limit d w).2 = v_now w + d /\ v_now w + d < limit.
Proof. unfold sleep. destruct (Z.leb_spec limit (v_now w + d)); [done|]. by intros _. Qed.

Lemma enough_later n w w' d : enough (S n) w -> 2 * second <= d -> v_now w + d <= v_now w' -> v_now w + d < limit -> enough n w'.
Proof. intros [_ Hn] Hd Hw Hl. split; [intros ->; unfold second in *; lia|]. unfold second in *. lia. Qed.

Lemma Intn_bound n w : 0 < n -> 0 <= (Intn n w : (Z * list update) * vworld (C := C)).1.1 < n.
Proof. intros Hn. unfold Intn. destruct (v_rand w); [cbn; lia|]. apply Z.mod_pos_bound. lia. Qed.
Lemma Intn_now n w : v_now (Intn n w : (Z * list update) * vworld (C := C)).2 = v_now w.
Proof. unfold Intn. by destruct (v_rand w). Qed.

Lemma poll_same stuck stuck' base ticket n : forall m w, enough n w -> enough m w ->
  pollAdmission dec_status limit stuck n base ticket w = pollAdmission dec_status limit stuck' m base ticket w.
Proof.
  induction n as [|n IH]; intros m w Hn Hm; [by destruct Hn|]. destruct m as [|m]; [by destruct Hm|]. cbn [pollAdmission].
  apply bind_same. pose proof (Intn_bound 10 w ltac:(lia)) as Hb. pose proof (Intn_now 10 w) as Hnow.
  destruct (Intn 10 w) as [[x l] w1]. cbn [fst snd] in *.
  apply bind_same. destruct ((sleep limit ((10 + x) * second) w1).1.1) eqn:Hs; [done|].
  apply sleep_goes_on in Hs as [Hs Hlt]. set (w2 := (sleep _ _ w1).2) in *. rewrite Hnow in *.
  assert (Hgo : forall w', v_now w2 <= v_now w' -> enough n w' /\ enough m w').
  { intros w' Hw. split; eapply enough_later; try done; unfold second in *; lia. }
  apply bind_same. pose proof (timely_Do "GET" (base +:+ "/status?t=" +:+ ticket) EmptyString w2) as [Ht _].
  destruct (Do _ _ _ _ w2) as [[[e|rs] l3] w3]; cbn [fst snd] in *; [by apply IH; apply Hgo|].
  apply bind_same. pose proof (timely_ReadAll (rs_reads rs) w3) as [Ht' _].
  destruct (ReadAll _ _ w3) as [[data l4] w4]; cbn [fst snd] in *. destruct (dec_status data) as [st go].
  destruct (String.eqb st "admitted"); [done|]. apply IH; apply Hgo; lia.
Qed.

Lemma wait_same stuck stuck' base ticket n : forall m w, enough n w -> enough m w ->
  waitAdmission dec_go dec_pending dec_status limit stuck n base ticket w =
  waitAdmission dec_go dec_pending dec_status limit stuck' m base ticket w.
Proof.
  induction n as [|n IH]; intros m w Hn Hm; [by destruct Hn|]. destruct m as [|m]; [by destruct Hm|]. cbn [waitAdmission].
  apply bind_same. pose proof (timely_Do "GET" (base +:+ "/events?t=" +:+ ticket) EmptyString w) as [Ht _].
  destruct (Do _ _ _ _ w) as [[[e|rs] l1] w1]; cbn [fst snd] in *; [done|].
  assert (Hle : forall k w', enough k w -> v_now w <= v_now w' -> enough k w') by (intros k w' [? ?] ?; split; [done|lia]).
  destruct (rs_code rs =? 503); [apply bind_same; apply poll_same; by apply Hle|]. destruct (negb (rs_code rs =? 200)); [done|].
  apply bind_same, bind_same. cbn [note fst snd]. pose proof (timely_readSSE (rs_reads rs) w1) as [Ht' _].
  destruct (readSSE _ _ _ _ w1) as [[x l2] w2]; cbn [fst snd] in *. apply bind_same. cbn [note fst snd].
  destruct (negb (String.eqb x.1 EmptyString)); [done|]. destruct (negb x.2); [done|].
  apply bind_same. pose proof (Intn_bound 4 w2 ltac:(lia)) as Hb. pose proof (Intn_now 4 w2) as Hnow.
  destruct (Intn 4 w2) as [[k l3] w3]. cbn [fst snd] in *.
  apply bind_same. destruct ((sleep limit ((2 + k) * second) w3).1.1) eqn:Hs; [done|].
  apply sleep_goes_on in Hs as [Hs Hlt].
  assert (Hgo : forall j, enough (S j) w -> enough j (sleep limit ((2 + k) * second) w3).2).
  { intros j Hj. apply (enough_later j w2 _ ((2 + k) * second)); [apply Hle; [done|lia]|unfold second; lia|lia|lia]. }
  by apply IH; apply Hgo.
Qed.

Lemma timely_Intn_bind {B} k (f : Z -> VC B) : 0 < k -> (forall x, 0 <= x -> timely (f x)) -> timely (Intn k ≫= f).
Proof.
  intros Hk Hf w. unfold mbind, V_bind. pose proof (Intn_bound k w Hk) as Hb. pose proof (Intn_now k w) as Hnow.
  destruct (Intn k w) as [[x l] w1]. cbn [fst snd] in *. specialize (Hf x ltac:(lia) w1).
  destruct (f x w1) as [[b l'] w2]. cbn [snd] in *. lia.
Qed.

Lemma timely_poll stuck n base ticket : timely stuck -> timely (pollAdmission dec_status limit stuck n base ticket).
Proof.
  intros Hst. induction n as [|n IH]; [done|]. cbn [pollAdmission]. apply timely_Intn_bind; [lia|]. intros x Hx.
  apply timely_bind; [apply timely_sleep; unfold second; lia|]. intros [|]; [by apply timely_bind|].
  apply timely_bind; [done|]. intros [e|rs]; [done|]. apply timely_bind; [done|]. intros data.
  destruct (dec_status data). by destruct (String.eqb _ _).
Qed.

Lemma timely_wait stuck n base ticket : timely stuck ->
  timely (waitAdmission dec_go dec_pending dec_status limit stuck n base ticket).
Proof.
  intros Hst. induction n as [|n IH]; [done|]. cbn [waitAdmission]. apply timely_bind; [done|].
  intros [e|rs]; [by repeat (apply timely_bind; [done|intros ?])|].
  destruct (rs_code rs =? 503); [apply timely_bind; [done|intros _; by apply timely_poll]|].
  destruct (negb _); [by repeat (apply timely_bind; [done|intros ?])|].
  apply timely_bind; [done|]. intros _. apply timely_bind; [done|]. intros x. apply timely_bind; [done|]. intros _.
  destruct (negb (String.eqb _ _)); [done|]. destruct (negb x.2); [done|]. apply timely_Intn_bind; [lia|]. intros k Hk.
  apply timely_bind; [apply timely_sleep; unfold second; lia|]. by intros [|].
Qed.

End Limit.

(** What follows the ticket in [visitor]. *)
Lemma visitor_later stuck stuck' n m timeout waitBase host room final w :
  0 <= timeout -> timeout < Z.of_nat n * (2 * second) -> timeout < Z.of_nat m * (2 * second) ->
  visitor dec_ticket dec_go dec_pending dec_status stuck n timeout waitBase host room final w =
  visitor dec_ticket dec_go dec_pending dec_status stuck' m timeout waitBase host room final w.
Proof.
  intros Ht Hn Hm. unfold visitor. apply bind_same, bind_same. cbn [note now fst snd]. cbv zeta.
  set (limit := v_now w + timeout).
  assert (Hen : forall k w', timeout < Z.of_nat k * (2 * second) -> v_now w <= v_now w' -> enough limit k w').
  { intros k w' Hk Hw. split; [intros ->; lia|]. unfold limit. lia. }
  apply bind_same. match goal with |- context [Do limit ?a ?b ?c w] => pose proof (timely_Do limit a b c w) as [H1 _]; destruct (Do limit a b c w) as [[[e|rs] l1] w1] end;
    cbn [fst snd] in *; [done|].
  apply bind_same. pose proof (timely_ReadAll limit (rs_reads rs) w1) as [H2 _].
  destruct (ReadAll limit _ w1) as [[data l2] w2]; cbn [fst snd] in *. destruct (negb (rs_code rs =? 200)); [done|].
  destruct (dec_ticket data) as [[tid st] go]. apply bind_same, bind_same, bind_same. cbn [note now fst snd].
  unfold mbind, V_bind. destruct (String.eqb st "admitted"); [done|].
  rewrite (wait_same limit stuck stuck' _ _ n m w2); [done|apply Hen; [done|lia]..].
Qed.

(** Claim C26: a visitor ends, and no later than its timeout, whatever the servers
    do: with a turn for each two seconds of it, what it does depends neither on
    the number of turns nor on what running out of them would leave. *)
Theorem visitor_ends stuck stuck' n m timeout waitBase host room final w :
  0 <= timeout -> timeout < Z.of_nat n * (2 * second) -> timeout < Z.of_nat m * (2 * second) ->
  visitor dec_ticket dec_go dec_pending dec_status stuck n timeout waitBase host room final w =
  visitor dec_ticket dec_go dec_pending dec_status stuck' m timeout waitBase host room final w /\
  v_now (visitor dec_ticket dec_go dec_pending dec_status stuck n timeout waitBase host room final w).2 <= v_now w + timeout.
Proof.
  intros Ht Hn Hm. split; [by apply visitor_later|].
  rewrite (visitor_later stuck (mret EmptyString) n n) by done. unfold visitor.
  assert (Hb : forall {A B} (m : VC A) (f : A -> VC B) w, (forall w, v_now (m w).2 = v_now w) ->
    v_now (f (m w).1.1 (m w).2).2 <= v_now w + timeout -> v_now ((m ≫= f) w).2 <= v_now w + timeout).
  { intros A B m0 f w0 Hsame Hf. unfold mbind, V_bind. destruct (m0 w0) as [[a l] w1]. cbn [fst snd] in Hf.
    by destruct (f a w1) as [[b l'] w2]. }
  apply Hb; [done|]. apply Hb; [done|]. cbn [note now fst snd]. cbv zeta. set (limit := v_now w + timeout).
  match goal with |- v_now (?k w).2 <= _ => assert (Hk : timely limit k) end.
  { apply timely_bind; [apply timely_Do|]. intros [e|rs]; [by apply timely_bind; [apply timely_note|intros _; apply timely_note]|].
    apply timely_bind; [apply timely_ReadAll|]. intros data. destruct (negb _); [by apply timely_bind; [apply timely_note|intros _; apply timely_note]|].
    destruct (dec_ticket data) as [[tid st] go]. do 3 (apply timely_bind; [by apply timely_same|intros ?]).
    apply timely_bind; [destruct (String.eqb st "admitted"); [by apply timely_same|by apply timely_wait, timely_same]|]. intros goPath.
    destruct (_ && _); [by apply timely_same|]. do 3 (apply timely_bind; [by apply timely_same|intros ?]). apply timely_finish. }
  specialize (Hk w). unfold limit in *. lia.
Qed.

End Time.

(** ** The text of the events *)

(** *** A marshalled value is one line *)

Lemma utf8_printable a b c d :
  (is_ascii a = false -> utf8_2 a b = true -> string_forall printable (String a (str1 b)) = true) /\
  (is_ascii a = false -> utf8_3 a b c = true -> string_forall printable (String a (String b (str1 c))) = true) /\
  (is_ascii a = false -> utf8_4 a b c d = true -> string_forall printable (String a (String b (String c (str1 d)))) = true).
Proof.
  assert (Hr : forall lo hi x, in_range lo hi x = true -> (32 <=? lo)%nat = true -> printable x = true)
    by (intros lo hi x Hx Hlo; apply (in_range_hi_printable lo hi x); [by apply Nat.leb_le|done]).
  assert (Hc : forall x, cont x = true -> printable x = true) by (intros; by apply cont_printable).
  split_and!; intros Ha%not_ascii_printable H; cbn; rewrite Ha; cbn.
  - apply andb_true_iff in H as [_ H]. by rewrite Hc.
  - unfold utf8_3 in H. apply andb_true_iff in H as [H H3]. rewrite (Hc c H3), andb_true_r.
    rewrite !orb_true_iff, !andb_true_iff in H.
    destruct H as [[[[_ H]|[_ H]]|[_ H]]|[_ H]]; rewrite ?(Hc b H); try done; by rewrite (Hr _ _ _ H).
  - unfold utf8_4 in H. apply andb_true_iff in H as [H H4]. apply andb_true_iff in H as [H H3].
    rewrite (Hc c H3), (Hc d H4), !andb_true_r. rewrite !orb_true_iff, !andb_true_iff in H.
    destruct H as [[[_ H]|[_ H]]|[_ H]]; rewrite ?(Hc b H); try done; by rewrite (Hr _ _ _ H).
Qed.

Lemma sep_printable c : in_range 168 169 c = true -> printable (hex_char (nat_of_ascii c mod 16)) = true.
Proof.
  assert (H : forall c, negb (in_range 168 169 c) || printable (hex_char (nat_of_ascii c mod 16)) = true)
    by (apply all_ascii; vm_compute; reflexivity).
  intros Hc. specialize (H c). by rewrite Hc in H.
Qed.

Lemma json_escape_printable s : string_forall printable (json_escape s) = true.
Proof.
  remember (String.length s) as n eqn:Hn. revert s Hn. induction n as [n IH] using lt_wf_ind. intros s ->.
  destruct s as [|a r]; [done|]. cbn [json_escape].
  assert (IHr : forall t, (String.length t <= String.length r)%nat -> string_forall printable (json_escape t) = true)
    by (intros t Ht; eapply IH; [|done]; cbn; lia).
  destruct (is_ascii a) eqn:Ha; [rewrite string_forall_app, esc_ascii_printable; by apply IHr|].
  assert (Hrep : forall t, string_forall printable t = true -> string_forall printable (replacement +:+ t) = true) by (by intros t Ht).
  destruct r as [|b r1]; [done|]. destruct (utf8_2 a b) eqn:E2.
  { apply (proj1 (utf8_printable a b a a)) in E2; [|done]. cbn [string_forall str1] in E2 |- *.
    rewrite !andb_true_iff in E2. destruct E2 as (-> & -> & _). apply IHr. cbn. lia. }
  destruct r1 as [|c r2]; [apply Hrep, IHr; done|]. destruct (utf8_3 a b c) eqn:E3.
  { destruct (line_sep a b c) eqn:El.
    - unfold line_sep in El. apply andb_true_iff in El as [_ Hc]. rewrite !string_forall_app. cbn [string_forall str1].
      rewrite (sep_printable c Hc). cbn. apply IHr. cbn. lia.
    - apply (proj1 (proj2 (utf8_printable a b c a))) in E3; [|done]. cbn [string_forall str1] in E3 |- *.
      rewrite !andb_true_iff in E3. destruct E3 as (-> & -> & -> & _). apply IHr. cbn. lia. }
  destruct r2 as [|d r3]; [apply Hrep, IHr; done|]. destruct (utf8_4 a b c d) eqn:E4; [|apply Hrep, IHr; done].
  apply (proj2 (proj2 (utf8_printable a b c d))) in E4; [|done]. cbn [string_forall str1] in E4 |- *.
  rewrite !andb_true_iff in E4. destruct E4 as (-> & -> & -> & -> & _). apply IHr. cbn. lia.
Qed.

(** The numbers of a value are written with printable bytes. *)
Fixpoint plain_json (v : json) : bool :=
  match v with
  | JNum t => string_forall printable t
  | JArr l => forallb plain_json l
  | JObj l => forallb (fun p => plain_json p.2) l
  | _ => true
  end.

Lemma printable_Join l : Forall (fun s => string_forall printable s = true) l -> string_forall printable (Join l ",") = true.
Proof.
  induction 1 as [|x l Hx Hl IH]; [done|]. destruct l as [|y l]; [done|]. cbn [Join]. rewrite !string_forall_app, Hx. exact IH.
Qed.

Lemma json_string_printable s : string_forall printable (json_string s) = true.
Proof. unfold json_string. rewrite !string_forall_app, json_escape_printable. done. Qed.

Lemma marshal_printable : forall v, plain_json v = true -> string_forall printable (marshal v) = true.
Proof.
  fix IH 1. intros [| | | |l|l] Hv; cbn [marshal plain_json] in *; [done|by destruct b|done|apply json_string_printable|..];
    rewrite !string_forall_app; (replace (string_forall printable (Join _ ",")) with true; [done|symmetry; apply printable_Join]).
  - induction l as [|v l IHl]; [constructor|]. cbn in *. apply andb_true_iff in Hv as [H1 H2]. constructor; [by apply IH|by apply IHl].
  - induction l as [|[k v] l IHl]; [constructor|]. cbn in *. apply andb_true_iff in Hv as [H1 H2]. constructor; [|by apply IHl].
    rewrite !string_forall_app, json_string_printable. by apply IH.
Qed.

(** *** Lines *)

Definition break : ascii := chr 10.

Lemma Split_some c s : exists x l, Split c s = x :: l.
Proof. destruct s as [|a s]; [by eexists _, _|]. cbn [Split]. destruct (Ascii.eqb a c); [by eexists _, _|]. destruct (Split c s); by eexists _, _. Qed.

Lemma cut_cons x y l : cut_lines (x :: y :: l) = (x :: (cut_lines (y :: l)).1, (cut_lines (y :: l)).2).
Proof. change (cut_lines (x :: y :: l)) with (let '(ls, r) := cut_lines (y :: l) in (x :: ls, r)). by destruct (cut_lines (y :: l)). Qed.

Lemma lines_cons a s : lines (String a s) =
  if Ascii.eqb a break then (EmptyString :: (lines s).1, (lines s).2)
  else match lines s with ([], r) => ([], String a r) | (x :: ls, r) => (String a x :: ls, r) end.
Proof.
  unfold lines, break. cbn [Split]. destruct (Split_some (chr 10) s) as (x & l & E). rewrite E.
  destruct (Ascii.eqb a (chr 10)).
  - by rewrite cut_cons.
  - destruct l as [|y l]; [done|]. by rewrite !cut_cons.
Qed.

(** The lines of a text that goes on. *)
Lemma lines_app s t : lines (s +:+ t) = ((lines s).1 ++ (lines ((lines s).2 +:+ t)).1, (lines ((lines s).2 +:+ t)).2).
Proof.
  induction s as [|a s IH]; [change (lines EmptyString) with (@nil string, EmptyString); cbn [fst snd app]; rewrite !append_nil; by destruct (lines t)|]. rewrite append_cons, !lines_cons, IH.
  destruct (Ascii.eqb a break) eqn:Ea; [done|]. destruct (lines s) as [[|x ls] r]; cbn [fst snd app].
  - rewrite append_cons, lines_cons, Ea. destruct (lines (r +:+ t)) as [[|y l] r']; done.
  - done.
Qed.

Lemma lines_free s : free_of break s = true -> lines s = ([], s).
Proof. intros Hs. unfold lines. by rewrite (Split_free (chr 10)). Qed.

Lemma lines_rest s : lines (lines s).2 = ([], (lines s).2).
Proof.
  induction s as [|a s IH]; [done|]. rewrite lines_cons. destruct (Ascii.eqb a break) eqn:Ea; [done|].
  destruct (lines s) as [[|x ls] r] eqn:E; cbn [snd] in *; [|done]. by rewrite lines_cons, Ea, IH.
Qed.

Lemma lines_line x s : free_of break x = true -> lines (x +:+ newline +:+ s) = (x :: (lines s).1, (lines s).2).
Proof.
  intros Hx. unfold lines. change (newline +:+ s) with (String (chr 10) s). rewrite Split_app by exact Hx.
  destruct (Split_some (chr 10) s) as (y & l & ->). by rewrite cut_cons.
Qed.

(** What is scanned does not depend on how the text is cut into reads. *)
Definition text (reads : list (Z * string)) : string := foldr (fun x t => x.2 +:+ t) EmptyString reads.
Definition tokens (s : string) : list string := (lines s).1 ++ (if bool_decide ((lines s).2 = EmptyString) then [] else [(lines s).2]).

Lemma scan_text reads : forall carry waited extra, lines carry = ([], carry) ->
  (scan carry waited extra reads).*2 = tokens (carry +:+ text reads).
Proof.
  induction reads as [|[d s] reads IH]; intros carry waited extra Hc; cbn [scan text foldr snd].
  - rewrite string_app_nil_r. unfold tokens. rewrite Hc. cbn [fst snd app]. by case_bool_decide.
  - fold (text reads). rewrite <- string_app_assoc. unfold tokens. rewrite (lines_app (carry +:+ s)). pose proof (lines_rest (carry +:+ s)) as Hr.
    destruct (lines (carry +:+ s)) as [ls r]. cbn [fst snd] in *. rewrite <- app_assoc.
    change ((lines (r +:+ text reads)).1 ++ _) with (tokens (r +:+ text reads)).
    destruct ls as [|x ls]; [by rewrite IH|]. rewrite fmap_cons, fmap_app, IH by done. cbn. f_equal. f_equal.
    rewrite <- list_fmap_compose. by rewrite (list_fmap_ext _ id), list_fmap_id.
Qed.

(** The time the lines are waited for. *)
Definition total (l : list (Z * string)) : Z := foldr (fun x t => x.1 + t) 0 l.
Lemma total_app l l' : total (l ++ l') = total l + total l'.
Proof. induction l as [|x l IH]; [done|]. cbn. fold (total (l ++ l')). rewrite IH. cbn. fold (total l). lia. Qed.

Lemma scan_total reads : forall carry waited extra, 0 <= waited -> 0 <= extra -> Forall (fun x => 0 <= x.1) reads ->
  total (scan carry waited extra reads) <= waited + total reads + extra /\ Forall (fun x => 0 <= x.1) (scan carry waited extra reads).
Proof.
  induction reads as [|[d s] reads IH]; intros carry waited extra Hw He Hr; cbn [scan].
  - case_bool_decide; cbn; split; try lia; [constructor|by repeat constructor; cbn; lia].
  - apply Forall_cons in Hr as [Hd Hr]. cbn [fst] in Hd. destruct (lines (carry +:+ s)) as [[|x ls] r].
    + destruct (IH r (waited + d) extra ltac:(lia) He Hr). cbn. fold (total reads). split; [lia|done].
    + destruct (IH r 0 extra ltac:(lia) He Hr) as [IH1 IH2]. cbn. fold (total reads).
      assert (Hz : total (map (fun y => (0, y)) ls) = 0) by (clear; induction ls as [|y ls IH]; [done|exact IH]).
      fold (total (map (fun y => (0, y)) ls ++ scan r 0 extra reads)). rewrite total_app, Hz. split; [lia|].
      constructor; [cbn; lia|]. apply Forall_app. split; [|done]. clear. induction ls; constructor; [done|done].
Qed.

Lemma in_time_all reads : forall left, Forall (fun x => 0 <= x.1) reads -> total reads < left -> in_time left reads = (reads, None).
Proof.
  induction reads as [|[d s] reads IH]; intros left Hr Hl; [done|]. apply Forall_cons in Hr as [Hd Hr]. cbn in Hd, Hl. fold (total reads) in Hl.
  assert (Hp : 0 <= total reads) by (clear -Hr; induction Hr as [|x l Hx _ IH]; [done|cbn; fold (total l); lia]).
  cbn [in_time]. rewrite Z.max_r by done. rewrite (proj2 (Z.leb_gt _ _)) by lia. by rewrite IH by (done || lia).
Qed.

(** ** What the queue service writes, read by a visitor *)

(** A frame of [events], or a heartbeat. *)
Inductive item : Type := Frame (event : string) (v : json) | Heartbeat.
Definition item_lines (x : item) : list string :=
  match x with
  | Frame e v => ["event: " +:+ e; "data: " +:+ marshal v; EmptyString]%string
  | Heartbeat => [": hb"; EmptyString]%string
  end.
(** [fmt.Fprintf(w, "event: %s\ndata: %s\n\n", ...)]. *)
Definition item_text (x : item) : string :=
  match x with
  | Frame e v => "event: " +:+ e +:+ newline +:+ "data: " +:+ marshal v +:+ newline +:+ newline
  | Heartbeat => ": hb" +:+ newline +:+ newline
  end.
Definition stream_text (l : list item) : string := foldr (fun x t => item_text x +:+ t) EmptyString l.

Definition item_ok (x : item) : Prop :=
  match x with
  | Frame e v => string_forall printable e = true /\ plain_json v = true /\
      Z.of_nat (String.length e) + 7 < max_token /\ Z.of_nat (String.length (marshal v)) + 6 < max_token
  | Heartbeat => True
  end.

Lemma printable_free s : string_forall printable s = true -> free_of break s = true.
Proof.
  apply string_forall_impl. intros a. assert (H : forall a, negb (printable a) || negb (Ascii.eqb a break) = true)
    by (apply all_ascii; vm_compute; reflexivity). specialize (H a). by destruct (printable a).
Qed.

Lemma item_printable x : item_ok x -> Forall (fun s => string_forall printable s = true) (item_lines x).
Proof.
  destruct x as [e v|]; cbn; [|by repeat constructor]. intros (He & Hv & _).
  repeat constructor; [exact He|by apply marshal_printable].
Qed.

Lemma stream_lines l : Forall item_ok l -> lines (stream_text l) = (concat (map item_lines l), EmptyString).
Proof.
  induction 1 as [|x l Hx Hl IH]; [done|]. apply item_printable in Hx. cbn [stream_text foldr map concat]. fold (stream_text l).
  assert (Hcut : forall ls s, Forall (fun s => string_forall printable s = true) ls ->
    lines (foldr (fun y t => y +:+ newline +:+ t) s ls) = (ls ++ (lines s).1, (lines s).2)).
  { intros ls s. induction 1 as [|y ls Hy Hls IHl]; [cbn [foldr app]; by destruct (lines s)|]. cbn [foldr]. by rewrite lines_line, IHl by (by apply printable_free). }
  replace (item_text x +:+ stream_text l) with (foldr (fun y t => y +:+ newline +:+ t) (stream_text l) (item_lines x)).
  - by rewrite Hcut, IH.
  - destruct x; cbn [item_text item_lines foldr]; by rewrite ?append_nil, ?string_app_assoc.
Qed.

Lemma drop_cr_printable s : string_forall printable s = true -> drop_cr s = s.
Proof.
  intros Hs. unfold drop_cr. destruct (HasPrefix _ _) eqn:E; [|done]. exfalso. apply HasPrefix_inv in E as [r Hr].
  assert (Hsub : forall t n m, string_forall printable t = true -> string_forall printable (String.substring n m t) = true).
  { clear. induction t as [|a t IH]; intros [|n] [|m] Ht; try done; cbn in *; apply andb_true_iff in Ht as [Ha Ht]; [|by apply IH..].
    rewrite Ha. by apply IH. }
  specialize (Hsub s (String.length s - 1)%nat 1%nat Hs). rewrite Hr in Hsub. done.
Qed.

Section Heard.
Context {C : Type} {HB : Browser C} (dec_go : string -> string) (dec_pending : string -> Z) (limit : Z).

(** What the lines of a stream amount to. *)
Fixpoint heed (event : string) (ls : list string) : (string * bool) * list update :=
  match ls with
  | [] => ((EmptyString, true), [])
  | line :: ls =>
      match cut_prefix "event: " line with
      | Some e => heed e ls
      | None =>
          match cut_prefix "data: " line with
          | None => heed event ls
          | Some data =>
              if String.eqb event "admitted" then ((dec_go data, false), [])
              else if String.eqb event "status" then let '(r, l) := heed event ls in (r, SetPending (dec_pending data) :: l)
              else if String.eqb event "closed" then ((EmptyString, false), [Failure "sse" (Err "file fermée")])
              else heed event ls
          end
      end
  end.

Lemma read_lines_heed ls : forall event (w : vworld (C := C)),
  Forall (fun x => 0 <= x.1) ls -> v_now w + total ls < limit ->
  (read_lines dec_go dec_pending limit false event ls w).1 = heed event ls.*2.
Proof.
  induction ls as [|[d line] ls IH]; intros event w Hd Hl; cbn [read_lines].
  - unfold mbind, V_bind, mret, V_ret. cbn [expired]. rewrite (proj2 (Z.leb_gt _ _)); [done|]. cbn in Hl. lia.
  - apply Forall_cons in Hd as [Hd0 Hd]. cbn in Hd0, Hl. fold (total ls) in Hl.
    assert (Hp : 0 <= total ls) by (clear -Hd; induction Hd as [|x l Hx _ IH]; [done|cbn; fold (total l); lia]).
    set (w1 := (pass limit d w).2). assert (Hw : v_now w1 = v_now w + d) by (cbn; lia).
    unfold mbind at 1, V_bind at 1. change (pass limit d w) with ((tt, @nil update), w1). cbv iota beta. cbn [fmap list_fmap snd heed].
    change (ls.*2) with (snd <$> ls).
    assert (Hk : forall e, (read_lines dec_go dec_pending limit false e ls w1).1 = heed e (snd <$> ls)) by (intros e; apply IH; [done|lia]).
    assert (Hz : forall {A} (m : (A * list update) * vworld (C := C)), (let '((b, l'), w2) := m in ((b, [] ++ l'), w2)) = m)
      by (by intros A [[? ?] ?]).
    rewrite Hz. destruct (cut_prefix "event: " line); [apply Hk|]. destruct (cut_prefix "data: " line); [|apply Hk].
    destruct (String.eqb event "admitted"); [done|]. destruct (String.eqb event "status").
    + unfold mbind, V_bind. cbn [note]. specialize (Hk event). destruct (read_lines _ _ _ _ event ls w1) as [[x l] w2]. cbn [fst] in Hk.
      by rewrite <- Hk.
    + destruct (String.eqb event "closed"); [done|apply Hk].
Qed.

Definition frames (l : list item) : list (string * json) := omap (fun x => match x with Frame e v => Some (e, v) | Heartbeat => None end) l.

(** What the frames of a stream tell a visitor. *)
Fixpoint follow (l : list (string * json)) : (string * bool) * list update :=
  match l with
  | [] => ((EmptyString, true), [])
  | (e, v) :: l =>
      if String.eqb e "admitted" then ((dec_go (marshal v), false), [])
      else if String.eqb e "status" then let '(r, us) := follow l in (r, SetPending (dec_pending (marshal v)) :: us)
      else if String.eqb e "closed" then ((EmptyString, false), [Failure "sse" (Err "file fermée")])
      else follow l
  end.

Lemma heed_items l : forall event, heed event (concat (map item_lines l)) = follow (frames l).
Proof.
  induction l as [|[e v|] l IH]; intros event; [done| |].
  - cbn [map concat item_lines app heed frames omap list_omap follow]. rewrite cut_prefix_app.
    replace (cut_prefix "event: " ("data: " +:+ marshal v)) with (@None string) by done. rewrite cut_prefix_app. cbn [cut_prefix].
    destruct (String.eqb e "admitted"); [done|]. destruct (String.eqb e "status"); [by rewrite IH|].
    destruct (String.eqb e "closed"); [done|]. apply IH.
  - cbn [map concat item_lines app heed frames omap list_omap]. cbn [cut_prefix]. apply IH.
Qed.

Lemma fitting_ok ls : Forall (fun x => Z.of_nat (String.length x.2) < max_token /\ string_forall printable x.2 = true) ls -> fitting ls = (ls, true).
Proof.
  induction 1 as [|[d x] ls [Hx Hp] _ IH]; [done|]. cbn [fitting fst snd] in *. rewrite (proj2 (Z.leb_gt _ _) Hx), IH.
  by rewrite drop_cr_printable.
Qed.

Lemma item_short x : item_ok x -> Forall (fun s => Z.of_nat (String.length s) < max_token) (item_lines x).
Proof.
  destruct x as [e v|]; intros Hx; cbn [item_lines].
  - destruct Hx as (_ & _ & H1 & H2). repeat constructor; rewrite ?length_sapp; cbn [String.length]; unfold max_token in *; lia.
  - repeat constructor; cbn [String.length]; unfold max_token; lia.
Qed.

(** What a visitor hears on a stream is what the queue service said,
    however the stream is cut into reads: the address of the first admission, the
    closing of the queue, or that it must open the stream again; the number of
    people waiting is that of the last status. *)
Theorem readSSE_hears items reads (w : vworld (C := C)) :
  Forall item_ok items -> text reads = stream_text items -> Forall (fun x => 0 <= x.1) reads -> v_now w + total reads < limit ->
  (readSSE dec_go dec_pending limit reads w).1 = follow (frames items).
Proof.
  intros Hok Htext Hd Hl. unfold readSSE. unfold mbind, V_bind. cbn [now].
  rewrite in_time_all by (done || lia). cbn [default]. unfold Scanner.
  assert (Hscan : (scan EmptyString 0 0 reads).*2 = concat (map item_lines items)).
  { rewrite scan_text by done. rewrite append_nil, Htext. unfold tokens. rewrite stream_lines by done. cbn. by rewrite app_nil_r. }
  destruct (scan_total reads EmptyString 0 0 ltac:(lia) ltac:(lia) Hd) as [Htot Hpos].
  assert (Hfit : fitting (scan EmptyString 0 0 reads) = (scan EmptyString 0 0 reads, true)).
  { apply fitting_ok. apply Forall_forall. intros x Hx.
    assert (Hin : x.2 ∈ concat (map item_lines items)) by (rewrite <- Hscan; by apply list_elem_of_fmap_2).
    apply list_elem_of_In, in_concat in Hin as (ls & (y & <- & Hy)%in_map_iff & Hin). apply list_elem_of_In in Hy, Hin.
    apply (proj1 (Forall_forall _ _) Hok) in Hy. split.
    - by apply (proj1 (Forall_forall _ _) (item_short y Hy)).
    - by apply (proj1 (Forall_forall _ _) (item_printable y Hy)). }
  rewrite Hfit. cbn [id andb bool_decide]. 
  assert (Hread : (read_lines dec_go dec_pending limit false EmptyString (scan EmptyString 0 0 reads) w).1 = follow (frames items)).
  { rewrite read_lines_heed by (done || lia). rewrite Hscan. apply heed_items. }
  by destruct (read_lines _ _ _ _ _ _ w) as [[x l] w2].
Qed.
(** *** The queue service *)

(** The frames of [events] for the messages of its channel, up to the one that
    ends the stream. *)
Fixpoint told (id : ID) (tid : string) (ms : list Msg) : list (string * json) :=
  match ms with
  | [] => []
  | m :: ms => let '(f, stop) := events_message id tid m in f :: (if (stop : bool) then [] else told id tid ms)
  end.

Lemma follow_told id tid ms :
  Exists (fun m => m_Event m = "admitted"%string) ms -> Forall (fun m => m_Event m <> "closed"%string) ms ->
  (follow (told id tid ms)).1 = (dec_go (marshal (JObj [("go", JStr (goPath id tid)); ("ticket", JStr tid)]%string)), false).
Proof.
  induction ms as [|m ms IH]; [by intros ?%Exists_nil|]. intros Hex [Hc Hall]%Forall_cons. cbn [told]. unfold events_message.
  case_bool_decide as Hm; [done|]. apply Exists_cons in Hex as [?|Hex]; [done|]. cbn [follow].
  rewrite (proj2 (String.eqb_neq _ _) Hm), (proj2 (String.eqb_neq _ _) Hc). specialize (IH Hex Hall).
  destruct (String.eqb (m_Event m) "status"); [|exact IH]. by destruct (follow _) as [r l].
Qed.

(** Claim C16: a visitor hears of its admission: on a stream the queue service
    opens with a status, or nothing, and goes on with the messages of the hub and
    heartbeats, one message being the admission of the ticket and none the closing
    of the queue, [readSSE] gives the address the service gave, however the stream
    is cut into reads. *)
Theorem admission_heard id tid (opening : option Status) ms items reads (w : vworld (C := C)) :
  let said := JObj [("go", JStr (goPath id tid)); ("ticket", JStr tid)]%string in
  dec_go (marshal said) = goPath id tid ->
  Exists (fun m => m_Event m = "admitted"%string) ms -> Forall (fun m => m_Event m <> "closed"%string) ms ->
  frames items = match opening with Some st => [("status"%string, status_json st)] | None => [] end ++ told id tid ms ->
  Forall item_ok items -> text reads = stream_text items -> Forall (fun x => 0 <= x.1) reads -> v_now w + total reads < limit ->
  (readSSE dec_go dec_pending limit reads w).1.1 = (goPath id tid, false).
Proof.
  intros said Hgo Hex Hall Hf Hok Htext Hd Hl. rewrite (readSSE_hears items) by done. rewrite Hf.
  pose proof (follow_told id tid ms Hex Hall) as Ht. unfold said in Hgo. rewrite Hgo in Ht.
  destruct opening as [st|]; [|exact Ht]. cbn [app follow]. by destruct (follow _) as [r l].
Qed.
End Heard.

(** ** An example: servers that answer as written *)

Module LoadDemo.

#[export] Instance script : Browser (list response) := {|
  send := fun _ _ _ c => match c with [] => ((inl (Err "connection refused"), 1), []) | r :: c => ((inr r, second), c) end
|}.

Definition demo_id : ID := MkID "demo" "concert".
Definition demo_go : string -> string := fun _ => goPath demo_id "t_1".
Definition demo_ticket : string -> string * string * string := fun _ => ("t_1"%string, "waiting"%string, EmptyString).
Definition demo_status : string -> string * string := fun _ => ("waiting"%string, EmptyString).
Definition demo_items : list item :=
  [Frame "status" (status_json (MkStatus "queue" 3 2 9 4 0 (of_int 5))); Heartbeat; Frame "refresh" (JObj [("reason", JStr "state")]%string);
   Frame "admitted" (JObj [("go", JStr (goPath demo_id "t_1")); ("ticket", JStr "t_1")]%string)].
(** The stream in two reads, cut inside a line. *)
Definition demo_reads : list (Z * string) :=
  let t := stream_text demo_items in [(second, String.substring 0 30 t); (second, String.substring 30 (String.length t - 30) t)].
Definition demo_script : list response :=
  [MkResponse 200 EmptyString [(0, "{}"%string)]; MkResponse 200 EmptyString demo_reads;
   MkResponse 302 "https://demo.example/__flyc/go?p=x" []; MkResponse 302 "/" []; MkResponse 200 EmptyString []].
Definition demo_v : vworld := MkV 0 demo_script [].
Abbreviation demo_visitor := (visitor demo_ticket demo_go (fun _ => 9) demo_status (mret EmptyString) 301 (600 * second)
  "https://wait.example" "demo.example" "demo.concert" "/").

Lemma report_balances_witness :
  let ts := [(demo_visitor demo_v).1.2; (demo_visitor (MkV 0 [] [])).1.2] in
  let st := foldl apply no_stats (concat ts) in
  counts st finalOK = 1 /\ counts st ticketErr = 1 /\
  counts st started = Z.of_nat (length ts) /\
  counts st ticketOK + counts st ticketErr = counts st started /\
  counts st goOK + counts st goErr = counts st admitted /\
  counts st finalOK + counts st finalErr = counts st goOK /\
  counts st sseOpen = 0 /\
  0 <= counts st finalOK /\ counts st finalOK <= counts st admitted /\ counts st admitted <= counts st ticketOK /\
  Z.of_nat (length (ticketLat st)) = counts st ticketOK /\
  Z.of_nat (length (admitLat st)) = counts st admitted /\
  Z.of_nat (length (e2eLat st)) = counts st finalOK.
Proof.
  intros ts st. split; [vm_compute; reflexivity|]. split; [vm_compute; reflexivity|].
  apply (report_balances demo_ticket demo_go (fun _ => 9) demo_status ts (concat ts)); [|vm_compute; reflexivity|reflexivity].
  assert (Hs : leaves_aside (C := list response) (mret EmptyString)) by (intros w; apply aside_nil).
  repeat constructor; repeat eexists; try exact Hs; reflexivity.
Defined.

Lemma visitor_ends_witness :
  v_now (demo_visitor demo_v).2 = 7 * second /\
  demo_visitor demo_v = visitor demo_ticket demo_go (fun _ => 9) demo_status (mret "never"%string) 400 (600 * second)
    "https://wait.example" "demo.example" "demo.concert" "/" demo_v /\
  v_now (demo_visitor demo_v).2 <= 0 + 600 * second.
Proof.
  split; [vm_compute; reflexivity|].
  apply (visitor_ends demo_ticket demo_go (fun _ => 9) demo_status (mret EmptyString) (mret "never"%string) 301 400 (600 * second)
    "https://wait.example" "demo.example" "demo.concert" "/" demo_v); vm_compute; congruence.
Defined.

Lemma admission_heard_witness :
  (readSSE demo_go (fun _ => 9) (600 * second) demo_reads demo_v).1.1 = (goPath demo_id "t_1", false).
Proof.
  apply (admission_heard demo_go (fun _ => 9) (600 * second) demo_id "t_1" (Some (MkStatus "queue" 3 2 9 4 0 (of_int 5)))
    [refresh_msg "state"; admitted_msg "t_1"] demo_items demo_reads demo_v); [reflexivity|..].
  - apply Exists_cons; right. apply Exists_cons; left. reflexivity.
  - repeat constructor; discriminate.
  - reflexivity.
  - repeat constructor; vm_compute; congruence.
  - vm_compute. reflexivity.
  - repeat constructor; vm_compute; congruence.
  - vm_compute. reflexivity.
Defined.

End LoadDemo.
